(** * A shallow embedding of the event-driven-agent scheduler

    The development follows [event_engine.py] (schedule compiler, cron
    matcher, manifest loader, scheduler engine) and the administrative
    operations of [app.py] that act on a running engine.

    Conventions of the embedding.
    - Python [str] is [string]; the embedding covers ASCII text (code
      points below 128): bytes above 127 are neither whitespace, digits,
      letters nor word characters.
    - Python [int] is [Z].
    - Code that can raise returns [result]; the exception carries its
      Python class.  Only exceptions of class [Exception] are covered.
    - The [dict]s of the engine are [gmap]s, a [set] is a [gset]; a
      mapping loaded from YAML keeps its items in order.
    - [print] is left out, except for what [_dispatch] reports. *)

From Stdlib Require Import ZArith QArith Ascii String DecimalString DecimalPos.
From stdpp Require Import gmap strings list sorting.

Local Open Scope Z_scope.
Set Warnings "-register-all".

(** ** Exceptions and results *)

Inductive exn :=
| ValueError (msg : string)
| KeyError
| IndexError
| TypeError
| AttributeError
| FileNotFoundError
| IsADirectoryError
| RuntimeError (msg : string)
| YAMLError
| OtherError (msg : string).

Inductive result (A : Type) :=
| Ok (a : A)
| Raise (e : exn).
Arguments Ok {A} a.
Arguments Raise {A} e.

#[global] Instance result_ret : MRet result := @Ok.
#[global] Instance result_bind : MBind result := fun A B f x =>
  match x with
  | Ok a => f a
  | Raise e => Raise e
  end.

#[global] Instance result_fmap : FMap result := fun A B f x =>
  match x with
  | Ok a => Ok (f a)
  | Raise e => Raise e
  end.

Definition of_option {A} (e : exn) (o : option A) : result A :=
  match o with
  | Some a => Ok a
  | None => Raise e
  end.

Definition is_ok {A} (x : result A) : bool :=
  match x with Ok _ => true | Raise _ => false end.

(** ** Python string primitives *)

Module Py.

Definition code (c : ascii) : nat := nat_of_ascii c.

(** [str.isspace] on ASCII: TAB..CR, FS..US and the blank. *)
Definition is_space (c : ascii) : bool :=
  let n := code c in
  ((9 <=? n)%nat && (n <=? 13)%nat) || ((28 <=? n)%nat && (n <=? 32)%nat).

Definition is_digit (c : ascii) : bool :=
  let n := code c in (48 <=? n)%nat && (n <=? 57)%nat.

Definition is_upper (c : ascii) : bool :=
  let n := code c in (65 <=? n)%nat && (n <=? 90)%nat.

Definition is_lower (c : ascii) : bool :=
  let n := code c in (97 <=? n)%nat && (n <=? 122)%nat.

(** The word characters of [\w] / [\b]. *)
Definition is_word (c : ascii) : bool :=
  is_digit c || is_upper c || is_lower c || Ascii.eqb c "_".

Definition lower (c : ascii) : ascii :=
  if is_upper c then ascii_of_nat (code c + 32) else c.

Fixpoint lower_str (s : string) : string :=
  match s with
  | EmptyString => EmptyString
  | String c s' => String (lower c) (lower_str s')
  end.

Fixpoint lstrip (s : string) : string :=
  match s with
  | String c s' => if is_space c then lstrip s' else s
  | EmptyString => EmptyString
  end.

Fixpoint rstrip (s : string) : string :=
  match s with
  | EmptyString => EmptyString
  | String c s' =>
      match rstrip s' with
      | EmptyString => if is_space c then EmptyString else String c EmptyString
      | t => String c t
      end
  end.

(** [s.strip()] *)
Definition strip (s : string) : string := rstrip (lstrip s).

(** [s.rstrip(a)] for a one-character argument. *)
Fixpoint rstrip_char (a : ascii) (s : string) : string :=
  match s with
  | EmptyString => EmptyString
  | String c s' =>
      match rstrip_char a s' with
      | EmptyString => if Ascii.eqb c a then EmptyString else String c EmptyString
      | t => String c t
      end
  end.

Definition startswith (s p : string) : bool := String.prefix p s.

Definition endswith (s p : string) : bool :=
  (String.length p <=? String.length s)%nat
  && String.eqb (String.substring (String.length s - String.length p)
                   (String.length p) s) p.

(** Every character of [s] satisfies [q]. *)
Fixpoint all (q : ascii → bool) (s : string) : bool :=
  match s with
  | EmptyString => true
  | String c s' => q c && all q s'
  end.

(** [a in s] for a one-character [a]. *)
Fixpoint contains (a : ascii) (s : string) : bool :=
  match s with
  | EmptyString => false
  | String c s' => Ascii.eqb c a || contains a s'
  end.

(** [s.split(a, 1)] when [a in s]: the text before and after the first
    occurrence. *)
Fixpoint split_once (a : ascii) (s : string) : string * string :=
  match s with
  | EmptyString => (EmptyString, EmptyString)
  | String c s' =>
      if Ascii.eqb c a then (EmptyString, s')
      else let '(x, y) := split_once a s' in (String c x, y)
  end.

(** [s.split(a)] for a one-character separator: empty pieces are kept. *)
Fixpoint split_char (a : ascii) (s : string) : list string :=
  match s with
  | EmptyString => [EmptyString]
  | String c s' =>
      if Ascii.eqb c a then EmptyString :: split_char a s'
      else match split_char a s' with
           | x :: xs => String c x :: xs
           | [] => [String c EmptyString]
           end
  end.

(** [s.split()]: pieces between runs of whitespace, none empty. *)
Fixpoint split_ws (s : string) : list string :=
  match s with
  | EmptyString => []
  | String c s' =>
      if is_space c then split_ws s'
      else
        match s' with
        | EmptyString => [String c EmptyString]
        | String d _ =>
            if is_space d then String c EmptyString :: split_ws s'
            else match split_ws s' with
                 | w :: ws => String c w :: ws
                 | [] => [String c EmptyString]
                 end
        end
  end.

(** Line boundaries of [str.splitlines] on ASCII: LF, VT, FF, CR,
    FS, GS, RS; CR LF counts once. *)
Definition is_linebreak (c : ascii) : bool :=
  let n := code c in
  ((10 <=? n)%nat && (n <=? 13)%nat) || ((28 <=? n)%nat && (n <=? 30)%nat).

Fixpoint splitlines_go (cur : string) (s : string) : list string :=
  match s with
  | EmptyString =>
      match cur with
      | EmptyString => []
      | _ => [String.rev cur]
      end
  | String c s' =>
      if is_linebreak c then
        String.rev cur ::
          match s' with
          | String d s'' =>
              if Ascii.eqb c "013" && Ascii.eqb d "010"
              then splitlines_go EmptyString s''
              else splitlines_go EmptyString s'
          | EmptyString => []
          end
      else splitlines_go (String c cur) s'
  end.

Definition splitlines (s : string) : list string :=
  splitlines_go EmptyString s.

(** The first occurrence of a non-empty [pat] in [s]: the text before it
    and the text after it. *)
Fixpoint find_sub (pat s : string) : option (string * string) :=
  if String.prefix pat s
  then Some (EmptyString, String.substring (String.length pat) (String.length s) s)
  else match s with
       | EmptyString => None
       | String c s' =>
           match find_sub pat s' with
           | Some (x, y) => Some (String c x, y)
           | None => None
           end
       end.

(** [s.split(pat, maxsplit=n)] *)
Fixpoint split_str (pat : string) (n : nat) (s : string) : list string :=
  match n with
  | O => [s]
  | S n' =>
      match find_sub pat s with
      | Some (x, y) => x :: split_str pat n' y
      | None => [s]
      end
  end.

Fixpoint join (sep : string) (l : list string) : string :=
  match l with
  | [] => EmptyString
  | [x] => x
  | x :: l' => x +:+ sep +:+ join sep l'
  end.

(** *** Integers and text *)

(** Underscores of an integer literal: single, between digits. *)
Fixpoint drop_underscores (prev_digit : bool) (s : string) : option string :=
  match s with
  | EmptyString => if prev_digit then Some EmptyString else None
  | String c s' =>
      if Ascii.eqb c "_" then
        if prev_digit then
          match s' with
          | String d _ => if is_digit d then drop_underscores false s' else None
          | EmptyString => None
          end
        else None
      else if is_digit c then
        match drop_underscores true s' with
        | Some t => Some (String c t)
        | None => None
        end
      else None
  end.

Definition digit_value (c : ascii) : Z := Z.of_nat (code c - 48).

(** The number a run of decimal digits denotes, continuing [acc]. *)
Fixpoint decimal (acc : Z) (s : string) : Z :=
  match s with
  | EmptyString => acc
  | String c s' => decimal (acc * 10 + digit_value c) s'
  end.

Definition digits_value (s : string) : option Z :=
  decimal 0 <$> drop_underscores false s.

(** [int(s)]: surrounding whitespace, an optional sign, decimal digits.
    The interpreter's optional cap on the number of digits is not part
    of the embedding. *)
Definition int (s : string) : result Z :=
  of_option (ValueError "invalid literal for int()")
    match strip s with
    | String c t =>
        if Ascii.eqb c "-" then Z.opp <$> digits_value t
        else if Ascii.eqb c "+" then digits_value t
        else digits_value (String c t)
    | EmptyString => None
    end.

(** [str(n)] *)
Definition str_of_Z (n : Z) : string :=
  match n with
  | Z0 => "0"
  | Zpos p => NilEmpty.string_of_uint (N.to_uint (Npos p))
  | Zneg p => String "-" (NilEmpty.string_of_uint (N.to_uint (Npos p)))
  end.

(** [list(range(start, stop, step))]; a zero step is a [ValueError]. *)
Definition range3 (start stop step : Z) : result (list Z) :=
  if step =? 0 then Raise (ValueError "range() arg 3 must not be zero")
  else if 0 <? step then
    Ok ((fun i => start + i * step) <$> seqZ 0 ((stop - start + step - 1) `div` step))
  else
    Ok ((fun i => start + i * step) <$> seqZ 0 ((start - stop - step - 1) `div` (- step))).

Definition range (start stop : Z) : list Z := seqZ start (stop - start).

End Py.

(** ** Regular expressions

    The fragment of [re] the schedule compiler uses, with the backtracking
    order of the library: alternatives left to right, repetition greedy.
    Every pattern of the source is compiled with [re.IGNORECASE], so
    literal characters compare up to case. *)

Module Re.

Inductive regex :=
| Eps
| Chr (a : ascii)
| Cls (p : ascii → bool)
| Cat (r1 r2 : regex)
| Alt (r1 r2 : regex)
| Star (r : regex)
| Grp (n : nat) (r : regex)
| Eos
| Wordb.

Definition Plus (r : regex) : regex := Cat r (Star r).
Definition Opt (r : regex) : regex := Alt r Eps.

(** A literal word. *)
Fixpoint Lit (w : string) : regex :=
  match w with
  | EmptyString => Eps
  | String a w' => Cat (Chr a) (Lit w')
  end.

Fixpoint Seq (rs : list regex) : regex :=
  match rs with
  | [] => Eps
  | [r] => r
  | r :: rs' => Cat r (Seq rs')
  end.

Fixpoint Alts (rs : list regex) : regex :=
  match rs with
  | [] => Eps
  | [r] => r
  | r :: rs' => Alt r (Alts rs')
  end.

Definition space := Cls Py.is_space.
Definition digit := Cls Py.is_digit.

(** The text of each capture group that took part in the match. *)
Abbreviation caps := (gmap nat string).

(** The state of a match attempt: the character before the cursor (for
    [\b]), the text from the cursor on, the groups so far. *)
Definition cont (R : Type) := option ascii → string → caps → option R.

(** Greedy repetition of [body]: as many rounds as will still let the
    rest [k] succeed; a round that consumes nothing ends the attempt. *)
Fixpoint star_loop {R} (body : option ascii → string → caps → cont R → option R)
    (k : cont R) (fuel : nat) (p : option ascii) (s : string) (c : caps)
  : option R :=
  match fuel with
  | O => k p s c
  | S fuel' =>
      match body p s c (fun p' s' c' =>
               if (String.length s' <? String.length s)%nat
               then star_loop body k fuel' p' s' c' else None) with
      | Some x => Some x
      | None => k p s c
      end
  end.

Definition consumed (s s' : string) : string :=
  String.substring 0 (String.length s - String.length s') s.

Definition at_word (c : option ascii) : bool :=
  match c with Some x => Py.is_word x | None => false end.

Definition head (s : string) : option ascii :=
  match s with String x _ => Some x | EmptyString => None end.

(** Where [$] matches: at the end, or before a newline that ends the
    text. *)
Definition at_end (s : string) : bool :=
  match s with
  | EmptyString => true
  | String x EmptyString => Ascii.eqb x "010"
  | _ => false
  end.

Fixpoint run {R} (r : regex) : option ascii → string → caps → cont R → option R :=
  match r with
  | Eps => fun p s c k => k p s c
  | Chr a => fun p s c k =>
      match s with
      | String x s' =>
          if Ascii.eqb (Py.lower x) (Py.lower a) then k (Some x) s' c else None
      | EmptyString => None
      end
  | Cls q => fun p s c k =>
      match s with
      | String x s' => if q x then k (Some x) s' c else None
      | EmptyString => None
      end
  | Cat r1 r2 => fun p s c k =>
      run r1 p s c (fun p' s' c' => run r2 p' s' c' k)
  | Alt r1 r2 => fun p s c k =>
      match run r1 p s c k with
      | Some x => Some x
      | None => run r2 p s c k
      end
  | Star r' => fun p s c k =>
      star_loop (run r') k (String.length s) p s c
  | Grp n r' => fun p s c k =>
      run r' p s c (fun p' s' c' => k p' s' (<[n := consumed s s']> c'))
  | Eos => fun p s c k =>
      if at_end s then k p s c else None
  | Wordb => fun p s c k =>
      if xorb (at_word p) (at_word (head s)) then k p s c else None
  end.

(** *** What a pattern means

    The states a match attempt can reach through a pattern, without
    regard to the order of backtracking: [post r x y] when [r] can take
    the attempt from state [x] to state [y]. *)

Abbreviation mstate := (option ascii * string * caps)%type.

Fixpoint post (r : regex) (x y : mstate) : Prop :=
  match r with
  | Eps => y = x
  | Chr a =>
      ∃ ch, x.1.2 = String ch y.1.2 ∧ Py.lower ch = Py.lower a
            ∧ y.1.1 = Some ch ∧ y.2 = x.2
  | Cls q =>
      ∃ ch, x.1.2 = String ch y.1.2 ∧ q ch = true
            ∧ y.1.1 = Some ch ∧ y.2 = x.2
  | Cat r1 r2 => ∃ m, post r1 x m ∧ post r2 m y
  | Alt r1 r2 => post r1 x y ∨ post r2 x y
  | Star r' => rtc (post r') x y
  | Grp n r' =>
      ∃ c0, post r' x (y.1, c0) ∧ y.2 = <[n := consumed x.1.2 y.1.2]> c0
  | Eos => y = x ∧ at_end x.1.2 = true
  | Wordb => y = x ∧ xorb (at_word x.1.1) (at_word (head x.1.2)) = true
  end.

(** The character before the cursor once [u] has been read. *)
Fixpoint last_char (p : option ascii) (u : string) : option ascii :=
  match u with
  | EmptyString => p
  | String a u' => last_char (Some a) u'
  end.

(** Patterns without capture groups. *)
Fixpoint no_groups (r : regex) : bool :=
  match r with
  | Cat r1 r2 | Alt r1 r2 => no_groups r1 && no_groups r2
  | Star r' => no_groups r'
  | Grp _ _ => false
  | _ => true
  end.

(** [re.match(r, s, re.IGNORECASE)]: the groups, and the text left after
    the match. *)
Definition match_ (r : regex) (s : string) : option (caps * string) :=
  run r None s ∅ (fun _ s' c => Some (c, s')).

Definition match_at (r : regex) (p : option ascii) (s : string)
  : option (string * option ascii * string) :=
  run r p s ∅ (fun p' s' _ => Some (consumed s s', p', s')).

(** [re.sub(r, repl, s, flags=re.IGNORECASE)] for a pattern that matches
    no empty text and a replacement without group references. *)
Fixpoint sub_go (fuel : nat) (r : regex) (repl : string)
    (p : option ascii) (s : string) : string :=
  match fuel with
  | O => s
  | S fuel' =>
      match match_at r p s with
      | Some (String _ _, p', s') => repl +:+ sub_go fuel' r repl p' s'
      | _ =>
          match s with
          | String x s' => String x (sub_go fuel' r repl (Some x) s')
          | EmptyString => EmptyString
          end
      end
  end.

Definition sub (r : regex) (repl s : string) : string :=
  sub_go (S (String.length s)) r repl None s.

(** [re.findall(r, s, re.IGNORECASE)] for a pattern with one group
    spanning it that matches no empty text. *)
Fixpoint findall_go (fuel : nat) (r : regex)
    (p : option ascii) (s : string) : list string :=
  match fuel with
  | O => []
  | S fuel' =>
      match match_at r p s with
      | Some (String a w, p', s') => String a w :: findall_go fuel' r p' s'
      | _ =>
          match s with
          | String x s' => findall_go fuel' r (Some x) s'
          | EmptyString => []
          end
      end
  end.

Definition findall (r : regex) (s : string) : list string :=
  findall_go (S (String.length s)) r None s.

End Re.

(** ** The schedule compiler ([NLSchedule]) *)

Inductive Schedule :=
| Interval (seconds : Z)
| Cron (cron : string).

Module NLSchedule.
Import Re.

Definition _DOW : list (string * Z) :=
  [("sunday", 0); ("monday", 1); ("tuesday", 2); ("wednesday", 3);
   ("thursday", 4); ("friday", 5); ("saturday", 6)].

Definition lookup_str {A} (k : string) (d : list (string * A)) : result A :=
  of_option KeyError (snd <$> List.find (fun kv => String.eqb (fst kv) k) d).

Definition _to24 (h m : Z) (ampm : option string) : Z * Z :=
  match ampm with
  | Some (String _ _ as a) =>
      let a := Py.lower_str a in
      let h := if String.eqb a "pm" && negb (h =? 12) then h + 12 else h in
      let h := if String.eqb a "am" && (h =? 12) then 0 else h in
      (h, m)
  | _ => (h, m)
  end.

(** [m.group(n)] of a group the pattern always fills in. *)
Definition group (c : caps) (n : nat) : result string :=
  of_option TypeError (c !! n).

(** [int(m.group(n) or 0)] *)
Definition group_int_or_0 (c : caps) (n : nat) : result Z :=
  match c !! n with
  | Some (String _ _ as s) => Py.int s
  | _ => Ok 0
  end.

Definition dow_names : regex :=
  Alts [Lit "monday"; Lit "tuesday"; Lit "wednesday"; Lit "thursday";
        Lit "friday"; Lit "saturday"; Lit "sunday"].

(** [\s+at\s+(\d{1,2})(?::(\d{2}))?\s*(am|pm)?$], its groups numbered
    from [g]. *)
Definition at_time (g : nat) : regex :=
  Seq [Plus space; Lit "at"; Plus space;
       Grp g (Cat digit (Opt digit));
       Opt (Cat (Chr ":") (Grp (S g) (Cat digit digit)));
       Star space;
       Opt (Grp (S (S g)) (Alt (Lit "am") (Lit "pm")));
       Eos].

Definition re_midnight : regex := Seq [Wordb; Lit "midnight"; Wordb].
Definition re_noon : regex := Seq [Wordb; Lit "noon"; Wordb].

(** [seconds?|minutes?|hours?] *)
Definition re_units : regex :=
  Alts [Cat (Lit "second") (Opt (Chr "s"));
        Cat (Lit "minute") (Opt (Chr "s"));
        Cat (Lit "hour") (Opt (Chr "s"))].

(** [every\s+(\d+)\s+(seconds?|minutes?|hours?)] *)
Definition re_every_n : regex :=
  Seq [Lit "every"; Plus space; Grp 1 (Plus digit); Plus space;
       Grp 2 re_units].

(** [every\s+hour$] *)
Definition re_every_hour : regex :=
  Seq [Lit "every"; Plus space; Lit "hour"; Eos].

(** [every\s+(monday|...|sunday)] followed by the time. *)
Definition re_every_dow : regex :=
  Seq [Lit "every"; Plus space; Grp 1 dow_names; at_time 2].

(** [every\s+day] followed by the time. *)
Definition re_every_day : regex :=
  Seq [Lit "every"; Plus space; Lit "day"; at_time 1].

(** [every\s+], then group 1: a day name and any number of further day
    names, each after [\s*,?\s*(?:and\s+)?]; then the time. *)
Definition re_every_dows : regex :=
  Seq [Lit "every"; Plus space;
       Grp 1 (Cat dow_names
                (Star (Seq [Star space; Opt (Chr ","); Star space;
                            Opt (Cat (Lit "and") (Plus space));
                            dow_names])));
       at_time 2].

(** [(?:on\s+the\s+)?first\s+day\s+of\s+(?:every\s+)?month] followed by
    the time. *)
Definition re_first_day : regex :=
  Seq [Opt (Seq [Lit "on"; Plus space; Lit "the"; Plus space]);
       Lit "first"; Plus space; Lit "day"; Plus space; Lit "of"; Plus space;
       Opt (Cat (Lit "every") (Plus space));
       Lit "month"; at_time 1].

Definition unit_seconds : list (string * Z) :=
  [("second", 1); ("minute", 60); ("hour", 3600)].

(** The text after [strip] and the two synonym substitutions. *)
Definition normalise (text : string) : string :=
  let text := Py.strip text in
  let text := sub re_midnight "12 AM" text in
  sub re_noon "12 PM" text.

Definition time_of (c : caps) (g : nat) : result (Z * Z) :=
  s ← group c g;
  h ← Py.int s;
  mn ← group_int_or_0 c (S g);
  Ok (_to24 h mn (c !! S (S g))).

Definition cron_text (mn h : Z) (dom dow : string) : string :=
  Py.str_of_Z mn +:+ " " +:+ Py.str_of_Z h +:+ " " +:+ dom +:+ " * " +:+ dow.

Definition parse (text : string) : result Schedule :=
  let text := normalise text in
  match match_ re_every_n text with
  | Some (c, _) =>
      g1 ← group c 1;
      n ← Py.int g1;
      g2 ← group c 2;
      let unit := Py.rstrip_char "s" (Py.lower_str g2) in
      u ← lookup_str unit unit_seconds;
      Ok (Interval (n * u))
  | None =>
  match match_ re_every_hour text with
  | Some _ => Ok (Interval 3600)
  | None =>
  match match_ re_every_dow text with
  | Some (c, _) =>
      g1 ← group c 1;
      dow ← lookup_str (Py.lower_str g1) _DOW;
      '(h, mn) ← time_of c 2;
      Ok (Cron (cron_text mn h "*" (Py.str_of_Z dow)))
  | None =>
  match match_ re_every_day text with
  | Some (c, _) =>
      '(h, mn) ← time_of c 1;
      Ok (Cron (cron_text mn h "*" "*"))
  | None =>
  match match_ re_every_dows text with
  | Some (c, _) =>
      g1 ← group c 1;
      let days := findall dow_names g1 in
      dows ← mapM (fun d => Py.str_of_Z <$> lookup_str (Py.lower_str d) _DOW) days;
      '(h, mn) ← time_of c 2;
      Ok (Cron (cron_text mn h "*" (Py.join "," dows)))
  | None =>
  match match_ re_first_day text with
  | Some (c, _) =>
      '(h, mn) ← time_of c 1;
      Ok (Cron (cron_text mn h "1" "*"))
  | None =>
      Raise (ValueError ("Cannot parse schedule: '" +:+ text +:+ "'"))
  end end end end end end.

End NLSchedule.

(** ** Timestamps ([datetime], UTC) *)

Module DateTime.

Record datetime := {
  year : Z; month : Z; day : Z;
  hour : Z; minute : Z; second : Z; microsecond : Z
}.

Definition _is_leap (y : Z) : bool :=
  (y mod 4 =? 0) && (negb (y mod 100 =? 0) || (y mod 400 =? 0)).

Definition _days_before_year (y : Z) : Z :=
  let y := y - 1 in y * 365 + y / 4 - y / 100 + y / 400.

Definition _DAYS_BEFORE_MONTH : list Z :=
  [0; 31; 59; 90; 120; 151; 181; 212; 243; 273; 304; 334].

Definition _days_before_month (y m : Z) : Z :=
  default 0 (_DAYS_BEFORE_MONTH !! Z.to_nat (m - 1))
  + (if (2 <? m) && _is_leap y then 1 else 0).

Definition _days_in_month (y m : Z) : Z :=
  if (m =? 2) && _is_leap y then 29
  else default 0 ([31; 28; 31; 30; 31; 30; 31; 31; 30; 31; 30; 31] !! Z.to_nat (m - 1)).

Definition toordinal (dt : datetime) : Z :=
  _days_before_year (year dt) + _days_before_month (year dt) (month dt) + day dt.

(** [dt.weekday()]: Monday is 0, Sunday is 6. *)
Definition weekday (dt : datetime) : Z := (toordinal dt + 6) mod 7.

(** The fields a [datetime] can hold. *)
Definition valid (dt : datetime) : bool :=
  (1 <=? year dt) && (year dt <=? 9999) &&
  (1 <=? month dt) && (month dt <=? 12) &&
  (1 <=? day dt) && (day dt <=? _days_in_month (year dt) (month dt)) &&
  (0 <=? hour dt) && (hour dt <=? 23) &&
  (0 <=? minute dt) && (minute dt <=? 59) &&
  (0 <=? second dt) && (second dt <=? 59) &&
  (0 <=? microsecond dt) && (microsecond dt <=? 999999).

(** Microseconds since the start of day 0 of the proleptic calendar. *)
Definition to_micros (dt : datetime) : Z :=
  ((toordinal dt * 86400 + hour dt * 3600 + minute dt * 60 + second dt) * 1000000)
  + microsecond dt.

(** [(a - b).total_seconds()].  Python divides the microsecond count by
    [10**6] into a binary64 float; the embedding keeps the exact
    quotient, which orders against integers the same way for spans
    below [2**34] seconds. *)
Definition total_seconds_between (a b : datetime) : Q :=
  Qmake (to_micros a - to_micros b) 1000000.

Fixpoint zfill_go (n : nat) (s : string) : string :=
  match n with
  | O => s
  | S n' => String "0" (zfill_go n' s)
  end.

Definition zfill (w : nat) (s : string) : string :=
  zfill_go (w - String.length s) s.

(** [dt.strftime("%Y%m%d%H%M")], the year zero-padded to four digits. *)
Definition minute_key (dt : datetime) : string :=
  zfill 4 (Py.str_of_Z (year dt)) +:+ zfill 2 (Py.str_of_Z (month dt))
  +:+ zfill 2 (Py.str_of_Z (day dt)) +:+ zfill 2 (Py.str_of_Z (hour dt))
  +:+ zfill 2 (Py.str_of_Z (minute dt)).

End DateTime.

Import DateTime.

(** ** The cron matcher *)

Definition index {A} (l : list A) (i : nat) : result A :=
  of_option IndexError (l !! i).

(** One comma-separated part of a field. *)
Definition _parse_cron_part (part : string) (lo hi : Z) : result (gset Z) :=
  if Py.contains "/" part then
    let '(base, step) := Py.split_once "/" part in
    start ← (if String.eqb base "*" then Ok lo else Py.int base);
    st ← Py.int step;
    l ← Py.range3 start (hi + 1) st;
    Ok (list_to_set l)
  else if Py.contains "-" part then
    let '(a, b) := Py.split_once "-" part in
    a ← Py.int a;
    b ← Py.int b;
    Ok (list_to_set (Py.range a (b + 1)))
  else if String.eqb part "*" then
    Ok (list_to_set (Py.range lo (hi + 1)))
  else
    n ← Py.int part;
    Ok {[ n ]}.

Fixpoint _parse_cron_parts (parts : list string) (lo hi : Z) (out : gset Z)
  : result (gset Z) :=
  match parts with
  | [] => Ok out
  | part :: parts' =>
      s ← _parse_cron_part part lo hi;
      _parse_cron_parts parts' lo hi (out ∪ s)
  end.

Definition _parse_cron_field (s : string) (lo hi : Z) : result (gset Z) :=
  _parse_cron_parts (Py.split_char "," s) lo hi ∅.

Definition _cron_matches (cron : string) (dt : datetime) : result bool :=
  let fields := Py.split_ws (Py.strip cron) in
  mins ← (f ← index fields 0; _parse_cron_field f 0 59);
  hrs ← (f ← index fields 1; _parse_cron_field f 0 23);
  doms ← (f ← index fields 2; _parse_cron_field f 1 31);
  months ← (f ← index fields 3; _parse_cron_field f 1 12);
  dows ← (f ← index fields 4; _parse_cron_field f 0 6);
  let cron_dow := (weekday dt + 1) mod 7 in
  Ok (bool_decide (minute dt ∈ mins) && bool_decide (hour dt ∈ hrs)
      && bool_decide (day dt ∈ doms) && bool_decide (month dt ∈ months)
      && bool_decide (cron_dow ∈ dows)).

(** ** Manifest data

    What [yaml.safe_load] returns for a manifest header: null, booleans,
    integers, strings, sequences and mappings with string keys (in
    insertion order). *)

Inductive yaml :=
| YNull
| YBool (b : bool)
| YInt (n : Z)
| YStr (s : string)
| YList (l : list yaml)
| YDict (d : list (string * yaml)).

Module Yaml.

(** Truth value of a Python object. *)
Definition truthy (v : yaml) : bool :=
  match v with
  | YNull => false
  | YBool b => b
  | YInt n => negb (n =? 0)
  | YStr s => negb (String.eqb s "")
  | YList l => match l with [] => false | _ => true end
  | YDict d => match d with [] => false | _ => true end
  end.

(** [v == s] for a string [s]. *)
Definition eq_str (v : yaml) (s : string) : bool :=
  match v with
  | YStr t => String.eqb t s
  | _ => false
  end.

(** [d.get(k)] / [d[k]] on the items of a mapping. *)
Definition get (k : string) (d : list (string * yaml)) : option yaml :=
  snd <$> List.find (fun kv => String.eqb (fst kv) k) d.

Definition has (k : string) (d : list (string * yaml)) : bool :=
  bool_decide (is_Some (get k d)).

(** [d[k] = v]: replaces the value of an existing key in place, appends
    a new key. *)
Fixpoint set (k : string) (v : yaml) (d : list (string * yaml))
  : list (string * yaml) :=
  match d with
  | [] => [(k, v)]
  | (k', v') :: d' =>
      if String.eqb k' k then (k, v) :: d' else (k', v') :: set k v d'
  end.

Definition hex_digit (n : nat) : ascii :=
  if (n <? 10)%nat then ascii_of_nat (48 + n) else ascii_of_nat (87 + n).

Definition repr_char (q : ascii) (c : ascii) : string :=
  if Ascii.eqb c "\" then "\\"
  else if Ascii.eqb c q then String "\" (String q "")
  else if Ascii.eqb c "010" then "\n"
  else if Ascii.eqb c "013" then "\r"
  else if Ascii.eqb c "009" then "\t"
  else if (Py.code c <? 32)%nat || (Py.code c =? 127)%nat then
    String "\" (String "x" (String (hex_digit (Py.code c / 16))
                               (String (hex_digit (Py.code c mod 16)) "")))
  else String c "".

Fixpoint repr_chars (q : ascii) (s : string) : string :=
  match s with
  | EmptyString => EmptyString
  | String c s' => repr_char q c +:+ repr_chars q s'
  end.

(** The double quote. *)
Definition dquote : ascii := "034".

(** [repr(s)] of a string: single quotes unless the text has a single
    quote and no double quote. *)
Definition repr_str (s : string) : string :=
  let q : ascii :=
    if Py.contains "'" s && negb (Py.contains dquote s) then dquote else "'"%char in
  String q (repr_chars q s) +:+ String q "".

Fixpoint repr (v : yaml) : string :=
  match v with
  | YNull => "None"
  | YBool true => "True"
  | YBool false => "False"
  | YInt n => Py.str_of_Z n
  | YStr s => repr_str s
  | YList l => "[" +:+ Py.join ", " (List.map repr l) +:+ "]"
  | YDict d =>
      "{" +:+ Py.join ", "
                (List.map (fun kv => repr_str (fst kv) +:+ ": " +:+ repr (snd kv)) d)
      +:+ "}"
  end.

(** [str(v)] *)
Definition str (v : yaml) : string :=
  match v with
  | YStr s => s
  | _ => repr v
  end.

End Yaml.

(** ** The file system

    A tree of directories and text files without symbolic links, so that
    [Path.resolve] is the lexical normal form.  Paths are absolute: the
    components below the root. *)

Inductive node :=
| File (content : string)
| Dir (entries : list (string * node)).

Module Fs.

Abbreviation path := (list string).

Definition child (name : string) (es : list (string * node)) : option node :=
  snd <$> List.find (fun e => String.eqb (fst e) name) es.

Fixpoint lookup (n : node) (p : path) : option node :=
  match p with
  | [] => Some n
  | c :: p' =>
      match n with
      | Dir es =>
          match child c es with
          | Some n' => lookup n' p'
          | None => None
          end
      | File _ => None
      end
  end.

(** [p.exists()] *)
Definition exists_ (fs : node) (p : path) : bool :=
  bool_decide (is_Some (lookup fs p)).

(** [p.is_dir()] *)
Definition is_dir (fs : node) (p : path) : bool :=
  match lookup fs p with
  | Some (Dir _) => true
  | _ => false
  end.

(** [p.read_text(encoding="utf-8")] *)
Definition read_text (fs : node) (p : path) : result string :=
  match lookup fs p with
  | Some (File s) => Ok s
  | Some (Dir _) => Raise IsADirectoryError
  | None => Raise FileNotFoundError
  end.

(** The components [pathlib] keeps of a relative or absolute path text:
    empty components and [.] are dropped, [..] stays. *)
Definition components (s : string) : list string :=
  List.filter (fun c => negb (String.eqb c "") && negb (String.eqb c "."))
    (Py.split_char "/" s).

(** [dir / s]: an absolute [s] replaces [dir]. *)
Definition join (dir : path) (s : string) : path :=
  if Py.startswith s "/" then components s else dir ++ components s.

Fixpoint resolve_go (acc : list string) (p : path) : path :=
  match p with
  | [] => List.rev acc
  | c :: p' =>
      if String.eqb c ".." then resolve_go (List.tl acc) p'
      else resolve_go (c :: acc) p'
  end.

(** [p.resolve()] *)
Definition resolve (p : path) : path := resolve_go [] p.

(** [str(p)] *)
Definition str (p : path) : string :=
  match p with
  | [] => "/"
  | _ => String.concat "" (List.map (fun c => "/" +:+ c) p)
  end.

(** [p.name] *)
Definition name (p : path) : string := List.last p "".

(** [sorted(p.iterdir())]: the entries of a directory ordered by name. *)
Definition iterdir_sorted (fs : node) (p : path) : list (string * node) :=
  match lookup fs p with
  | Some (Dir es) => merge_sort (fun a b => String.le (fst a) (fst b)) es
  | _ => []
  end.

(** How the operating system walks an unresolved path: every component
    on the way has to exist, [..] steps to the parent of a directory.
    Gives the canonical path and the node reached. *)
Fixpoint walk (up : list (string * node)) (cur : node) (p : path)
  : option (path * node) :=
  match p with
  | [] => Some (List.rev (fst <$> up), cur)
  | c :: p' =>
      match cur with
      | Dir es =>
          if String.eqb c ".." then
            match up with
            | [] => walk [] cur p'
            | (_, parent) :: up' => walk up' parent p'
            end
          else
            match child c es with
            | Some n' => walk ((c, cur) :: up) n' p'
            | None => None
            end
      | File _ => None
      end
  end.

Definition realpath (fs : node) (p : path) : option (path * node) :=
  walk [] fs p.

(** Removes the entry at [p] from the tree. *)
Fixpoint remove (n : node) (p : path) : node :=
  match p, n with
  | [], _ => n
  | [c], Dir es =>
      Dir (List.filter (fun e => negb (String.eqb (fst e) c)) es)
  | c :: p', Dir es =>
      Dir (List.map (fun e => if String.eqb (fst e) c
                              then (fst e, remove (snd e) p') else e) es)
  | _, File _ => n
  end.

End Fs.

(** ** Event definitions and the manifest loader *)

Record EventDef := {
  name : string;
  description : yaml;
  event_type : yaml;
  schedule_raw : yaml;
  schedule : option Schedule;
  action : yaml;
  event_dir : Fs.path;
  active : yaml;
  resolved_params : list (string * yaml)
}.

(** The recipients-style post-processing of a [.txt] file. *)
Definition address_lines (raw : string) : list string :=
  Py.strip <$>
    List.filter
      (fun l => negb (String.eqb (Py.strip l) "")
                && negb (Py.startswith (Py.strip l) "#"))
      (Py.splitlines raw).

Definition _resolve_value (fs : node) (value : yaml) (event_dir : Fs.path)
  : result yaml :=
  match value with
  | YStr v =>
      let candidate := Fs.resolve (Fs.join event_dir v) in
      if Fs.exists_ fs candidate
         && Py.startswith (Fs.str candidate) (Fs.str (Fs.resolve event_dir))
      then
        raw ← Fs.read_text fs candidate;
        if Py.endswith v ".txt"
        then Ok (YList (YStr <$> address_lines raw))
        else Ok (YStr (Py.strip raw))
      else Ok value
  | _ => Ok value
  end.

(** [k in data] for the header value [data]. *)
Definition py_in (k : string) (data : yaml) : result bool :=
  match data with
  | YDict d => Ok (Yaml.has k d)
  | YList l => Ok (existsb (fun v => Yaml.eq_str v k) l)
  | YStr s => Ok (bool_decide (is_Some (Py.find_sub k s)))
  | _ => Raise TypeError
  end.

Section Loader.

(** [yaml.safe_load], the PyYAML entry point. *)
Variable yaml_safe_load : string → result yaml.

(** [parse_event_md], the schedule compiler it calls made explicit. *)
Definition parse_event_md_with (compile : string → result Schedule)
    (fs : node) (event_dir : Fs.path) : result EventDef :=
  let event_md := Fs.join event_dir "EVENT.md" in
  if negb (Fs.exists_ fs event_md) then Raise FileNotFoundError else
  raw_text ← Fs.read_text fs event_md;
  if negb (Py.startswith raw_text "---")
  then Raise (ValueError "EVENT.md must start with --- frontmatter") else
  let parts := Py.split_str "---" 2 raw_text in
  if (length parts <? 3)%nat
  then Raise (ValueError "EVENT.md frontmatter not closed with ---") else
  header ← index parts 1;
  loaded ← yaml_safe_load header;
  let data := if Yaml.truthy loaded then loaded else YDict [] in
  has_type ← py_in "type" data;
  if negb has_type
  then Raise (ValueError "EVENT.md missing required field: type") else
  has_action ← py_in "action" data;
  has_script ← (if has_action then Ok false else py_in "script" data);
  if negb has_action && negb has_script
  then Raise (ValueError "EVENT.md must have 'action' or 'script'") else
  match data with
  | YDict d =>
      d ← (if negb has_action
           then script ← of_option KeyError (Yaml.get "script" d);
                Ok (Yaml.set "action" (YDict [("script", script)]) d)
           else Ok d);
      let schedule_raw := default YNull (Yaml.get "schedule" d) in
      type ← of_option KeyError (Yaml.get "type" d);
      schedule ←
        (if Yaml.truthy schedule_raw && Yaml.eq_str type "scheduled"
         then Some <$> compile (Yaml.str schedule_raw)
         else Ok None);
      act ← of_option KeyError (Yaml.get "action" d);
      raw_params ←
        match act with
        | YDict a =>
            match default (YDict []) (Yaml.get "params" a) with
            | YDict ps => Ok ps
            | _ => Raise AttributeError
            end
        | _ => Raise AttributeError
        end;
      resolved ←
        mapM (fun kv => v ← _resolve_value fs (snd kv) event_dir; Ok (fst kv, v))
             raw_params;
      Ok {| name := Fs.name event_dir;
            description := default (YStr "") (Yaml.get "description" d);
            event_type := type;
            schedule_raw := schedule_raw;
            schedule := schedule;
            action := act;
            event_dir := event_dir;
            active := default (YBool false) (Yaml.get "active" d);
            resolved_params := resolved |}
  | YList _ | YStr _ =>
      (* [data["script"]] or [data.get] on a sequence or a string *)
      if negb has_action then Raise TypeError else Raise AttributeError
  | _ => Raise TypeError
  end.

Definition parse_event_md : node → Fs.path → result EventDef :=
  parse_event_md_with NLSchedule.parse.

End Loader.

(** ** The scheduler engine *)

(** What importing the script file of an action gives: the import itself
    may raise; the module may lack [handle]; [handle] returns or raises. *)
Inductive script_module :=
| ImportRaises (e : exn)
| NoHandle
| Handle (h : list (string * yaml) → result yaml).

(** The collaborators of the engine: the file system, the tools registered
    with the MCP client (each returns or raises), and the outcome of
    importing the script at a path. *)
Record World := {
  fs : node;
  _tools : gmap string (list (string * yaml) → result yaml);
  load_script : Fs.path → script_module
}.

Record Engine := {
  events_root : Fs.path;
  events : list EventDef;
  _last_fired : gmap string datetime;
  _cron_fired_this_minute : gmap string bool;
  _running : bool
}.

(** What [_dispatch] prints about the outcome of an action. *)
Inductive report :=
| ToolResult (r : yaml)
| McpError (e : exn)
| ScriptNotFound
| ScriptResult (r : yaml)
| NoHandleFunction
| NoActionDefined.

Definition set_events (evs : list EventDef) (st : Engine) : Engine :=
  {| events_root := events_root st; events := evs;
     _last_fired := _last_fired st;
     _cron_fired_this_minute := _cron_fired_this_minute st;
     _running := _running st |}.

Definition set_last_fired (m : gmap string datetime) (st : Engine) : Engine :=
  {| events_root := events_root st; events := events st;
     _last_fired := m;
     _cron_fired_this_minute := _cron_fired_this_minute st;
     _running := _running st |}.

Definition set_cron_fired (m : gmap string bool) (st : Engine) : Engine :=
  {| events_root := events_root st; events := events st;
     _last_fired := _last_fired st;
     _cron_fired_this_minute := m;
     _running := _running st |}.

Definition set_running (b : bool) (st : Engine) : Engine :=
  {| events_root := events_root st; events := events st;
     _last_fired := _last_fired st;
     _cron_fired_this_minute := _cron_fired_this_minute st;
     _running := b |}.

Definition set_active (b : yaml) (ev : EventDef) : EventDef :=
  {| name := name ev; description := description ev;
     event_type := event_type ev; schedule_raw := schedule_raw ev;
     schedule := schedule ev; action := action ev;
     event_dir := event_dir ev; active := b;
     resolved_params := resolved_params ev |}.

(** [AEPEventEngine(events_root, mcp)] *)
Definition new_engine (root : Fs.path) : Engine :=
  {| events_root := root; events := []; _last_fired := ∅;
     _cron_fired_this_minute := ∅; _running := false |}.

(** [MCPClient.call_tool] *)
Definition call_tool (w : World) (tool_name : yaml) (params : list (string * yaml))
  : result yaml :=
  match tool_name with
  | YList _ | YDict _ => Raise TypeError
  | YStr n =>
      match _tools w !! n with
      | Some fn => fn params
      | None => Raise (RuntimeError "MCP tool not found")
      end
  | _ => Raise (RuntimeError "MCP tool not found")
  end.

Section Engine.

Variable yaml_safe_load : string → result yaml.

(** The loop of [load] over the sorted candidates. *)
Fixpoint load_candidates (fs : node) (root : Fs.path)
    (cands : list (string * node)) (evs : list EventDef) : list EventDef :=
  match cands with
  | [] => evs
  | (n, _) :: cands' =>
      let candidate := root ++ [n] in
      if negb (Fs.is_dir fs candidate) then load_candidates fs root cands' evs
      else if negb (Fs.exists_ fs (Fs.join candidate "EVENT.md"))
      then load_candidates fs root cands' evs
      else
        match parse_event_md yaml_safe_load fs candidate with
        | Ok ev => load_candidates fs root cands' (evs ++ [ev])
        | Raise _ => load_candidates fs root cands' evs
        end
  end.

Definition load (fs : node) (st : Engine) : result Engine :=
  if negb (Fs.is_dir fs (events_root st)) then Raise FileNotFoundError
  else Ok (set_events
             (load_candidates fs (events_root st)
                (Fs.iterdir_sorted fs (events_root st)) (events st)) st).

End Engine.

Definition _dispatch (w : World) (ev : EventDef) : result (list report) :=
  has_mcp ← py_in "mcp" (action ev);
  if (has_mcp : bool) then
    match action ev with
    | YDict a =>
        tool_name ← of_option KeyError (Yaml.get "mcp" a);
        let params := Yaml.set "_event_name" (YStr (name ev)) (resolved_params ev) in
        match call_tool w tool_name params with
        | Ok r => Ok [ToolResult r]
        | Raise e => Ok [McpError e]
        end
    | _ => Raise TypeError
    end
  else
    has_script ← py_in "script" (action ev);
    if (has_script : bool) then
      match action ev with
      | YDict a =>
          script ← of_option KeyError (Yaml.get "script" a);
          match script with
          | YStr s =>
              let script_path := Fs.resolve (Fs.join (event_dir ev) s) in
              if negb (Fs.exists_ (fs w) script_path) then Ok [ScriptNotFound]
              else
                match load_script w script_path with
                | ImportRaises e => Raise e
                | NoHandle => Ok [NoHandleFunction]
                | Handle h =>
                    r ← h (resolved_params ev);
                    Ok [ScriptResult r]
                end
          | _ => Raise TypeError
          end
      | _ => Raise TypeError
      end
    else Ok [NoActionDefined].

Definition cache_key (ev : EventDef) (now : datetime) : string :=
  name ev +:+ ":" +:+ minute_key now.

Definition _is_due (st : Engine) (ev : EventDef) (now : datetime)
  : result (bool * Engine) :=
  if negb (Yaml.eq_str (event_type ev) "scheduled") then Ok (false, st) else
  match schedule ev with
  | None => Ok (false, st)
  | Some (Interval seconds) =>
      match _last_fired st !! name ev with
      | None => Ok (true, st)
      | Some last =>
          Ok (Qle_bool (inject_Z seconds) (total_seconds_between now last), st)
      end
  | Some (Cron cron) =>
      if default false (_cron_fired_this_minute st !! cache_key ev now)
      then Ok (false, st)
      else
        hit ← _cron_matches cron now;
        if (hit : bool)
        then Ok (true, set_cron_fired
                         (<[cache_key ev now := true]> (_cron_fired_this_minute st)) st)
        else Ok (false, st)
  end.

(** [self._last_fired[ev.name] = now] *)
Definition record_firing (ev : EventDef) (now : datetime) (st : Engine) : Engine :=
  set_last_fired (<[name ev := now]> (_last_fired st)) st.

(** How far a tick or the loop got: the engine state, what was reported,
    and the exception that ended it, if any. *)
Record outcome := {
  state : Engine;
  reports : list (string * report);
  raised : option exn
}.

(** The body of [_tick]: the events in registry order. *)
Fixpoint _tick_events (w : World) (now : datetime) (evs : list EventDef)
    (st : Engine) (out : list (string * report)) : outcome :=
  match evs with
  | [] => {| state := st; reports := out; raised := None |}
  | ev :: evs' =>
      if Yaml.truthy (active ev) then
        match _is_due st ev now with
        | Raise e => {| state := st; reports := out; raised := Some e |}
        | Ok (false, st') => _tick_events w now evs' st' out
        | Ok (true, st') =>
            let st'' := record_firing ev now st' in
            match _dispatch w ev with
            | Ok rs => _tick_events w now evs' st'' (out ++ ((fun r => (name ev, r)) <$> rs))
            | Raise e => {| state := st''; reports := out; raised := Some e |}
            end
        end
      else _tick_events w now evs' st out
  end.

Definition _tick (w : World) (now : datetime) (st : Engine)
    (out : list (string * report)) : outcome :=
  _tick_events w now (events st) st out.

(** The loop of [run]: one tick per clock reading; the readings end where
    the loop is left through [stop] or the duration cap. *)
Fixpoint run_loop (w : World) (clock : list datetime) (st : Engine)
    (out : list (string * report)) : outcome :=
  match clock with
  | [] => {| state := st; reports := out; raised := None |}
  | now :: clock' =>
      if negb (_running st) then {| state := st; reports := out; raised := None |}
      else
        let o := _tick w now st out in
        match raised o with
        | Some _ => o
        | None => run_loop w clock' (state o) (reports o)
        end
  end.

Definition run (w : World) (clock : list datetime) (st : Engine) : outcome :=
  run_loop w clock (set_running true st) [].

Definition stop (st : Engine) : Engine := set_running false st.

(** ** Administrative operations ([app.py]) *)

Module App.

(** [delete_event]: the engine and the file system afterwards.  Nothing
    happens for an empty name or when the folder of the event does not
    exist. *)
Definition delete_event (events_dir : Fs.path) (event_name : string)
    (fs : node) (st : Engine) : node * Engine :=
  if String.eqb event_name "" then (fs, st) else
  let event_dir := Fs.join events_dir event_name in
  match Fs.realpath fs event_dir with
  | None => (fs, st)
  | Some (where_, found) =>
      let st := set_events
                  (List.filter (fun ev => negb (String.eqb (name ev) event_name))
                     (events st)) st in
      let st := set_last_fired (delete event_name (_last_fired st)) st in
      (* [shutil.rmtree] raises on a file; the handler reports it *)
      match found with
      | Dir _ => (Fs.remove fs where_, st)
      | File _ => (fs, st)
      end
  end.

(** The part of [create_event_on_disk] that acts on the running engine:
    the freshly parsed definition is appended. *)
Definition append_event (ev : EventDef) (st : Engine) : Engine :=
  set_events (events st ++ [ev]) st.

Fixpoint set_first_active (b : bool) (event_name : string)
    (evs : list EventDef) : list EventDef :=
  match evs with
  | [] => []
  | ev :: evs' =>
      if String.eqb (name ev) event_name
      then set_active (YBool b) ev :: evs'
      else ev :: set_first_active b event_name evs'
  end.

Definition activate_event (event_name : string) (st : Engine) : Engine :=
  if String.eqb event_name "" then st
  else set_events (set_first_active true event_name (events st)) st.

Definition deactivate_event (event_name : string) (st : Engine) : Engine :=
  if String.eqb event_name "" then st
  else set_events (set_first_active false event_name (events st)) st.

End App.


(** * Vocabulary of the statements *)

Import NLSchedule.

(** ** Schedule texts *)

(** The unit words of an interval schedule and their length in seconds. *)
Definition unit_length (u : string) : option Z :=
  snd <$> List.find (fun kv => String.eqb (fst kv) u)
            [("second", 1); ("seconds", 1); ("minute", 60); ("minutes", 60);
             ("hour", 3600); ("hours", 3600)].

(** The next character does not continue a run of [q]. *)
Definition stops (q : ascii → bool) (s : string) : Prop :=
  match s with
  | EmptyString => True
  | String a _ => q a = false
  end.

(** The text ends with a character that is not whitespace. *)
Definition ends_solid (s : string) : Prop :=
  ∃ a, Re.last_char None s = Some a ∧ Py.is_space a = false.

(** The text has no whitespace and is not empty. *)
Definition solid (s : string) : Prop :=
  s ≠ "" ∧ Py.all (fun a => negb (Py.is_space a)) s = true.

(** [t] starts with the word [w], up to case. *)
Definition ci_prefix (w t : string) : bool :=
  String.prefix (Py.lower_str w) (Py.lower_str t).

(** The word [w] starts nowhere in [s]. *)
Fixpoint nowhere (w s : string) : bool :=
  negb (ci_prefix w s)
  && match s with
     | EmptyString => true
     | String _ s' => nowhere w s'
     end.

(** ** Cron fields as the specification words them *)

(** One comma-separated part of a cron field: a number, an inclusive
    range [a-b], a step [base/step] whose base is [*] (written [None]) or
    a number, or [*]. *)
Inductive cron_part :=
| PNumber (n : string)
| PRange (a b : string)
| PStep (base : option string) (step : string)
| PStar.

(** A non-empty run of decimal digits. *)
Definition numeral (s : string) : Prop :=
  s ≠ "" ∧ Py.all Py.is_digit s = true.

(** The number a numeral denotes. *)
Definition value (s : string) : Z := Py.decimal 0 s.

(** The numbers of a part are numerals, and a step is not zero. *)
Definition part_ok (p : cron_part) : Prop :=
  match p with
  | PNumber n => numeral n
  | PRange a b => numeral a ∧ numeral b
  | PStep None step => numeral step ∧ 0 < value step
  | PStep (Some b) step => numeral b ∧ numeral step ∧ 0 < value step
  | PStar => True
  end.

(** How a part is written. *)
Definition part_text (p : cron_part) : string :=
  match p with
  | PNumber n => n
  | PRange a b => a +:+ "-" +:+ b
  | PStep None step => "*/" +:+ step
  | PStep (Some b) step => b +:+ "/" +:+ step
  | PStar => "*"
  end.

(** The integers a part stands for in a field whose legal range is
    [lo..hi]. *)
Definition part_denotes (lo hi : Z) (p : cron_part) (x : Z) : Prop :=
  match p with
  | PNumber n => x = value n
  | PRange a b => value a ≤ x ≤ value b
  | PStep base step =>
      let start := match base with None => lo | Some b => value b end in
      ∃ i, 0 ≤ i ∧ x = start + i * value step ∧ x ≤ hi
  | PStar => lo ≤ x ≤ hi
  end.

Definition field_text (ps : list cron_part) : string :=
  Py.join "," (part_text <$> ps).

Definition field_denotes (lo hi : Z) (ps : list cron_part) (x : Z) : Prop :=
  ∃ p, p ∈ ps ∧ part_denotes lo hi p x.

Definition field_ok (ps : list cron_part) : Prop :=
  ps ≠ [] ∧ Forall part_ok ps.

(** The text of a cron rule with the given five fields. *)
Definition cron_rule_text (mins hrs doms months dows : list cron_part) : string :=
  Py.join " " (field_text <$> [mins; hrs; doms; months; dows]).

(** The day of the week in the cron convention: Sunday is 0. *)
Definition cron_dow (dt : datetime) : Z := (weekday dt + 1) mod 7.

(** A timestamp on the second. *)
Definition at_ (y mo d h mi s : Z) : datetime :=
  {| year := y; month := mo; day := d; hour := h; minute := mi; second := s;
     microsecond := 0 |}.

(** ** Time between two timestamps, by the calendar *)

(** The leap years of the Gregorian calendar: the years divisible by 4,
    of the century years only those divisible by 400. *)
Definition leap_year (y : Z) : bool :=
  if y mod 400 =? 0 then true
  else if y mod 100 =? 0 then false
  else y mod 4 =? 0.

Definition year_length (y : Z) : Z := if leap_year y then 366 else 365.

Definition month_length (y m : Z) : Z :=
  if m =? 2 then (if leap_year y then 29 else 28)
  else if (m =? 4) || (m =? 6) || (m =? 9) || (m =? 11) then 30
  else 31.

(** The days of the years [1 .. n]. *)
Fixpoint days_of_years (n : nat) : Z :=
  match n with
  | O => 0
  | S n' => days_of_years n' + year_length (Z.of_nat n)
  end.

(** The days of the months [1 .. n] of the year [y]. *)
Fixpoint days_of_months (y : Z) (n : nat) : Z :=
  match n with
  | O => 0
  | S n' => days_of_months y n' + month_length y (Z.of_nat n)
  end.

(** The days from the start of year 1 to the day of the timestamp, that
    day included: the whole years before its year, the whole months
    before its month, and the day of the month. *)
Definition day_number (dt : datetime) : Z :=
  days_of_years (Z.to_nat (year dt - 1))
  + days_of_months (year dt) (Z.to_nat (month dt - 1))
  + day dt.

(** The microseconds from the timestamp [t] to the timestamp [now]:
    86400 seconds for each day between them, and the difference of the
    times of day. *)
Definition elapsed_micros (now t : datetime) : Z :=
  ((day_number now - day_number t) * 86400
   + (hour now - hour t) * 3600
   + (minute now - minute t) * 60
   + (second now - second t)) * 1000000
  + (microsecond now - microsecond t).

(** ** Runs of due-ness evaluations *)

(** A run of due-ness evaluations, each on the state the one before has
    left: the answers, and the state at the end. *)
Fixpoint evaluate (st : Engine) (evals : list (EventDef * datetime))
  : result (list bool * Engine) :=
  match evals with
  | [] => Ok ([], st)
  | (ev, now) :: evals' =>
      match _is_due st ev now with
      | Ok (b, st') =>
          match evaluate st' evals' with
          | Ok (bs, st'') => Ok (b :: bs, st'')
          | Raise e => Raise e
          end
      | Raise e => Raise e
      end
  end.

(** The event has a cron rule. *)
Definition is_cron (ev : EventDef) : bool :=
  match schedule ev with
  | Some (Cron _) => true
  | _ => false
  end.

(** How many evaluations of a cron event named [n] at a time in the minute
    bucket [k] answered due. *)
Fixpoint hits (n k : string) (evals : list (EventDef * datetime))
    (bs : list bool) : nat :=
  match evals, bs with
  | (ev, now) :: evals', b :: bs' =>
      (if b && is_cron ev && String.eqb (name ev) n
          && String.eqb (minute_key now) k
       then 1 else 0)%nat + hits n k evals' bs'
  | _, _ => 0%nat
  end.



(** The engine remembers a firing under [key]. *)
Definition marked (st : Engine) (key : string) : bool :=
  default false (_cron_fired_this_minute st !! key).

(** The cron rule of the event, if it has one, can be checked against the
    time: its text has five well-formed fields. *)
Definition checkable (e : EventDef * datetime) : Prop :=
  ∀ c, schedule e.1 = Some (Cron c) → ∃ b, _cron_matches c e.2 = Ok b.

(** ** Manifests *)

(** The folder has a manifest whose header [yaml_safe_load] turns into the
    value [v]. *)
Definition header_value (yaml_safe_load : string → result yaml)
    (fs : node) (dir : Fs.path) (v : yaml) : Prop :=
  ∃ raw before header rest,
    Fs.read_text fs (Fs.join dir "EVENT.md") = Ok raw
    ∧ Py.startswith raw "---" = true
    ∧ Py.split_str "---" 2 raw = [before; header; rest]
    ∧ yaml_safe_load header = Ok v.

(** The header of the manifest is the mapping [d]. *)
Definition manifest (yaml_safe_load : string → result yaml)
    (fs : node) (dir : Fs.path) (d : list (string * yaml)) : Prop :=
  header_value yaml_safe_load fs dir (YDict d).

(** What the loader makes of a header that is a mapping. *)
Definition event_of_mapping (compile : string → result Schedule)
    (fs : node) (event_dir : Fs.path) (d : list (string * yaml))
  : result EventDef :=
  if negb (Yaml.has "type" d)
  then Raise (ValueError "EVENT.md missing required field: type") else
  if negb (Yaml.has "action" d) && negb (Yaml.has "script" d)
  then Raise (ValueError "EVENT.md must have 'action' or 'script'") else
  d ← (if negb (Yaml.has "action" d)
       then script ← of_option KeyError (Yaml.get "script" d);
            Ok (Yaml.set "action" (YDict [("script", script)]) d)
       else Ok d);
  let schedule_raw := default YNull (Yaml.get "schedule" d) in
  type ← of_option KeyError (Yaml.get "type" d);
  schedule ←
    (if Yaml.truthy schedule_raw && Yaml.eq_str type "scheduled"
     then Some <$> compile (Yaml.str schedule_raw)
     else Ok None);
  act ← of_option KeyError (Yaml.get "action" d);
  raw_params ←
    match act with
    | YDict a =>
        match default (YDict []) (Yaml.get "params" a) with
        | YDict ps => Ok ps
        | _ => Raise AttributeError
        end
    | _ => Raise AttributeError
    end;
  resolved ←
    mapM (fun kv => v ← _resolve_value fs (snd kv) event_dir; Ok (fst kv, v))
         raw_params;
  Ok {| name := Fs.name event_dir;
        description := default (YStr "") (Yaml.get "description" d);
        event_type := type;
        schedule_raw := schedule_raw;
        schedule := schedule;
        action := act;
        event_dir := event_dir;
        active := default (YBool false) (Yaml.get "active" d);
        resolved_params := resolved |}.

(** ** The directory scan *)

(** The definition a candidate of the scan contributes, if any. *)
Definition loaded_from (yaml_safe_load : string → result yaml)
    (fs : node) (root : Fs.path) (n : string) : option EventDef :=
  if Fs.is_dir fs (root ++ [n])
     && Fs.exists_ fs (Fs.join (root ++ [n]) "EVENT.md")
  then match parse_event_md yaml_safe_load fs (root ++ [n]) with
       | Ok ev => Some ev
       | Raise _ => None
       end
  else None.

(** * A sample installation

    The folders, tools and scripts the closing examples run on. *)

Module Sample.

(** A stand-in for [yaml.safe_load] that knows the headers of the listed
    manifests. *)
Definition yaml_of_table (table : list (string * yaml)) (header : string)
  : result yaml :=
  of_option YAMLError (Yaml.get header table).

Definition good_header : string := "
type: scheduled
schedule: every 2 seconds
active: true
action:
  mcp: noop
".

Definition bad_header : string := "
type: scheduled
schedule: every 2 seconds
".

Definition nosched_header : string := "
type: scheduled
action:
  mcp: noop
".

Definition crash_header : string := "
type: scheduled
schedule: every 2 seconds
active: true
script: scripts/run.py
".

Definition daily_header : string := "
type: scheduled
schedule: every day at 9 AM
action:
  mcp: noop
".

Definition mail_header : string := "
type: manual
schedule: whenever convenient
action:
  mcp: noop
  params:
    to: references/recipients.txt
    body: references/body.md
    subject: Weekly report
".

Definition mcp_noop : yaml := YDict [("mcp", YStr "noop")].

Definition headers : list (string * yaml) :=
  [(good_header,
    YDict [("type", YStr "scheduled"); ("schedule", YStr "every 2 seconds");
           ("active", YBool true); ("action", mcp_noop)]);
   (bad_header,
    YDict [("type", YStr "scheduled"); ("schedule", YStr "every 2 seconds")]);
   (nosched_header,
    YDict [("type", YStr "scheduled"); ("action", mcp_noop)]);
   (crash_header,
    YDict [("type", YStr "scheduled"); ("schedule", YStr "every 2 seconds");
           ("active", YBool true); ("script", YStr "scripts/run.py")]);
   (daily_header,
    YDict [("type", YStr "scheduled"); ("schedule", YStr "every day at 9 AM");
           ("action", mcp_noop)]);
   (mail_header,
    YDict [("type", YStr "manual"); ("schedule", YStr "whenever convenient");
           ("action",
            YDict [("mcp", YStr "noop");
                   ("params",
                    YDict [("to", YStr "references/recipients.txt");
                           ("body", YStr "references/body.md");
                           ("subject", YStr "Weekly report")])])])].

Definition yaml_safe_load : string → result yaml := yaml_of_table headers.

Definition manifest_file (header : string) : node :=
  File ("---" +:+ header +:+ "---
# notes
").

Definition recipients_txt : string := "# the team
ann@example.com

  bob@example.com  
# carl@example.com
".

Definition events_dir : Fs.path := ["srv"; "events"].

Definition disk : node :=
  Dir [("srv",
        Dir [("events",
              Dir [("good", Dir [("EVENT.md", manifest_file good_header)]);
                   ("bad", Dir [("EVENT.md", manifest_file bad_header)]);
                   ("README.txt", File "not a job folder");
                   ("empty", Dir []);
                   ("nosched", Dir [("EVENT.md", manifest_file nosched_header)]);
                   ("mail",
                    Dir [("EVENT.md", manifest_file mail_header);
                         ("references",
                          Dir [("recipients.txt", File recipients_txt);
                               ("body.md", File "  Hello team,
see attached.
")])]);
                   ("mail-archive", Dir [("secret.md", File "old drafts")])]);
             ("jobs",
              Dir [("crash",
                    Dir [("EVENT.md", manifest_file crash_header);
                         ("scripts", Dir [("run.py", File "def handle(p): raise")])]);
                   ("good", Dir [("EVENT.md", manifest_file good_header)])]);
             ("cron",
              Dir [("daily", Dir [("EVENT.md", manifest_file daily_header)])])])].

Definition sent : yaml := YDict [("status", YStr "sent")].

(** The tool [noop] returns, the tool [down] raises; the script of the
    folder [crash] has a [handle] that raises. *)
Definition world : World :=
  {| fs := disk;
     _tools := {[ "noop" := fun _ => Ok sent;
                 "down" := fun _ => Raise (RuntimeError "connection refused") ]};
     load_script := fun p =>
       if bool_decide (p = ["srv"; "jobs"; "crash"; "scripts"; "run.py"])
       then Handle (fun _ => Raise (OtherError "boom"))
       else NoHandle |}.

(** The definitions the loader gives for the folders [good] and [daily]. *)
Definition good : EventDef :=
  {| name := "good"; description := YStr ""; event_type := YStr "scheduled";
     schedule_raw := YStr "every 2 seconds"; schedule := Some (Interval 2);
     action := mcp_noop; event_dir := ["srv"; "jobs"; "good"];
     active := YBool true; resolved_params := [] |}.

Definition daily : EventDef :=
  {| name := "daily"; description := YStr ""; event_type := YStr "scheduled";
     schedule_raw := YStr "every day at 9 AM";
     schedule := Some (Cron "0 9 * * *");
     action := mcp_noop; event_dir := ["srv"; "cron"; "daily"];
     active := YBool false; resolved_params := [] |}.

(** An event whose tool raises. *)
Definition flaky : EventDef :=
  {| name := "flaky"; description := YStr ""; event_type := YStr "scheduled";
     schedule_raw := YStr "every 2 seconds"; schedule := Some (Interval 2);
     action := YDict [("mcp", YStr "down")];
     event_dir := ["srv"; "jobs"; "flaky"];
     active := YBool true; resolved_params := [] |}.

End Sample.
(** * More of the engine and of the application

    The parts of [event_engine.py] and [app.py] around the scheduler:
    the introspection of the engine, the tick seen from its registry, and
    the operations of the application on a running engine. *)

(** ** Vocabulary of the tick *)

(** The answer of the due-ness test on [st]; a test that raises answers
    nothing. *)
Definition due (st : Engine) (ev : EventDef) (now : datetime) : bool :=
  match _is_due st ev now with
  | Ok (b, _) => b
  | Raise _ => false
  end.

(** The events of the registry a tick at [now] finds active and due. *)
Definition firing (st : Engine) (now : datetime) : list EventDef :=
  List.filter (fun ev => Yaml.truthy (active ev) && due st ev now) (events st).

(** What [_dispatch] reports for an event, under its name. *)
Definition told (w : World) (ev : EventDef) : list (string * report) :=
  match _dispatch w ev with
  | Ok rs => (fun r => (name ev, r)) <$> rs
  | Raise _ => []
  end.

(** ** What a compiled cron rule asks for *)

(** The rules the compiler writes: a minute and an hour; the first day of
    the month or every day; some days of the week, numbered from Sunday
    as 0, or every day of the week. *)
Record cron_rule := {
  at_minute : Z;
  at_hour : Z;
  first_of_month : bool;
  on_days : option (list Z)
}.

Definition rule_text (r : cron_rule) : string :=
  cron_text (at_minute r) (at_hour r)
    (if first_of_month r then "1" else "*")
    (match on_days r with
     | None => "*"
     | Some ds => Py.join "," (Py.str_of_Z <$> ds)
     end).

Definition rule_holds (r : cron_rule) (dt : datetime) : bool :=
  bool_decide (minute dt = at_minute r) && bool_decide (hour dt = at_hour r)
  && (if first_of_month r then bool_decide (day dt = 1) else true)
  && match on_days r with
     | None => true
     | Some ds => bool_decide (cron_dow dt ∈ ds)
     end.

(** ** Times of day in schedule texts *)

(** The time of day as a schedule text writes it: one or two digits for
    the hour; optionally a colon and two digits for the minute; optionally
    [am] or [pm], in any case, after any whitespace. *)
Record time_words := {
  hour_digits : string;
  minute_digits : option string;
  am_pm : option (string * string)
}.

Definition time_text (t : time_words) : string :=
  hour_digits t
  +:+ match minute_digits t with
      | Some m => ":" +:+ m
      | None => ""
      end
  +:+ match am_pm t with
      | Some (gap, a) => gap +:+ a
      | None => ""
      end.

Definition time_words_ok (t : time_words) : Prop :=
  Py.all Py.is_digit (hour_digits t) = true
  ∧ (String.length (hour_digits t) = 1 ∨ String.length (hour_digits t) = 2)%nat
  ∧ (∀ m, minute_digits t = Some m →
          Py.all Py.is_digit m = true ∧ String.length m = 2%nat)
  ∧ (∀ gap a, am_pm t = Some (gap, a) →
              Py.all Py.is_space gap = true
              ∧ (Py.lower_str a = "am" ∨ Py.lower_str a = "pm")).

(** The hour and the minute [_to24] makes of the words. *)
Definition time_value (t : time_words) : Z * Z :=
  _to24 (value (hour_digits t))
    (match minute_digits t with
     | Some m => value m
     | None => 0
     end)
    (snd <$> am_pm t).

(** The groups a match of the time pattern numbered from [g] leaves. *)
Definition time_groups (g : nat) (t : time_words) (c : Re.caps) : Re.caps :=
  let c := <[g := hour_digits t]> c in
  let c := match minute_digits t with
           | Some m => <[S g := m]> c
           | None => c
           end in
  match am_pm t with
  | Some (_, a) => <[S (S g) := a]> c
  | None => c
  end.

(** ** Firing an event by hand ([app.py]) *)

(** What [_fire_event_async] answers. *)
Inductive fire_reply :=
| FiredManually
| EventNotFound.

(** [_fire_event_async] on a running engine: the first event of that name
    is dispatched, whatever its flag and its schedule say, and the time
    read after the dispatch becomes its last firing.  An exception of the
    dispatch leaves the function before the engine is touched. *)
Definition _fire_event_async (w : World) (event_name : string) (now : datetime)
    (st : Engine) : result (fire_reply * list (string * report) * Engine) :=
  match List.find (fun ev => String.eqb (name ev) event_name) (events st) with
  | Some ev =>
      match _dispatch w ev with
      | Ok rs =>
          Ok (FiredManually, (fun r => (name ev, r)) <$> rs,
              record_firing ev now st)
      | Raise e => Raise e
      end
  | None => Ok (EventNotFound, [], st)
  end.

(** ** The mail tool ([app.py])

    The tool registered as [mail_send], with [event_log] passed in and
    out.  The fixed texts of the log hold characters outside ASCII; they
    are kept as the bytes of their UTF-8 form. *)

(** The lines a recipients text keeps: not blank and no comment, each
    trimmed. *)
Definition kept_lines (ls : list string) : list string :=
  Py.strip <$>
    List.filter
      (fun l => negb (String.eqb (Py.strip l) "")
                && negb (Py.startswith (Py.strip l) "#"))
      ls.

(** An entry of [event_log]. *)
Record log_entry := {
  log_time : string;
  log_event : yaml;
  log_action : string;
  log_status : string;
  log_detail : string;
  log_to : string;
  log_subject : yaml
}.

(** [now.strftime("%H:%M:%S UTC")] *)
Definition clock_text (now : datetime) : string :=
  zfill 2 (Py.str_of_Z (hour now)) +:+ ":" +:+ zfill 2 (Py.str_of_Z (minute now))
  +:+ ":" +:+ zfill 2 (Py.str_of_Z (second now)) +:+ " UTC".

(** [f"{len(event_log) + 1:04d}"] *)
Definition next_number (event_log : list log_entry) : string :=
  zfill 4 (Py.str_of_Z (Z.of_nat (length event_log) + 1)).

(** [len(v)] *)
Definition len (v : yaml) : result Z :=
  match v with
  | YStr s => Ok (Z.of_nat (String.length s))
  | YList l => Ok (Z.of_nat (length l))
  | YDict d => Ok (Z.of_nat (length d))
  | _ => Raise TypeError
  end.

(** [sep.join(v)]: the items of a sequence have to be texts; a mapping
    gives its keys, a text its characters. *)
Definition join_items (sep : string) (v : yaml) : result string :=
  match v with
  | YStr s => Ok (Py.join sep ((fun c => String c "") <$> list_ascii_of_string s))
  | YList l =>
      items ← mapM (fun x => match x with
                             | YStr s => Ok s
                             | _ => Raise TypeError
                             end) l;
      Ok (Py.join sep items)
  | YDict d => Ok (Py.join sep (fst <$> d))
  | _ => Raise TypeError
  end.

(** The recipients [mock_mail_send] works with: a text is read line by
    line, anything else is taken as it is. *)
Definition recipients (raw_to : yaml) : yaml :=
  match raw_to with
  | YStr s => YList (YStr <$> kept_lines (Py.splitlines s))
  | _ => raw_to
  end.

Section MailTool.

(** [_USE_GMAIL], and [gmail_mail.send_mail], which answers with a
    mapping and never raises. *)
Variable _USE_GMAIL : bool.
Variable send_mail : yaml → yaml → yaml → list (string * yaml).

Definition _real_mail_send (now : datetime) (to subject body event_name : yaml)
    (event_log : list log_entry) : result (yaml * list log_entry) :=
  let result := send_mail to subject body in
  status ← of_option KeyError (Yaml.get "status" result);
  let status_label :=
    if Yaml.eq_str status "sent" then "✅ sent"
    else "❌ " +:+ Yaml.str (default (YStr "?") (Yaml.get "error" result)) in
  n ← len to;
  joined ← join_items ", " to;
  Ok (YDict result,
      event_log ++
      [{| log_time := clock_text now;
          log_event := event_name;
          log_action := "mail_send (Gmail)";
          log_status := status_label;
          log_detail := "→ " +:+ Py.str_of_Z n +:+ " recipient(s)  |  "
                        +:+ Yaml.str (default (YStr "n/a")
                                        (Yaml.get "message_id" result));
          log_to := joined;
          log_subject := subject |}]).

Definition _mock_mail_send (now : datetime) (to subject body event_name : yaml)
    (event_log : list log_entry) : result (yaml * list log_entry) :=
  let msg_id := "mock-" +:+ next_number event_log in
  n ← len to;
  joined ← join_items ", " to;
  Ok (YDict [("status", YStr "sent"); ("message_id", YStr msg_id)],
      event_log ++
      [{| log_time := clock_text now;
          log_event := event_name;
          log_action := "mail_send (MOCK)";
          log_status := "✅ sent (mock)";
          log_detail := "→ " +:+ Py.str_of_Z n +:+ " recipient(s)  |  " +:+ msg_id;
          log_to := joined;
          log_subject := subject |}]).

Definition mock_mail_send (now : datetime) (params : list (string * yaml))
    (event_log : list log_entry) : result (yaml * list log_entry) :=
  let raw_to := default (YList []) (Yaml.get "to" params) in
  let subject := default (YStr "(no subject)") (Yaml.get "subject" params) in
  let body := default (YStr "") (Yaml.get "body" params) in
  let event_name := default (YStr "unknown-event") (Yaml.get "_event_name" params) in
  let to := recipients raw_to in
  if negb (Yaml.truthy to) then
    let msg_id := "error-" +:+ next_number event_log in
    Ok (YDict [("status", YStr "error"); ("message_id", YStr msg_id)],
        event_log ++
        [{| log_time := clock_text now;
            log_event := event_name;
            log_action := "mail_send";
            log_status := "❌ error: No recipients";
            log_detail := "No valid recipients found";
            log_to := "";
            log_subject := subject |}])
  else if _USE_GMAIL then _real_mail_send now to subject body event_name event_log
  else _mock_mail_send now to subject body event_name event_log.

End MailTool.

(** The line feed, as a text. *)
Definition LF : string := String "010" "".

(** A clean address line: not empty, trimmed, no comment, on one line. *)
Definition clean_line (l : string) : Prop :=
  l ≠ "" ∧ Py.strip l = l ∧ Py.startswith l "#" = false
  ∧ Py.all (fun c => negb (Py.is_linebreak c)) l = true.

(** The message id of an answer of the tool. *)
Definition message_id (r : yaml) : option yaml :=
  match r with
  | YDict d => Yaml.get "message_id" d
  | _ => None
  end.

(** ** Schedule texts for the first day of the month *)

(** Whitespace between two words. *)
Definition gap (w : string) : Prop := w ≠ "" ∧ Py.all Py.is_space w = true.

(** The words of [(on the) first day of (every) month], each with the
    whitespace behind it; the words in brackets may be left out. *)
Record first_day_words := {
  on_the : option (string * string * string * string);
  first_word : string;
  gap_1 : string;
  day_word : string;
  gap_2 : string;
  of_word : string;
  gap_3 : string;
  every_word : option (string * string);
  month_word : string
}.

Definition first_day_text (f : first_day_words) : string :=
  match on_the f with
  | Some (on_, g1, the, g2) => on_ +:+ g1 +:+ the +:+ g2
  | None => ""
  end
  +:+ first_word f +:+ gap_1 f +:+ day_word f +:+ gap_2 f +:+ of_word f
  +:+ gap_3 f
  +:+ match every_word f with
      | Some (every, g) => every +:+ g
      | None => ""
      end
  +:+ month_word f.

Definition first_day_words_ok (f : first_day_words) : Prop :=
  (∀ on_ g1 the g2, on_the f = Some (on_, g1, the, g2) →
     Py.lower_str on_ = "on" ∧ gap g1 ∧ Py.lower_str the = "the" ∧ gap g2)
  ∧ Py.lower_str (first_word f) = "first" ∧ gap (gap_1 f)
  ∧ Py.lower_str (day_word f) = "day" ∧ gap (gap_2 f)
  ∧ Py.lower_str (of_word f) = "of" ∧ gap (gap_3 f)
  ∧ (∀ every g, every_word f = Some (every, g) →
       Py.lower_str every = "every" ∧ gap g)
  ∧ Py.lower_str (month_word f) = "month".

(** ** The recipients file of a created event ([app.py])

    The part of [create_event_on_disk] that writes
    [references/team-members.md], the file the manifest it writes names
    under [to]. *)

(** [s.replace(a, b)] for one-character texts. *)
Fixpoint replace_char (a b : ascii) (s : string) : string :=
  match s with
  | EmptyString => EmptyString
  | String c s' =>
      String (if Ascii.eqb c a then b else c) (replace_char a b s')
  end.

Definition team_members_header : string :=
  "# Team members — one email per line" +:+ LF
  +:+ "# Lines starting with # are ignored" +:+ LF +:+ LF.

(** [recipients.replace(',', '\n').replace(';', '\n')] *)
Definition one_per_line (recipients : string) : string :=
  replace_char ";" "010" (replace_char "," "010" recipients).

(** The text written to [team-members.md] for the [recipients] of the
    command; a value that is not a text has no [replace]. *)
Definition team_members_content (recipients : yaml) : result string :=
  if Yaml.truthy recipients then
    match recipients with
    | YStr r =>
        let recipient_list :=
          Py.strip <$>
            List.filter (fun r => negb (String.eqb (Py.strip r) ""))
              (Py.split_char "010" (one_per_line r)) in
        Ok (team_members_header +:+ Py.join LF recipient_list +:+ LF)
    | _ => Raise AttributeError
    end
  else Ok (team_members_header +:+ "recipient@example.com" +:+ LF).
(** ** The schedule forms of the specification *)

(** A day of the week by its name, in any letter case. *)
Definition day_name (D : string) : Prop :=
  Py.lower_str D ∈ ["monday"; "tuesday"; "wednesday"; "thursday"; "friday";
                    "saturday"; "sunday"].

(** What stands between two day names of a list: whitespace, optionally a
    comma and whitespace, optionally [and] and whitespace. *)
Record day_sep := {
  sep_space : string;
  sep_comma : option string;
  sep_and : option (string * string)
}.

Definition sep_text (s : day_sep) : string :=
  sep_space s
  +:+ match sep_comma s with
      | Some sp => "," +:+ sp
      | None => ""
      end
  +:+ match sep_and s with
      | Some (a, g) => a +:+ g
      | None => ""
      end.

Definition sep_ok (s : day_sep) : Prop :=
  Py.all Py.is_space (sep_space s) = true
  ∧ (∀ sp, sep_comma s = Some sp → Py.all Py.is_space sp = true)
  ∧ (∀ a g, sep_and s = Some (a, g) → Py.lower_str a = "and" ∧ gap g).

(** The further days of a list, each after its separator. *)
Fixpoint more_days (items : list (day_sep * string)) : string :=
  match items with
  | [] => ""
  | (s, D) :: items' => sep_text s +:+ D +:+ more_days items'
  end.

(** A time of day: written in digits, or one of the synonyms [midnight]
    and [noon]. *)
Inductive time_phrase : string → Prop :=
| time_in_digits t :
    time_words_ok t → time_phrase (time_text t)
| time_synonym W :
    Py.lower_str W = "midnight" ∨ Py.lower_str W = "noon" → time_phrase W.

(** The six forms of a schedule text, in the order of the specification;
    the words in any letter case, with whitespace between them. *)
Inductive form : string → Prop :=
| every_n_units E w1 N w2 U len :
    Py.lower_str E = "every" → gap w1 → numeral N → gap w2 →
    unit_length (Py.lower_str U) = Some len →
    form (E +:+ w1 +:+ N +:+ w2 +:+ U)
| every_hour E w1 H :
    Py.lower_str E = "every" → gap w1 → Py.lower_str H = "hour" →
    form (E +:+ w1 +:+ H)
| every_weekday_at E w1 D w2 A w3 T :
    Py.lower_str E = "every" → gap w1 → day_name D → gap w2 →
    Py.lower_str A = "at" → gap w3 → time_phrase T →
    form (E +:+ w1 +:+ D +:+ w2 +:+ A +:+ w3 +:+ T)
| every_day_at E w1 D w2 A w3 T :
    Py.lower_str E = "every" → gap w1 → Py.lower_str D = "day" → gap w2 →
    Py.lower_str A = "at" → gap w3 → time_phrase T →
    form (E +:+ w1 +:+ D +:+ w2 +:+ A +:+ w3 +:+ T)
| every_weekdays_at E w1 D items w2 A w3 T :
    Py.lower_str E = "every" → gap w1 → day_name D →
    Forall (fun i => sep_ok i.1 ∧ day_name i.2) items → gap w2 →
    Py.lower_str A = "at" → gap w3 → time_phrase T →
    form (E +:+ w1 +:+ D +:+ more_days items +:+ w2 +:+ A +:+ w3 +:+ T)
| first_day_at f w4 A w5 T :
    first_day_words_ok f → gap w4 → Py.lower_str A = "at" → gap w5 →
    time_phrase T →
    form (first_day_text f +:+ w4 +:+ A +:+ w5 +:+ T).

(** The text is of one of the forms, whitespace around it aside. *)
Definition recognised (text : string) : Prop :=
  ∃ l core t,
    text = l +:+ core +:+ t
    ∧ Py.all Py.is_space l = true ∧ Py.all Py.is_space t = true
    ∧ form core.

(** The text is written, letter case aside, in whitespace, digits and
    the characters of [alphabet]. *)
Definition written_in (alphabet s : string) : bool :=
  Py.all (fun a => Py.is_space a || Py.is_digit a || Py.contains a alphabet)
    (Py.lower_str s).

(** The letters of the two interval forms, and the characters of the
    forms with a time of day. *)
Definition interval_letters : string := "everysecondminuthour".
Definition timed_letters : string := "everymondatuswhfipg:,".

(** * Properties *)

#[local] Arguments String.append !_ _ / : simpl nomatch.

(** ** Characters and strings *)

Lemma digit_not_space a : Py.is_digit a = true → Py.is_space a = false.
Proof. destruct a as [[] [] [] [] [] [] [] []]; done. Qed.

Lemma space_not_digit a : Py.is_space a = true → Py.is_digit a = false.
Proof. destruct a as [[] [] [] [] [] [] [] []]; done. Qed.

Lemma lower_digit a : Py.is_digit a = true → Py.lower a = a.
Proof. destruct a as [[] [] [] [] [] [] [] []]; done. Qed.

Lemma lower_space a : Py.is_space a = true → Py.lower a = a.
Proof. destruct a as [[] [] [] [] [] [] [] []]; done. Qed.

Lemma lower_lower a : Py.lower (Py.lower a) = Py.lower a.
Proof. destruct a as [[] [] [] [] [] [] [] []]; done. Qed.

Lemma lower_is_space a : Py.is_space (Py.lower a) = Py.is_space a.
Proof. destruct a as [[] [] [] [] [] [] [] []]; done. Qed.

Lemma digit_not_sign a :
  Py.is_digit a = true → Ascii.eqb a "-" = false ∧ Ascii.eqb a "+" = false
                         ∧ Ascii.eqb a "_" = false.
Proof. destruct a as [[] [] [] [] [] [] [] []]; done. Qed.

Lemma digit_value_nonneg a : 0 ≤ Py.digit_value a.
Proof. unfold Py.digit_value. lia. Qed.

Lemma space_not_letter c a :
  Py.is_lower c = true → Py.is_space a = true →
  negb (Ascii.eqb (Py.lower a) (Py.lower c)) = true.
Proof.
  intros Hc Ha. rewrite lower_space by done.
  destruct (Ascii.eqb_spec a (Py.lower c)) as [->|]; [|done].
  exfalso. revert Hc Ha. clear.
  destruct c as [[] [] [] [] [] [] [] []]; done.
Qed.

Lemma digit_not_letter c a :
  Py.is_lower c = true → Py.is_digit a = true →
  negb (Ascii.eqb (Py.lower a) (Py.lower c)) = true.
Proof.
  intros Hc Ha. rewrite lower_digit by done.
  destruct (Ascii.eqb_spec a (Py.lower c)) as [->|]; [|done].
  exfalso. revert Hc Ha. clear.
  destruct c as [[] [] [] [] [] [] [] []]; done.
Qed.

Lemma app_empty_r (s : string) : s +:+ "" = s.
Proof. induction s; simpl; congruence. Qed.

Lemma app_assoc_s (a b c : string) : (a +:+ b) +:+ c = a +:+ b +:+ c.
Proof. induction a; simpl; congruence. Qed.

Lemma length_app_s (a b : string) :
  String.length (a +:+ b) = (String.length a + String.length b)%nat.
Proof. induction a; simpl; congruence. Qed.

Lemma lower_str_app a b :
  Py.lower_str (a +:+ b) = Py.lower_str a +:+ Py.lower_str b.
Proof. induction a; simpl; congruence. Qed.

Lemma lower_str_idem s : Py.lower_str (Py.lower_str s) = Py.lower_str s.
Proof. induction s; simpl; [done|]. by rewrite lower_lower, IHs. Qed.

Lemma lower_str_fixed q s :
  (∀ a, q a = true → Py.lower a = a) → Py.all q s = true → Py.lower_str s = s.
Proof.
  intros Hq. induction s as [|a s IH]; simpl; [done|].
  intros [Ha Hs]%andb_true_iff. by rewrite (Hq a Ha), IH.
Qed.

Lemma lower_str_cons_inv U b w :
  Py.lower_str U = String b w →
  ∃ a U', U = String a U' ∧ Py.lower a = b ∧ Py.lower_str U' = w.
Proof. destruct U as [|a U']; simpl; [done|]. intros [= <- <-]. eauto. Qed.

Lemma lower_str_app_inv w1 : ∀ U w2,
  Py.lower_str U = w1 +:+ w2 →
  ∃ U1 U2, U = U1 +:+ U2 ∧ Py.lower_str U1 = w1 ∧ Py.lower_str U2 = w2.
Proof.
  induction w1 as [|b w1 IH]; intros U w2 H; simpl in H.
  - by exists "", U.
  - apply lower_str_cons_inv in H as (a & U' & -> & <- & H).
    apply IH in H as (U1 & U2 & -> & <- & <-).
    by exists (String a U1), U2.
Qed.

Lemma all_impl (q q' : ascii → bool) s :
  (∀ a, q a = true → q' a = true) → Py.all q s = true → Py.all q' s = true.
Proof.
  intros H. induction s as [|a s IH]; simpl; [done|].
  intros [Ha Hs]%andb_true_iff. by rewrite (H a Ha), IH.
Qed.

Lemma all_app q s t : Py.all q (s +:+ t) = Py.all q s && Py.all q t.
Proof. induction s as [|a s IH]; simpl; [done|]. by rewrite IH, andb_assoc. Qed.

Lemma substring_0_app (u s : string) :
  String.substring 0 (String.length u) (u +:+ s) = u.
Proof. induction u; simpl; [by destruct s | congruence]. Qed.

Lemma consumed_app u s : Re.consumed (u +:+ s) s = u.
Proof.
  unfold Re.consumed. rewrite length_app_s.
  replace (String.length u + String.length s - String.length s)%nat
    with (String.length u) by lia.
  apply substring_0_app.
Qed.

Lemma consumed_all u : Re.consumed u "" = u.
Proof. rewrite <- (app_empty_r u) at 1. apply consumed_app. Qed.

Lemma last_char_app p u v :
  Re.last_char p (u +:+ v) = Re.last_char (Re.last_char p u) v.
Proof. revert p. induction u; simpl; auto. Qed.

Lemma last_char_some p a u : Re.last_char p (String a u) = Re.last_char (Some a) u.
Proof. reflexivity. Qed.

Lemma last_char_indep p q u : u ≠ "" → Re.last_char p u = Re.last_char q u.
Proof. destruct u; [done|]. reflexivity. Qed.

Lemma last_char_lower U : ∀ p,
  Re.last_char (Py.lower <$> p) (Py.lower_str U) = Py.lower <$> Re.last_char p U.
Proof.
  induction U as [|a U IH]; intros p; simpl; [done|]. apply (IH (Some a)).
Qed.

(** ** [strip] *)

Lemma lstrip_spaces_app l s :
  Py.all Py.is_space l = true → stops Py.is_space s → Py.lstrip (l +:+ s) = s.
Proof.
  induction l as [|a l IH]; simpl.
  - intros _ H. destruct s; simpl in *; [done|]. by rewrite H.
  - intros [-> Hl]%andb_true_iff H. by apply IH.
Qed.

Lemma rstrip_spaces t : Py.all Py.is_space t = true → Py.rstrip t = "".
Proof.
  induction t as [|a t IH]; simpl; [done|].
  intros [Ha Ht]%andb_true_iff. by rewrite IH, Ha.
Qed.

Lemma rstrip_app_spaces s t :
  ends_solid s → Py.all Py.is_space t = true → Py.rstrip (s +:+ t) = s.
Proof.
  intros (z & Hz & Hsp) Ht. revert Hz.
  induction s as [|a s IH]; [done|]. intros Hz.
  simpl. destruct s as [|b s].
  - simpl in *. injection Hz as ->. by rewrite (rstrip_spaces t Ht), Hsp.
  - rewrite IH by done. done.
Qed.

Lemma ends_solid_app s u : u ≠ "" → ends_solid u → ends_solid (s +:+ u).
Proof.
  intros Hne (a & Ha & Hsp). exists a. split; [|done].
  rewrite last_char_app. by rewrite (last_char_indep _ None).
Qed.

Lemma strip_core l s t :
  Py.all Py.is_space l = true → Py.all Py.is_space t = true →
  stops Py.is_space s → ends_solid s →
  Py.strip (l +:+ s +:+ t) = s.
Proof.
  intros Hl Ht Hs He. unfold Py.strip.
  rewrite lstrip_spaces_app; auto.
  - by apply rstrip_app_spaces.
  - destruct s; [|done]. destruct He as (? & ? & ?). done.
Qed.

(** ** [int] on runs of digits *)

Lemma drop_underscores_digits s : ∀ b,
  Py.all Py.is_digit s = true → (s ≠ "" ∨ b = true) →
  Py.drop_underscores b s = Some s.
Proof.
  induction s as [|a s IH]; intros b Hall Hne.
  - destruct Hne as [?| ->]; done.
  - simpl in Hall. apply andb_true_iff in Hall as [Ha Hs].
    destruct (digit_not_sign a Ha) as (_ & _ & Hu).
    simpl. rewrite Hu, Ha, IH; auto.
Qed.

Lemma rstrip_digits s : Py.all Py.is_digit s = true → Py.rstrip s = s.
Proof.
  induction s as [|a s IH]; simpl; [done|].
  intros [Ha Hs]%andb_true_iff. rewrite IH by done.
  destruct s; [|done]. by rewrite (digit_not_space a Ha).
Qed.

Lemma strip_digits s : Py.all Py.is_digit s = true → Py.strip s = s.
Proof.
  intros H. unfold Py.strip.
  destruct s as [|a s]; [done|].
  simpl in H. pose proof H as [Ha Hs]%andb_true_iff.
  simpl Py.lstrip. rewrite (digit_not_space a Ha).
  apply rstrip_digits. simpl. by rewrite Ha, Hs.
Qed.

Lemma int_digits s :
  s ≠ "" → Py.all Py.is_digit s = true → Py.int s = Ok (Py.decimal 0 s).
Proof.
  intros Hne Hall. unfold Py.int. rewrite strip_digits by done.
  destruct s as [|a s]; [done|].
  pose proof Hall as Hall'. simpl in Hall'.
  apply andb_true_iff in Hall' as [Ha Hs].
  destruct (digit_not_sign a Ha) as (-> & -> & _).
  unfold Py.digits_value. rewrite drop_underscores_digits; auto.
Qed.

Lemma decimal_nonneg s : ∀ acc, 0 ≤ acc → 0 ≤ Py.decimal acc s.
Proof.
  induction s as [|a s IH]; intros acc H; simpl; [done|].
  apply IH. pose proof (digit_value_nonneg a). lia.
Qed.

(** ** Splitting and joining *)

Lemma contains_app a s t :
  Py.contains a (s +:+ t) = Py.contains a s || Py.contains a t.
Proof. induction s as [|b s IH]; simpl; [done|]. by rewrite IH, orb_assoc. Qed.

Lemma contains_all a q s :
  q a = false → Py.all q s = true → Py.contains a s = false.
Proof.
  intros Ha. induction s as [|b s IH]; simpl; [done|].
  intros [Hb Hs]%andb_true_iff. rewrite IH by done.
  destruct (Ascii.eqb_spec b a) as [->|]; [congruence|done].
Qed.

Lemma split_once_app a s t :
  Py.contains a s = false → Py.split_once a (s +:+ String a t) = (s, t).
Proof.
  induction s as [|b s IH]; simpl.
  - by rewrite Ascii.eqb_refl.
  - intros [Hb Hs]%orb_false_iff. by rewrite Hb, IH.
Qed.

Lemma split_char_none a s : Py.contains a s = false → Py.split_char a s = [s].
Proof.
  induction s as [|b s IH]; simpl; [done|].
  intros [Hb Hs]%orb_false_iff. by rewrite Hb, IH.
Qed.

Lemma split_char_app a s t :
  Py.contains a s = false →
  Py.split_char a (s +:+ String a t) = s :: Py.split_char a t.
Proof.
  induction s as [|b s IH]; simpl.
  - by rewrite Ascii.eqb_refl.
  - intros [Hb Hs]%orb_false_iff. by rewrite Hb, IH.
Qed.

Lemma split_char_join a l :
  l ≠ [] → Forall (fun s => Py.contains a s = false) l →
  Py.split_char a (Py.join (String a "") l) = l.
Proof.
  intros Hne H. induction H as [|s l Hs Hl IH]; [done|].
  destruct l as [|s' l].
  - simpl. by apply split_char_none.
  - change (Py.join (String a "") (s :: s' :: l))
      with (s +:+ String a (Py.join (String a "") (s' :: l))).
    rewrite split_char_app by done. f_equal. by apply IH.
Qed.

Lemma split_ws_solid s : solid s → Py.split_ws s = [s].
Proof.
  intros [Hne H]. induction s as [|a s IH]; [done|].
  simpl in H. apply andb_true_iff in H as [Ha Hs].
  apply negb_true_iff in Ha. simpl. rewrite Ha.
  destruct s as [|b s]; [done|].
  rewrite IH by done.
  simpl in Hs. apply andb_true_iff in Hs as [Hb _].
  apply negb_true_iff in Hb. by rewrite Hb.
Qed.

Lemma split_ws_solid_space s t :
  solid s → Py.split_ws (s +:+ String " " t) = s :: Py.split_ws t.
Proof.
  intros [Hne H]. induction s as [|a s IH]; [done|].
  simpl in H. apply andb_true_iff in H as [Ha Hs].
  apply negb_true_iff in Ha.
  change (String a s +:+ String " " t) with (String a (s +:+ String " " t)).
  cbn [Py.split_ws]. rewrite Ha.
  destruct s as [|b s].
  - reflexivity.
  - rewrite IH by done.
    simpl in Hs. apply andb_true_iff in Hs as [Hb _].
    apply negb_true_iff in Hb.
    change (String b s +:+ String " " t) with (String b (s +:+ String " " t)).
    cbv beta iota. by rewrite Hb.
Qed.

Lemma split_ws_join l :
  Forall solid l → Py.split_ws (Py.join " " l) = l.
Proof.
  induction 1 as [|s l Hs Hl IH]; [done|].
  destruct l as [|s' l].
  - by apply split_ws_solid.
  - change (Py.join " " (s :: s' :: l))
      with (s +:+ String " " (Py.join " " (s' :: l))).
    rewrite split_ws_solid_space by done. by rewrite IH.
Qed.

Lemma solid_stops s : solid s → stops Py.is_space s.
Proof.
  intros [Hne H]. destruct s as [|a s]; [done|]. simpl in *.
  apply andb_true_iff in H as [Ha _]. by apply negb_true_iff.
Qed.

Lemma solid_ends s : solid s → ends_solid s.
Proof.
  intros [Hne H]. revert Hne H. generalize (@None ascii).
  induction s as [|a s IH]; [done|]. intros p _ H.
  simpl in H. apply andb_true_iff in H as [Ha Hs].
  destruct s as [|b s].
  - exists a. split; [done|]. by apply negb_true_iff.
  - destruct (IH (Some a)) as (z & Hz & Hsp); [done..|].
    exists z. split; [|done]. simpl in *. done.
Qed.

Lemma solid_app s t : solid s → solid t → solid (s +:+ t).
Proof.
  intros [Hs Hs'] [Ht Ht']. split.
  - by destruct s.
  - by rewrite all_app, Hs', Ht'.
Qed.

Lemma join_solid l : l ≠ [] → Forall solid l →
  stops Py.is_space (Py.join " " l) ∧ ends_solid (Py.join " " l).
Proof.
  intros Hne H. induction H as [|s l Hs Hl IH]; [done|].
  destruct l as [|s' l].
  - simpl. split; [by apply solid_stops | by apply solid_ends].
  - change (Py.join " " (s :: s' :: l))
      with (s +:+ String " " (Py.join " " (s' :: l))).
    destruct IH as [_ IH]; [done|]. split.
    + destruct Hs as [Hne' H]. destruct s as [|a s]; [done|]. simpl in *.
      apply andb_true_iff in H as [Ha _]. by apply negb_true_iff.
    + change (String " " (Py.join " " (s' :: l)))
        with (" " +:+ Py.join " " (s' :: l)).
      rewrite <- app_assoc_s. apply ends_solid_app; [|done].
      inversion Hl as [|?? [Hs' _] _]; subst.
      destruct s'; [done|]. by destruct l.
Qed.

Lemma strip_join l : l ≠ [] → Forall solid l →
  Py.strip (Py.join " " l) = Py.join " " l.
Proof.
  intros Hne H. destruct (join_solid l Hne H) as [Hs He].
  pose proof (strip_core "" (Py.join " " l) "" eq_refl eq_refl Hs He) as E.
  simpl in E. by rewrite app_empty_r in E.
Qed.

Lemma split_str_length pat n : ∀ s,
  (1 ≤ length (Py.split_str pat n s) ≤ S n)%nat.
Proof.
  induction n as [|n IH]; intros s; simpl; [lia|].
  destruct (Py.find_sub pat s) as [[x y]|]; simpl; [|lia].
  specialize (IH y). lia.
Qed.

(** ** The matcher: its equations, literal words and greedy runs *)

Lemma run_Cat {R} r1 r2 p s c (k : Re.cont R) :
  Re.run (Re.Cat r1 r2) p s c k
  = Re.run r1 p s c (fun p' s' c' => Re.run r2 p' s' c' k).
Proof. reflexivity. Qed.

Lemma run_Alt {R} r1 r2 p s c (k : Re.cont R) :
  Re.run (Re.Alt r1 r2) p s c k
  = match Re.run r1 p s c k with
    | Some x => Some x
    | None => Re.run r2 p s c k
    end.
Proof. reflexivity. Qed.

Lemma run_Grp {R} n r p s c (k : Re.cont R) :
  Re.run (Re.Grp n r) p s c k
  = Re.run r p s c (fun p' s' c' => k p' s' (<[n := Re.consumed s s']> c')).
Proof. reflexivity. Qed.

Lemma run_Wordb {R} p s c (k : Re.cont R) :
  Re.run Re.Wordb p s c k
  = if xorb (Re.at_word p) (Re.at_word (Re.head s)) then k p s c else None.
Proof. reflexivity. Qed.

Lemma run_Lit {R} w : ∀ u s p c (k : Re.cont R),
  Py.lower_str u = Py.lower_str w →
  Re.run (Re.Lit w) p (u +:+ s) c k = k (Re.last_char p u) s c.
Proof.
  induction w as [|a w IH]; intros [|b u] s p c k H; simpl in *; try done.
  injection H as Hb Hu. rewrite Hb, Ascii.eqb_refl. by apply IH.
Qed.

Lemma run_Lit_mismatch {R} a w b s p c (k : Re.cont R) :
  Py.lower b ≠ Py.lower a →
  Re.run (Re.Lit (String a w)) p (String b s) c k = None.
Proof.
  intros H. simpl. destruct (Ascii.eqb_spec (Py.lower b) (Py.lower a)); done.
Qed.

Lemma run_Lit_none {R} w : ∀ t p c (k : Re.cont R),
  ci_prefix w t = false → Re.run (Re.Lit w) p t c k = None.
Proof.
  unfold ci_prefix.
  induction w as [|a w IH]; intros [|b t] p c k H; simpl in *; try done.
  destruct (ascii_dec (Py.lower a) (Py.lower b)) as [->|Hne].
  - rewrite Ascii.eqb_refl. by apply IH.
  - destruct (Ascii.eqb_spec (Py.lower b) (Py.lower a)); congruence.
Qed.

Lemma run_word_mismatch {R} a w r b s p c (k : Re.cont R) :
  Py.lower b ≠ Py.lower a →
  Re.run (Re.Cat (Re.Lit (String a w)) r) p (String b s) c k = None.
Proof. intros H. rewrite run_Cat. by apply run_Lit_mismatch. Qed.

Lemma stops_app q (u s : string) :
  u ≠ "" → (∀ a, Re.head u = Some a → q a = false) → stops q (u +:+ s).
Proof. destruct u; [done|]. intros _ H. simpl. by apply H. Qed.

Lemma stops_head (q q' : ascii → bool) u s :
  u ≠ "" → Py.all q' u = true → (∀ a, q' a = true → q a = false) →
  stops q (u +:+ s).
Proof.
  destruct u as [|a u]; [done|]. simpl.
  intros _ [Ha _]%andb_true_iff H. by apply H.
Qed.

Lemma star_cls_greedy {R} q u : ∀ s fuel p c (k : Re.cont R) x,
  Py.all q u = true → stops q s → (String.length u ≤ fuel)%nat →
  k (Re.last_char p u) s c = Some x →
  Re.star_loop (Re.run (Re.Cls q)) k fuel p (u +:+ s) c = Some x.
Proof.
  induction u as [|a u IH]; intros s fuel p c k x Hall Hstop Hfuel Hk.
  - simpl in *. destruct fuel as [|fuel]; simpl; [done|].
    destruct s as [|b s]; simpl in *; [done|]. by rewrite Hstop.
  - simpl in Hall. apply andb_true_iff in Hall as [Ha Hu].
    destruct fuel as [|fuel]; simpl in Hfuel; [lia|].
    simpl. rewrite Ha.
    replace (String.length (u +:+ s) <? S (String.length (u +:+ s)))%nat
      with true by (symmetry; apply Nat.ltb_lt; lia).
    erewrite IH; eauto. lia.
Qed.

Lemma run_Star_cls {R} q u s p c (k : Re.cont R) x :
  Py.all q u = true → stops q s →
  k (Re.last_char p u) s c = Some x →
  Re.run (Re.Star (Re.Cls q)) p (u +:+ s) c k = Some x.
Proof.
  intros. simpl. apply star_cls_greedy; auto.
  rewrite length_app_s. lia.
Qed.

Lemma run_Plus_cls {R} q u s p c (k : Re.cont R) x :
  u ≠ "" → Py.all q u = true → stops q s →
  k (Re.last_char p u) s c = Some x →
  Re.run (Re.Plus (Re.Cls q)) p (u +:+ s) c k = Some x.
Proof.
  destruct u as [|a u]; [done|]. intros _ Hall Hstop Hk.
  simpl in Hall. apply andb_true_iff in Hall as [Ha Hu].
  unfold Re.Plus.
  change (Re.run (Re.Cat (Re.Cls q) (Re.Star (Re.Cls q))) p
            (String a u +:+ s) c k)
    with (if q a then Re.run (Re.Star (Re.Cls q)) (Some a) (u +:+ s) c k else None).
  rewrite Ha. by apply run_Star_cls.
Qed.

(** A word followed by an optional [s], at the end of the text. *)
Lemma run_word_opt_s {R} w U p c (k : Re.cont R) x :
  Py.lower_str U = Py.lower_str w ∨ Py.lower_str U = Py.lower_str w +:+ "s" →
  k (Re.last_char p U) "" c = Some x →
  Re.run (Re.Cat (Re.Lit w) (Re.Opt (Re.Chr "s"))) p U c k = Some x.
Proof.
  intros [H|H] Hk.
  - rewrite <- (app_empty_r U), run_Cat, (run_Lit w U "") by done.
    unfold Re.Opt. rewrite run_Alt. simpl. done.
  - apply lower_str_app_inv in H as (U1 & U2 & -> & H1 & H2).
    apply lower_str_cons_inv in H2 as (a & U' & -> & Ha & H2).
    destruct U'; [|done].
    rewrite run_Cat, (run_Lit w U1) by done.
    unfold Re.Opt. rewrite run_Alt.
    rewrite last_char_app in Hk. simpl in Hk.
    simpl. rewrite Ha. simpl. by rewrite Hk.
Qed.

(** ** The matcher is sound for the meaning of patterns *)

Lemma star_loop_sound {R} (body : option ascii → string → Re.caps → Re.cont R → option R)
    (P : Re.mstate → Re.mstate → Prop) (k : Re.cont R) :
  (∀ p s c k' x, body p s c k' = Some x →
                 ∃ y, P (p, s, c) y ∧ k' y.1.1 y.1.2 y.2 = Some x) →
  ∀ fuel p s c x,
    Re.star_loop body k fuel p s c = Some x →
    ∃ y, rtc P (p, s, c) y ∧ k y.1.1 y.1.2 y.2 = Some x.
Proof.
  intros Hbody. induction fuel as [|fuel IH]; intros p s c x H; simpl in H.
  - exists (p, s, c). split; [apply rtc_refl | done].
  - destruct (body p s c _) as [x'|] eqn:E.
    + injection H as ->.
      apply Hbody in E as (m & Hm & Hk).
      destruct (_ <? _)%nat; [|done].
      apply IH in Hk as (y & Hy & Hk).
      exists y. split; [|done]. eapply rtc_l; eauto.
      by destruct m as [[??]?].
    + exists (p, s, c). split; [apply rtc_refl | done].
Qed.

Lemma run_sound r : ∀ {R} p s c (k : Re.cont R) x,
  Re.run r p s c k = Some x →
  ∃ y, Re.post r (p, s, c) y ∧ k y.1.1 y.1.2 y.2 = Some x.
Proof.
  induction r as [|a|q|r1 IH1 r2 IH2|r1 IH1 r2 IH2|r IH|n r IH| |];
    intros R p s c k x H; simpl in H.
  - by exists (p, s, c).
  - destruct s as [|ch s']; [done|].
    destruct (Ascii.eqb_spec (Py.lower ch) (Py.lower a)) as [E|]; [|done].
    exists (Some ch, s', c). split; [|done]. simpl. by exists ch.
  - destruct s as [|ch s']; [done|].
    destruct (q ch) eqn:E; [|done].
    exists (Some ch, s', c). split; [|done]. simpl. by exists ch.
  - apply IH1 in H as (m & Hm & H). apply IH2 in H as (y & Hy & H).
    exists y. split; [|done]. simpl. exists m. by destruct m as [[??]?].
  - destruct (Re.run r1 p s c k) as [x'|] eqn:E.
    + injection H as ->. apply IH1 in E as (y & Hy & H).
      exists y. split; [by left | done].
    + apply IH2 in H as (y & Hy & H). exists y. split; [by right | done].
  - eapply star_loop_sound in H as (y & Hy & H); [|apply IH].
    by exists y.
  - apply IH in H as (m & Hm & H). destruct m as [[p' s'] c'].
    exists (p', s', <[n := Re.consumed s s']> c'). split; [|done].
    simpl. by exists c'.
  - destruct (Re.at_end s) eqn:E; [|done]. by exists (p, s, c).
  - destruct (xorb _ _) eqn:E; [|done]. by exists (p, s, c).
Qed.

Lemma post_no_groups r : ∀ x y,
  Re.no_groups r = true → Re.post r x y → y.2 = x.2.
Proof.
  induction r as [|a|q|r1 IH1 r2 IH2|r1 IH1 r2 IH2|r IH|n r IH| |];
    intros x y Hng H; simpl in *; try done.
  - by subst.
  - by destruct H as (? & _ & _ & _ & ?).
  - by destruct H as (? & _ & _ & _ & ?).
  - apply andb_true_iff in Hng as [H1 H2]. destruct H as (m & Hm & Hy).
    rewrite (IH2 _ _ H2 Hy). by apply IH1.
  - apply andb_true_iff in Hng as [H1 H2]. destruct H; auto.
  - induction H as [|x m y Hxm _ IHrtc]; [done|].
    rewrite IHrtc. by apply IH.
  - by destruct H as [-> _].
  - by destruct H as [-> _].
Qed.

Lemma post_star_cls q x y :
  rtc (Re.post (Re.Cls q)) x y →
  ∃ u, Py.all q u = true ∧ x.1.2 = u +:+ y.1.2 ∧ y.2 = x.2.
Proof.
  induction 1 as [x|x m y Hxm _ (u & Hu & Hs & Hc)].
  - by exists "".
  - destruct Hxm as (ch & Hx & Hq & _ & Hc').
    exists (String ch u). simpl. rewrite Hq, Hu, Hx, Hs, Hc, Hc'. done.
Qed.

Lemma post_plus_cls q x y :
  Re.post (Re.Plus (Re.Cls q)) x y →
  ∃ u, u ≠ "" ∧ Py.all q u = true ∧ x.1.2 = u +:+ y.1.2 ∧ y.2 = x.2.
Proof.
  intros (m & (ch & Hx & Hq & _ & Hc') & Hstar).
  apply post_star_cls in Hstar as (u & Hu & Hs & Hc).
  exists (String ch u). simpl. rewrite Hq, Hu, Hx, Hs, Hc, Hc'. done.
Qed.

(** ** Substitution of a word that does not occur *)

Lemma match_at_word_none w p t :
  ci_prefix w t = false →
  Re.match_at (Re.Seq [Re.Wordb; Re.Lit w; Re.Wordb]) p t = None.
Proof.
  intros H. unfold Re.match_at. cbn [Re.Seq].
  rewrite run_Cat, run_Wordb.
  destruct (xorb _ _); [|done].
  rewrite run_Cat. by apply run_Lit_none.
Qed.

Lemma sub_go_word_id w repl s : ∀ fuel p,
  nowhere w s = true →
  Re.sub_go fuel (Re.Seq [Re.Wordb; Re.Lit w; Re.Wordb]) repl p s = s.
Proof.
  induction s as [|a s IH]; intros [|fuel] p H; try done.
  - simpl in H. apply andb_true_iff in H as [H _]. apply negb_true_iff in H.
    cbn [Re.sub_go]. by rewrite match_at_word_none.
  - simpl in H. apply andb_true_iff in H as [H Hs]. apply negb_true_iff in H.
    cbn [Re.sub_go]. rewrite match_at_word_none by done.
    by rewrite IH.
Qed.

Lemma sub_word_id w repl s :
  nowhere w s = true → Re.sub (Re.Seq [Re.Wordb; Re.Lit w; Re.Wordb]) repl s = s.
Proof. apply sub_go_word_id. Qed.

Lemma nowhere_lower w s : nowhere w (Py.lower_str s) = nowhere w s.
Proof.
  induction s as [|a s IH]; [done|].
  change (Py.lower_str (String a s)) with (String (Py.lower a) (Py.lower_str s)).
  cbn [nowhere]. rewrite IH. f_equal. f_equal.
  unfold ci_prefix.
  change (String (Py.lower a) (Py.lower_str s)) with (Py.lower_str (String a s)).
  by rewrite lower_str_idem.
Qed.

Lemma nowhere_skip a w u v :
  Py.all (fun b => negb (Ascii.eqb (Py.lower b) (Py.lower a))) u = true →
  nowhere (String a w) (u +:+ v) = nowhere (String a w) v.
Proof.
  induction u as [|b u IH]; [done|]. simpl Py.all.
  intros [Hb Hu]%andb_true_iff.
  change (String b u +:+ v) with (String b (u +:+ v)).
  cbn [nowhere]. rewrite IH by done.
  unfold ci_prefix. simpl.
  apply negb_true_iff in Hb.
  destruct (ascii_dec (Py.lower a) (Py.lower b)) as [E|_]; [|done].
  rewrite E, Ascii.eqb_refl in Hb. done.
Qed.

(** ** Texts of the form [every N unit] *)

Lemma unit_length_cases u len :
  unit_length u = Some len →
  (u = "second" ∧ len = 1) ∨ (u = "seconds" ∧ len = 1)
  ∨ (u = "minute" ∧ len = 60) ∨ (u = "minutes" ∧ len = 60)
  ∨ (u = "hour" ∧ len = 3600) ∨ (u = "hours" ∧ len = 3600).
Proof.
  unfold unit_length. cbn -[String.eqb].
  repeat match goal with
         | |- context [String.eqb ?a u] =>
             destruct (String.eqb_spec a u) as [<-|_];
             [cbn; intros [= <-]; tauto|]
         end.
  done.
Qed.

Lemma unit_first_letter U len :
  unit_length (Py.lower_str U) = Some len →
  ∃ a U', U = String a U' ∧ Py.is_space a = false ∧ Py.is_digit a = false.
Proof.
  intros HU. apply unit_length_cases in HU.
  assert (∃ b w, Py.lower_str U = String b w ∧ Py.is_lower b = true)
    as (b & w & H & Hb).
  { destruct HU as [[-> _]|[[-> _]|[[-> _]|[[-> _]|[[-> _]|[-> _]]]]]]; eauto. }
  apply lower_str_cons_inv in H as (a & U' & -> & Ha & _).
  exists a, U'. split; [done|]. subst b. revert Hb. clear.
  destruct a as [[] [] [] [] [] [] [] []]; done.
Qed.

Lemma unit_ends_solid U len :
  unit_length (Py.lower_str U) = Some len → ends_solid U.
Proof.
  intros HU. apply unit_length_cases in HU.
  pose proof (last_char_lower U None) as HL. simpl in HL.
  assert (∃ b, Re.last_char None (Py.lower_str U) = Some b
               ∧ Py.is_space b = false) as (b & Hb & Hsp).
  { destruct HU as [[-> _]|[[-> _]|[[-> _]|[[-> _]|[[-> _]|[-> _]]]]]];
      simpl; eauto. }
  rewrite Hb in HL. destruct (Re.last_char None U) as [a|] eqn:Ea; [|done].
  exists a. split; [done|]. injection HL as ->. by rewrite lower_is_space in Hsp.
Qed.

Lemma unit_nowhere w U len :
  w = "midnight" ∨ w = "noon" →
  unit_length (Py.lower_str U) = Some len → nowhere w U = true.
Proof.
  intros Hw HU. rewrite <- nowhere_lower.
  apply unit_length_cases in HU.
  destruct Hw as [-> | ->];
    destruct HU as [[-> _]|[[-> _]|[[-> _]|[[-> _]|[[-> _]|[-> _]]]]]];
    vm_compute; reflexivity.
Qed.

Lemma lookup_unit U len :
  unit_length (Py.lower_str U) = Some len →
  lookup_str (Py.rstrip_char "s" (Py.lower_str U)) unit_seconds = Ok len.
Proof.
  intros HU. apply unit_length_cases in HU.
  destruct HU as [[H ?]|[[H ?]|[[H ?]|[[H ?]|[[H ?]|[H ?]]]]]];
    subst len; rewrite H; reflexivity.
Qed.

Lemma lookup_unit_values u len :
  lookup_str u unit_seconds = Ok len → len = 1 ∨ len = 60 ∨ len = 3600.
Proof.
  unfold lookup_str, unit_seconds. cbn -[String.eqb].
  repeat match goal with
         | |- context [String.eqb ?a u] =>
             destruct (String.eqb a u); [cbn; intros [= <-]; tauto|]
         end.
  done.
Qed.

Lemma run_units {R} U len p c (k : Re.cont R) x :
  unit_length (Py.lower_str U) = Some len →
  k (Re.last_char p U) "" c = Some x →
  Re.run NLSchedule.re_units p U c k = Some x.
Proof.
  intros H Hk. unfold NLSchedule.re_units. cbn [Re.Alts].
  apply unit_length_cases in H as [[H _]|[[H _]|[[H _]|[[H _]|[[H _]|[H _]]]]]].
  - rewrite run_Alt, (run_word_opt_s "second" U p c k x); auto.
  - rewrite run_Alt, (run_word_opt_s "second" U p c k x); auto.
  - pose proof H as H'. apply lower_str_cons_inv in H' as (a & U' & -> & Ha & _).
    rewrite run_Alt, run_word_mismatch by (by rewrite Ha).
    rewrite run_Alt, (run_word_opt_s "minute" _ p c k x); auto.
  - pose proof H as H'. apply lower_str_cons_inv in H' as (a & U' & -> & Ha & _).
    rewrite run_Alt, run_word_mismatch by (by rewrite Ha).
    rewrite run_Alt, (run_word_opt_s "minute" _ p c k x); auto.
  - pose proof H as H'. apply lower_str_cons_inv in H' as (a & U' & -> & Ha & _).
    rewrite run_Alt, run_word_mismatch by (by rewrite Ha).
    rewrite run_Alt, run_word_mismatch by (by rewrite Ha).
    rewrite (run_word_opt_s "hour" _ p c k x); auto.
  - pose proof H as H'. apply lower_str_cons_inv in H' as (a & U' & -> & Ha & _).
    rewrite run_Alt, run_word_mismatch by (by rewrite Ha).
    rewrite run_Alt, run_word_mismatch by (by rewrite Ha).
    rewrite (run_word_opt_s "hour" _ p c k x); auto.
Qed.

Lemma match_every_n E w1 ds w2 U len :
  Py.lower_str E = "every" →
  w1 ≠ "" → Py.all Py.is_space w1 = true →
  ds ≠ "" → Py.all Py.is_digit ds = true →
  w2 ≠ "" → Py.all Py.is_space w2 = true →
  unit_length (Py.lower_str U) = Some len →
  Re.match_ re_every_n (E +:+ w1 +:+ ds +:+ w2 +:+ U)
  = Some (<[2%nat := U]> (<[1%nat := ds]> ∅), "").
Proof.
  intros HE Hw1n Hw1s Hdsn Hdsd Hw2n Hw2s HU.
  destruct (unit_first_letter U len HU) as (a & U' & HUa & Hasp & Hadg).
  unfold Re.match_, re_every_n. cbn [Re.Seq].
  rewrite run_Cat, (run_Lit "every" E) by done.
  rewrite run_Cat. apply run_Plus_cls; [done..| |].
  { eapply stops_head; eauto using digit_not_space. }
  rewrite run_Cat, run_Grp. apply run_Plus_cls; [done..| |].
  { eapply stops_head; eauto using space_not_digit. }
  rewrite run_Cat. apply run_Plus_cls; [done..| |].
  { rewrite HUa. done. }
  rewrite run_Grp. eapply run_units; [done|].
  by rewrite consumed_app, consumed_all.
Qed.

Lemma every_n_nowhere b w E w1 ds w2 U len :
  String b w = "midnight" ∨ String b w = "noon" →
  Py.lower_str E = "every" →
  Py.all Py.is_space w1 = true → Py.all Py.is_digit ds = true →
  Py.all Py.is_space w2 = true →
  unit_length (Py.lower_str U) = Some len →
  nowhere (String b w) (E +:+ w1 +:+ ds +:+ w2 +:+ U) = true.
Proof.
  intros Hw HE H1 Hd H2 HU.
  assert (Hb : Py.is_lower b = true).
  { destruct Hw as [[= -> _]|[= -> _]]; done. }
  rewrite <- nowhere_lower, !lower_str_app, HE.
  rewrite (lower_str_fixed Py.is_space w1) by auto using lower_space.
  rewrite (lower_str_fixed Py.is_digit ds) by auto using lower_digit.
  rewrite (lower_str_fixed Py.is_space w2) by auto using lower_space.
  rewrite nowhere_skip.
  2:{ destruct Hw as [[= -> _]|[= -> _]]; done. }
  rewrite nowhere_skip.
  2:{ eapply all_impl; [|exact H1]. intros a. by apply space_not_letter. }
  rewrite nowhere_skip.
  2:{ eapply all_impl; [|exact Hd]. intros a. by apply digit_not_letter. }
  rewrite nowhere_skip.
  2:{ eapply all_impl; [|exact H2]. intros a. by apply space_not_letter. }
  rewrite nowhere_lower. eapply unit_nowhere; eauto.
Qed.

Lemma normalise_every_n l E w1 ds w2 U t len :
  Py.all Py.is_space l = true → Py.all Py.is_space t = true →
  Py.lower_str E = "every" →
  Py.all Py.is_space w1 = true → Py.all Py.is_digit ds = true →
  Py.all Py.is_space w2 = true →
  unit_length (Py.lower_str U) = Some len →
  normalise (l +:+ (E +:+ w1 +:+ ds +:+ w2 +:+ U) +:+ t)
  = E +:+ w1 +:+ ds +:+ w2 +:+ U.
Proof.
  intros Hl Ht HE H1 Hd H2 HU. unfold normalise.
  rewrite strip_core; auto.
  - unfold re_midnight, re_noon.
    rewrite (sub_word_id "midnight") by (eapply every_n_nowhere; eauto).
    rewrite (sub_word_id "noon") by (eapply every_n_nowhere; eauto).
    done.
  - apply lower_str_cons_inv in HE as (a & E' & -> & Ha & _). simpl.
    revert Ha. clear. destruct a as [[] [] [] [] [] [] [] []]; done.
  - destruct (unit_first_letter U len HU) as (a & U' & HUa & _).
    rewrite <- !app_assoc_s. apply ends_solid_app; [by rewrite HUa|].
    by eapply unit_ends_solid.
Qed.

Lemma parse_every_n l E w1 ds w2 U t len :
  Py.all Py.is_space l = true → Py.all Py.is_space t = true →
  Py.lower_str E = "every" →
  w1 ≠ "" → Py.all Py.is_space w1 = true →
  ds ≠ "" → Py.all Py.is_digit ds = true →
  w2 ≠ "" → Py.all Py.is_space w2 = true →
  unit_length (Py.lower_str U) = Some len →
  parse (l +:+ (E +:+ w1 +:+ ds +:+ w2 +:+ U) +:+ t)
  = Ok (Interval (Py.decimal 0 ds * len)).
Proof.
  intros. unfold parse.
  erewrite normalise_every_n by eauto.
  erewrite match_every_n by eauto.
  unfold group.
  rewrite (lookup_insert_ne _ 2%nat 1%nat) by done.
  rewrite !lookup_insert_eq.
  cbn [of_option mbind result_bind].
  rewrite int_digits by done. cbn [mbind result_bind].
  erewrite lookup_unit by eauto. reflexivity.
Qed.

Lemma every_n_group1 text c rest :
  Re.match_ re_every_n text = Some (c, rest) →
  ∃ ds, c !! 1%nat = Some ds ∧ ds ≠ "" ∧ Py.all Py.is_digit ds = true.
Proof.
  unfold Re.match_. intros H.
  apply run_sound in H as (y & Hpost & Hy). injection Hy as <- _.
  unfold re_every_n in Hpost. cbn [Re.Seq Re.post] in Hpost.
  destruct Hpost as (m1 & _ & m2 & _ & m3 & H3 & m4 & H4 & c0 & H5 & ->).
  destruct H3 as (c1 & H3 & Hc3).
  apply (post_plus_cls Py.is_digit) in H3 as (ds & Hne & Hd & Hs & _).
  simpl in Hs. rewrite Hs, consumed_app in Hc3.
  apply (post_plus_cls Py.is_space) in H4 as (_ & _ & _ & _ & Hc4).
  apply post_no_groups in H5; [|done]. simpl in H5.
  exists ds. split; [|done].
  rewrite lookup_insert_ne by done. rewrite H5, Hc4, Hc3.
  apply lookup_insert_eq.
Qed.

Ltac step_bind H :=
  match type of H with
  | (?x ≫= _) = Ok _ =>
      let E := fresh "E" in
      destruct x eqn:E; cbn [mbind result_bind] in H; [|discriminate H]
  | (let '(_, _) := ?p in _) = _ => destruct p
  | (match ?p with (_, _) => _ end) = _ => destruct p
  end.

Lemma parse_interval_shape text s :
  parse text = Ok (Interval s) →
  ∃ n len, 0 ≤ n ∧ (len = 1 ∨ len = 60 ∨ len = 3600) ∧ s = n * len.
Proof.
  unfold parse. intros H.
  destruct (Re.match_ re_every_n _) as [[c rest]|] eqn:E1.
  { apply every_n_group1 in E1 as (ds & Hc & Hne & Hd).
    unfold group in H. rewrite Hc in H. cbn [of_option mbind result_bind] in H.
    rewrite int_digits in H by done. cbn [mbind result_bind] in H.
    repeat step_bind H. injection H as <-.
    exists (Py.decimal 0 ds), a0. split; [by apply decimal_nonneg|].
    split; [by eapply lookup_unit_values | done]. }
  destruct (Re.match_ re_every_hour _) as [?|].
  { injection H as <-. exists 1, 3600. lia. }
  destruct (Re.match_ re_every_dow _) as [[c rest]|].
  { repeat step_bind H. discriminate H. }
  destruct (Re.match_ re_every_day _) as [[c rest]|].
  { repeat step_bind H. discriminate H. }
  destruct (Re.match_ re_every_dows _) as [[c rest]|].
  { repeat step_bind H. discriminate H. }
  destruct (Re.match_ re_first_day _) as [[c rest]|].
  { repeat step_bind H. discriminate H. }
  discriminate H.
Qed.

(** ** The schedule compiler *)

Lemma written_in_app A s t :
  written_in A (s +:+ t) = written_in A s && written_in A t.
Proof. unfold written_in. by rewrite lower_str_app, all_app. Qed.

Lemma written_in_word A W w :
  Py.lower_str W = w → written_in A w = true → written_in A W = true.
Proof.
  intros <-. unfold written_in. by rewrite lower_str_idem.
Qed.

Lemma written_in_spaces A s :
  Py.all Py.is_space s = true → written_in A s = true.
Proof.
  intros H. unfold written_in.
  rewrite (lower_str_fixed Py.is_space) by auto using lower_space.
  eapply all_impl; [|exact H]. by intros a ->.
Qed.

Lemma written_in_digits A s :
  Py.all Py.is_digit s = true → written_in A s = true.
Proof.
  intros H. unfold written_in.
  rewrite (lower_str_fixed Py.is_digit) by auto using lower_digit.
  eapply all_impl; [|exact H]. intros a ->. by rewrite orb_true_r.
Qed.

Lemma written_in_gap A w : gap w → written_in A w = true.
Proof. intros [_ H]. by apply written_in_spaces. Qed.

Lemma written_in_unit U len :
  unit_length (Py.lower_str U) = Some len →
  written_in interval_letters U = true.
Proof.
  intros H.
  apply unit_length_cases in H as [[H _]|[[H _]|[[H _]|[[H _]|[[H _]|[H _]]]]]];
    by apply (written_in_word _ _ _ H).
Qed.

Lemma written_in_day D : day_name D → written_in timed_letters D = true.
Proof.
  unfold day_name. intros H.
  repeat (apply elem_of_cons in H as [H|H];
          [by apply (written_in_word _ _ _ H)|]).
  by apply elem_of_nil in H.
Qed.

Lemma written_in_time T : time_phrase T → written_in timed_letters T = true.
Proof.
  intros [t (Hh & _ & Hm & Ha)|W [H|H]].
  - unfold time_text. rewrite !written_in_app, written_in_digits by done.
    destruct (minute_digits t) as [m|].
    + destruct (Hm m eq_refl) as [Hd _].
      rewrite written_in_app, (written_in_digits _ m Hd).
      destruct (am_pm t) as [[g a]|]; [|done].
      destruct (Ha g a eq_refl) as [Hg [Hl|Hl]];
        by rewrite written_in_app, (written_in_spaces _ g Hg),
             (written_in_word _ a _ Hl).
    + destruct (am_pm t) as [[g a]|]; [|done].
      destruct (Ha g a eq_refl) as [Hg [Hl|Hl]];
        by rewrite written_in_app, (written_in_spaces _ g Hg),
             (written_in_word _ a _ Hl).
  - by apply (written_in_word _ _ _ H).
  - by apply (written_in_word _ _ _ H).
Qed.

Lemma written_in_sep s : sep_ok s → written_in timed_letters (sep_text s) = true.
Proof.
  intros (Hs & Hc & Ha). unfold sep_text.
  rewrite !written_in_app, (written_in_spaces _ _ Hs).
  destruct (sep_comma s) as [sp|].
  - rewrite written_in_app, (written_in_spaces _ sp (Hc sp eq_refl)).
    destruct (sep_and s) as [[a g]|]; [|done].
    destruct (Ha a g eq_refl) as [Hl Hg].
    by rewrite written_in_app, (written_in_word _ a _ Hl), (written_in_gap _ g Hg).
  - destruct (sep_and s) as [[a g]|]; [|done].
    destruct (Ha a g eq_refl) as [Hl Hg].
    by rewrite written_in_app, (written_in_word _ a _ Hl), (written_in_gap _ g Hg).
Qed.

Lemma written_in_more_days items :
  Forall (fun i => sep_ok i.1 ∧ day_name i.2) items →
  written_in timed_letters (more_days items) = true.
Proof.
  induction 1 as [|[s D] items [Hs HD] _ IH]; [done|].
  cbn [more_days]. simpl in Hs, HD.
  by rewrite !written_in_app, (written_in_sep s Hs), (written_in_day D HD), IH.
Qed.

Lemma written_in_first_day f :
  first_day_words_ok f → written_in timed_letters (first_day_text f) = true.
Proof.
  intros (Hon & Hf & H1 & Hd & H2 & Ho & H3 & He & Hm). unfold first_day_text.
  rewrite !written_in_app.
  rewrite (written_in_word _ _ _ Hf), (written_in_word _ _ _ Hd),
    (written_in_word _ _ _ Ho), (written_in_word _ _ _ Hm),
    (written_in_gap _ _ H1), (written_in_gap _ _ H2), (written_in_gap _ _ H3)
    by done.
  destruct (on_the f) as [[[[o g1] t] g2]|].
  - destruct (Hon o g1 t g2 eq_refl) as (Hl1 & Hg1 & Hl2 & Hg2).
    rewrite !written_in_app, (written_in_word _ _ _ Hl1),
      (written_in_word _ _ _ Hl2), (written_in_gap _ _ Hg1),
      (written_in_gap _ _ Hg2) by done.
    destruct (every_word f) as [[e g]|]; [|done].
    destruct (He e g eq_refl) as [Hl Hg].
    by rewrite written_in_app, (written_in_word _ _ _ Hl), (written_in_gap _ _ Hg).
  - destruct (every_word f) as [[e g]|]; [|done].
    destruct (He e g eq_refl) as [Hl Hg].
    by rewrite written_in_app, (written_in_word _ _ _ Hl), (written_in_gap _ _ Hg).
Qed.

(** A text of one of the forms is written in the letters of the interval
    forms, or in the characters of the forms with a time of day. *)
Lemma form_letters core :
  form core →
  written_in interval_letters core = true
  ∨ written_in timed_letters core = true.
Proof.
  intros [E w1 N w2 U len HE H1 [_ HN] H2 HU
         |E w1 H HE H1 HH
         |E w1 D w2 A w3 T HE H1 HD H2 HA H3 HT
         |E w1 D w2 A w3 T HE H1 HD H2 HA H3 HT
         |E w1 D items w2 A w3 T HE H1 HD Hi H2 HA H3 HT
         |f w4 A w5 T Hf H4 HA H5 HT].
  - left. by rewrite !written_in_app, (written_in_word _ _ _ HE),
      (written_in_digits _ _ HN), (written_in_unit _ _ HU),
      (written_in_gap _ _ H1), (written_in_gap _ _ H2).
  - left. by rewrite !written_in_app, (written_in_word _ _ _ HE),
      (written_in_word _ _ _ HH), (written_in_gap _ _ H1).
  - right. by rewrite !written_in_app, (written_in_word _ _ _ HE),
      (written_in_word _ _ _ HA), (written_in_day _ HD),
      (written_in_time _ HT), (written_in_gap _ _ H1),
      (written_in_gap _ _ H2), (written_in_gap _ _ H3).
  - right. by rewrite !written_in_app, (written_in_word _ _ _ HE),
      (written_in_word _ _ _ HD), (written_in_word _ _ _ HA),
      (written_in_time _ HT), (written_in_gap _ _ H1),
      (written_in_gap _ _ H2), (written_in_gap _ _ H3).
  - right. by rewrite !written_in_app, (written_in_word _ _ _ HE),
      (written_in_word _ _ _ HA), (written_in_day _ HD),
      (written_in_more_days _ Hi), (written_in_time _ HT),
      (written_in_gap _ _ H1), (written_in_gap _ _ H2),
      (written_in_gap _ _ H3).
  - right. by rewrite !written_in_app, (written_in_word _ _ _ HA),
      (written_in_first_day _ Hf), (written_in_time _ HT),
      (written_in_gap _ _ H4), (written_in_gap _ _ H5).
Qed.

Lemma recognised_letters text :
  recognised text →
  written_in interval_letters text = true
  ∨ written_in timed_letters text = true.
Proof.
  intros (l & core & t & -> & Hl & Ht & Hf).
  rewrite !written_in_app, !(written_in_spaces _ l Hl),
    !(written_in_spaces _ t Ht), !andb_true_r.
  by apply form_letters.
Qed.

Ltac words_ok :=
  repeat split; simpl; try done; intros; simpl in *; simplify_eq;
  repeat split; try done; try (by left); try (by right).

(** The texts of the forms are recognised: samples of each. *)
Example recognised_samples :
  recognised "every 10 minutes" ∧ recognised "  Every Hour "
  ∧ recognised "every monday at 9 AM" ∧ recognised "every day at 9:30pm"
  ∧ recognised "every monday, wednesday and friday at 17:00"
  ∧ recognised "first day of every month at midnight".
Proof.
  repeat split.
  - exists "", "every 10 minutes", "". repeat split.
    by apply (every_n_units "every" " " "10" " " "minutes" 60).
  - exists "  ", "Every Hour", " ". repeat split.
    by apply (every_hour "Every" " " "Hour").
  - exists "", "every monday at 9 AM", "". repeat split.
    apply (every_weekday_at "every" " " "monday" " " "at" " "); try done.
    + unfold day_name. set_solver.
    + apply (time_in_digits {| hour_digits := "9"; minute_digits := None;
                               am_pm := Some (" ", "AM") |}).
      words_ok.
  - exists "", "every day at 9:30pm", "". repeat split.
    apply (every_day_at "every" " " "day" " " "at" " "); try done.
    apply (time_in_digits {| hour_digits := "9"; minute_digits := Some "30";
                             am_pm := Some ("", "pm") |}).
    words_ok.
  - exists "", "every monday, wednesday and friday at 17:00", "". repeat split.
    apply (every_weekdays_at "every" " " "monday"
             [({| sep_space := ""; sep_comma := Some " "; sep_and := None |},
               "wednesday");
              ({| sep_space := " "; sep_comma := None;
                  sep_and := Some ("and", " ") |}, "friday")]
             " " "at" " "); try done.
    + unfold day_name. set_solver.
    + repeat constructor; simpl; try done; try (unfold day_name; set_solver);
        intros; simpl in *; simplify_eq; done.
    + apply (time_in_digits {| hour_digits := "17"; minute_digits := Some "00";
                               am_pm := None |}).
      words_ok.
  - exists "", "first day of every month at midnight", "". repeat split.
    apply (first_day_at
             {| on_the := None; first_word := "first"; gap_1 := " ";
                day_word := "day"; gap_2 := " "; of_word := "of"; gap_3 := " ";
                every_word := Some ("every", " "); month_word := "month" |}
             " " "at" " " "midnight"); try done.
    + repeat split; simpl; try done; intros; simpl in *; simplify_eq; done.
    + apply time_synonym. by left.
Qed.

(** C6, where the code departs from it. The pattern of the first form is
    the only one without an end anchor, so a text that merely starts like
    [every N unit] compiles to an interval whatever follows: neither
    [every 5 minutesXYZ] nor [every 10 minutes and 30 seconds] is of any
    of the six forms, and the compiler answers the interval of 300 and of
    600 seconds instead of raising [ValueError]. *)
Theorem trailing_text_compiles :
  ¬ recognised "every 5 minutesXYZ"
  ∧ parse "every 5 minutesXYZ" = Ok (Interval 300)
  ∧ ¬ recognised "every 10 minutes and 30 seconds"
  ∧ parse "every 10 minutes and 30 seconds" = Ok (Interval 600).
Proof.
  split; [|split; [|split]].
  - intros [H|H]%recognised_letters; vm_compute in H; discriminate H.
  - vm_compute. reflexivity.
  - intros [H|H]%recognised_letters; vm_compute in H; discriminate H.
  - vm_compute. reflexivity.
Qed.

(** C9, as the code has it. An interval rule that compilation returns has
    a non-negative number of seconds: a number [N >= 0] times a unit
    length of 1, 60 or 3600; it is positive exactly when [N] is not
    zero. *)
Theorem compiled_interval_nonneg text s :
  parse text = Ok (Interval s) →
  ∃ n len, 0 ≤ n ∧ (len = 1 ∨ len = 60 ∨ len = 3600) ∧ s = n * len
           ∧ 0 ≤ s ∧ (0 < s ↔ 0 < n).
Proof.
  intros H. apply parse_interval_shape in H as (n & len & Hn & Hlen & ->).
  exists n, len. repeat split; auto; try nia.
Qed.

Lemma compiled_interval_nonneg_witness :
  ∃ n len, 0 ≤ n ∧ (len = 1 ∨ len = 60 ∨ len = 3600) ∧ 300 = n * len
           ∧ 0 ≤ 300 ∧ (0 < 300 ↔ 0 < n).
Proof. apply (compiled_interval_nonneg "every 5 minutes" 300). reflexivity. Defined.

(** C9, as stated, fails: [every 0 seconds] compiles to an interval of
    zero seconds. *)
Lemma compiled_interval_zero :
  ¬ (∀ text s, parse text = Ok (Interval s) → 0 < s).
Proof.
  intros H. specialize (H "every 0 seconds" 0 eq_refl). lia.
Qed.

(** ** Cron fields *)

Lemma numeral_int s : numeral s → Py.int s = Ok (value s).
Proof. intros [??]. by apply int_digits. Qed.

Lemma numeral_contains a s :
  Py.is_digit a = false → numeral s → Py.contains a s = false.
Proof. intros Ha [_ H]. by eapply contains_all. Qed.

Lemma numeral_not_star s : numeral s → String.eqb s "*" = false.
Proof.
  intros [Hne H]. destruct s as [|a s]; [done|]. simpl in H.
  apply andb_true_iff in H as [Ha _].
  destruct (String.eqb_spec (String a s) "*") as [[= -> _]|]; done.
Qed.

Lemma numeral_solid s : numeral s → solid s.
Proof.
  intros [Hne H]. split; [done|]. eapply all_impl; [|exact H].
  intros a Ha. by rewrite (digit_not_space a Ha).
Qed.

Lemma range3_up start stop k x :
  0 < k →
  x ∈ (fun i => start + i * k) <$> seqZ 0 ((stop - start + k - 1) `div` k)
  ↔ ∃ i, 0 ≤ i ∧ x = start + i * k ∧ x < stop.
Proof.
  intros Hk. rewrite list_elem_of_fmap.
  set (q := (stop - start + k - 1) `div` k).
  assert (Hq1 : k * q ≤ stop - start + k - 1) by (apply Z.mul_div_le; lia).
  assert (Hq2 : ∀ i, k * (i + 1) ≤ stop - start + k - 1 → i + 1 ≤ q).
  { intros i Hi. apply Z.div_le_lower_bound; lia. }
  split.
  - intros (i & -> & Hi). apply elem_of_seqZ in Hi.
    exists i. split; [lia|]. split; [done|]. nia.
  - intros (i & Hi & -> & Hlt). exists i. split; [done|].
    apply elem_of_seqZ. specialize (Hq2 i). nia.
Qed.

Lemma parse_part_spec lo hi p :
  part_ok p →
  ∃ S, _parse_cron_part (part_text p) lo hi = Ok S
       ∧ ∀ x, x ∈ S ↔ part_denotes lo hi p x.
Proof.
  destruct p as [n|a b|[b|] step|]; simpl; unfold _parse_cron_part.
  - intros Hn.
    rewrite (numeral_contains "/" n), (numeral_contains "-" n),
      numeral_not_star, numeral_int by done.
    eexists. split; [reflexivity|]. intros x. apply elem_of_singleton.
  - intros [Ha Hb].
    change (a +:+ "-" +:+ b) with (a +:+ String "-" b).
    rewrite (contains_app "/"). cbn [Py.contains].
    rewrite (numeral_contains "/" a), (numeral_contains "/" b) by done.
    rewrite (contains_app "-"). cbn [Py.contains].
    rewrite Ascii.eqb_refl, orb_true_r.
    cbn [orb Ascii.eqb Bool.eqb].
    rewrite split_once_app by (by apply numeral_contains).
    rewrite !numeral_int by done. cbn [mbind result_bind].
    eexists. split; [reflexivity|]. intros x.
    rewrite elem_of_list_to_set. unfold Py.range. rewrite elem_of_seqZ. lia.
  - intros (Hb & Hs & Hpos).
    change (b +:+ "/" +:+ step) with (b +:+ String "/" step).
    rewrite (contains_app "/"). cbn [Py.contains].
    rewrite Ascii.eqb_refl, orb_true_r.
    rewrite split_once_app by (by apply numeral_contains).
    rewrite numeral_not_star, !numeral_int by done. cbn [mbind result_bind].
    unfold Py.range3.
    replace (value step =? 0) with false by (symmetry; apply Z.eqb_neq; lia).
    replace (0 <? value step) with true by (symmetry; apply Z.ltb_lt; lia).
    cbn [mbind result_bind].
    eexists. split; [reflexivity|]. intros x.
    rewrite elem_of_list_to_set, range3_up by done.
    split; intros (i & ? & ? & ?); exists i; repeat split; auto; lia.
  - intros (Hs & Hpos).
    cbn [Py.contains Py.split_once Ascii.eqb Bool.eqb orb String.eqb].
    rewrite !numeral_int by done. cbn [mbind result_bind].
    unfold Py.range3.
    replace (value step =? 0) with false by (symmetry; apply Z.eqb_neq; lia).
    replace (0 <? value step) with true by (symmetry; apply Z.ltb_lt; lia).
    cbn [mbind result_bind].
    eexists. split; [reflexivity|]. intros x.
    rewrite elem_of_list_to_set, range3_up by done.
    split; intros (i & ? & ? & ?); exists i; repeat split; auto; lia.
  - intros _. cbn -[Py.range].
    eexists. split; [reflexivity|]. intros x.
    rewrite elem_of_list_to_set. unfold Py.range. rewrite elem_of_seqZ. lia.
Qed.

Lemma part_text_no_comma p : part_ok p → Py.contains "," (part_text p) = false.
Proof.
  destruct p as [n|a b|[b|] step|]; simpl.
  - by apply numeral_contains.
  - intros [Ha Hb]. change (a +:+ "-" +:+ b) with (a +:+ String "-" b).
    rewrite contains_app. cbn [Py.contains].
    by rewrite !numeral_contains.
  - intros (Hb & Hs & _). change (b +:+ "/" +:+ step) with (b +:+ String "/" step).
    rewrite contains_app. cbn [Py.contains].
    by rewrite !numeral_contains.
  - intros (Hs & _). cbn [Py.contains Ascii.eqb Bool.eqb orb].
    by rewrite numeral_contains.
  - done.
Qed.

Lemma part_text_solid p : part_ok p → solid (part_text p).
Proof.
  destruct p as [n|a b|[b|] step|]; simpl.
  - apply numeral_solid.
  - intros [Ha Hb]. apply solid_app; [by apply numeral_solid|].
    apply (solid_app "-"); [done | by apply numeral_solid].
  - intros (Hb & Hs & _). apply solid_app; [by apply numeral_solid|].
    apply (solid_app "/"); [done | by apply numeral_solid].
  - intros (Hs & _). apply (solid_app "*/"); [done | by apply numeral_solid].
  - done.
Qed.

Lemma parse_parts_spec lo hi ps : ∀ out,
  Forall part_ok ps →
  ∃ S, _parse_cron_parts (part_text <$> ps) lo hi out = Ok S
       ∧ ∀ x, x ∈ S ↔ x ∈ out ∨ field_denotes lo hi ps x.
Proof.
  induction ps as [|p ps IH]; intros out H.
  - exists out. split; [done|]. intros x. split; [auto|].
    intros [?|(p & Hp & _)]; [done|]. by apply elem_of_nil in Hp.
  - inversion H as [|?? Hp Hps]; subst.
    destruct (parse_part_spec lo hi p Hp) as (S1 & E1 & H1).
    destruct (IH (out ∪ S1) Hps) as (S & E & HS).
    exists S. split.
    + cbn [fmap list_fmap _parse_cron_parts]. rewrite E1. exact E.
    + intros x. rewrite HS, elem_of_union, H1. unfold field_denotes.
      split.
      * intros [[?|?]|(q & Hq & ?)]; eauto.
        -- right. exists p. split; [apply list_elem_of_here|done].
        -- right. exists q. split; [by apply list_elem_of_further|done].
      * intros [?|(q & Hq & Hd)]; [auto|].
        apply elem_of_cons in Hq as [->|Hq]; eauto.
Qed.

Lemma parse_field_spec lo hi ps :
  field_ok ps →
  ∃ S, _parse_cron_field (field_text ps) lo hi = Ok S
       ∧ ∀ x, x ∈ S ↔ field_denotes lo hi ps x.
Proof.
  intros [Hne Hok]. unfold _parse_cron_field, field_text.
  rewrite split_char_join.
  - destruct (parse_parts_spec lo hi ps ∅ Hok) as (S & E & HS).
    exists S. split; [done|]. intros x. rewrite HS.
    split; [intros [?|?]; [set_solver|done] | auto].
  - by destruct ps.
  - apply Forall_fmap. eapply Forall_impl; [exact Hok|].
    intros p Hp. by apply part_text_no_comma.
Qed.

Lemma join_comma_solid l : l ≠ [] → Forall solid l → solid (Py.join "," l).
Proof.
  intros Hne H. induction H as [|s l Hs Hl IH]; [done|].
  destruct l as [|s' l]; [done|].
  change (Py.join "," (s :: s' :: l)) with (s +:+ "," +:+ Py.join "," (s' :: l)).
  apply solid_app; [done|]. apply (solid_app ","); [done|]. by apply IH.
Qed.

Lemma field_text_solid ps : field_ok ps → solid (field_text ps).
Proof.
  intros [Hne Hok]. apply join_comma_solid.
  - by destruct ps.
  - apply Forall_fmap. eapply Forall_impl; [exact Hok|].
    intros p. apply part_text_solid.
Qed.

Lemma field_number n lo hi x : field_denotes lo hi [PNumber n] x ↔ x = value n.
Proof.
  unfold field_denotes. split.
  - intros (p & Hp & Hd). apply list_elem_of_singleton in Hp as ->. done.
  - intros ->. exists (PNumber n). split; [apply list_elem_of_here | done].
Qed.

Lemma field_star lo hi x : field_denotes lo hi [PStar] x ↔ lo ≤ x ≤ hi.
Proof.
  unfold field_denotes. split.
  - intros (p & Hp & Hd). apply list_elem_of_singleton in Hp as ->. done.
  - intros H. exists PStar. split; [apply list_elem_of_here | done].
Qed.

(** ** Cron rules against timestamps *)

Lemma cron_matches_spec mins hrs doms months dows dt :
  field_ok mins → field_ok hrs → field_ok doms → field_ok months →
  field_ok dows →
  ∃ b, _cron_matches (cron_rule_text mins hrs doms months dows) dt = Ok b
       ∧ (b = true ↔
          field_denotes 0 59 mins (minute dt)
          ∧ field_denotes 0 23 hrs (hour dt)
          ∧ field_denotes 1 31 doms (day dt)
          ∧ field_denotes 1 12 months (month dt)
          ∧ field_denotes 0 6 dows (cron_dow dt)).
Proof.
  intros H0 H1 H2 H3 H4. unfold _cron_matches, cron_rule_text.
  assert (Hsolid : Forall solid (field_text <$> [mins; hrs; doms; months; dows])).
  { repeat constructor; by apply field_text_solid. }
  rewrite strip_join, split_ws_join by done.
  cbn [fmap list_fmap index lookup list_lookup of_option mbind result_bind].
  destruct (parse_field_spec 0 59 mins H0) as (S0 & -> & HS0).
  destruct (parse_field_spec 0 23 hrs H1) as (S1 & -> & HS1).
  destruct (parse_field_spec 1 31 doms H2) as (S2 & -> & HS2).
  destruct (parse_field_spec 1 12 months H3) as (S3 & -> & HS3).
  destruct (parse_field_spec 0 6 dows H4) as (S4 & -> & HS4).
  cbn [mbind result_bind].
  eexists. split; [reflexivity|].
  rewrite !andb_true_iff, !bool_decide_eq_true.
  rewrite HS0, HS1, HS2, HS3, HS4. unfold cron_dow. tauto.
Qed.

Lemma days_in_month_bound y m : _days_in_month y m ≤ 31.
Proof.
  unfold _days_in_month. destruct (_ && _); [lia|].
  destruct (Z.to_nat (m - 1)) as [|[|[|[|[|[|[|[|[|[|[|[|n]]]]]]]]]]]];
    simpl; lia.
Qed.

Lemma valid_bounds dt :
  valid dt = true →
  1 ≤ month dt ≤ 12 ∧ 1 ≤ day dt ≤ 31 ∧ 0 ≤ hour dt ≤ 23 ∧ 0 ≤ minute dt ≤ 59.
Proof.
  unfold valid. rewrite !andb_true_iff, !Z.leb_le.
  pose proof (days_in_month_bound (year dt) (month dt)). lia.
Qed.




(** ** Every compiled cron rule can be checked *)

Lemma string_of_uint_digits d :
  Py.all Py.is_digit (NilEmpty.string_of_uint d) = true.
Proof. induction d; simpl; auto. Qed.

Lemma str_of_Z_numeral n : 0 ≤ n → numeral (Py.str_of_Z n).
Proof.
  destruct n as [|p|p]; [done| |lia]. intros _. split.
  - simpl. unfold N.to_uint.
    pose proof (DecimalPos.Unsigned.to_uint_nonnil p) as Hn.
    by destruct (Pos.to_uint p).
  - apply string_of_uint_digits.
Qed.

Lemma post_consumes r : ∀ x y, Re.post r x y → ∃ u, x.1.2 = u +:+ y.1.2.
Proof.
  induction r as [|a|q|r1 IH1 r2 IH2|r1 IH1 r2 IH2|r IH|n r IH| |];
    intros x y H; simpl in H.
  - subst. by exists "".
  - destruct H as (ch & E & _). exists (String ch ""). by rewrite E.
  - destruct H as (ch & E & _). exists (String ch ""). by rewrite E.
  - destruct H as (m & H1 & H2).
    apply IH1 in H1 as [u1 E1]. apply IH2 in H2 as [u2 E2].
    exists (u1 +:+ u2). by rewrite E1, E2, app_assoc_s.
  - destruct H; auto.
  - induction H as [x|x m y Hxm _ [u2 E2]]; [by exists ""|].
    apply IH in Hxm as [u1 E1].
    exists (u1 +:+ u2). by rewrite E1, E2, app_assoc_s.
  - destruct H as (c0 & H & _). by apply IH in H.
  - destruct H as [-> _]. by exists "".
  - destruct H as [-> _]. by exists "".
Qed.

Lemma post_consumed r x y :
  Re.post r x y → x.1.2 = Re.consumed x.1.2 y.1.2 +:+ y.1.2.
Proof.
  intros H. apply post_consumes in H as [u E].
  by rewrite E at 1 2; rewrite consumed_app.
Qed.

Lemma post_Lit w : ∀ x y,
  Re.post (Re.Lit w) x y →
  ∃ u, x.1.2 = u +:+ y.1.2 ∧ Py.lower_str u = Py.lower_str w ∧ y.2 = x.2.
Proof.
  induction w as [|a w IH]; intros x y H; simpl in H.
  - subst. by exists "".
  - destruct H as (m & (ch & E & Hch & _ & Hc) & H).
    apply IH in H as (u & E' & Hu & Hc').
    exists (String ch u). simpl. by rewrite E, E', Hch, Hu, Hc', Hc.
Qed.

Lemma lookup_dow_values k d : lookup_str k _DOW = Ok d → 0 ≤ d.
Proof.
  unfold lookup_str, _DOW. cbn -[String.eqb].
  repeat match goal with
         | |- context [String.eqb ?a k] =>
             destruct (String.eqb a k); [cbn; intros [= <-]; lia|]
         end.
  done.
Qed.

Lemma post_dow_names x y :
  Re.post dow_names x y →
  ∃ u d, x.1.2 = u +:+ y.1.2 ∧ u ≠ ""
         ∧ lookup_str (Py.lower_str u) _DOW = Ok d ∧ y.2 = x.2.
Proof.
  unfold dow_names. cbn [Re.Alts]. cbn [Re.post].
  intros H.
  repeat match type of H with _ ∨ _ => destruct H as [H|H] end;
    apply post_Lit in H as (u & E & Hu & Hc);
    exists u; rewrite Hu; (eexists; split; [done|]; split;
      [by intros ->|]; split; [reflexivity | done]).
Qed.

Lemma post_digits2 x y :
  Re.post (Re.Cat Re.digit Re.digit) x y →
  numeral (Re.consumed x.1.2 y.1.2) ∧ y.2 = x.2.
Proof.
  intros (m & (c1 & E1 & Q1 & _ & C1) & (c2 & E2 & Q2 & _ & C2)).
  rewrite E1, E2, C2, C1.
  change (String c1 (String c2 y.1.2)) with (String c1 (String c2 "") +:+ y.1.2).
  rewrite consumed_app. repeat split; [done|]. simpl. by rewrite Q1, Q2.
Qed.

Lemma post_digits12 x y :
  Re.post (Re.Cat Re.digit (Re.Opt Re.digit)) x y →
  numeral (Re.consumed x.1.2 y.1.2) ∧ y.2 = x.2.
Proof.
  intros (m & (c1 & E1 & Q1 & _ & C1) & [(c2 & E2 & Q2 & _ & C2) | ->]).
  - rewrite E1, E2, C2, C1.
    change (String c1 (String c2 y.1.2)) with (String c1 (String c2 "") +:+ y.1.2).
    rewrite consumed_app. repeat split; [done|]. simpl. by rewrite Q1, Q2.
  - rewrite E1, C1.
    change (String c1 m.1.2) with (String c1 "" +:+ m.1.2).
    rewrite consumed_app. repeat split; [done|]. simpl. by rewrite Q1.
Qed.

Lemma post_at_time g x y :
  Re.post (at_time g) x y →
  (∃ ds, y.2 !! g = Some ds ∧ numeral ds)
  ∧ (y.2 !! S g = x.2 !! S g ∨ ∃ ms, y.2 !! S g = Some ms ∧ numeral ms).
Proof.
  unfold at_time. cbn [Re.Seq Re.post].
  intros (m1 & H1 & m2 & H2 & m3 & H3 & m4 & H4 & m5 & H5 & m6 & H6 & m7
          & H7 & H8).
  apply (post_plus_cls Py.is_space) in H1 as (_ & _ & _ & _ & C1).
  apply post_no_groups in H2 as C2; [|done].
  apply (post_plus_cls Py.is_space) in H3 as (_ & _ & _ & _ & C3).
  destruct H4 as (c0 & H4 & C4).
  apply post_digits12 in H4 as [Hds C0]. simpl in Hds, C0.
  apply post_star_cls in H6 as (_ & _ & _ & C6).
  destruct H8 as [-> _].
  assert (m7.2 !! g = m6.2 !! g ∧ m7.2 !! S g = m6.2 !! S g) as [E7 E7'].
  { destruct H7 as [(c7 & H7 & ->)| ->]; [|done].
    destruct H7 as [H7|H7]; apply post_no_groups in H7; try done;
      simpl in H7; subst c7; rewrite !lookup_insert_ne by lia; done. }
  rewrite E7, E7', C6.
  destruct H5 as [(ma & Ha & c5 & H5 & ->)| ->].
  - apply post_digits2 in H5 as [Hms C5]. simpl in Hms, C5.
    destruct Ha as (_ & _ & _ & _ & Ca).
    split.
    + rewrite lookup_insert_ne by lia. rewrite C5, Ca, C4, lookup_insert_eq.
      eauto.
    + right. rewrite lookup_insert_eq. eauto.
  - rewrite C4, lookup_insert_eq, lookup_insert_ne by lia.
    split; [eauto|]. left. by rewrite C0, C3, C2, C1.
Qed.

Lemma post_at_time_below g n x y :
  Re.post (at_time g) x y → (n < g)%nat → y.2 !! n = x.2 !! n.
Proof.
  unfold at_time. cbn [Re.Seq Re.post].
  intros (m1 & H1 & m2 & H2 & m3 & H3 & m4 & H4 & m5 & H5 & m6 & H6 & m7
          & H7 & H8) Hn.
  apply (post_plus_cls Py.is_space) in H1 as (_ & _ & _ & _ & C1).
  apply post_no_groups in H2 as C2; [|done].
  apply (post_plus_cls Py.is_space) in H3 as (_ & _ & _ & _ & C3).
  destruct H4 as (c0 & H4 & C4).
  apply post_digits12 in H4 as [_ C0]. simpl in C0.
  apply post_star_cls in H6 as (_ & _ & _ & C6).
  destruct H8 as [-> _].
  assert (m7.2 !! n = m6.2 !! n) as ->.
  { destruct H7 as [(c7 & H7 & ->)| ->]; [|done].
    destruct H7 as [H7|H7]; apply post_no_groups in H7; try done;
      simpl in H7; subst c7; rewrite !lookup_insert_ne by lia; done. }
  rewrite C6.
  assert (m5.2 !! n = m4.2 !! n) as ->.
  { destruct H5 as [(ma & Ha & c5 & H5 & ->)| ->]; [|done].
    apply post_digits2 in H5 as [_ C5]. simpl in C5.
    destruct Ha as (_ & _ & _ & _ & Ca).
    rewrite lookup_insert_ne by lia. by rewrite C5, Ca. }
  rewrite C4, lookup_insert_ne by lia. by rewrite C0, C3, C2, C1.
Qed.

Lemma to24_nonneg h mn a h' mn' :
  0 ≤ h → 0 ≤ mn → _to24 h mn a = (h', mn') → 0 ≤ h' ∧ 0 ≤ mn'.
Proof.
  intros Hh Hm. unfold _to24.
  destruct a as [[|? ?]|]; try (intros [= <- <-]; lia).
  cbv zeta. intros [= <- <-]. repeat case_match; lia.
Qed.

Lemma time_of_nonneg c g h mn :
  (∃ ds, c !! g = Some ds ∧ numeral ds) →
  (c !! S g = None ∨ ∃ ms, c !! S g = Some ms ∧ numeral ms) →
  time_of c g = Ok (h, mn) → 0 ≤ h ∧ 0 ≤ mn.
Proof.
  intros (ds & Hg & Hne & Hds) Hm. unfold time_of, group, group_int_or_0.
  rewrite Hg. cbn [of_option mbind result_bind].
  rewrite int_digits by done. cbn [mbind result_bind].
  assert (∃ m, 0 ≤ m ∧
            match c !! S g with
            | Some (String _ _ as s) => Py.int s
            | _ => Ok 0
            end = Ok m) as (m & Hm0 & ->).
  { destruct Hm as [-> | (ms & -> & Hne' & Hms)]; [by exists 0|].
    destruct ms as [|a ms]; [done|].
    rewrite int_digits by done. eexists. split; [|done].
    by apply decimal_nonneg. }
  cbn [mbind result_bind]. intros [= H].
  eapply to24_nonneg; [| |exact H]; [by apply decimal_nonneg | done].
Qed.

Lemma post_Cat_no_groups r1 r2 x y :
  Re.no_groups r1 = true → Re.post (Re.Cat r1 r2) x y →
  ∃ m, m.2 = x.2 ∧ Re.post r2 m y.
Proof.
  intros Hng (m & H1 & H2). exists m. split; [|done].
  by apply post_no_groups in H1.
Qed.

Ltac skip_prefix H :=
  repeat (let m := fresh "m" in
          let Hm := fresh "Hm" in
          apply post_Cat_no_groups in H as (m & Hm & H); [|done]).

Lemma time_groups_every_day text c rest :
  Re.match_ re_every_day text = Some (c, rest) →
  (∃ ds, c !! 1%nat = Some ds ∧ numeral ds)
  ∧ (c !! 2%nat = None ∨ ∃ ms, c !! 2%nat = Some ms ∧ numeral ms).
Proof.
  unfold Re.match_. intros H.
  apply run_sound in H as (y & H & Hy). injection Hy as <- _.
  unfold re_every_day in H. cbn [Re.Seq] in H.
  remember (at_time 1) as T eqn:ET. skip_prefix H. subst T.
  apply post_at_time in H as [Hg Hm']. split; [done|].
  destruct Hm' as [Hm'|]; [left | by right].
  rewrite Hm'.
  repeat match goal with E : ?a = _ |- context [?a] => rewrite E end.
  done.
Qed.

Lemma time_groups_first_day text c rest :
  Re.match_ re_first_day text = Some (c, rest) →
  (∃ ds, c !! 1%nat = Some ds ∧ numeral ds)
  ∧ (c !! 2%nat = None ∨ ∃ ms, c !! 2%nat = Some ms ∧ numeral ms).
Proof.
  unfold Re.match_. intros H.
  apply run_sound in H as (y & H & Hy). injection Hy as <- _.
  unfold re_first_day in H. cbn [Re.Seq] in H.
  remember (at_time 1) as T eqn:ET. skip_prefix H. subst T.
  apply post_at_time in H as [Hg Hm']. split; [done|].
  destruct Hm' as [Hm'|]; [left | by right].
  rewrite Hm'.
  repeat match goal with E : ?a = _ |- context [?a] => rewrite E end.
  done.
Qed.

Lemma time_groups_every_dow text c rest :
  Re.match_ re_every_dow text = Some (c, rest) →
  (∃ ds, c !! 2%nat = Some ds ∧ numeral ds)
  ∧ (c !! 3%nat = None ∨ ∃ ms, c !! 3%nat = Some ms ∧ numeral ms).
Proof.
  unfold Re.match_. intros H.
  apply run_sound in H as (y & H & Hy). injection Hy as <- _.
  unfold re_every_dow in H. cbn [Re.Seq] in H.
  remember (at_time 2) as T eqn:ET.
  remember (Re.Grp 1 dow_names) as G eqn:EG. skip_prefix H. subst T G.
  destruct H as (m3 & (c0 & H3 & C3) & H).
  apply post_no_groups in H3; [|done]. simpl in H3.
  apply post_at_time in H as [Hg Hm']. split; [done|].
  destruct Hm' as [Hm'|]; [left | by right].
  rewrite Hm', C3, lookup_insert_ne by done. rewrite H3.
  repeat match goal with E : ?a = _ |- context [?a] => rewrite E end.
  done.
Qed.

Lemma groups_every_dows text c rest :
  Re.match_ re_every_dows text = Some (c, rest) →
  (∃ u v d, c !! 1%nat = Some (u +:+ v) ∧ u ≠ ""
            ∧ lookup_str (Py.lower_str u) _DOW = Ok d)
  ∧ (∃ ds, c !! 2%nat = Some ds ∧ numeral ds)
  ∧ (c !! 3%nat = None ∨ ∃ ms, c !! 3%nat = Some ms ∧ numeral ms).
Proof.
  unfold Re.match_. intros H.
  apply run_sound in H as (y & H & Hy). injection Hy as <- _.
  unfold re_every_dows in H. cbn [Re.Seq] in H.
  remember (at_time 2) as T eqn:ET.
  match type of H with
  | context [Re.Grp 1 ?r] => remember (Re.Grp 1 r) as G eqn:EG
  end.
  skip_prefix H. subst T G.
  destruct H as (m3 & (c0 & H3 & C3) & H).
  pose proof H3 as Hc0. apply post_no_groups in Hc0; [|done]. simpl in Hc0.
  destruct H3 as (ma & Hd & Hstar).
  apply post_dow_names in Hd as (u & d & Eu & Hne & Hd & _).
  apply (post_consumes (Re.Star _)) in Hstar as [v Ev]. simpl in Ev.
  rewrite Eu, Ev, <- app_assoc_s, consumed_app in C3.
  pose proof (post_at_time_below 2 1 _ _ H ltac:(lia)) as H1.
  apply post_at_time in H as [(ds & Hg & Hds) Hm'].
  split; [|split].
  - exists u, v, d. split; [|done].
    by rewrite H1, C3, lookup_insert_eq.
  - exists ds. done.
  - destruct Hm' as [Hm'|]; [left | by right].
    rewrite Hm', C3, lookup_insert_ne by done. rewrite Hc0.
    repeat match goal with E : ?a = _ |- context [?a] => rewrite E end.
    done.
Qed.

Lemma match_at_dow_sound p s w p' s' :
  Re.match_at dow_names p s = Some (w, p', s') →
  w ≠ "" ∧ ∃ d, lookup_str (Py.lower_str w) _DOW = Ok d.
Proof.
  unfold Re.match_at. intros H.
  apply run_sound in H as (y & H & Hy). injection Hy as <- _ _.
  apply post_dow_names in H as (u & d & Eu & Hne & Hd & _). simpl in Eu.
  rewrite Eu, consumed_app. eauto.
Qed.

Lemma lookup_dow_keys k d :
  lookup_str k _DOW = Ok d →
  k ∈ ["sunday"; "monday"; "tuesday"; "wednesday"; "thursday"; "friday";
       "saturday"].
Proof.
  unfold lookup_str, _DOW. cbn -[String.eqb].
  repeat match goal with
         | |- context [String.eqb ?a k] =>
             destruct (String.eqb_spec a k) as [<-|_];
             [intros _; set_solver|]
         end.
  done.
Qed.

Lemma match_at_dow_some u v d :
  lookup_str (Py.lower_str u) _DOW = Ok d →
  ∃ m, Re.match_at dow_names None (u +:+ v) = Some m.
Proof.
  intros H. apply lookup_dow_keys in H.
  unfold Re.match_at, dow_names. cbn [Re.Alts].
  repeat (rewrite run_Alt;
          match goal with
          | |- context [Re.run (Re.Lit ?w) ?p ?s ?c ?k] =>
              destruct (Re.run (Re.Lit w) p s c k) eqn:?
          end; [by eauto|]).
  repeat (apply elem_of_cons in H as [H|H];
          [first [ rewrite run_Lit by exact H; by eauto
                 | match goal with
                   | E : Re.run (Re.Lit _) _ _ _ _ = None |- _ =>
                       rewrite run_Lit in E by exact H; discriminate E
                   end ]|]).
  by apply elem_of_nil in H.
Qed.

Lemma findall_dow_nonempty u v d :
  lookup_str (Py.lower_str u) _DOW = Ok d →
  Re.findall dow_names (u +:+ v) ≠ [].
Proof.
  intros H. unfold Re.findall. cbn [Re.findall_go].
  destruct (match_at_dow_some u v d H) as [[[w p'] s'] E]. rewrite E.
  apply match_at_dow_sound in E as [Hne _].
  by destruct w.
Qed.

Lemma mapM_dow_numerals days : ∀ dows,
  mapM (fun d => Py.str_of_Z <$> lookup_str (Py.lower_str d) _DOW) days
  = Ok dows →
  Forall numeral dows ∧ length dows = length days.
Proof.
  induction days as [|x days IH]; intros dows H; cbn in H.
  - by injection H as <-.
  - destruct (lookup_str _ _DOW) as [d|] eqn:Ed; [|done].
    cbn in H.
    destruct (mapM _ days) as [out|]; [|done]. cbn in H.
    injection H as <-. destruct (IH out eq_refl) as [Hall Hlen].
    split; [|by simpl; rewrite Hlen].
    constructor; [|done].
    apply str_of_Z_numeral. by eapply lookup_dow_values.
Qed.

Lemma field_text_numbers l : field_text (PNumber <$> l) = Py.join "," l.
Proof.
  unfold field_text. f_equal.
  rewrite <- list_fmap_compose. apply list_fmap_id.
Qed.

Lemma cron_text_rule mn h doms dows :
  cron_text mn h (field_text doms) (field_text dows)
  = cron_rule_text [PNumber (Py.str_of_Z mn)] [PNumber (Py.str_of_Z h)]
      doms [PStar] dows.
Proof. reflexivity. Qed.

Lemma compiled_cron_shape text c :
  parse text = Ok (Cron c) →
  ∃ mn h doms dows,
    numeral mn ∧ numeral h ∧ field_ok doms ∧ field_ok dows
    ∧ c = cron_rule_text [PNumber mn] [PNumber h] doms [PStar] dows.
Proof.
  assert (Hstar : field_ok [PStar]) by (split; [done | by constructor]).
  assert (Hshape : ∀ h mn doms dows,
            0 ≤ h → 0 ≤ mn → field_ok doms → field_ok dows →
            ∃ mn' h' doms' dows',
              numeral mn' ∧ numeral h' ∧ field_ok doms' ∧ field_ok dows'
              ∧ cron_text mn h (field_text doms) (field_text dows)
                = cron_rule_text [PNumber mn'] [PNumber h'] doms' [PStar] dows').
  { intros h mn doms dows Hh Hmn Hd Hw.
    exists (Py.str_of_Z mn), (Py.str_of_Z h), doms, dows.
    split; [by apply str_of_Z_numeral|]. split; [by apply str_of_Z_numeral|].
    by rewrite cron_text_rule. }
  unfold parse. intros H.
  destruct (Re.match_ re_every_n _) as [[c1 rest]|].
  { repeat step_bind H. discriminate H. }
  destruct (Re.match_ re_every_hour _) as [?|]; [discriminate H|].
  destruct (Re.match_ re_every_dow _) as [[c1 rest]|] eqn:E3.
  { apply time_groups_every_dow in E3 as [Hg Hm].
    destruct (group c1 1) as [g1|]; cbn [mbind result_bind] in H; [|done].
    destruct (lookup_str _ _DOW) as [dow|] eqn:Ed;
      cbn [mbind result_bind] in H; [|done].
    destruct (time_of c1 2) as [[h mn]|] eqn:Et;
      cbn [mbind result_bind] in H; [|done].
    injection H as <-.
    apply time_of_nonneg in Et as [Hh Hmn]; [|done..].
    apply (Hshape h mn [PStar] [PNumber (Py.str_of_Z dow)]); try done.
    split; [done|]. constructor; [|done].
    apply str_of_Z_numeral. by eapply lookup_dow_values. }
  destruct (Re.match_ re_every_day _) as [[c1 rest]|] eqn:E4.
  { apply time_groups_every_day in E4 as [Hg Hm].
    destruct (time_of c1 1) as [[h mn]|] eqn:Et;
      cbn [mbind result_bind] in H; [|done].
    injection H as <-.
    apply time_of_nonneg in Et as [Hh Hmn]; [|done..].
    by apply (Hshape h mn [PStar] [PStar]). }
  destruct (Re.match_ re_every_dows _) as [[c1 rest]|] eqn:E5.
  { apply groups_every_dows in E5 as ((u & v & d & Hg1 & Hne & Hd) & Hg & Hm).
    unfold group in H at 1. rewrite Hg1 in H.
    cbn [of_option mbind result_bind] in H.
    destruct (mapM _ _) as [dows|] eqn:Em;
      cbn [mbind result_bind] in H; [|done].
    destruct (time_of c1 2) as [[h mn]|] eqn:Et;
      cbn [mbind result_bind] in H; [|done].
    injection H as <-.
    apply time_of_nonneg in Et as [Hh Hmn]; [|done..].
    apply mapM_dow_numerals in Em as [Hall Hlen].
    rewrite <- field_text_numbers.
    apply (Hshape h mn [PStar] (PNumber <$> dows)); try done.
    split; [|by apply Forall_fmap].
    intros Hnil. apply fmap_nil_inv in Hnil. subst dows.
    apply (findall_dow_nonempty u v d Hd).
    by apply nil_length_inv. }
  destruct (Re.match_ re_first_day _) as [[c1 rest]|] eqn:E6.
  { apply time_groups_first_day in E6 as [Hg Hm].
    destruct (time_of c1 1) as [[h mn]|] eqn:Et;
      cbn [mbind result_bind] in H; [|done].
    injection H as <-.
    apply time_of_nonneg in Et as [Hh Hmn]; [|done..].
    apply (Hshape h mn [PNumber "1"] [PStar]); try done.
    split; [done|]. by repeat constructor. }
  discriminate H.
Qed.

Lemma compiled_cron_checkable text c dt :
  parse text = Ok (Cron c) → ∃ b, _cron_matches c dt = Ok b.
Proof.
  intros H.
  apply compiled_cron_shape in H as (mn & h & doms & dows & Hmn & Hh & Hd & Hw & ->).
  destruct (cron_matches_spec [PNumber mn] [PNumber h] doms [PStar] dows dt)
    as (b & Hb & _); try done.
  - split; [done|]. by constructor.
  - split; [done|]. by constructor.
  - split; [done|]. by constructor.
  - eauto.
Qed.

(** ** Interval rules *)

Section IntervalDue.

Variables (st : Engine) (ev : EventDef) (seconds : Z).
Hypothesis Hscheduled : Yaml.eq_str (event_type ev) "scheduled" = true.
Hypothesis Hinterval : schedule ev = Some (Interval seconds).

Lemma interval_first_evaluation now :
  _last_fired st !! name ev = None → _is_due st ev now = Ok (true, st).
Proof.
  intros Hnone. unfold _is_due.
  rewrite Hscheduled, Hinterval, Hnone. reflexivity.
Qed.

Lemma interval_after_firing now last :
  _last_fired st !! name ev = Some last →
  _is_due st ev now
  = Ok (Qle_bool (inject_Z seconds) (total_seconds_between now last), st).
Proof.
  intros Hlast. unfold _is_due.
  rewrite Hscheduled, Hinterval, Hlast. reflexivity.
Qed.

End IntervalDue.

Lemma record_firing_last_fired ev t st :
  _last_fired (record_firing ev t st) !! name ev = Some t.
Proof. unfold record_firing. simpl. apply lookup_insert_eq. Qed.

(** ** The calendar *)

Lemma is_leap_leap_year y : _is_leap y = leap_year y.
Proof.
  unfold _is_leap, leap_year.
  destruct (Z.eqb_spec (y mod 400) 0), (Z.eqb_spec (y mod 100) 0),
    (Z.eqb_spec (y mod 4) 0); simpl; try done; exfalso;
    Z.div_mod_to_equations; lia.
Qed.

Lemma days_before_next_year y :
  _days_before_year (y + 1) = _days_before_year y + year_length y.
Proof.
  unfold _days_before_year, year_length, leap_year. cbv zeta.
  replace (y + 1 - 1) with y by lia.
  destruct (Z.eqb_spec (y mod 400) 0), (Z.eqb_spec (y mod 100) 0),
    (Z.eqb_spec (y mod 4) 0);
    Z.div_mod_to_equations; lia.
Qed.

Lemma days_before_year_count (n : nat) :
  _days_before_year (Z.of_nat n + 1) = days_of_years n.
Proof.
  induction n as [|n IH]; [done|].
  rewrite days_before_next_year, Nat2Z.inj_succ.
  cbn [days_of_years]. rewrite <- IH, Nat2Z.inj_succ.
  unfold Z.succ. reflexivity.
Qed.

Lemma days_before_month_count y m :
  1 ≤ m ≤ 12 → _days_before_month y m = days_of_months y (Z.to_nat (m - 1)).
Proof.
  intros Hm.
  assert (m = 1 ∨ m = 2 ∨ m = 3 ∨ m = 4 ∨ m = 5 ∨ m = 6 ∨ m = 7 ∨ m = 8
          ∨ m = 9 ∨ m = 10 ∨ m = 11 ∨ m = 12) as H by lia.
  unfold _days_before_month. rewrite is_leap_leap_year.
  repeat match goal with H : _ ∨ _ |- _ => destruct H as [H|H] end;
    rewrite H;
    repeat match goal with
      | |- context [Z.to_nat ?e] =>
          let v := eval vm_compute in (Z.to_nat e) in change (Z.to_nat e) with v
      end;
    cbn [days_of_months]; unfold month_length;
    destruct (leap_year y); reflexivity.
Qed.

Lemma toordinal_day_number dt :
  1 ≤ year dt → 1 ≤ month dt ≤ 12 → toordinal dt = day_number dt.
Proof.
  intros Hy Hm. unfold toordinal, day_number.
  rewrite <- days_before_year_count, <- days_before_month_count by done.
  rewrite Z2Nat.id by lia. do 3 f_equal. lia.
Qed.

Lemma valid_fields dt :
  valid dt = true →
  1 ≤ year dt ≤ 9999 ∧ 1 ≤ month dt ≤ 12
  ∧ 1 ≤ day dt ≤ _days_in_month (year dt) (month dt)
  ∧ 0 ≤ hour dt ≤ 23 ∧ 0 ≤ minute dt ≤ 59 ∧ 0 ≤ second dt ≤ 59
  ∧ 0 ≤ microsecond dt ≤ 999999.
Proof. unfold valid. rewrite !andb_true_iff, !Z.leb_le. tauto. Qed.

Lemma to_micros_elapsed now t :
  valid now = true → valid t = true →
  to_micros now - to_micros t = elapsed_micros now t.
Proof.
  intros Hn Ht. apply valid_fields in Hn, Ht.
  unfold to_micros, elapsed_micros.
  rewrite !toordinal_day_number by tauto. lia.
Qed.

Lemma seconds_reached seconds now t :
  valid now = true → valid t = true →
  Qle_bool (inject_Z seconds) (total_seconds_between now t)
  = (seconds * 1000000 <=? elapsed_micros now t).
Proof.
  intros Hn Ht. unfold Qle_bool, total_seconds_between, inject_Z.
  cbn [Qnum Qden]. rewrite (to_micros_elapsed now t Hn Ht).
  f_equal. lia.
Qed.

(** C3. An event of type [scheduled] with an interval rule is due on its
    first evaluation when it has no last-fired entry.  With a last firing
    at [t] and an evaluation at [now], both timestamps the clock can show,
    the time from [t] to [now] counted by the calendar (86400 seconds for
    each day, leap days included, and the difference of the times of day,
    to the microsecond): the event is not due while that time is below the
    configured seconds, and is due as soon as it reaches them, the
    boundary included.  The first half is stated for spans below [2^34]
    seconds, about 544 years, beyond which the float Python compares can
    round a span just below the boundary up to it. *)
Theorem interval_due st ev seconds :
  Yaml.eq_str (event_type ev) "scheduled" = true →
  schedule ev = Some (Interval seconds) →
  (∀ now, _last_fired st !! name ev = None →
          _is_due st ev now = Ok (true, st))
  ∧ (∀ now t, _last_fired st !! name ev = Some t →
       valid now = true → valid t = true →
       (elapsed_micros now t < seconds * 1000000 →
        elapsed_micros now t < 2 ^ 34 * 1000000 →
        _is_due st ev now = Ok (false, st))
       ∧ (seconds * 1000000 ≤ elapsed_micros now t →
          _is_due st ev now = Ok (true, st))).
Proof.
  intros Hty Hsch. split.
  - intros now. by apply (interval_first_evaluation st ev seconds).
  - intros now t Hlast Hnow Ht.
    rewrite (interval_after_firing st ev seconds Hty Hsch now t Hlast).
    rewrite (seconds_reached seconds now t Hnow Ht).
    split.
    + intros H _. by apply Z.leb_gt in H as ->.
    + intros H. by apply Z.leb_le in H as ->.
Qed.

Lemma interval_due_witness :
  let t := at_ 2024 2 28 23 59 59 in
  let st := record_firing Sample.good t (new_engine ["srv"; "jobs"]) in
  _is_due st Sample.good
    {| year := 2024; month := 2; day := 29; hour := 0; minute := 0;
       second := 0; microsecond := 999999 |}
  = Ok (false, st)
  ∧ _is_due st Sample.good (at_ 2024 2 29 0 0 1) = Ok (true, st)
  ∧ _is_due st Sample.good (at_ 2024 3 1 0 0 0) = Ok (true, st).
Proof.
  intros t st.
  pose proof (interval_due st Sample.good 2) as H.
  destruct H as [_ H]; [reflexivity..|].
  split; [|split].
  - apply (H _ t); [reflexivity..| |]; vm_compute; reflexivity.
  - apply (H _ t); [reflexivity..|]. vm_compute. discriminate.
  - apply (H _ t); [reflexivity..|]. vm_compute. discriminate.
Defined.

(** The interval examples of the sample: due at once, not due one second
    after a firing, due again two seconds after it. *)
Example interval_boundary :
  let st := record_firing Sample.good (at_ 2024 1 1 9 0 0) (new_engine ["srv"; "jobs"]) in
  _is_due (new_engine ["srv"; "jobs"]) Sample.good (at_ 2024 1 1 9 0 0)
  = Ok (true, new_engine ["srv"; "jobs"])
  ∧ _is_due st Sample.good (at_ 2024 1 1 9 0 1) = Ok (false, st)
  ∧ _is_due st Sample.good (at_ 2024 1 1 9 0 2) = Ok (true, st).
Proof. repeat split; vm_compute; reflexivity. Qed.

(** The calendar count on the sample: from the last second of 28 February
    2024 it is two seconds to 00:00:01 on the leap day, and a day and a
    second to the start of 1 March. *)
Example elapsed_over_leap_day :
  elapsed_micros (at_ 2024 2 29 0 0 1) (at_ 2024 2 28 23 59 59) = 2000000
  ∧ elapsed_micros (at_ 2024 3 1 0 0 0) (at_ 2024 2 28 23 59 59) = 86401000000
  ∧ elapsed_micros (at_ 2023 3 1 0 0 0) (at_ 2023 2 28 23 59 59) = 1000000.
Proof. repeat split; vm_compute; reflexivity. Qed.

(** ** Cron rules fire once per minute *)

Lemma is_due_effect st ev now b st' :
  _is_due st ev now = Ok (b, st') →
  (st' = st ∧ (is_cron ev = true → b = false))
  ∨ (b = true ∧ is_cron ev = true ∧ marked st (cache_key ev now) = false
     ∧ st' = set_cron_fired
               (<[cache_key ev now := true]> (_cron_fired_this_minute st)) st).
Proof.
  unfold _is_due, is_cron, marked.
  destruct (negb _); [intros [= <- <-]; left; split; [done|]; done|].
  destruct (schedule ev) as [[secs|c]|].
  - destruct (_ !! name ev); intros [= <- <-]; left; split; done.
  - destruct (default false _) eqn:Em.
    + intros [= <- <-]. left. done.
    + destruct (_cron_matches c now) as [[|]|]; cbn [mbind result_bind];
        intros [= <- <-]; [right; done | left; split; [done|]; done].
  - intros [= <- <-]. left. split; done.
Qed.

Lemma marked_mono st ev now b st' key :
  _is_due st ev now = Ok (b, st') → marked st key = true → marked st' key = true.
Proof.
  intros H Hm. apply is_due_effect in H as [[-> _]|(_ & _ & _ & ->)]; [done|].
  unfold marked in *. simpl.
  destruct (decide (cache_key ev now = key)) as [->|Hne].
  - by rewrite lookup_insert_eq.
  - by rewrite lookup_insert_ne.
Qed.

Lemma hits_marked n k evals : ∀ st bs st',
  marked st (n +:+ ":" +:+ k) = true →
  evaluate st evals = Ok (bs, st') → hits n k evals bs = 0%nat.
Proof.
  induction evals as [|[ev now] evals IH]; intros st bs st' Hm H; simpl in H.
  - by injection H as <- <-.
  - destruct (_is_due st ev now) as [[b st1]|] eqn:E; [|done].
    destruct (evaluate st1 evals) as [[bs' st2]|] eqn:E'; [|done].
    injection H as <- <-. simpl.
    rewrite (IH st1 bs' st2); [|by eapply marked_mono|done].
    destruct (is_cron ev) eqn:Ec; [|by rewrite andb_false_r].
    destruct (String.eqb_spec (name ev) n) as [<-|]; [|by rewrite andb_false_r].
    destruct (String.eqb_spec (minute_key now) k) as [<-|]; [|by rewrite andb_false_r].
    apply is_due_effect in E as [[_ Hb]|(_ & _ & Hf & _)].
    + by rewrite Hb.
    + unfold cache_key in Hf. congruence.
Qed.

Lemma hits_at_most_once n k evals : ∀ st bs st',
  evaluate st evals = Ok (bs, st') → (hits n k evals bs ≤ 1)%nat.
Proof.
  induction evals as [|[ev now] evals IH]; intros st bs st' H; simpl in H.
  - injection H as <- <-. simpl. lia.
  - destruct (_is_due st ev now) as [[b st1]|] eqn:E; [|done].
    destruct (evaluate st1 evals) as [[bs' st2]|] eqn:E'; [|done].
    injection H as <- <-. simpl.
    destruct (b && is_cron ev && String.eqb (name ev) n
              && String.eqb (minute_key now) k) eqn:Ehit.
    + apply andb_true_iff in Ehit as [[[-> Hc]%andb_true_iff Hn]%andb_true_iff Hk].
      apply String.eqb_eq in Hn, Hk. subst n k.
      apply is_due_effect in E as [[_ Hb]|(_ & _ & _ & ->)].
      * by specialize (Hb Hc).
      * assert (hits (name ev) (minute_key now) evals bs' = 0%nat) as ->; [|lia].
        eapply hits_marked; [|exact E'].
        unfold marked, cache_key. simpl. by rewrite lookup_insert_eq.
    + specialize (IH _ _ _ E'). lia.
Qed.




Lemma is_due_total st ev now :
  checkable (ev, now) → ∃ b st', _is_due st ev now = Ok (b, st').
Proof.
  intros Hc. unfold _is_due.
  destruct (negb _); [eauto|].
  destruct (schedule ev) as [[secs|c]|] eqn:Es; [|..|eauto].
  - destruct (_ !! name ev); eauto.
  - destruct (default false _); [eauto|].
    destruct (Hc c Es) as [b Hb]. simpl in Hb. rewrite Hb.
    cbn [mbind result_bind].
    destruct b; eauto.
Qed.

Lemma evaluate_total evals : ∀ st,
  Forall checkable evals → ∃ bs st', evaluate st evals = Ok (bs, st').
Proof.
  induction evals as [|[ev now] evals IH]; intros st H; simpl; [eauto|].
  inversion H as [|?? Hc Hcs]; subst.
  destruct (is_due_total st ev now Hc) as (b & st1 & ->).
  destruct (IH st1 Hcs) as (bs & st2 & ->). eauto.
Qed.


(** ** Numbers and their decimal text *)

Lemma decimal_of_uint_acc d : ∀ acc,
  Z.pos (Pos.of_uint_acc d acc)
  = Py.decimal (Z.pos acc) (NilEmpty.string_of_uint d).
Proof.
  induction d; intros acc; cbn [Pos.of_uint_acc NilEmpty.string_of_uint Py.decimal];
    [done|rewrite IHd; f_equal; unfold Py.digit_value; simpl; lia..].
Qed.

Lemma decimal_of_uint d :
  Z.of_N (Pos.of_uint d) = Py.decimal 0 (NilEmpty.string_of_uint d).
Proof.
  induction d; cbn [Pos.of_uint NilEmpty.string_of_uint Py.decimal]; [done|..];
    try (cbn [Z.of_N]; rewrite decimal_of_uint_acc; f_equal).
  rewrite IHd. f_equal.
Qed.

Lemma value_str_of_Z n : 0 ≤ n → value (Py.str_of_Z n) = n.
Proof.
  intros Hn. destruct n as [|p|p]; [done| |lia].
  unfold value, Py.str_of_Z. rewrite <- decimal_of_uint.
  unfold N.to_uint. by rewrite DecimalPos.Unsigned.of_to.
Qed.

Lemma value_zfill w s : value (zfill w s) = value s.
Proof.
  unfold zfill, value. induction (w - String.length s)%nat as [|n IH]; [done|].
  simpl. exact IH.
Qed.

(** ** The minute bucket *)














(** The sample's daily event, evaluated three times within 09:00 of one
    day and once in 09:00 of the next: due, not due, not due, due. *)
Example cron_minute_by_minute :
  ∃ st', evaluate (new_engine ["srv"; "cron"])
           [(Sample.daily, at_ 2024 1 1 9 0 5);
            (Sample.daily, at_ 2024 1 1 9 0 30);
            (Sample.daily, at_ 2024 1 1 9 0 59);
            (Sample.daily, at_ 2024 1 2 9 0 1)]
         = Ok ([true; false; false; true], st').
Proof. eexists. vm_compute. reflexivity. Qed.

(** ** The manifest loader *)

Lemma read_text_exists fs p raw :
  Fs.read_text fs p = Ok raw → Fs.exists_ fs p = true.
Proof.
  unfold Fs.read_text, Fs.exists_. destruct (Fs.lookup fs p) as [[]|]; [|done..].
  intros _. by apply bool_decide_eq_true.
Qed.

Lemma parse_manifest ysl compile fs dir d :
  manifest ysl fs dir d →
  parse_event_md_with ysl compile fs dir = event_of_mapping compile fs dir d.
Proof.
  intros (raw & before & header & rest & Hr & Hs & Hp & Hy).
  unfold parse_event_md_with.
  rewrite (read_text_exists _ _ _ Hr), Hr. cbn [negb mbind result_bind].
  rewrite Hs, Hp.
  cbn [negb length Nat.ltb Nat.leb index lookup list_lookup of_option
       mbind result_bind].
  rewrite Hy. cbn [mbind result_bind].
  assert ((if Yaml.truthy (YDict d) then YDict d else YDict []) = YDict d) as ->.
  { by destruct d. }
  unfold event_of_mapping. cbn [py_in mbind result_bind].
  destruct (Yaml.has "type" d); [|done]. cbn [negb].
  destruct (Yaml.has "action" d); cbn [negb andb mbind result_bind]; [done|].
  destruct (Yaml.has "script" d); cbn [negb]; done.
Qed.

(** A folder loads only from a header that is a mapping. *)
Lemma parse_ok_manifest ysl compile fs dir ev :
  parse_event_md_with ysl compile fs dir = Ok ev →
  ∃ d, manifest ysl fs dir d.
Proof.
  unfold parse_event_md_with, manifest, header_value. intros H.
  destruct (negb (Fs.exists_ fs _)); [done|].
  destruct (Fs.read_text fs _) as [raw|] eqn:Er; [|done].
  cbn [mbind result_bind] in H.
  destruct (Py.startswith raw "---") eqn:Es; [|done]. cbn [negb] in H.
  pose proof (split_str_length "---" 2 raw) as Hlen.
  destruct (Py.split_str "---" 2 raw) as [|before [|header [|rest [|? ?]]]] eqn:Ep;
    simpl in Hlen; try lia; try done.
  cbn [length Nat.ltb Nat.leb index lookup list_lookup of_option mbind
       result_bind] in H.
  destruct (ysl header) as [loaded|] eqn:Ey; [|done].
  cbn [mbind result_bind] in H.
  destruct loaded as [|b|n|s|l|d];
    try (exists d; exists raw, before, header, rest; done).
  - by vm_compute in H.
  - destruct b; by vm_compute in H.
  - cbn [Yaml.truthy] in H. destruct (negb (n =? 0)); by vm_compute in H.
  - destruct (Yaml.truthy (YStr s)); [|by vm_compute in H].
    cbn [py_in mbind result_bind] in H.
    repeat (match type of H with
            | (if ?b then _ else _) = _ => destruct b
            | context [mbind _ ?x] => destruct x
            end; cbn [mbind result_bind] in H; try done).
  - destruct (Yaml.truthy (YList l)); [|by vm_compute in H].
    cbn [py_in mbind result_bind] in H.
    repeat (match type of H with
            | (if ?b then _ else _) = _ => destruct b
            | context [mbind _ ?x] => destruct x
            end; cbn [mbind result_bind] in H; try done).
Qed.

(** A header that is no mapping makes the load fail. *)
Lemma parse_no_mapping ysl compile fs dir v :
  header_value ysl fs dir v → (∀ d, v ≠ YDict d) →
  ∃ e, parse_event_md_with ysl compile fs dir = Raise e.
Proof.
  intros Hv Hn.
  destruct (parse_event_md_with ysl compile fs dir) as [ev|e] eqn:E; [|eauto].
  apply parse_ok_manifest in E as [d Hd].
  destruct Hv as (raw & b & h & r & H1 & _ & H3 & H4).
  destruct Hd as (raw' & b' & h' & r' & H1' & _ & H3' & H4').
  rewrite H1 in H1'. injection H1' as <-.
  rewrite H3 in H3'. injection H3' as <- <- <-.
  rewrite H4 in H4'. injection H4' as ->. by destruct (Hn d).
Qed.

Lemma manifest_without_action ysl fs dir d :
  manifest ysl fs dir d →
  Yaml.has "action" d = false → Yaml.has "script" d = false →
  ∃ msg, parse_event_md ysl fs dir = Raise (ValueError msg).
Proof.
  intros Hm Ha Hs. unfold parse_event_md.
  rewrite (parse_manifest _ _ _ _ _ Hm). unfold event_of_mapping.
  rewrite Ha, Hs. destruct (Yaml.has "type" d); cbn [negb andb]; eauto.
Qed.

Lemma event_of_mapping_schedule compile fs dir d ev :
  event_of_mapping compile fs dir d = Ok ev →
  ∃ ty, Yaml.get "type" d = Some ty
        ∧ event_type ev = ty
        ∧ schedule_raw ev = default YNull (Yaml.get "schedule" d)
        ∧ if Yaml.truthy (schedule_raw ev) && Yaml.eq_str ty "scheduled"
          then ∃ s, compile (Yaml.str (schedule_raw ev)) = Ok s
                    ∧ schedule ev = Some s
          else schedule ev = None.
Proof.
  unfold event_of_mapping. intros H.
  destruct (negb (Yaml.has "type" d)); [done|].
  destruct (negb (Yaml.has "action" d) && negb (Yaml.has "script" d)); [done|].
  assert (∀ v, Yaml.get "schedule" (Yaml.set "action" v d) = Yaml.get "schedule" d
               ∧ Yaml.get "type" (Yaml.set "action" v d) = Yaml.get "type" d)
    as Hset.
  { intros v. clear. unfold Yaml.get.
    induction d as [|[k x] d [IH1 IH2]]; [done|]. simpl.
    destruct (String.eqb_spec k "action") as [->|Hk]; [done|]. simpl.
    destruct (String.eqb k "schedule"), (String.eqb k "type"); auto. }
  destruct (negb (Yaml.has "action" d)).
  - destruct (Yaml.get "script" d) as [script|]; [|done].
    cbn [of_option mbind result_bind] in H.
    destruct (Hset (YDict [("script", script)])) as [Hs Ht].
    rewrite Hs, Ht in H.
    destruct (Yaml.get "type" d) as [ty|]; [|done].
    cbn [of_option mbind result_bind] in H.
    exists ty. split; [done|].
    destruct (Yaml.truthy _ && Yaml.eq_str ty "scheduled") eqn:Eb.
    + destruct (compile _) as [s|] eqn:Ec; [|done].
      cbn [fmap result_fmap mbind result_bind] in H.
      repeat step_bind H. injection H as <-. cbn.
      rewrite Eb. eauto.
    + cbn [mbind result_bind] in H.
      repeat step_bind H. injection H as <-. cbn. rewrite Eb. eauto.
  - cbn [mbind result_bind] in H.
    destruct (Yaml.get "type" d) as [ty|]; [|done].
    cbn [of_option mbind result_bind] in H.
    exists ty. split; [done|].
    destruct (Yaml.truthy _ && Yaml.eq_str ty "scheduled") eqn:Eb.
    + destruct (compile _) as [s|] eqn:Ec; [|done].
      cbn [fmap result_fmap mbind result_bind] in H.
      repeat step_bind H. injection H as <-. cbn.
      rewrite Eb. eauto.
    + cbn [mbind result_bind] in H.
      repeat step_bind H. injection H as <-. cbn. rewrite Eb. eauto.
Qed.

Lemma event_of_mapping_compile_unused compile compile' fs dir d :
  (∀ ty, Yaml.get "type" d = Some ty →
         Yaml.truthy (default YNull (Yaml.get "schedule" d))
         && Yaml.eq_str ty "scheduled" = false) →
  event_of_mapping compile fs dir d = event_of_mapping compile' fs dir d.
Proof.
  intros Hno. unfold event_of_mapping.
  destruct (negb (Yaml.has "type" d)); [done|].
  destruct (negb (Yaml.has "action" d) && negb (Yaml.has "script" d)); [done|].
  assert (∀ v, Yaml.get "schedule" (Yaml.set "action" v d) = Yaml.get "schedule" d
               ∧ Yaml.get "type" (Yaml.set "action" v d) = Yaml.get "type" d)
    as Hset.
  { intros v. clear. unfold Yaml.get.
    induction d as [|[k x] d [IH1 IH2]]; [done|]. simpl.
    destruct (String.eqb_spec k "action") as [->|Hk]; [done|]. simpl.
    destruct (String.eqb k "schedule"), (String.eqb k "type"); auto. }
  destruct (negb (Yaml.has "action" d)).
  - destruct (Yaml.get "script" d) as [script|]; [|done].
    cbn [of_option mbind result_bind].
    destruct (Hset (YDict [("script", script)])) as [Hs Ht].
    rewrite Hs, Ht.
    destruct (Yaml.get "type" d) as [ty|]; [|done].
    cbn [of_option mbind result_bind]. by rewrite (Hno ty eq_refl).
  - cbn [mbind result_bind].
    destruct (Yaml.get "type" d) as [ty|]; [|done].
    cbn [of_option mbind result_bind]. by rewrite (Hno ty eq_refl).
Qed.

(** A definition that the loader gives a compiled rule is of type
    [scheduled]. *)
Lemma loaded_rule_is_scheduled ysl compile fs dir ev s :
  parse_event_md_with ysl compile fs dir = Ok ev →
  schedule ev = Some s →
  Yaml.eq_str (event_type ev) "scheduled" = true.
Proof.
  intros H Hs. destruct (parse_ok_manifest _ _ _ _ _ H) as [d Hd].
  rewrite (parse_manifest _ _ _ _ _ Hd) in H.
  apply event_of_mapping_schedule in H as (ty & _ & Het & _ & Hsh).
  destruct (Yaml.truthy _ && Yaml.eq_str ty "scheduled") eqn:Eb.
  - apply andb_true_iff in Eb as [_ Eb]. by rewrite Het.
  - congruence.
Qed.

Lemma never_due_without_schedule st ev now :
  schedule ev = None → _is_due st ev now = Ok (false, st).
Proof. intros H. unfold _is_due. rewrite H. by destruct (negb _). Qed.

Lemma loaded_event_checkable ysl fs dir ev now :
  parse_event_md ysl fs dir = Ok ev → checkable (ev, now).
Proof.
  unfold parse_event_md. intros H c Hc. simpl in *.
  destruct (parse_ok_manifest _ _ _ _ _ H) as [d Hd].
  rewrite (parse_manifest _ _ _ _ _ Hd) in H.
  apply event_of_mapping_schedule in H as (ty & _ & _ & _ & Hsh).
  destruct (Yaml.truthy _ && Yaml.eq_str ty "scheduled"); [|congruence].
  destruct Hsh as (s & Hs & Hsch).
  rewrite Hc in Hsch. injection Hsch as <-.
  by eapply compiled_cron_checkable.
Qed.

(** The rules of loaded events can always be checked: a run of due-ness
    evaluations of events that carry the rule of a loaded event raises
    nothing, and answers due at most once per event and minute. *)
Corollary loaded_rules_fire_once ysl fs st evals :
  Forall (fun e => ∃ dir ev0, parse_event_md ysl fs dir = Ok ev0
                              ∧ schedule e.1 = schedule ev0) evals →
  ∃ bs st', evaluate st evals = Ok (bs, st')
            ∧ ∀ n k, (hits n k evals bs ≤ 1)%nat.
Proof.
  intros H.
  assert (Forall checkable evals) as Hc.
  { eapply Forall_impl; [exact H|].
    intros [ev now] (dir & ev0 & Hl & Hs) c Hc. simpl in *.
    rewrite Hs in Hc.
    by apply (loaded_event_checkable _ _ _ _ now Hl c). }
  destruct (evaluate_total evals st Hc) as (bs & st' & E).
  exists bs, st'. split; [done|]. intros n k. by eapply hits_at_most_once.
Qed.

(** ** The directory scan *)

Lemma load_candidates_spec ysl fs root cands : ∀ evs,
  load_candidates ysl fs root cands evs
  = evs ++ omap (fun c => loaded_from ysl fs root c.1) cands.
Proof.
  induction cands as [|[n nd] cands IH]; intros evs; simpl.
  - by rewrite app_nil_r.
  - unfold loaded_from. simpl.
    destruct (Fs.is_dir fs (root ++ [n])); cbn [negb andb]; [|apply IH].
    destruct (Fs.exists_ fs _); cbn [negb]; [|apply IH].
    destruct (parse_event_md ysl fs (root ++ [n])); [|apply IH].
    rewrite IH. by rewrite <- app_assoc.
Qed.

Lemma load_spec ysl fs st es :
  Fs.lookup fs (events_root st) = Some (Dir es) →
  ∃ st', load ysl fs st = Ok st'
    ∧ ∀ ev, ev ∈ events st' ↔
            ev ∈ events st
            ∨ ∃ n nd, (n, nd) ∈ es
                      ∧ loaded_from ysl fs (events_root st) n = Some ev.
Proof.
  intros Hroot. unfold load, Fs.is_dir, Fs.iterdir_sorted. rewrite Hroot.
  cbn [negb]. eexists. split; [reflexivity|].
  intros ev. cbn [events set_events].
  rewrite load_candidates_spec, elem_of_app, list_elem_of_omap.
  split; (intros [?|H]; [by left|right]).
  - destruct H as ([n nd] & Hin & Hl). exists n, nd. split; [|done].
    by rewrite merge_sort_Permutation in Hin.
  - destruct H as (n & nd & Hin & Hl). exists (n, nd). split; [|done].
    by rewrite merge_sort_Permutation.
Qed.

(** C7. A folder whose manifest has neither [action] nor [script] fails to
    load with a [ValueError] and contributes nothing to the scan, as does,
    with whatever exception, a folder whose header is no mapping; the scan
    of a directory succeeds and the registry afterwards holds the
    definitions it held before and the definition of every folder of the
    directory that has a manifest and loads. *)
Theorem scan_isolates_failures ysl fs st es :
  Fs.lookup fs (events_root st) = Some (Dir es) →
  (∃ st', load ysl fs st = Ok st'
     ∧ ∀ ev, ev ∈ events st' ↔
             ev ∈ events st
             ∨ ∃ n nd, (n, nd) ∈ es
                       ∧ Fs.is_dir fs (events_root st ++ [n]) = true
                       ∧ Fs.exists_ fs (Fs.join (events_root st ++ [n]) "EVENT.md")
                         = true
                       ∧ parse_event_md ysl fs (events_root st ++ [n]) = Ok ev)
  ∧ (∀ n d,
       manifest ysl fs (events_root st ++ [n]) d →
       Yaml.has "action" d = false → Yaml.has "script" d = false →
       (∃ msg, parse_event_md ysl fs (events_root st ++ [n])
               = Raise (ValueError msg))
       ∧ loaded_from ysl fs (events_root st) n = None)
  ∧ (∀ n v,
       header_value ysl fs (events_root st ++ [n]) v → (∀ d, v ≠ YDict d) →
       (∃ e, parse_event_md ysl fs (events_root st ++ [n]) = Raise e)
       ∧ loaded_from ysl fs (events_root st) n = None).
Proof.
  intros Hroot. split; [|split].
  - destruct (load_spec ysl fs st es Hroot) as (st' & E & H).
    exists st'. split; [done|]. intros ev. rewrite H.
    split; (intros [?|(n & nd & Hin & Hl)]; [by left|right]);
      exists n, nd; (split; [done|]).
    + unfold loaded_from in Hl.
      destruct (Fs.is_dir _ _); [|done]. destruct (Fs.exists_ _ _); [|done].
      destruct (parse_event_md _ _ _); [|done]. by injection Hl as ->.
    + destruct Hl as (Hl1 & Hl2 & Hl3). unfold loaded_from.
      by rewrite Hl1, Hl2, Hl3.
  - intros n d Hm Ha Hs.
    destruct (manifest_without_action ysl fs _ d Hm Ha Hs) as [msg E].
    split; [by exists msg|]. unfold loaded_from. rewrite E.
    by destruct (_ && _).
  - intros n v Hv Hn.
    destruct (parse_no_mapping ysl NLSchedule.parse fs _ v Hv Hn) as [e E].
    split; [by exists e|]. unfold loaded_from, parse_event_md. rewrite E.
    by destruct (_ && _).
Qed.

Lemma scan_isolates_failures_witness :
  (∃ st', load Sample.yaml_safe_load Sample.disk (new_engine Sample.events_dir)
          = Ok st'
          ∧ name <$> events st' = ["good"; "mail"; "nosched"])
  ∧ parse_event_md Sample.yaml_safe_load Sample.disk (Sample.events_dir ++ ["bad"])
    = Raise (ValueError "EVENT.md must have 'action' or 'script'").
Proof.
  pose proof (scan_isolates_failures Sample.yaml_safe_load Sample.disk
                (new_engine Sample.events_dir) _ eq_refl) as [(st' & E & _) H].
  split.
  - exists st'. split; [done|].
    vm_compute in E. injection E as <-. reflexivity.
  - destruct H as [H _]. destruct (H "bad" _
                (ex_intro _ _ (ex_intro _ _ (ex_intro _ _ (ex_intro _ _
                   (conj eq_refl (conj eq_refl (conj eq_refl eq_refl)))))))
                eq_refl eq_refl) as [[msg Hmsg] _].
    vm_compute. reflexivity.
Defined.

(** ** The schedule key of a manifest *)

(** C10, as the code has it. For a manifest of type [scheduled] the
    schedule key is optional: without a schedule (absent or empty) the
    folder loads as it would with any compiler, the definition holds no
    compiled rule and is never due.  A schedule that is given is compiled
    for a [scheduled] manifest, and the folder loads only if it compiles.
    For a manifest of any other type the schedule text is never handed to
    the compiler. *)
Theorem schedule_key_optional ysl fs dir d :
  manifest ysl fs dir d →
  (* no schedule, or a type other than [scheduled]: the compiler is not used *)
  ((∀ ty, Yaml.get "type" d = Some ty →
          Yaml.truthy (default YNull (Yaml.get "schedule" d))
          && Yaml.eq_str ty "scheduled" = false) →
   (∀ compile,
      parse_event_md_with ysl compile fs dir = parse_event_md ysl fs dir)
   ∧ ∀ ev, parse_event_md ysl fs dir = Ok ev →
           schedule ev = None ∧ ∀ st now, _is_due st ev now = Ok (false, st))
  (* a schedule on a [scheduled] manifest: it has to compile *)
  ∧ (∀ ev, parse_event_md ysl fs dir = Ok ev →
           Yaml.truthy (schedule_raw ev) && Yaml.eq_str (event_type ev) "scheduled"
           = true →
           ∃ s, NLSchedule.parse (Yaml.str (schedule_raw ev)) = Ok s
                ∧ schedule ev = Some s).
Proof.
  intros Hm. split.
  - intros Hno. split.
    + intros compile. unfold parse_event_md.
      rewrite !(parse_manifest _ _ _ _ _ Hm).
      by apply event_of_mapping_compile_unused.
    + intros ev Hev. unfold parse_event_md in Hev.
      rewrite (parse_manifest _ _ _ _ _ Hm) in Hev.
      apply event_of_mapping_schedule in Hev as (ty & Hty & Het & Hraw & Hs).
      rewrite Hraw, (Hno ty Hty) in Hs.
      split; [done|]. intros. by apply never_due_without_schedule.
  - intros ev Hev Hb. unfold parse_event_md in Hev.
    rewrite (parse_manifest _ _ _ _ _ Hm) in Hev.
    apply event_of_mapping_schedule in Hev as (ty & Hty & Het & Hraw & Hs).
    rewrite <- Het in Hs. by rewrite Hb in Hs.
Qed.

Lemma schedule_key_optional_witness :
  manifest Sample.yaml_safe_load Sample.disk (Sample.events_dir ++ ["nosched"])
    [("type", YStr "scheduled"); ("action", Sample.mcp_noop)]
  ∧ ∀ ev, parse_event_md Sample.yaml_safe_load Sample.disk
            (Sample.events_dir ++ ["nosched"]) = Ok ev →
          schedule ev = None ∧ ∀ st now, _is_due st ev now = Ok (false, st).
Proof.
  assert (manifest Sample.yaml_safe_load Sample.disk
            (Sample.events_dir ++ ["nosched"])
            [("type", YStr "scheduled"); ("action", Sample.mcp_noop)]) as Hm.
  { do 4 eexists.
    split; [vm_compute; reflexivity|]. split; [reflexivity|].
    split; vm_compute; reflexivity. }
  split; [exact Hm|].
  refine (proj2 (proj1 (schedule_key_optional _ _ _ _ Hm) _)).
  intros ty [= <-]. reflexivity.
Defined.

(** C10, as stated, fails: the manifest of the folder [nosched] declares
    the type [scheduled] and gives no schedule, and the folder loads. *)
Lemma scheduled_without_schedule_loads :
  ∃ ev, parse_event_md Sample.yaml_safe_load Sample.disk
          (Sample.events_dir ++ ["nosched"]) = Ok ev
        ∧ event_type ev = YStr "scheduled"
        ∧ schedule_raw ev = YNull
        ∧ schedule ev = None.
Proof. eexists. split; [vm_compute; reflexivity|]. done. Qed.

(** ** File references in action parameters *)

Lemma resolve_value_not_str fs v dir :
  (∀ s, v ≠ YStr s) → _resolve_value fs v dir = Ok v.
Proof. destruct v; try done. intros H. by destruct (H s). Qed.

Lemma resolve_value_missing fs v dir :
  Fs.exists_ fs (Fs.resolve (Fs.join dir v)) = false →
  _resolve_value fs (YStr v) dir = Ok (YStr v).
Proof. intros H. unfold _resolve_value. by rewrite H. Qed.

Lemma resolve_value_outside fs v dir :
  Py.startswith (Fs.str (Fs.resolve (Fs.join dir v))) (Fs.str (Fs.resolve dir))
  = false →
  _resolve_value fs (YStr v) dir = Ok (YStr v).
Proof. intros H. unfold _resolve_value. by rewrite H, andb_false_r. Qed.

Lemma resolve_value_file fs v dir raw :
  Fs.lookup fs (Fs.resolve (Fs.join dir v)) = Some (File raw) →
  Py.startswith (Fs.str (Fs.resolve (Fs.join dir v))) (Fs.str (Fs.resolve dir))
  = true →
  _resolve_value fs (YStr v) dir
  = Ok (if Py.endswith v ".txt" then YList (YStr <$> address_lines raw)
        else YStr (Py.strip raw)).
Proof.
  intros Hf Hp. unfold _resolve_value, Fs.exists_, Fs.read_text.
  rewrite Hf, Hp. rewrite bool_decide_eq_true_2 by eauto.
  cbn [andb mbind result_bind]. by destruct (Py.endswith v ".txt").
Qed.

Lemma resolve_value_directory fs v dir es :
  Fs.lookup fs (Fs.resolve (Fs.join dir v)) = Some (Dir es) →
  Py.startswith (Fs.str (Fs.resolve (Fs.join dir v))) (Fs.str (Fs.resolve dir))
  = true →
  _resolve_value fs (YStr v) dir = Raise IsADirectoryError.
Proof.
  intros Hf Hp. unfold _resolve_value, Fs.exists_, Fs.read_text.
  rewrite Hf, Hp. by rewrite bool_decide_eq_true_2 by eauto.
Qed.

(** C8 against the code. In the folder [mail]: the name of a [.txt] file
    of the folder gives its lines, another file its trimmed text, a path
    that does not exist stays as it is - but the empty text and the name
    of a sub-directory, which name no file, raise [IsADirectoryError]
    instead of passing through, and a file of the sibling folder
    [mail-archive], outside the job folder, is read. *)
Theorem resolve_value_on_sample :
  let dir := Sample.events_dir ++ ["mail"] in
  _resolve_value Sample.disk (YStr "references/recipients.txt") dir
  = Ok (YList [YStr "ann@example.com"; YStr "bob@example.com"])
  ∧ _resolve_value Sample.disk (YStr "references/body.md") dir
    = Ok (YStr "Hello team,
see attached.")
  ∧ _resolve_value Sample.disk (YStr "references/nothing.txt") dir
    = Ok (YStr "references/nothing.txt")
  ∧ _resolve_value Sample.disk (YStr "") dir = Raise IsADirectoryError
  ∧ _resolve_value Sample.disk (YStr "references") dir = Raise IsADirectoryError
  ∧ _resolve_value Sample.disk (YStr "../mail-archive/secret.md") dir
    = Ok (YStr "old drafts").
Proof. repeat split; vm_compute; reflexivity. Qed.

(** ** Dispatch and the polling loop *)

(** A tool call never raises: a missing tool and a raising tool are
    reported. *)
Lemma dispatch_mcp w ev a :
  action ev = YDict a → Yaml.has "mcp" a = true →
  ∃ r, _dispatch w ev = Ok [r].
Proof.
  intros Ha Hm. unfold _dispatch. rewrite Ha. cbn [py_in mbind result_bind].
  rewrite Hm. unfold Yaml.has in Hm. apply bool_decide_eq_true in Hm as [t Ht].
  rewrite Ht. cbn [of_option mbind result_bind].
  destruct (call_tool w t _); eauto.
Qed.

Lemma dispatch_script_not_found w ev a s :
  action ev = YDict a → Yaml.has "mcp" a = false →
  Yaml.get "script" a = Some (YStr s) →
  Fs.exists_ (fs w) (Fs.resolve (Fs.join (event_dir ev) s)) = false →
  _dispatch w ev = Ok [ScriptNotFound].
Proof.
  intros Ha Hm Hs He. unfold _dispatch. rewrite Ha. cbn [py_in mbind result_bind].
  rewrite Hm. unfold Yaml.has. rewrite Hs.
  rewrite bool_decide_eq_true_2 by eauto.
  cbn [of_option mbind result_bind]. by rewrite He.
Qed.

Lemma dispatch_script_outcome w ev a s :
  action ev = YDict a → Yaml.has "mcp" a = false →
  Yaml.get "script" a = Some (YStr s) →
  Fs.exists_ (fs w) (Fs.resolve (Fs.join (event_dir ev) s)) = true →
  _dispatch w ev
  = match load_script w (Fs.resolve (Fs.join (event_dir ev) s)) with
    | ImportRaises e => Raise e
    | NoHandle => Ok [NoHandleFunction]
    | Handle h => match h (resolved_params ev) with
                  | Ok r => Ok [ScriptResult r]
                  | Raise e => Raise e
                  end
    end.
Proof.
  intros Ha Hm Hs He. unfold _dispatch. rewrite Ha. cbn [py_in mbind result_bind].
  rewrite Hm. unfold Yaml.has. rewrite Hs.
  rewrite bool_decide_eq_true_2 by eauto.
  cbn [of_option mbind result_bind]. rewrite He. cbn [negb].
  destruct (load_script w _); try done.
Qed.

Lemma tick_events_keeps_registry w now evs : ∀ st out,
  events (state (_tick_events w now evs st out)) = events st.
Proof.
  induction evs as [|ev evs IH]; intros st out; simpl; [done|].
  destruct (Yaml.truthy (active ev)); [|apply IH].
  destruct (_is_due st ev now) as [[[|] st']|] eqn:E; [| |done].
  - assert (events st' = events st) as Hst.
    { apply is_due_effect in E as [[-> _]|(_ & _ & _ & ->)]; done. }
    destruct (_dispatch w ev); [rewrite IH|]; simpl; done.
  - rewrite IH. apply is_due_effect in E as [[-> _]|(_ & _ & _ & ->)]; done.
Qed.

Lemma tick_events_no_raise w now evs : ∀ st out,
  Forall (fun ev => checkable (ev, now) ∧ is_ok (_dispatch w ev) = true) evs →
  raised (_tick_events w now evs st out) = None.
Proof.
  induction evs as [|ev evs IH]; intros st out H; simpl; [done|].
  inversion H as [|?? [Hc Hd] Hrest]; subst.
  destruct (Yaml.truthy (active ev)); [|by apply IH].
  destruct (is_due_total st ev now Hc) as (b & st' & ->).
  destruct b; [|by apply IH].
  destruct (_dispatch w ev); [by apply IH | done].
Qed.

(** While no dispatch raises, the loop runs through every tick. *)
Lemma run_loop_no_raise w clock : ∀ st out,
  (∀ now, now ∈ clock →
     Forall (fun ev => checkable (ev, now) ∧ is_ok (_dispatch w ev) = true)
       (events st)) →
  raised (run_loop w clock st out) = None.
Proof.
  induction clock as [|now clock IH]; intros st out H; simpl; [done|].
  destruct (negb (_running st)); [done|].
  assert (raised (_tick w now st out) = None) as Hr.
  { apply tick_events_no_raise, H. set_solver. }
  rewrite Hr. apply IH. intros now' Hin.
  unfold _tick. rewrite tick_events_keeps_registry. apply H. set_solver.
Qed.

(** An error of a tool is reported and the loop goes on: with [flaky],
    whose tool raises, before [good] in the registry, both events are
    dispatched on every tick at which they are due. *)
Example tool_error_is_reported :
  let st := App.append_event Sample.good
              (App.append_event Sample.flaky (new_engine ["srv"; "jobs"])) in
  let o := run Sample.world
             [at_ 2024 1 1 9 0 0; at_ 2024 1 1 9 0 1; at_ 2024 1 1 9 0 2] st in
  raised o = None
  ∧ reports o
    = [("flaky", McpError (RuntimeError "connection refused"));
       ("good", ToolResult Sample.sent);
       ("flaky", McpError (RuntimeError "connection refused"));
       ("good", ToolResult Sample.sent)]
  ∧ active <$> events (state o) = [YBool true; YBool true].
Proof. repeat split; vm_compute; reflexivity. Qed.

(** C1 against the code. The registry holds the active events [crash],
    whose script has a [handle] that raises, and [good]; both are due on
    the first tick.  The exception of the script leaves [_dispatch],
    [_tick] and [run]: the loop ends in the first tick, [good] is never
    evaluated and the later ticks do not happen. *)
Theorem script_error_ends_loop :
  ∃ st crash good,
    load Sample.yaml_safe_load Sample.disk (new_engine ["srv"; "jobs"]) = Ok st
    ∧ events st = [crash; good]
    ∧ Yaml.truthy (active crash) = true ∧ Yaml.truthy (active good) = true
    ∧ (∀ now, _is_due st good now = Ok (true, st))
    ∧ _dispatch Sample.world crash = Raise (OtherError "boom")
    ∧ let o := run Sample.world
                 [at_ 2024 1 1 9 0 0; at_ 2024 1 1 9 0 2; at_ 2024 1 1 9 0 4] st in
      raised o = Some (OtherError "boom")
      ∧ reports o = []
      ∧ _last_fired (state o) !! "crash" = Some (at_ 2024 1 1 9 0 0)
      ∧ _last_fired (state o) !! "good" = None.
Proof.
  do 3 eexists.
  split; [vm_compute; reflexivity|].
  split; [reflexivity|].
  repeat split; try (vm_compute; reflexivity).
Qed.

(** ** Deleting an event *)

Lemma delete_event_effect root n fs st where_ found :
  n ≠ "" → Fs.realpath fs (Fs.join root n) = Some (where_, found) →
  let st' := (App.delete_event root n fs st).2 in
  (∀ ev, ev ∈ events st' ↔ ev ∈ events st ∧ name ev ≠ n)
  ∧ _last_fired st' !! n = None
  ∧ (∀ m, m ≠ n → _last_fired st' !! m = _last_fired st !! m)
  ∧ _cron_fired_this_minute st' = _cron_fired_this_minute st.
Proof.
  intros Hn Hr. unfold App.delete_event.
  destruct (String.eqb_spec n "") as [?|_]; [done|]. rewrite Hr.
  destruct found; simpl; (split; [|split; [|split]]); try done.
  all: try apply lookup_delete_eq.
  all: try (intros m Hm; by apply lookup_delete_ne).
  all: intros ev; rewrite list_elem_of_In, filter_In, <- list_elem_of_In;
    rewrite negb_true_iff; destruct (String.eqb_spec (name ev) n);
    intuition congruence.
Qed.

(** C2 against the code. The event [daily], once activated, fires at
    09:00:05; deleting it empties the registry, removes its last-fired
    entry and its folder, and leaves its marker of that minute; the event
    created again under the same name and activated is then not due at
    09:00:30, where it is due on an engine without history. *)
Theorem delete_leaves_cron_marker :
  let root := ["srv"; "cron"] in
  ∃ st0 daily,
    load Sample.yaml_safe_load Sample.disk (new_engine root) = Ok st0
    ∧ events st0 = [daily]
    ∧ name daily = "daily"
    ∧ schedule daily = Some (Cron "0 9 * * *")
    ∧ let o1 := _tick Sample.world (at_ 2024 1 1 9 0 5)
                  (App.activate_event "daily" st0) [] in
      reports o1 = [("daily", ToolResult Sample.sent)]
      ∧ let deleted := App.delete_event root "daily" Sample.disk (state o1) in
        Fs.exists_ deleted.1 (root ++ ["daily"]) = false
        ∧ events deleted.2 = []
        ∧ _last_fired deleted.2 !! "daily" = None
        ∧ _cron_fired_this_minute deleted.2 !! "daily:202401010900" = Some true
        ∧ reports (_tick Sample.world (at_ 2024 1 1 9 0 30)
                     (App.activate_event "daily"
                        (App.append_event daily deleted.2)) []) = []
        ∧ reports (_tick Sample.world (at_ 2024 1 1 9 0 30)
                     (App.activate_event "daily"
                        (App.append_event daily (new_engine root))) [])
          = [("daily", ToolResult Sample.sent)].
Proof.
  cbv zeta. do 2 eexists.
  split; [vm_compute; reflexivity|].
  repeat split; vm_compute; reflexivity.
Qed.
(** * The scheduler seen from its registry *)

Lemma append_cancel_r (a b s : string) : a +:+ s = b +:+ s → a = b.
Proof.
  revert b. induction a as [|x a IH]; intros [|y b] H; simpl in H; try done.
  - exfalso. apply (f_equal String.length) in H. simpl in H.
    rewrite length_app_s in H. lia.
  - exfalso. apply (f_equal String.length) in H. simpl in H.
    rewrite length_app_s in H. lia.
  - injection H as -> H. f_equal. by apply IH.
Qed.

Lemma cache_key_inj ev ev' now :
  cache_key ev now = cache_key ev' now → name ev = name ev'.
Proof. unfold cache_key. apply append_cancel_r. Qed.

(** The due-ness test reads the state at the last firing of the event and
    at its marker of the minute, nowhere else. *)
Lemma is_due_frame st1 st2 ev now :
  _last_fired st1 !! name ev = _last_fired st2 !! name ev →
  _cron_fired_this_minute st1 !! cache_key ev now
  = _cron_fired_this_minute st2 !! cache_key ev now →
  due st1 ev now = due st2 ev now.
Proof.
  intros Hl Hc. unfold due, _is_due. rewrite Hl, Hc.
  destruct (negb _); [done|].
  destruct (schedule ev) as [[secs|c]|]; [| |done].
  - by destruct (_last_fired st2 !! name ev).
  - destruct (default false _); [done|].
    by destruct (_cron_matches c now) as [[|]|].
Qed.

Lemma due_after_firing st ev ev' now b st' :
  _is_due st ev now = Ok (b, st') → name ev' ≠ name ev →
  due (record_firing ev now st') ev' now = due st ev' now.
Proof.
  intros H Hne. apply is_due_frame.
  - unfold record_firing. simpl. rewrite lookup_insert_ne by done.
    by apply is_due_effect in H as [[-> _]|(_ & _ & _ & ->)].
  - unfold record_firing. simpl.
    apply is_due_effect in H as [[-> _]|(_ & _ & _ & ->)]; [done|]. simpl.
    rewrite lookup_insert_ne; [done|].
    intros Heq. apply cache_key_inj in Heq. done.
Qed.

Lemma tick_events_spec w now evs : ∀ st out,
  NoDup (name <$> evs) →
  Forall (fun ev => checkable (ev, now) ∧ is_ok (_dispatch w ev) = true) evs →
  let F := List.filter (fun ev => Yaml.truthy (active ev) && due st ev now) evs in
  let o := _tick_events w now evs st out in
  raised o = None
  ∧ reports o = out ++ (F ≫= told w)
  ∧ _last_fired (state o)
    = foldl (fun m ev => <[name ev := now]> m) (_last_fired st) F
  ∧ _cron_fired_this_minute (state o)
    = foldl (fun m ev => if is_cron ev then <[cache_key ev now := true]> m else m)
        (_cron_fired_this_minute st) F.
Proof.
  induction evs as [|ev evs IH]; intros st out Hnd Hall F o; subst F o.
  { simpl. by rewrite app_nil_r. }
  rewrite fmap_cons in Hnd. apply NoDup_cons in Hnd as [Hnot Hnd].
  inversion Hall as [|?? [Hc Hd] Hrest]; subst.
  cbn [_tick_events List.filter].
  destruct (Yaml.truthy (active ev)); cbn [andb]; [|by apply IH].
  destruct (is_due_total st ev now Hc) as (b & st' & E).
  assert (due st ev now = b) as -> by (unfold due; by rewrite E).
  rewrite E. destruct b.
  - destruct (_dispatch w ev) as [rs|] eqn:Ed; [|done].
    assert (List.filter (fun ev0 => Yaml.truthy (active ev0) && due st ev0 now) evs
            = List.filter (fun ev0 => Yaml.truthy (active ev0)
                                      && due (record_firing ev now st') ev0 now) evs)
      as ->.
    { apply filter_ext_in. intros ev' Hin. f_equal. symmetry.
      eapply due_after_firing; [done|].
      intros Heq. apply Hnot. rewrite <- Heq.
      apply list_elem_of_fmap. exists ev'. split; [done|].
      by apply list_elem_of_In. }
    destruct (IH (record_firing ev now st')
                 (out ++ ((fun r => (name ev, r)) <$> rs)) Hnd Hrest)
      as (Hr & Hrep & Hl & Hm).
    split; [done|]. split; [|split].
    + rewrite Hrep. cbn [mbind list_bind]. unfold told at 2. rewrite Ed.
      by rewrite <- app_assoc.
    + rewrite Hl. cbn [foldl]. f_equal. unfold record_firing. simpl.
      by apply is_due_effect in E as [[-> _]|(_ & _ & _ & ->)].
    + rewrite Hm. cbn [foldl]. f_equal. unfold record_firing. simpl.
      apply is_due_effect in E as [[-> Hcron]|(_ & Hcron & _ & ->)].
      * destruct (is_cron ev); [|done]. by specialize (Hcron eq_refl).
      * by rewrite Hcron.
  - assert (st' = st) as ->.
    { by apply is_due_effect in E as [[-> _]|(? & _)]. }
    by apply IH.
Qed.

Lemma foldl_last_fired now F : ∀ (m : gmap string datetime) n,
  foldl (fun m ev => <[name ev := now]> m) m F !! n
  = if bool_decide (n ∈ name <$> F) then Some now else m !! n.
Proof.
  induction F as [|ev F IH]; intros m n; [done|].
  cbn [foldl]. rewrite IH, fmap_cons.
  destruct (decide (n ∈ name <$> F)) as [Hin|Hnin].
  - rewrite !bool_decide_eq_true_2; [done| |done]. by right.
  - rewrite (bool_decide_eq_false_2 (n ∈ name <$> F)) by done.
    destruct (decide (name ev = n)) as [<-|Hne].
    + rewrite lookup_insert_eq, bool_decide_eq_true_2; [done|]. by left.
    + rewrite lookup_insert_ne, bool_decide_eq_false_2; [done| |done].
      intros [?|?]%elem_of_cons; congruence.
Qed.

Lemma foldl_markers now F : ∀ (m : gmap string bool) key,
  default false
    (foldl (fun m ev => if is_cron ev then <[cache_key ev now := true]> m else m)
       m F !! key) = true
  ↔ default false (m !! key) = true
    ∨ ∃ ev, ev ∈ F ∧ is_cron ev = true ∧ key = cache_key ev now.
Proof.
  induction F as [|ev F IH]; intros m key.
  - simpl. split; [by left|]. intros [?|(? & []%elem_of_nil & _)]; done.
  - cbn [foldl]. rewrite IH. split.
    + intros [H|(ev' & Hin & Hc & Hk)].
      * destruct (is_cron ev) eqn:Ec; [|by left].
        destruct (decide (cache_key ev now = key)) as [<-|Hne].
        -- right. exists ev. split; [by left | done].
        -- rewrite lookup_insert_ne in H by done. by left.
      * right. exists ev'. split; [by right | done].
    + intros [H|(ev' & Hin & Hc & Hk)].
      * left. destruct (is_cron ev); [|done].
        destruct (decide (cache_key ev now = key)) as [<-|Hne].
        -- by rewrite lookup_insert_eq.
        -- by rewrite lookup_insert_ne.
      * apply elem_of_cons in Hin as [->|Hin].
        -- left. rewrite Hc, Hk. by rewrite lookup_insert_eq.
        -- right. by exists ev'.
Qed.

(** X1. A tick over a registry of distinct names in which no due-ness test
    and no dispatch raises fires exactly the events that are active and due
    in the state at the start of the tick, in registry order: it reports
    their actions in that order, sets their last firing to the time of the
    tick, marks the minute for those with a cron rule, and changes nothing
    else. *)
Theorem tick_fires_due_events w now st out :
  NoDup (name <$> events st) →
  Forall (fun ev => checkable (ev, now) ∧ is_ok (_dispatch w ev) = true)
    (events st) →
  let o := _tick w now st out in
  raised o = None
  ∧ reports o = out ++ (firing st now ≫= told w)
  ∧ events (state o) = events st
  ∧ (∀ n, _last_fired (state o) !! n
          = if bool_decide (n ∈ name <$> firing st now) then Some now
            else _last_fired st !! n)
  ∧ (∀ key, marked (state o) key = true ↔
            marked st key = true
            ∨ ∃ ev, ev ∈ firing st now ∧ is_cron ev = true
                    ∧ key = cache_key ev now).
Proof.
  intros Hnd Hall o. subst o. unfold _tick, firing.
  destruct (tick_events_spec w now (events st) st out Hnd Hall)
    as (Hr & Hrep & Hl & Hm).
  split; [done|]. split; [done|].
  split; [apply tick_events_keeps_registry|]. split.
  - intros n. rewrite Hl. apply foldl_last_fired.
  - intros key. unfold marked. rewrite Hm. apply foldl_markers.
Qed.

Lemma tick_fires_due_events_witness :
  let st := set_events [Sample.flaky; Sample.daily; Sample.good]
              (new_engine ["srv"; "jobs"]) in
  let now := at_ 2024 1 1 9 0 0 in
  let o := _tick Sample.world now st [] in
  raised o = None
  ∧ reports o = [] ++ (firing st now ≫= told Sample.world)
  ∧ events (state o) = events st
  ∧ (∀ n, _last_fired (state o) !! n
          = if bool_decide (n ∈ name <$> firing st now) then Some now
            else _last_fired st !! n)
  ∧ (∀ key, marked (state o) key = true ↔
            marked st key = true
            ∨ ∃ ev, ev ∈ firing st now ∧ is_cron ev = true
                    ∧ key = cache_key ev now).
Proof.
  apply tick_fires_due_events.
  - apply (bool_decide_unpack _). vm_compute. exact I.
  - simpl. apply Forall_cons. split.
    { split; [intros c Hc; discriminate Hc | vm_compute; reflexivity]. }
    apply Forall_cons. split.
    { split; [|vm_compute; reflexivity].
      intros c [= <-]. exists true. vm_compute. reflexivity. }
    apply Forall_cons. split; [|apply Forall_nil_2].
    split; [intros c Hc; discriminate Hc | vm_compute; reflexivity].
Defined.

(** ** What the loop never does *)

Lemma is_due_last_fired st ev now b st' :
  _is_due st ev now = Ok (b, st') → _last_fired st' = _last_fired st.
Proof. intros H. by apply is_due_effect in H as [[-> _]|(_ & _ & _ & ->)]. Qed.

Lemma is_due_markers st ev now b st' key :
  _is_due st ev now = Ok (b, st') →
  marked st' key = true →
  marked st key = true ∨ (b = true ∧ is_cron ev = true ∧ key = cache_key ev now).
Proof.
  intros H Hm. apply is_due_effect in H as [[-> _]|(-> & Hc & _ & ->)]; [by left|].
  unfold marked in *. simpl in Hm.
  destruct (decide (cache_key ev now = key)) as [<-|Hne]; [by right|].
  rewrite lookup_insert_ne in Hm by done. by left.
Qed.

(** What one pass over the events can have changed, whether or not it ends
    in an exception. *)
Lemma tick_events_changes w now evs : ∀ st out,
  let o := _tick_events w now evs st out in
  (∃ new, reports o = out ++ new
          ∧ ∀ r, r ∈ new →
                 ∃ ev, ev ∈ evs ∧ Yaml.truthy (active ev) = true ∧ r.1 = name ev)
  ∧ (∀ n, _last_fired (state o) !! n = _last_fired st !! n
          ∨ (_last_fired (state o) !! n = Some now
             ∧ ∃ ev, ev ∈ evs ∧ Yaml.truthy (active ev) = true ∧ name ev = n))
  ∧ (∀ key, marked st key = true → marked (state o) key = true)
  ∧ (∀ key, marked (state o) key = true →
            marked st key = true
            ∨ ∃ ev, ev ∈ evs ∧ Yaml.truthy (active ev) = true
                    ∧ is_cron ev = true ∧ key = cache_key ev now).
Proof.
  induction evs as [|ev evs IH]; intros st out o; subst o.
  { simpl. split; [|by auto]. exists []. rewrite app_nil_r. split; [done|].
    by intros r ?%elem_of_nil. }
  assert (∀ st1 out1,
            (∀ n, _last_fired st1 !! n = _last_fired st !! n
                  ∨ (_last_fired st1 !! n = Some now
                     ∧ Yaml.truthy (active ev) = true ∧ name ev = n)) →
            (∀ key, marked st key = true → marked st1 key = true) →
            (∀ key, marked st1 key = true →
                    marked st key = true
                    ∨ (Yaml.truthy (active ev) = true ∧ is_cron ev = true
                       ∧ key = cache_key ev now)) →
            (∃ mid, out1 = out ++ mid
                    ∧ ∀ r, r ∈ mid → Yaml.truthy (active ev) = true ∧ r.1 = name ev) →
            let o := _tick_events w now evs st1 out1 in
            (∃ new, reports o = out ++ new
                    ∧ ∀ r, r ∈ new →
                           ∃ ev0, ev0 ∈ ev :: evs
                                  ∧ Yaml.truthy (active ev0) = true ∧ r.1 = name ev0)
            ∧ (∀ n, _last_fired (state o) !! n = _last_fired st !! n
                    ∨ (_last_fired (state o) !! n = Some now
                       ∧ ∃ ev0, ev0 ∈ ev :: evs
                                ∧ Yaml.truthy (active ev0) = true ∧ name ev0 = n))
            ∧ (∀ key, marked st key = true → marked (state o) key = true)
            ∧ (∀ key, marked (state o) key = true →
                      marked st key = true
                      ∨ ∃ ev0, ev0 ∈ ev :: evs ∧ Yaml.truthy (active ev0) = true
                               ∧ is_cron ev0 = true ∧ key = cache_key ev0 now))
    as Hrest.
  { intros st1 out1 Hl Hm1 Hm2 (mid & -> & Hmid) o.
    destruct (IH st1 (out ++ mid)) as ((new & Hrep & Hnew) & Hl' & Hm1' & Hm2').
    fold o in Hrep, Hl', Hm1', Hm2'.
    split; [|split; [|split]].
    - exists (mid ++ new). rewrite Hrep, app_assoc. split; [done|].
      intros r [Hr|Hr]%elem_of_app.
      + exists ev. destruct (Hmid r Hr). split; [by left | done].
      + destruct (Hnew r Hr) as (ev0 & ? & ? & ?). exists ev0.
        split; [by right | done].
    - intros n. destruct (Hl' n) as [E|[E (ev0 & ? & ? & ?)]].
      + rewrite E. destruct (Hl n) as [?|(? & ? & ?)]; [by left|].
        right. split; [done|]. exists ev. split; [by left | done].
      + right. split; [done|]. exists ev0. split; [by right | done].
    - auto.
    - intros key Hk. destruct (Hm2' key Hk) as [Hk1|(ev0 & ? & ? & ? & ?)].
      + destruct (Hm2 key Hk1) as [?|(? & ? & ?)]; [by left|].
        right. exists ev. split; [by left | done].
      + right. exists ev0. split; [by right | done]. }
  cbn [_tick_events].
  destruct (Yaml.truthy (active ev)) eqn:Ea.
  2:{ apply Hrest; auto. exists []. rewrite app_nil_r. split; [done|].
      by intros r ?%elem_of_nil. }
  destruct (_is_due st ev now) as [[b st']|e] eqn:E.
  2:{ simpl. split; [|by auto]. exists []. rewrite app_nil_r. split; [done|].
      by intros r ?%elem_of_nil. }
  pose proof (is_due_last_fired _ _ _ _ _ E) as Hlf.
  assert (∀ key, marked st key = true → marked st' key = true) as Hmono.
  { intros key. by eapply marked_mono. }
  assert (∀ key, marked st' key = true →
                 marked st key = true
                 ∨ (true = true ∧ is_cron ev = true ∧ key = cache_key ev now))
    as Hnew.
  { intros key Hk. destruct (is_due_markers _ _ _ _ _ key E Hk) as [?|(_ & ? & ?)];
      auto. }
  destruct b.
  - assert (∀ n, _last_fired (record_firing ev now st') !! n = _last_fired st !! n
                 ∨ (_last_fired (record_firing ev now st') !! n = Some now
                    ∧ true = true ∧ name ev = n)) as Hl.
    { intros n. unfold record_firing. simpl. rewrite Hlf.
      destruct (decide (name ev = n)) as [<-|Hne].
      - right. by rewrite lookup_insert_eq.
      - left. by rewrite lookup_insert_ne. }
    destruct (_dispatch w ev) as [rs|e] eqn:Ed.
    + apply Hrest; try done.
      exists ((fun r => (name ev, r)) <$> rs). split; [done|].
      intros r (r0 & -> & _)%list_elem_of_fmap. done.
    + simpl. split; [|split; [|split]].
      * exists []. rewrite app_nil_r. split; [done|]. by intros r ?%elem_of_nil.
      * intros n. destruct (Hl n) as [?|(? & _ & ?)]; [by left|].
        right. split; [done|]. exists ev. split; [by left | done].
      * done.
      * intros key Hk. destruct (Hnew key Hk) as [?|(_ & ? & ?)]; [by left|].
        right. exists ev. split; [by left | done].
  - apply Hrest; try done.
    + intros n. left. by rewrite Hlf.
    + exists []. rewrite app_nil_r. split; [done|]. by intros r ?%elem_of_nil.
Qed.

Lemma run_loop_changes w clock : ∀ st out,
  let o := run_loop w clock st out in
  events (state o) = events st
  ∧ (∃ new, reports o = out ++ new
            ∧ ∀ r, r ∈ new →
                   ∃ ev, ev ∈ events st ∧ Yaml.truthy (active ev) = true
                         ∧ r.1 = name ev)
  ∧ (∀ n, _last_fired (state o) !! n = _last_fired st !! n
          ∨ ∃ t ev, t ∈ clock ∧ _last_fired (state o) !! n = Some t
                    ∧ ev ∈ events st ∧ Yaml.truthy (active ev) = true
                    ∧ name ev = n)
  ∧ (∀ key, marked st key = true → marked (state o) key = true)
  ∧ (∀ key, marked (state o) key = true →
            marked st key = true
            ∨ ∃ t ev, t ∈ clock ∧ ev ∈ events st
                      ∧ Yaml.truthy (active ev) = true
                      ∧ is_cron ev = true ∧ key = cache_key ev t).
Proof.
  induction clock as [|now clock IH]; intros st out o; subst o.
  { simpl. split; [done|]. split; [|by auto].
    exists []. rewrite app_nil_r. split; [done|]. by intros r ?%elem_of_nil. }
  cbn [run_loop].
  destruct (negb (_running st)).
  { simpl. split; [done|]. split; [|by auto].
    exists []. rewrite app_nil_r. split; [done|]. by intros r ?%elem_of_nil. }
  pose proof (tick_events_keeps_registry w now (events st) st out) as Hev.
  destruct (tick_events_changes w now (events st) st out)
    as ((new & Hrep & Hnew) & Hl & Hm1 & Hm2).
  fold (_tick w now st out) in Hev, Hrep, Hl, Hm1, Hm2.
  destruct (raised (_tick w now st out)).
  - split; [done|]. split; [by exists new|]. split; [|split; [done|]].
    + intros n. destruct (Hl n) as [?|(? & ev & ? & ? & ?)]; [by left|].
      right. exists now, ev. split; [by left | done].
    + intros key Hk. destruct (Hm2 key Hk) as [?|(ev & ? & ? & ? & ?)]; [by left|].
      right. exists now, ev. split; [by left | done].
  - destruct (IH (state (_tick w now st out)) (reports (_tick w now st out)))
      as (Hev' & (new' & Hrep' & Hnew') & Hl' & Hm1' & Hm2').
    rewrite Hev in Hnew', Hl', Hm2'.
    split; [congruence|]. split; [|split; [|split]].
    + exists (new ++ new'). rewrite Hrep', Hrep, app_assoc. split; [done|].
      intros r [?|?]%elem_of_app; auto.
    + intros n. destruct (Hl' n) as [E|(t & ev & ? & ? & ?)].
      * rewrite E. destruct (Hl n) as [?|(? & ev & ? & ? & ?)]; [by left|].
        right. exists now, ev. split; [by left | done].
      * right. exists t, ev. split; [by right | done].
    + auto.
    + intros key Hk. destruct (Hm2' key Hk) as [Hk1|(t & ev & ? & ?)].
      * destruct (Hm2 key Hk1) as [?|(ev & ? & ? & ? & ?)]; [by left|].
        right. exists now, ev. split; [by left | done].
      * right. exists t, ev. split; [by right | done].
Qed.

(** X2. An event that is not active is never fired by the loop: over any
    clock and with any tools and scripts, also when the loop ends in an
    exception, nothing is reported under a name whose events are all
    inactive, and the last firing recorded under that name stays as it
    was. *)
Theorem inactive_never_fires w clock st n :
  (∀ ev, ev ∈ events st → name ev = n → Yaml.truthy (active ev) = false) →
  let o := run w clock st in
  (∀ r, (n, r) ∉ reports o)
  ∧ _last_fired (state o) !! n = _last_fired st !! n.
Proof.
  intros Hoff o. subst o. unfold run.
  destruct (run_loop_changes w clock (set_running true st) [])
    as (_ & (new & Hrep & Hnew) & Hl & _).
  split.
  - intros r Hin. rewrite Hrep in Hin. simpl in Hin.
    destruct (Hnew _ Hin) as (ev & Hev & Ha & Hn). simpl in Hev, Hn.
    rewrite (Hoff ev Hev) in Ha; done.
  - destruct (Hl n) as [E|(t & ev & _ & _ & Hev & Ha & Hn)]; [done|].
    simpl in Hev. rewrite (Hoff ev Hev Hn) in Ha. done.
Qed.

Lemma inactive_never_fires_witness :
  let st := set_events [Sample.daily; Sample.good] (new_engine ["srv"; "cron"]) in
  let o := run Sample.world [at_ 2024 1 1 9 0 0; at_ 2024 1 1 9 0 1] st in
  (∀ r, ("daily", r) ∉ reports o)
  ∧ _last_fired (state o) !! "daily" = _last_fired st !! "daily".
Proof.
  apply inactive_never_fires.
  intros ev Hin Hn. simpl in Hin.
  apply elem_of_cons in Hin as [->|Hin]; [reflexivity|].
  apply elem_of_cons in Hin as [->|Hin]; [discriminate Hn|].
  by apply elem_of_nil in Hin.
Defined.

(** X3. The loop only ever adds to the bookkeeping of the engine and
    leaves the registry alone: after any run, ended by an exception or
    not, the events and their active flags are the ones before; every name
    with a last firing and every minute marker is still there; a last
    firing under a new name belongs to an active event of the registry, a
    new marker to an active cron event of the registry and a time of the
    clock. *)
Theorem loop_only_adds w clock st :
  let st' := state (run w clock st) in
  events st' = events st
  ∧ (∀ n, is_Some (_last_fired st !! n) → is_Some (_last_fired st' !! n))
  ∧ (∀ key, marked st key = true → marked st' key = true)
  ∧ (∀ n, is_Some (_last_fired st' !! n) →
          is_Some (_last_fired st !! n)
          ∨ ∃ ev, ev ∈ events st ∧ Yaml.truthy (active ev) = true ∧ name ev = n)
  ∧ (∀ key, marked st' key = true →
            marked st key = true
            ∨ ∃ t ev, t ∈ clock ∧ ev ∈ events st
                      ∧ Yaml.truthy (active ev) = true
                      ∧ is_cron ev = true ∧ key = cache_key ev t).
Proof.
  intros st'. subst st'. unfold run.
  destruct (run_loop_changes w clock (set_running true st) [])
    as (Hev & _ & Hl & Hm1 & Hm2).
  split; [done|]. split; [|split; [done|split; [|done]]].
  - intros n Hn. destruct (Hl n) as [E|(t & ev & _ & E & _)].
    + simpl in E. by rewrite E.
    + rewrite E. eauto.
  - intros n Hn. destruct (Hl n) as [E|(t & ev & _ & _ & ? & ? & ?)].
    + left. simpl in E. by rewrite <- E.
    + right. by exists ev.
Qed.

(** ** What the compiled cron rules mean *)




Lemma field_numbers lo hi ds x :
  Forall (fun d => 0 ≤ d) ds →
  field_denotes lo hi (PNumber <$> (Py.str_of_Z <$> ds)) x ↔ x ∈ ds.
Proof.
  intros Hall. unfold field_denotes. split.
  - intros (p & Hin & Hp).
    apply list_elem_of_fmap in Hin as (s & -> & Hin).
    apply list_elem_of_fmap in Hin as (d & -> & Hin).
    simpl in Hp. rewrite value_str_of_Z in Hp; [by subst|].
    rewrite Forall_forall in Hall. by apply Hall.
  - intros Hin. exists (PNumber (Py.str_of_Z x)). split.
    + apply list_elem_of_fmap. eexists. split; [done|].
      apply list_elem_of_fmap. by exists x.
    + simpl. rewrite value_str_of_Z; [done|].
      rewrite Forall_forall in Hall. by apply Hall.
Qed.

Lemma rule_matches r dt :
  0 ≤ at_minute r → 0 ≤ at_hour r →
  (∀ ds, on_days r = Some ds → ds ≠ [] ∧ Forall (fun d => 0 ≤ d ≤ 6) ds) →
  valid dt = true →
  _cron_matches (rule_text r) dt = Ok (rule_holds r dt).
Proof.
  intros Hmn Hh Hds Hv.
  pose (doms := if first_of_month r then [PNumber "1"] else [PStar]).
  pose (dows := match on_days r with
                | None => [PStar]
                | Some ds => PNumber <$> (Py.str_of_Z <$> ds)
                end).
  assert (rule_text r
          = cron_rule_text [PNumber (Py.str_of_Z (at_minute r))]
              [PNumber (Py.str_of_Z (at_hour r))] doms [PStar] dows) as ->.
  { unfold rule_text. rewrite <- cron_text_rule. subst doms dows.
    destruct (first_of_month r), (on_days r); try done;
      by rewrite field_text_numbers. }
  assert (∀ n, 0 ≤ n → field_ok [PNumber (Py.str_of_Z n)]) as Hnum.
  { intros n Hn. split; [done|]. constructor; [|done]. by apply str_of_Z_numeral. }
  assert (field_ok [PStar]) as Hstar by (split; [done | by constructor]).
  assert (field_ok doms) as Hdoms.
  { subst doms. destruct (first_of_month r); [|done].
    split; [done|]. by repeat constructor. }
  assert (field_ok dows) as Hdows.
  { subst dows. destruct (on_days r) as [ds|] eqn:Ed; [|done].
    destruct (Hds ds eq_refl) as [Hne Hall]. split.
    - intros Hnil. apply fmap_nil_inv, fmap_nil_inv in Hnil. done.
    - apply Forall_fmap, Forall_fmap. eapply Forall_impl; [exact Hall|].
      intros d [Hd _]. simpl. by apply str_of_Z_numeral. }
  destruct (cron_matches_spec _ _ _ _ _ dt (Hnum _ Hmn) (Hnum _ Hh) Hdoms Hstar Hdows)
    as (b & -> & Hb).
  f_equal. apply eq_true_iff_eq. rewrite Hb.
  rewrite !field_number, field_star, !value_str_of_Z by done.
  apply valid_bounds in Hv as (Hmo & Hday & _ & _).
  unfold rule_holds. rewrite !andb_true_iff, !bool_decide_eq_true.
  assert (field_denotes 1 31 doms (day dt)
          ↔ (if first_of_month r then bool_decide (day dt = 1) else true) = true)
    as ->.
  { subst doms. destruct (first_of_month r).
    - rewrite field_number, bool_decide_eq_true. done.
    - rewrite field_star. tauto. }
  assert (field_denotes 0 6 dows (cron_dow dt)
          ↔ match on_days r with
            | None => true
            | Some ds => bool_decide (cron_dow dt ∈ ds)
            end = true) as ->.
  { subst dows. destruct (on_days r) as [ds|] eqn:Ed.
    - rewrite bool_decide_eq_true. apply field_numbers.
      destruct (Hds ds eq_refl) as [_ Hall].
      eapply Forall_impl; [exact Hall|]. by intros d [Hd _].
    - rewrite field_star. unfold cron_dow.
      pose proof (Z.mod_pos_bound (weekday dt + 1) 7 ltac:(lia)).
      split; [done|]. intros _. lia. }
  tauto.
Qed.



(** ** Schedule texts with a time of day *)

Lemma run_Cls_cons {R} q a s p c (k : Re.cont R) :
  Re.run (Re.Cls q) p (String a s) c k = if q a then k (Some a) s c else None.
Proof. reflexivity. Qed.

Lemma run_Chr_cons {R} b a s p c (k : Re.cont R) :
  Re.run (Re.Chr b) p (String a s) c k
  = if Ascii.eqb (Py.lower a) (Py.lower b) then k (Some a) s c else None.
Proof. reflexivity. Qed.

Lemma run_Opt {R} r p s c (k : Re.cont R) :
  Re.run (Re.Opt r) p s c k
  = match Re.run r p s c k with
    | Some x => Some x
    | None => k p s c
    end.
Proof. reflexivity. Qed.

Lemma run_Star_nil {R} r p c (k : Re.cont R) :
  Re.run (Re.Star r) p "" c k = k p "" c.
Proof. reflexivity. Qed.

Lemma run_Lit_all {R} w u p c (k : Re.cont R) :
  Py.lower_str u = Py.lower_str w →
  Re.run (Re.Lit w) p u c k = k (Re.last_char p u) "" c.
Proof.
  intros H. rewrite <- (run_Lit w u "") by done. by rewrite app_empty_r.
Qed.

Lemma two_chars s :
  String.length s = 2%nat → ∃ a b, s = String a (String b "").
Proof. destruct s as [|a [|b [|]]]; try done. eauto. Qed.

Lemma one_or_two_chars s :
  (String.length s = 1 ∨ String.length s = 2)%nat →
  (∃ a, s = String a "") ∨ ∃ a b, s = String a (String b "").
Proof. destruct s as [|a [|b [|]]]; intros [?|?]; try done; eauto. Qed.

Lemma ampm_letters a :
  Py.lower_str a = "am" ∨ Py.lower_str a = "pm" →
  ∃ x y, a = String x (String y "")
         ∧ (Py.lower x = "a"%char ∨ Py.lower x = "p"%char)
         ∧ Py.lower y = "m"%char.
Proof.
  intros [H|H];
    apply lower_str_cons_inv in H as (x & a' & -> & Hx & H);
    apply lower_str_cons_inv in H as (y & a'' & -> & Hy & H);
    destruct a''; try done; exists x, y; auto.
Qed.

Lemma letter_not_space x (l : ascii) :
  Py.lower x = l → Py.is_lower l = true → Py.is_space x = false.
Proof.
  intros <- H. revert H. clear.
  destruct x as [[] [] [] [] [] [] [] []]; done.
Qed.

Lemma letter_not_digit x (l : ascii) :
  Py.lower x = l → Py.is_lower l = true → Py.is_digit x = false.
Proof.
  intros <- H. revert H. clear.
  destruct x as [[] [] [] [] [] [] [] []]; done.
Qed.

(** The text after the hour starts with no digit. *)
Lemma after_hour_stops (m : option string) (ap : option (string * string)) :
  (∀ gap a, ap = Some (gap, a) →
            Py.all Py.is_space gap = true
            ∧ (Py.lower_str a = "am" ∨ Py.lower_str a = "pm")) →
  stops Py.is_digit
    (match m with Some m => ":" +:+ m | None => "" end
     +:+ match ap with Some (gap, a) => gap +:+ a | None => "" end).
Proof.
  intros Hap. destruct m as [m|]; [done|]. simpl.
  destruct ap as [[gap a]|]; [|done].
  destruct (Hap gap a eq_refl) as [Hgap Ha].
  destruct gap as [|b gap].
  - apply ampm_letters in Ha as (x & y & -> & Hx & _). simpl.
    destruct Hx as [Hx|Hx]; by eapply letter_not_digit.
  - simpl in *. apply andb_true_iff in Hgap as [Hb _].
    by apply space_not_digit.
Qed.

Lemma run_at_time g t w2 A w3 p c :
  time_words_ok t →
  w2 ≠ "" → Py.all Py.is_space w2 = true →
  Py.lower_str A = "at" →
  w3 ≠ "" → Py.all Py.is_space w3 = true →
  Re.run (at_time g) p (w2 +:+ A +:+ w3 +:+ time_text t) c
    (fun _ s' c' => Some (c', s'))
  = Some (time_groups g t c, "").
Proof.
  intros (Hhd & Hhl & Hm & Hap) Hw2n Hw2 HA Hw3n Hw3.
  set (K := fun (_ : option ascii) (s' : string) (c' : Re.caps) => Some (c', s')).
  (* the end: am or pm *)
  assert (∀ p c,
            Re.run (Re.Cat (Re.Star Re.space)
                      (Re.Cat (Re.Opt (Re.Grp (S (S g))
                                         (Re.Alt (Re.Lit "am") (Re.Lit "pm"))))
                         Re.Eos))
              p (match am_pm t with Some (gap, a) => gap +:+ a | None => "" end) c K
            = Some (match am_pm t with
                    | Some (_, a) => <[S (S g) := a]> c
                    | None => c
                    end, "")) as Hend.
  { intros p0 c0. destruct (am_pm t) as [[gap a]|] eqn:Eap; [|reflexivity].
    destruct (Hap gap a eq_refl) as [Hgap Ha].
    rewrite run_Cat. apply run_Star_cls; [done| |].
    { apply ampm_letters in Ha as (x & y & -> & Hx & Hy).
      simpl. destruct Hx as [Hx|Hx]; by eapply letter_not_space. }
    rewrite run_Cat, run_Opt, run_Grp, run_Alt.
    destruct Ha as [Ha|Ha].
    - rewrite (run_Lit_all "am") by done. by rewrite consumed_all.
    - rewrite (run_Lit_none "am") by (unfold ci_prefix; by rewrite Ha).
      rewrite (run_Lit_all "pm") by done. by rewrite consumed_all. }
  (* the minute *)
  assert (∀ p c,
            Re.run (Re.Cat (Re.Opt (Re.Cat (Re.Chr ":")
                                      (Re.Grp (S g) (Re.Cat Re.digit Re.digit))))
                      (Re.Cat (Re.Star Re.space)
                         (Re.Cat (Re.Opt (Re.Grp (S (S g))
                                            (Re.Alt (Re.Lit "am") (Re.Lit "pm"))))
                            Re.Eos)))
              p (match minute_digits t with Some m => ":" +:+ m | None => "" end
                 +:+ match am_pm t with Some (gap, a) => gap +:+ a | None => "" end)
              c K
            = Some (match am_pm t with
                    | Some (_, a) =>
                        <[S (S g) := a]>
                          (match minute_digits t with
                           | Some m => <[S g := m]> c
                           | None => c
                           end)
                    | None => match minute_digits t with
                              | Some m => <[S g := m]> c
                              | None => c
                              end
                    end, "")) as Hmin.
  { intros p0 c0. rewrite run_Cat, run_Opt.
    destruct (minute_digits t) as [m|] eqn:Em.
    - destruct (Hm m eq_refl) as [Hmd Hml].
      apply two_chars in Hml as (m1 & m2 & ->).
      simpl in Hmd. apply andb_true_iff in Hmd as [H1 H2].
      apply andb_true_iff in H2 as [H2 _].
      cbn [String.append].
      rewrite run_Cat, run_Chr_cons.
      change (Ascii.eqb (Py.lower ":") (Py.lower ":")) with true. cbv iota.
      rewrite run_Grp, run_Cat. unfold Re.digit.
      rewrite !run_Cls_cons, H1, H2.
      change (String m1 (String m2 ?s)) with (String m1 (String m2 "") +:+ s).
      rewrite consumed_app, Hend. by destruct (am_pm t) as [[??]|].
    - cbn [String.append].
      match goal with
      | |- context [Re.run (Re.Cat (Re.Chr ?b) ?r) ?p ?s ?c ?k] =>
          assert (Re.run (Re.Cat (Re.Chr b) r) p s c k = None) as ->
      end.
      { rewrite run_Cat. destruct (am_pm t) as [[gap a]|] eqn:Eap; [|done].
        destruct (Hap gap a eq_refl) as [Hgap Ha].
        destruct gap as [|b gap].
        - apply ampm_letters in Ha as (x & y & -> & Hx & _).
          cbn [String.append]. rewrite run_Chr_cons.
          destruct Hx as [-> | ->]; reflexivity.
        - simpl in Hgap. apply andb_true_iff in Hgap as [Hb _].
          cbn [String.append]. rewrite run_Chr_cons, (lower_space b Hb).
          destruct (Ascii.eqb_spec b (Py.lower ":")) as [->|]; done. }
      rewrite Hend. by destruct (am_pm t) as [[??]|]. }
  (* the hour *)
  unfold at_time. cbn [Re.Seq].
  rewrite run_Cat. apply run_Plus_cls; [done..| |].
  { apply lower_str_cons_inv in HA as (a & A' & -> & Ha & _). simpl.
    by eapply letter_not_space. }
  rewrite run_Cat, (run_Lit "at" A) by done.
  rewrite run_Cat. apply run_Plus_cls; [done..| |].
  { unfold time_text.
    apply one_or_two_chars in Hhl as [(a & E)|(a & b & E)]; rewrite E in *;
      simpl in Hhd; apply andb_true_iff in Hhd as [Ha _];
      cbn [String.append stops]; by apply digit_not_space. }
  rewrite run_Cat, run_Grp, run_Cat.
  unfold time_text, time_groups.
  pose proof (after_hour_stops (minute_digits t) (am_pm t) Hap) as Hstop.
  apply one_or_two_chars in Hhl as [(a & E)|(a & b & E)]; rewrite E in *.
  - simpl in Hhd. apply andb_true_iff in Hhd as [Ha _].
    change (String a "" +:+ ?s) with (String a s).
    unfold Re.digit at 1. rewrite run_Cls_cons, Ha, run_Opt.
    match goal with
    | |- context [Re.run Re.digit ?p ?s ?c ?k] =>
        assert (Re.run Re.digit p s c k = None) as ->
    end.
    { revert Hstop. generalize (match minute_digits t with
                                | Some m => ":" +:+ m | None => "" end
                                +:+ match am_pm t with
                                    | Some (gap, a) => gap +:+ a | None => "" end).
      intros [|x s] Hx; [done|]. simpl in Hx. unfold Re.digit.
      by rewrite run_Cls_cons, Hx. }
    change (String a ?s) with (String a "" +:+ s) at 1.
    rewrite consumed_app. cbv zeta. rewrite Hmin.
    by destruct (am_pm t) as [[??]|].
  - simpl in Hhd. apply andb_true_iff in Hhd as [Ha Hb].
    apply andb_true_iff in Hb as [Hb _].
    change (String a (String b "") +:+ ?s) with (String a (String b s)).
    unfold Re.digit at 1. rewrite run_Cls_cons, Ha, run_Opt.
    unfold Re.digit at 1. rewrite run_Cls_cons, Hb.
    change (String a (String b ?s)) with (String a (String b "") +:+ s) at 1.
    rewrite consumed_app. cbv zeta. rewrite Hmin.
    by destruct (am_pm t) as [[??]|].
Qed.

Lemma star_cls_none {R} q u : ∀ s fuel p c (k : Re.cont R),
  Py.all q u = true → stops q s →
  (∀ p' u1 u2 c', u = u1 +:+ u2 → k p' (u2 +:+ s) c' = None) →
  Re.star_loop (Re.run (Re.Cls q)) k fuel p (u +:+ s) c = None.
Proof.
  induction u as [|a u IH]; intros s fuel p c k Hall Hstop Hk.
  - cbn [String.append]. pose proof (Hk p "" "" c eq_refl) as Hk0.
    cbn [String.append] in Hk0.
    destruct fuel as [|fuel]; cbn [Re.star_loop]; [done|].
    destruct s as [|b s]; [by rewrite Hk0|].
    simpl in Hstop. by rewrite run_Cls_cons, Hstop.
  - simpl in Hall. apply andb_true_iff in Hall as [Ha Hu].
    pose proof (Hk p "" (String a u) c eq_refl) as Hk0.
    destruct fuel as [|fuel]; cbn [Re.star_loop]; [done|].
    cbn [String.append]. rewrite run_Cls_cons, Ha.
    destruct (_ <? _)%nat; [|done].
    rewrite IH; [done..|].
    intros p' u1 u2 c' ->. by apply (Hk p' (String a u1) u2 c').
Qed.

Lemma run_Plus_cls_none {R} q u s p c (k : Re.cont R) :
  Py.all q u = true → stops q s →
  (∀ p' u1 u2 c', u = u1 +:+ u2 → k p' (u2 +:+ s) c' = None) →
  Re.run (Re.Plus (Re.Cls q)) p (u +:+ s) c k = None.
Proof.
  intros Hall Hstop Hk. unfold Re.Plus. rewrite run_Cat.
  destruct u as [|a u].
  - cbn [String.append]. destruct s as [|b s]; [done|].
    simpl in Hstop. by rewrite run_Cls_cons, Hstop.
  - simpl in Hall. apply andb_true_iff in Hall as [Ha Hu].
    cbn [String.append]. rewrite run_Cls_cons, Ha.
    apply star_cls_none; [done..|].
    intros p' u1 u2 c' ->. by apply (Hk p' (String a u1) u2 c').
Qed.

(** After [every] and whitespace, a pattern that cannot start at a blank
    or at the next letter fails. *)
Lemma after_every_none {R} r E w1 b s (k : Re.cont R) :
  Py.lower_str E = "every" →
  Py.all Py.is_space w1 = true → Py.is_space b = false →
  (∀ p a s' c, Py.is_space a = true ∨ a = b → Re.run r p (String a s') c k = None) →
  Re.run (Re.Cat (Re.Lit "every") (Re.Cat (Re.Plus Re.space) r))
    None (E +:+ w1 +:+ String b s) ∅ k = None.
Proof.
  intros HE Hw1 Hb Hr.
  rewrite run_Cat, (run_Lit "every" E) by done.
  rewrite run_Cat. apply run_Plus_cls_none; [done..|].
  intros p' u1 u2 c' ->. rewrite all_app in Hw1.
  apply andb_true_iff in Hw1 as [_ H2].
  destruct u2 as [|a u2]; cbn [String.append].
  - apply Hr. by right.
  - simpl in H2. apply andb_true_iff in H2 as [Ha _]. apply Hr. by left.
Qed.

Lemma not_every_n E w1 b s :
  Py.lower_str E = "every" →
  Py.all Py.is_space w1 = true → Py.is_space b = false → Py.is_digit b = false →
  Re.match_ re_every_n (E +:+ w1 +:+ String b s) = None.
Proof.
  intros HE Hw1 Hb Hd. unfold Re.match_, re_every_n. cbn [Re.Seq].
  apply after_every_none; [done..|].
  intros p a s' c Ha. rewrite run_Cat, run_Grp. unfold Re.Plus, Re.digit.
  rewrite run_Cat, run_Cls_cons.
  destruct Ha as [Ha| ->]; [by rewrite space_not_digit | by rewrite Hd].
Qed.

Lemma space_lower_ne a (l : ascii) :
  Py.is_space a = true → Py.is_lower l = true → Py.lower a ≠ l.
Proof.
  intros Ha Hl E. rewrite lower_space in E by done. subst l.
  revert Ha Hl. clear. destruct a as [[] [] [] [] [] [] [] []]; done.
Qed.

Lemma not_every_hour E w1 b s :
  Py.lower_str E = "every" →
  Py.all Py.is_space w1 = true → Py.is_space b = false →
  Py.lower b ≠ "h"%char →
  Re.match_ re_every_hour (E +:+ w1 +:+ String b s) = None.
Proof.
  intros HE Hw1 Hb Hh. unfold Re.match_, re_every_hour. cbn [Re.Seq].
  apply after_every_none; [done..|].
  intros p a s' c Ha. apply run_word_mismatch.
  destruct Ha as [Ha| ->]; [by apply space_lower_ne | done].
Qed.

Lemma run_dow_names_none {R} a s p c (k : Re.cont R) :
  Py.lower a ≠ "m"%char → Py.lower a ≠ "t"%char → Py.lower a ≠ "w"%char →
  Py.lower a ≠ "f"%char → Py.lower a ≠ "s"%char →
  Re.run dow_names p (String a s) c k = None.
Proof.
  intros. unfold dow_names. cbn [Re.Alts].
  repeat (rewrite run_Alt, run_Lit_mismatch by done).
  by apply run_Lit_mismatch.
Qed.

Lemma not_every_dow E w1 b s :
  Py.lower_str E = "every" →
  Py.all Py.is_space w1 = true → Py.lower b = "d"%char →
  Re.match_ re_every_dow (E +:+ w1 +:+ String b s) = None.
Proof.
  intros HE Hw1 Hb. unfold Re.match_, re_every_dow. cbn [Re.Seq].
  apply after_every_none; [done| done| by eapply letter_not_space |].
  intros p a s' c Ha. rewrite run_Cat, run_Grp.
  destruct Ha as [Ha| ->].
  - apply run_dow_names_none; by apply space_lower_ne.
  - apply run_dow_names_none; by rewrite Hb.
Qed.

Lemma match_every_day E w1 D w2 A w3 t :
  Py.lower_str E = "every" →
  w1 ≠ "" → Py.all Py.is_space w1 = true →
  Py.lower_str D = "day" →
  w2 ≠ "" → Py.all Py.is_space w2 = true →
  Py.lower_str A = "at" →
  w3 ≠ "" → Py.all Py.is_space w3 = true →
  time_words_ok t →
  Re.match_ re_every_day
    (E +:+ w1 +:+ D +:+ w2 +:+ A +:+ w3 +:+ time_text t)
  = Some (time_groups 1 t ∅, "").
Proof.
  intros HE Hw1n Hw1 HD Hw2n Hw2 HA Hw3n Hw3 Ht.
  unfold Re.match_, re_every_day. cbn [Re.Seq].
  rewrite run_Cat, (run_Lit "every" E) by done.
  rewrite run_Cat. apply run_Plus_cls; [done..| |].
  { apply lower_str_cons_inv in HD as (a & D' & -> & Ha & _). simpl.
    by eapply letter_not_space. }
  rewrite run_Cat, (run_Lit "day" D) by done.
  by apply run_at_time.
Qed.

Lemma time_of_groups g t c :
  time_words_ok t → c !! S g = None → c !! S (S g) = None →
  time_of (time_groups g t c) g = Ok (time_value t).
Proof.
  intros (Hhd & Hhl & Hm & Hap) H1 H2.
  assert (hour_digits t ≠ "") as Hne.
  { intros E. rewrite E in Hhl. simpl in Hhl. lia. }
  unfold time_of, time_groups, time_value, group, group_int_or_0. cbv zeta.
  destruct (minute_digits t) as [m|] eqn:Em;
    destruct (am_pm t) as [[gap a]|] eqn:Ea; cbn [fmap option_fmap option_map snd].
  all: repeat (rewrite lookup_insert_eq || (rewrite lookup_insert_ne by lia)).
  all: rewrite ?H1, ?H2; cbn [of_option mbind result_bind].
  all: rewrite (int_digits (hour_digits t)) by done; cbn [mbind result_bind].
  1,2: destruct (Hm m eq_refl) as [Hmd Hml];
    destruct m as [|m1 m']; [done|];
    rewrite int_digits by done; reflexivity.
  all: reflexivity.
Qed.

Lemma time_text_nowhere b w t :
  String b w = "midnight" ∨ String b w = "noon" →
  time_words_ok t → nowhere (String b w) (time_text t) = true.
Proof.
  intros Hw (Hhd & _ & Hm & Hap).
  assert (Hb : Py.is_lower b = true).
  { destruct Hw as [[= -> _]|[= -> _]]; done. }
  unfold time_text. rewrite nowhere_skip.
  2:{ eapply all_impl; [|exact Hhd]. intros a. by apply digit_not_letter. }
  assert (nowhere (String b w)
            (match am_pm t with Some (gap, a) => gap +:+ a | None => "" end) = true)
    as Hend.
  { destruct (am_pm t) as [[gap a]|] eqn:Ea.
    - destruct (Hap gap a eq_refl) as [Hgap Ha].
      rewrite nowhere_skip.
      2:{ eapply all_impl; [|exact Hgap]. intros x. by apply space_not_letter. }
      rewrite <- nowhere_lower.
      destruct Hw as [-> | ->]; destruct Ha as [-> | ->]; reflexivity.
    - destruct Hw as [-> | ->]; reflexivity. }
  destruct (minute_digits t) as [m|] eqn:Em; [|done].
  destruct (Hm m eq_refl) as [Hmd _].
  change (":" +:+ m) with (String ":" "" +:+ m).
  rewrite !app_assoc_s, nowhere_skip.
  2:{ destruct Hw as [[= -> _]|[= -> _]]; done. }
  rewrite nowhere_skip; [done|].
  eapply all_impl; [|exact Hmd]. intros a. by apply digit_not_letter.
Qed.

Lemma time_text_ends_solid t :
  time_words_ok t → time_text t ≠ "" ∧ ends_solid (time_text t).
Proof.
  intros (Hhd & Hhl & Hm & Hap).
  assert (∃ a h', hour_digits t = String a h') as (a0 & h' & Eh).
  { destruct (hour_digits t); [simpl in Hhl; lia | eauto]. }
  split; [unfold time_text; by rewrite Eh|].
  unfold time_text, ends_solid. rewrite !last_char_app.
  destruct (am_pm t) as [[gap a]|] eqn:Ea.
  - destruct (Hap gap a eq_refl) as [_ Ha].
    apply ampm_letters in Ha as (x & y & -> & _ & Hy).
    rewrite last_char_app. exists y. split; [done|].
    by eapply letter_not_space.
  - cbn [Re.last_char]. destruct (minute_digits t) as [m|] eqn:Em.
    + destruct (Hm m eq_refl) as [Hmd Hml].
      apply two_chars in Hml as (m1 & m2 & ->). exists m2. split; [done|].
      simpl in Hmd. apply andb_true_iff in Hmd as [_ H2].
      apply andb_true_iff in H2 as [H2 _]. by apply digit_not_space.
    + cbn [Re.last_char].
      apply one_or_two_chars in Hhl as [(a & E)|(a & b & E)]; rewrite E in *;
        simpl in Hhd.
      * exists a. split; [done|]. apply andb_true_iff in Hhd as [Ha _].
        by apply digit_not_space.
      * exists b. split; [done|]. apply andb_true_iff in Hhd as [_ Hb].
        apply andb_true_iff in Hb as [Hb _]. by apply digit_not_space.
Qed.

Lemma every_day_nowhere b w E w1 D w2 A w3 t :
  String b w = "midnight" ∨ String b w = "noon" →
  Py.lower_str E = "every" → Py.all Py.is_space w1 = true →
  Py.lower_str D = "day" → Py.all Py.is_space w2 = true →
  Py.lower_str A = "at" → Py.all Py.is_space w3 = true →
  time_words_ok t →
  nowhere (String b w) (E +:+ w1 +:+ D +:+ w2 +:+ A +:+ w3 +:+ time_text t) = true.
Proof.
  intros Hw HE H1 HD H2 HA H3 Ht.
  assert (Hb : Py.is_lower b = true).
  { destruct Hw as [[= -> _]|[= -> _]]; done. }
  rewrite <- nowhere_lower, !lower_str_app, HE, HD, HA.
  rewrite (lower_str_fixed Py.is_space w1) by auto using lower_space.
  rewrite (lower_str_fixed Py.is_space w2) by auto using lower_space.
  rewrite (lower_str_fixed Py.is_space w3) by auto using lower_space.
  rewrite nowhere_skip.
  2:{ destruct Hw as [[= -> _]|[= -> _]]; done. }
  rewrite nowhere_skip.
  2:{ eapply all_impl; [|exact H1]. intros a. by apply space_not_letter. }
  rewrite nowhere_skip.
  2:{ destruct Hw as [[= -> _]|[= -> _]]; done. }
  rewrite nowhere_skip.
  2:{ eapply all_impl; [|exact H2]. intros a. by apply space_not_letter. }
  rewrite nowhere_skip.
  2:{ destruct Hw as [[= -> _]|[= -> _]]; done. }
  rewrite nowhere_skip.
  2:{ eapply all_impl; [|exact H3]. intros a. by apply space_not_letter. }
  rewrite nowhere_lower. by apply time_text_nowhere.
Qed.

Lemma normalise_every_day l E w1 D w2 A w3 t tr :
  Py.all Py.is_space l = true → Py.all Py.is_space tr = true →
  Py.lower_str E = "every" → Py.all Py.is_space w1 = true →
  Py.lower_str D = "day" → Py.all Py.is_space w2 = true →
  Py.lower_str A = "at" → Py.all Py.is_space w3 = true →
  time_words_ok t →
  normalise (l +:+ (E +:+ w1 +:+ D +:+ w2 +:+ A +:+ w3 +:+ time_text t) +:+ tr)
  = E +:+ w1 +:+ D +:+ w2 +:+ A +:+ w3 +:+ time_text t.
Proof.
  intros Hl Htr HE H1 HD H2 HA H3 Ht. unfold normalise.
  rewrite strip_core; auto.
  - unfold re_midnight, re_noon.
    rewrite (sub_word_id "midnight") by (eapply every_day_nowhere; eauto).
    rewrite (sub_word_id "noon") by (eapply every_day_nowhere; eauto).
    done.
  - apply lower_str_cons_inv in HE as (a & E' & -> & Ha & _). simpl.
    by eapply letter_not_space.
  - destruct (time_text_ends_solid t Ht) as [Hne Hs].
    rewrite <- !app_assoc_s. by apply ends_solid_app.
Qed.

Lemma time_value_nonneg t :
  time_words_ok t → 0 ≤ (time_value t).1 ∧ 0 ≤ (time_value t).2.
Proof.
  intros (_ & _ & _ & _). unfold time_value.
  destruct (_to24 _ _ _) as [h mn] eqn:E.
  eapply to24_nonneg; [| |exact E].
  - by apply decimal_nonneg.
  - destruct (minute_digits t); [by apply decimal_nonneg | done].
Qed.

Lemma parse_every_day_at l E w1 D w2 A w3 t tr :
  Py.all Py.is_space l = true → Py.all Py.is_space tr = true →
  Py.lower_str E = "every" →
  w1 ≠ "" → Py.all Py.is_space w1 = true →
  Py.lower_str D = "day" →
  w2 ≠ "" → Py.all Py.is_space w2 = true →
  Py.lower_str A = "at" →
  w3 ≠ "" → Py.all Py.is_space w3 = true →
  time_words_ok t →
  parse (l +:+ (E +:+ w1 +:+ D +:+ w2 +:+ A +:+ w3 +:+ time_text t) +:+ tr)
  = Ok (Cron (cron_text (time_value t).2 (time_value t).1 "*" "*")).
Proof.
  intros Hl Htr HE Hw1n Hw1 HD Hw2n Hw2 HA Hw3n Hw3 Ht.
  unfold parse. rewrite normalise_every_day by done.
  apply lower_str_cons_inv in HD as HD'.
  destruct HD' as (b & D' & -> & Hb & HD').
  assert (Py.is_space b = false) as Hbs by (by eapply letter_not_space).
  assert (Py.is_digit b = false) as Hbd by (by eapply letter_not_digit).
  assert (Py.lower b ≠ "h"%char) as Hbh by (by rewrite Hb).
  cbn [String.append].
  rewrite not_every_n by done.
  rewrite not_every_hour by done.
  rewrite not_every_dow by done.
  change (String b (D' +:+ ?s)) with (String b D' +:+ s).
  rewrite match_every_day by done.
  rewrite time_of_groups by done.
  cbn [mbind result_bind]. by destruct (time_value t).
Qed.

Lemma daily_rule_matches h mn dt :
  0 ≤ h → 0 ≤ mn → valid dt = true →
  _cron_matches (cron_text mn h "*" "*") dt
  = Ok (bool_decide (minute dt = mn) && bool_decide (hour dt = h)).
Proof.
  intros Hh Hmn Hv.
  pose proof (rule_matches {| at_minute := mn; at_hour := h;
                              first_of_month := false; on_days := None |} dt)
    as H.
  unfold rule_text, rule_holds in H.
  cbn [at_minute at_hour first_of_month on_days] in H.
  rewrite H by done. by rewrite !andb_true_r.
Qed.

(** X5. A schedule [every day at] followed by a time of day - any letter
    case, any whitespace between the words and around the text; the time
    one or two digits, optionally [:MM], optionally [am] or [pm] -
    compiles to the cron rule [MM H * * *] of the hour and minute
    [_to24] gives; the rule matches a valid timestamp exactly in that
    minute of that hour. *)
Theorem compile_every_day_at l E w1 D w2 A w3 t tr :
  Py.all Py.is_space l = true → Py.all Py.is_space tr = true →
  Py.lower_str E = "every" →
  w1 ≠ "" → Py.all Py.is_space w1 = true →
  Py.lower_str D = "day" →
  w2 ≠ "" → Py.all Py.is_space w2 = true →
  Py.lower_str A = "at" →
  w3 ≠ "" → Py.all Py.is_space w3 = true →
  time_words_ok t →
  let rule := cron_text (time_value t).2 (time_value t).1 "*" "*" in
  parse (l +:+ (E +:+ w1 +:+ D +:+ w2 +:+ A +:+ w3 +:+ time_text t) +:+ tr)
  = Ok (Cron rule)
  ∧ ∀ dt, valid dt = true →
          _cron_matches rule dt
          = Ok (bool_decide (minute dt = (time_value t).2)
                && bool_decide (hour dt = (time_value t).1)).
Proof.
  intros Hl Htr HE Hw1n Hw1 HD Hw2n Hw2 HA Hw3n Hw3 Ht rule. subst rule.
  split.
  - by apply parse_every_day_at.
  - intros dt Hv. destruct (time_value_nonneg t Ht) as [Hh Hmn].
    by apply daily_rule_matches.
Qed.

Lemma compile_every_day_at_witness :
  let t := {| hour_digits := "9"; minute_digits := Some "30";
              am_pm := Some (" ", "PM") |} in
  let rule := cron_text (time_value t).2 (time_value t).1 "*" "*" in
  parse (" " +:+ ("Every" +:+ "  " +:+ "day" +:+ " " +:+ "at" +:+ " "
                  +:+ time_text t) +:+ "")
  = Ok (Cron rule)
  ∧ ∀ dt, valid dt = true →
          _cron_matches rule dt
          = Ok (bool_decide (minute dt = (time_value t).2)
                && bool_decide (hour dt = (time_value t).1)).
Proof.
  apply compile_every_day_at; try done.
  split; [done|]. split; [by left|]. split; [by intros m [= <-]|].
  intros gap a [= <- <-]. split; [done | by right].
Defined.

(** ** Schedule texts with a day of the week *)










(** ** Cron rules that are not five well-formed fields *)

Lemma int_raises s e : Py.int s = Raise e → ∃ msg, e = ValueError msg.
Proof.
  unfold Py.int, of_option.
  destruct (match Py.strip s with String _ _ => _ | EmptyString => _ end);
    [done|]. intros [= <-]. eauto.
Qed.

Lemma range3_raises a b st e :
  Py.range3 a b st = Raise e → ∃ msg, e = ValueError msg.
Proof.
  unfold Py.range3. destruct (st =? 0); [intros [= <-]; eauto|].
  by destruct (0 <? st).
Qed.

Lemma parse_part_raises part lo hi e :
  _parse_cron_part part lo hi = Raise e → ∃ msg, e = ValueError msg.
Proof.
  unfold _parse_cron_part.
  destruct (Py.contains "/" part).
  { destruct (Py.split_once "/" part) as [base step].
    destruct (if String.eqb base "*" then Ok lo else Py.int base) as [start|e0] eqn:E0;
      cbn [mbind result_bind].
    2:{ intros [= <-]. destruct (String.eqb base "*"); [done|].
        by eapply int_raises. }
    destruct (Py.int step) as [st|e1] eqn:E1; cbn [mbind result_bind].
    2:{ intros [= <-]. by eapply int_raises. }
    destruct (Py.range3 start (hi + 1) st) as [l|e2] eqn:E2;
      cbn [mbind result_bind]; [done|].
    intros [= <-]. by eapply range3_raises. }
  destruct (Py.contains "-" part).
  { destruct (Py.split_once "-" part) as [a b].
    destruct (Py.int a) as [x|e0] eqn:E0; cbn [mbind result_bind].
    2:{ intros [= <-]. by eapply int_raises. }
    destruct (Py.int b) as [y|e1] eqn:E1; cbn [mbind result_bind]; [done|].
    intros [= <-]. by eapply int_raises. }
  destruct (String.eqb part "*"); [done|].
  destruct (Py.int part) as [n|e0] eqn:E0; cbn [mbind result_bind]; [done|].
  intros [= <-]. by eapply int_raises.
Qed.

Lemma parse_parts_raises parts lo hi : ∀ out e,
  _parse_cron_parts parts lo hi out = Raise e → ∃ msg, e = ValueError msg.
Proof.
  induction parts as [|p parts IH]; intros out e; [done|].
  cbn [_parse_cron_parts].
  destruct (_parse_cron_part p lo hi) as [S|e0] eqn:E; cbn [mbind result_bind].
  - apply IH.
  - intros [= <-]. by eapply parse_part_raises.
Qed.

Lemma parse_field_raises s lo hi e :
  _parse_cron_field s lo hi = Raise e → ∃ msg, e = ValueError msg.
Proof. apply parse_parts_raises. Qed.

(** X7. A cron text with fewer than five whitespace-separated fields is
    never answered: for every timestamp the check raises, an
    [IndexError] for the missing field or the [ValueError] of a field
    before it. *)
Theorem cron_short_rule_raises cron dt :
  (length (Py.split_ws (Py.strip cron)) < 5)%nat →
  ∃ e, _cron_matches cron dt = Raise e
       ∧ (e = IndexError ∨ ∃ msg, e = ValueError msg).
Proof.
  intros Hlen. unfold _cron_matches.
  destruct (Py.split_ws (Py.strip cron)) as [|f0 [|f1 [|f2 [|f3 [|f4 fs]]]]];
    simpl in Hlen; try lia; clear Hlen;
    cbn [index lookup list_lookup of_option mbind result_bind].
  all: try (eexists; split; [reflexivity | by left]).
  all: destruct (_parse_cron_field f0 0 59) as [?|?] eqn:E0;
    cbn [mbind result_bind];
    [|eexists; split; [reflexivity | right; by eapply parse_field_raises]].
  all: try (eexists; split; [reflexivity | by left]).
  all: destruct (_parse_cron_field f1 0 23) as [?|?] eqn:E1;
    cbn [mbind result_bind];
    [|eexists; split; [reflexivity | right; by eapply parse_field_raises]].
  all: try (eexists; split; [reflexivity | by left]).
  all: destruct (_parse_cron_field f2 1 31) as [?|?] eqn:E2;
    cbn [mbind result_bind];
    [|eexists; split; [reflexivity | right; by eapply parse_field_raises]].
  all: try (eexists; split; [reflexivity | by left]).
  all: destruct (_parse_cron_field f3 1 12) as [?|?] eqn:E3;
    cbn [mbind result_bind];
    [|eexists; split; [reflexivity | right; by eapply parse_field_raises]].
  all: eexists; split; [reflexivity | by left].
Qed.

Lemma cron_short_rule_raises_witness :
  ∃ e, _cron_matches "0 9 * *" (at_ 2024 1 1 9 0 0) = Raise e
       ∧ (e = IndexError ∨ ∃ msg, e = ValueError msg).
Proof. apply cron_short_rule_raises. vm_compute. lia. Defined.

(** X8. Only the first five fields of a cron text are read: fields after
    the fifth change nothing, whatever they hold. *)
Theorem cron_extra_fields_ignored f0 f1 f2 f3 f4 extra dt :
  Forall solid [f0; f1; f2; f3; f4] → Forall solid extra →
  _cron_matches (Py.join " " ([f0; f1; f2; f3; f4] ++ extra)) dt
  = _cron_matches (Py.join " " [f0; f1; f2; f3; f4]) dt.
Proof.
  intros H5 Hx. unfold _cron_matches.
  rewrite !strip_join, !split_ws_join; try done.
  - by apply Forall_app.
  - by apply Forall_app.
Qed.

Lemma cron_extra_fields_ignored_witness :
  _cron_matches (Py.join " " (["0"; "9"; "*"; "*"; "1"] ++ ["2024"; "x"]))
    (at_ 2024 1 1 9 0 0)
  = _cron_matches (Py.join " " ["0"; "9"; "*"; "*"; "1"]) (at_ 2024 1 1 9 0 0).
Proof.
  apply cron_extra_fields_ignored; repeat constructor; done.
Defined.

Lemma parse_parts_app l1 l2 lo hi : ∀ out,
  _parse_cron_parts (l1 ++ l2) lo hi out
  = S ← _parse_cron_parts l1 lo hi out; _parse_cron_parts l2 lo hi S.
Proof.
  induction l1 as [|p l1 IH]; intros out; [done|].
  cbn [app _parse_cron_parts].
  destruct (_parse_cron_part p lo hi); cbn [mbind result_bind]; [apply IH | done].
Qed.

(** X9. A step of zero is an error, not an empty set: a field in which
    the parts before [base/0] are well formed raises [ValueError],
    whatever comes after that part. *)
Theorem cron_zero_step_raises lo hi ps base step qs :
  Forall part_ok ps →
  base = "*" ∨ numeral base → numeral step → value step = 0 →
  Forall (fun q => Py.contains "," q = false) qs →
  _parse_cron_field
    (Py.join "," ((part_text <$> ps) ++ (base +:+ "/" +:+ step) :: qs)) lo hi
  = Raise (ValueError "range() arg 3 must not be zero").
Proof.
  intros Hps Hbase Hstep Hzero Hqs.
  assert (Py.contains "/" base = false) as Hb1.
  { destruct Hbase as [->|Hb]; [done | by apply numeral_contains]. }
  assert (Py.contains "," base = false) as Hb2.
  { destruct Hbase as [->|Hb]; [done | by apply numeral_contains]. }
  unfold _parse_cron_field. rewrite split_char_join.
  2:{ by destruct (part_text <$> ps). }
  2:{ apply Forall_app. split.
      - apply Forall_fmap. eapply Forall_impl; [exact Hps|].
        intros p. apply part_text_no_comma.
      - constructor; [|done].
        change (base +:+ "/" +:+ step) with (base +:+ String "/" step).
        rewrite contains_app. cbn [Py.contains].
        rewrite Hb2, (numeral_contains "," step) by done. done. }
  rewrite parse_parts_app.
  destruct (parse_parts_spec lo hi ps ∅ Hps) as (S & -> & _).
  cbn [mbind result_bind _parse_cron_parts]. unfold _parse_cron_part.
  change (base +:+ "/" +:+ step) with (base +:+ String "/" step).
  rewrite contains_app. cbn [Py.contains]. rewrite Ascii.eqb_refl, orb_true_r.
  cbn [orb]. rewrite split_once_app by done.
  rewrite (numeral_int step), Hzero by done.
  destruct Hbase as [->|Hb].
  - reflexivity.
  - rewrite numeral_not_star, numeral_int by done. reflexivity.
Qed.

Lemma cron_zero_step_raises_witness :
  _parse_cron_field
    (Py.join "," ((part_text <$> [PNumber "5"]) ++ ("*" +:+ "/" +:+ "0") :: ["x"]))
    0 59
  = Raise (ValueError "range() arg 3 must not be zero").
Proof.
  apply cron_zero_step_raises; try done.
  - repeat constructor; done.
  - by left.
  - repeat constructor.
Defined.

(** * The manifest loader and the directory scan *)

Lemma yaml_get_set_ne k k' v d :
  k ≠ k' → Yaml.get k (Yaml.set k' v d) = Yaml.get k d.
Proof.
  intros Hne. unfold Yaml.get.
  induction d as [|[k0 x] d IH]; simpl.
  - destruct (String.eqb_spec k' k); [congruence | done].
  - destruct (String.eqb_spec k0 k') as [->|Hk]; simpl.
    + destruct (String.eqb_spec k' k); [congruence | done].
    + destruct (String.eqb k0 k); [done | apply IH].
Qed.

Lemma yaml_get_set_eq k v d : Yaml.get k (Yaml.set k v d) = Some v.
Proof.
  unfold Yaml.get. induction d as [|[k0 x] d IH]; simpl.
  - by rewrite String.eqb_refl.
  - destruct (String.eqb_spec k0 k) as [->|Hk]; simpl.
    + by rewrite String.eqb_refl.
    + destruct (String.eqb_spec k0 k); [done | apply IH].
Qed.

Lemma mapM_result_Forall2 {A B} (f : A → result B) l : ∀ out,
  mapM f l = Ok out → Forall2 (fun x y => f x = Ok y) l out.
Proof.
  induction l as [|x l IH]; intros out H; cbn in H.
  - injection H as <-. constructor.
  - destruct (f x) as [y|] eqn:E; [|done]. cbn in H.
    destruct (mapM f l) as [ys|]; [|done]. cbn in H.
    injection H as <-. constructor; [done | by apply IH].
Qed.

Lemma event_of_mapping_fields compile fs dir d ev :
  event_of_mapping compile fs dir d = Ok ev →
  name ev = Fs.name dir ∧ event_dir ev = dir
  ∧ description ev = default (YStr "") (Yaml.get "description" d)
  ∧ active ev = default (YBool false) (Yaml.get "active" d)
  ∧ action ev = match Yaml.get "action" d with
                | Some a => a
                | None => YDict [("script", default YNull (Yaml.get "script" d))]
                end
  ∧ ∃ a ps, action ev = YDict a
            ∧ default (YDict []) (Yaml.get "params" a) = YDict ps
            ∧ Forall2 (fun kv kr => kr.1 = kv.1
                                    ∧ _resolve_value fs kv.2 dir = Ok kr.2)
                ps (resolved_params ev).
Proof.
  unfold event_of_mapping. intros H.
  destruct (negb (Yaml.has "type" d)); [done|].
  destruct (negb (Yaml.has "action" d) && negb (Yaml.has "script" d)); [done|].
  assert (∃ d', (if negb (Yaml.has "action" d)
                 then script ← of_option KeyError (Yaml.get "script" d);
                      Ok (Yaml.set "action" (YDict [("script", script)]) d)
                 else Ok d) = Ok d'
                ∧ (∀ k, k ≠ "action" → Yaml.get k d' = Yaml.get k d)
                ∧ Yaml.get "action" d'
                  = Some match Yaml.get "action" d with
                         | Some a => a
                         | None => YDict [("script",
                                           default YNull (Yaml.get "script" d))]
                         end) as (d' & Ed & Hk & Ha).
  { unfold Yaml.has in *.
    destruct (Yaml.get "action" d) as [a|] eqn:Ea.
    - rewrite bool_decide_eq_true_2 by eauto. cbn [negb]. by exists d.
    - rewrite bool_decide_eq_false_2 by (by intros [? ?]). cbn [negb].
      rewrite bool_decide_eq_false_2 in H by (by intros [? ?]). cbn [negb] in H.
      destruct (Yaml.get "script" d) as [script|]; [|done].
      cbn [of_option mbind result_bind]. eexists. split; [reflexivity|].
      split; [|apply yaml_get_set_eq].
      intros k Hne. by apply yaml_get_set_ne. }
  rewrite Ed in H. cbn [mbind result_bind] in H.
  destruct (Yaml.get "type" d') as [ty|]; [|done].
  cbn [of_option mbind result_bind] in H.
  destruct (if Yaml.truthy _ && Yaml.eq_str ty "scheduled" then _ else _)
    as [sch|]; [|done].
  cbn [mbind result_bind] in H. rewrite Ha in H.
  cbn [of_option mbind result_bind] in H.
  destruct (match Yaml.get "action" d with Some a => a | None => _ end)
    as [| | | | |a] eqn:Eact; try done.
  destruct (default (YDict []) (Yaml.get "params" a)) as [| | | | |ps] eqn:Eps;
    try done.
  cbn [mbind result_bind] in H.
  destruct (mapM _ ps) as [resolved|] eqn:Em; [|done].
  cbn [mbind result_bind] in H. injection H as <-. cbn.
  rewrite !Hk by done. repeat (split; [done|]).
  exists a, ps. split; [done|]. split; [done|].
  apply mapM_result_Forall2 in Em.
  eapply Forall2_impl; [exact Em|]. intros [k v] [k' v'] Hkv. simpl in *.
  destruct (_resolve_value fs v dir); [|done].
  cbn [mbind result_bind] in Hkv. by injection Hkv as <- <-.
Qed.

Lemma name_of_child (root : Fs.path) n : Fs.name (root ++ [n]) = n.
Proof. unfold Fs.name. apply last_last. Qed.

Lemma loaded_from_identity ysl fs root n ev :
  loaded_from ysl fs root n = Some ev →
  name ev = n ∧ event_dir ev = root ++ [n].
Proof.
  unfold loaded_from. destruct (_ && _); [|done].
  destruct (parse_event_md ysl fs (root ++ [n])) as [ev'|] eqn:E; [|done].
  intros [= ->]. unfold parse_event_md in E.
  destruct (parse_ok_manifest _ _ _ _ _ E) as [d Hd].
  rewrite (parse_manifest _ _ _ _ _ Hd) in E.
  apply event_of_mapping_fields in E as (Hn & Hdir & _).
  by rewrite Hn, name_of_child.
Qed.


#[local] Instance entry_le_trans {A} :
  Transitive (fun a b : string * A => String.le a.1 b.1).
Proof. intros a b c. apply (transitivity (R := String.le)). Qed.

#[local] Instance entry_le_total {A} :
  Total (fun a b : string * A => String.le a.1 b.1).
Proof. intros a b. apply (total String.le). Qed.



(** ** Registries of tool events *)

Lemma tick_events_told w now evs : ∀ st out,
  ∃ new, reports (_tick_events w now evs st out) = out ++ new
         ∧ ∀ r, r ∈ new → ∃ ev, ev ∈ evs ∧ r ∈ told w ev.
Proof.
  induction evs as [|ev evs IH]; intros st out.
  { exists []. simpl. rewrite app_nil_r. split; [done|]. by intros r ?%elem_of_nil. }
  assert (∀ st1, ∃ new,
            reports (_tick_events w now evs st1 out) = out ++ new
            ∧ ∀ r, r ∈ new → ∃ ev0, ev0 ∈ ev :: evs ∧ r ∈ told w ev0) as Hskip.
  { intros st1. destruct (IH st1 out) as (new & E & Hnew).
    exists new. split; [done|]. intros r Hr.
    destruct (Hnew r Hr) as (ev0 & ? & ?). exists ev0. split; [by right | done]. }
  cbn [_tick_events].
  destruct (Yaml.truthy (active ev)); [|apply Hskip].
  destruct (_is_due st ev now) as [[[|] st']|e].
  - destruct (_dispatch w ev) as [rs|e] eqn:Ed.
    + destruct (IH (record_firing ev now st')
                  (out ++ ((fun r => (name ev, r)) <$> rs)))
        as (new & E & Hnew).
      exists (((fun r => (name ev, r)) <$> rs) ++ new).
      rewrite E, app_assoc. split; [done|].
      intros r [Hr|Hr]%elem_of_app.
      * exists ev. split; [by left|]. unfold told. by rewrite Ed.
      * destruct (Hnew r Hr) as (ev0 & ? & ?). exists ev0.
        split; [by right | done].
    + exists []. simpl. rewrite app_nil_r. split; [done|].
      by intros r ?%elem_of_nil.
  - apply Hskip.
  - exists []. simpl. rewrite app_nil_r. split; [done|].
    by intros r ?%elem_of_nil.
Qed.

Lemma run_loop_told w clock : ∀ st out,
  ∃ new, reports (run_loop w clock st out) = out ++ new
         ∧ ∀ r, r ∈ new → ∃ ev, ev ∈ events st ∧ r ∈ told w ev.
Proof.
  induction clock as [|now clock IH]; intros st out.
  { exists []. simpl. rewrite app_nil_r. split; [done|]. by intros r ?%elem_of_nil. }
  cbn [run_loop]. destruct (negb (_running st)).
  { exists []. simpl. rewrite app_nil_r. split; [done|]. by intros r ?%elem_of_nil. }
  destruct (tick_events_told w now (events st) st out) as (new & E & Hnew).
  pose proof (tick_events_keeps_registry w now (events st) st out) as Hev.
  fold (_tick w now st out) in E, Hev.
  destruct (raised (_tick w now st out)); [by exists new|].
  destruct (IH (state (_tick w now st out)) (reports (_tick w now st out)))
    as (new' & E' & Hnew').
  rewrite Hev in Hnew'. exists (new ++ new').
  rewrite E', E, app_assoc. split; [done|].
  intros r [?|?]%elem_of_app; auto.
Qed.

(** X12. Events that call a tool cannot stop the loop. When every event
    of the registry carries the compiled schedule of a definition the
    loader has produced and its action names a tool under [mcp], the loop
    runs over any clock without an exception, whatever the tools do, also
    when a tool is missing or raises; everything it reports is the result
    of a tool or the error of one. *)
Theorem tool_events_never_stop_loop ysl disk w clock st :
  Forall (fun ev =>
            (∃ dir ev0, parse_event_md ysl disk dir = Ok ev0
                        ∧ schedule ev = schedule ev0)
            ∧ ∃ a, action ev = YDict a ∧ Yaml.has "mcp" a = true)
    (events st) →
  let o := run w clock st in
  raised o = None
  ∧ ∀ n r, (n, r) ∈ reports o →
           (∃ v, r = ToolResult v) ∨ ∃ e, r = McpError e.
Proof.
  intros Hall o. subst o. unfold run. split.
  - apply run_loop_no_raise. intros now _. cbn [events set_running].
    eapply Forall_impl; [exact Hall|].
    intros ev [(dir & ev0 & Hl & Hs) (a & Ha & Hm)]. split.
    + intros c Hc. simpl in *. rewrite Hs in Hc.
      by apply (loaded_event_checkable _ _ _ _ now Hl c).
    + destruct (dispatch_mcp w ev a Ha Hm) as [r ->]. done.
  - intros n r Hin.
    destruct (run_loop_told w clock (set_running true st) [])
      as (new & E & Hnew).
    rewrite E in Hin. simpl in Hin.
    destruct (Hnew _ Hin) as (ev & Hev & Hr). cbn [events set_running] in Hev.
    rewrite Forall_forall in Hall.
    destruct (Hall ev Hev) as [_ (a & Ha & Hm)].
    unfold told, _dispatch in Hr. rewrite Ha in Hr.
    cbn [py_in mbind result_bind] in Hr. rewrite Hm in Hr.
    unfold Yaml.has in Hm. apply bool_decide_eq_true in Hm as [t Ht].
    rewrite Ht in Hr. cbn [of_option mbind result_bind] in Hr.
    destruct (call_tool w t _) as [v|e];
      apply list_elem_of_fmap in Hr as (r0 & [= _ ->] & Hr0);
      apply list_elem_of_singleton in Hr0 as ->; eauto.
Qed.

Lemma tool_events_never_stop_loop_witness :
  let st := set_events [Sample.flaky; Sample.daily; Sample.good]
              (new_engine ["srv"; "jobs"]) in
  let o := run Sample.world [at_ 2024 1 1 9 0 0; at_ 2024 1 1 9 0 2] st in
  raised o = None
  ∧ ∀ n r, (n, r) ∈ reports o →
           (∃ v, r = ToolResult v) ∨ ∃ e, r = McpError e.
Proof.
  apply (tool_events_never_stop_loop Sample.yaml_safe_load Sample.disk).
  cbn [events set_events].
  apply Forall_cons. split.
  { split.
    - exists ["srv"; "jobs"; "good"]. eexists.
      split; [vm_compute; reflexivity | reflexivity].
    - eexists. split; [reflexivity | reflexivity]. }
  apply Forall_cons. split.
  { split.
    - exists ["srv"; "cron"; "daily"]. eexists.
      split; [vm_compute; reflexivity | reflexivity].
    - eexists. split; [reflexivity | reflexivity]. }
  apply Forall_cons. split; [|by apply Forall_nil].
  split.
  - exists ["srv"; "jobs"; "good"]. eexists.
    split; [vm_compute; reflexivity | reflexivity].
  - eexists. split; [reflexivity | reflexivity].
Defined.

(** ** Switching events off and firing them by hand *)

Lemma set_first_active_names b n evs :
  name <$> App.set_first_active b n evs = name <$> evs.
Proof.
  induction evs as [|ev evs IH]; [done|]. cbn [App.set_first_active].
  destruct (String.eqb (name ev) n); [done|]. by rewrite !fmap_cons, IH.
Qed.

Lemma set_first_active_elem b n evs ev :
  ev ∈ App.set_first_active b n evs →
  (ev ∈ evs ∧ name ev ≠ n)
  ∨ (name ev = n ∧ active ev = YBool b)
  ∨ (ev ∈ evs ∧ ∃ ev0 l1 l2, evs = l1 ++ ev0 :: l2 ∧ name ev0 = n ∧ ev ∈ l2).
Proof.
  induction evs as [|ev0 evs IH]; simpl; [by intros ?%elem_of_nil|].
  destruct (String.eqb_spec (name ev0) n) as [Hn|Hn].
  - intros [->|Hin]%elem_of_cons.
    + right. left. done.
    + right. right. split; [by right|]. by exists ev0, [], evs.
  - intros [->|Hin]%elem_of_cons.
    + left. split; [by left | done].
    + destruct (IH Hin) as [[? ?]|[?|(? & e & l1 & l2 & -> & ? & ?)]].
      * left. split; [by right | done].
      * right. by left.
      * right. right. split; [by right|]. by exists e, (ev0 :: l1), l2.
Qed.

Lemma set_first_active_other b n evs ev :
  ev ∈ evs → name ev ≠ n → ev ∈ App.set_first_active b n evs.
Proof.
  induction evs as [|ev0 evs IH]; simpl; [done|].
  intros Hin Hne. destruct (String.eqb_spec (name ev0) n) as [Hn|Hn].
  - apply elem_of_cons in Hin as [->|Hin]; [done | by right].
  - apply elem_of_cons in Hin as [->|Hin]; [by left | right; auto].
Qed.

(** X13. A deactivated event stays quiet. In a registry without two
    events of one name, after [deactivate_event] the loop reports nothing
    under that name over any clock and leaves its last firing as it was;
    the registry keeps its names in their order, and the events of other
    names are the ones before. *)
Theorem deactivated_event_stays_quiet w clock st n :
  n ≠ "" → NoDup (name <$> events st) →
  let st' := App.deactivate_event n st in
  let o := run w clock st' in
  (∀ r, (n, r) ∉ reports o)
  ∧ _last_fired (state o) !! n = _last_fired st !! n
  ∧ name <$> events st' = name <$> events st
  ∧ ∀ ev, ev ∈ events st → name ev ≠ n → ev ∈ events st'.
Proof.
  intros Hn Hnd st' o. subst st' o. unfold App.deactivate_event.
  destruct (String.eqb_spec n "") as [?|_]; [done|].
  assert (∀ ev, ev ∈ App.set_first_active false n (events st) →
                name ev = n → Yaml.truthy (active ev) = false) as Hoff.
  { intros ev Hin Hname.
    apply set_first_active_elem in Hin
      as [[_ ?]|[[_ ->]|(_ & ev0 & l1 & l2 & E & Hn0 & Hin)]]; [done..|].
    exfalso. rewrite E, fmap_app, fmap_cons in Hnd.
    apply NoDup_app in Hnd as (_ & _ & Hnd).
    apply NoDup_cons in Hnd as [Hnot _]. apply Hnot.
    apply list_elem_of_fmap. exists ev. split; [congruence | done]. }
  unfold run.
  destruct (run_loop_changes w clock
              (set_running true
                 (set_events (App.set_first_active false n (events st)) st)) [])
    as (_ & (new & Hrep & Hnew) & Hl & _).
  split; [|split; [|split]].
  - intros r Hin. rewrite Hrep in Hin. simpl in Hin.
    destruct (Hnew _ Hin) as (ev & Hev & Ha & Hname). simpl in Hev, Hname.
    rewrite (Hoff ev Hev) in Ha; done.
  - destruct (Hl n) as [E|(t & ev & _ & _ & Hev & Ha & Hname)]; [done|].
    simpl in Hev. rewrite (Hoff ev Hev Hname) in Ha. done.
  - cbn [events set_events]. apply set_first_active_names.
  - intros ev Hin Hne. cbn [events set_events].
    by apply set_first_active_other.
Qed.

Lemma deactivated_event_stays_quiet_witness :
  let st := set_events [Sample.flaky; Sample.good] (new_engine ["srv"; "jobs"]) in
  let st' := App.deactivate_event "good" st in
  let o := run Sample.world [at_ 2024 1 1 9 0 0; at_ 2024 1 1 9 0 2] st' in
  (∀ r, ("good", r) ∉ reports o)
  ∧ _last_fired (state o) !! "good" = _last_fired st !! "good"
  ∧ name <$> events st' = name <$> events st
  ∧ ∀ ev, ev ∈ events st → name ev ≠ "good" → ev ∈ events st'.
Proof.
  apply deactivated_event_stays_quiet; [done|].
  apply (bool_decide_unpack _). vm_compute. exact I.
Defined.

(** X14. Firing by hand. [_fire_event_async] dispatches the first event
    of the name whatever its active flag and its schedule say, and
    reports what the dispatch reports.  Afterwards the registry and the
    minute markers are as before, so the due-ness of every cron event,
    the fired one included, and of every event of another name is
    unchanged; an interval event of that name is due again once its
    interval has passed since the manual firing. *)
Theorem manual_fire_effect w n now st ev rs :
  List.find (fun ev => String.eqb (name ev) n) (events st) = Some ev →
  _dispatch w ev = Ok rs →
  ∃ st', _fire_event_async w n now st
         = Ok (FiredManually, (fun r => (n, r)) <$> rs, st')
         ∧ events st' = events st
         ∧ _cron_fired_this_minute st' = _cron_fired_this_minute st
         ∧ _last_fired st' = <[n := now]> (_last_fired st)
         ∧ (∀ ev' t, name ev' ≠ n ∨ is_cron ev' = true →
                     due st' ev' t = due st ev' t)
         ∧ ∀ ev' secs t,
             name ev' = n → Yaml.eq_str (event_type ev') "scheduled" = true →
             schedule ev' = Some (Interval secs) →
             due st' ev' t
             = Qle_bool (inject_Z secs) (total_seconds_between t now).
Proof.
  intros Hf Hd. unfold _fire_event_async. rewrite Hf, Hd.
  assert (name ev = n) as Hname.
  { apply find_some in Hf as [_ Hf]. by apply String.eqb_eq in Hf. }
  rewrite Hname. eexists. split; [reflexivity|].
  unfold record_firing. rewrite Hname.
  cbn [events set_last_fired _cron_fired_this_minute _last_fired].
  repeat (split; [done|]). split.
  - intros ev' t [Hne|Hc].
    + apply is_due_frame; [|done]. simpl. by rewrite lookup_insert_ne.
    + unfold due, _is_due. cbn [_last_fired set_last_fired
                                  _cron_fired_this_minute].
      unfold is_cron in Hc.
      destruct (negb _); [done|].
      destruct (schedule ev') as [[?|c]|]; [done| |done].
      destruct (default false _); [done|].
      by destruct (_cron_matches c t) as [[|]|].
  - intros ev' secs t Hn Hty Hs. unfold due, _is_due.
    rewrite Hty, Hs. cbn [negb _last_fired set_last_fired].
    by rewrite Hn, lookup_insert_eq.
Qed.

Lemma manual_fire_effect_witness :
  ∃ st', _fire_event_async Sample.world "daily" (at_ 2024 1 1 8 0 0)
           (set_events [Sample.daily; Sample.good] (new_engine ["srv"; "cron"]))
         = Ok (FiredManually, [("daily", ToolResult Sample.sent)], st')
         ∧ _last_fired st' !! "daily" = Some (at_ 2024 1 1 8 0 0)
         ∧ due st' Sample.daily (at_ 2024 1 1 9 0 0) = true.
Proof.
  destruct (manual_fire_effect Sample.world "daily" (at_ 2024 1 1 8 0 0)
              (set_events [Sample.daily; Sample.good] (new_engine ["srv"; "cron"]))
              Sample.daily [ToolResult Sample.sent] eq_refl eq_refl)
    as (st' & E & _ & _ & Hl & Hdue & _).
  exists st'. split; [exact E|]. split.
  - rewrite Hl. reflexivity.
  - rewrite (Hdue Sample.daily (at_ 2024 1 1 9 0 0)) by (by right).
    vm_compute. reflexivity.
Defined.

(** * Recipients texts and the mail tool *)

(** ** Trimming *)

Lemma rstrip_app_all_space x t :
  Py.all Py.is_space t = true → Py.rstrip (x +:+ t) = Py.rstrip x.
Proof.
  intros Ht. induction x as [|a x IH]; simpl.
  - by apply rstrip_spaces.
  - by rewrite IH.
Qed.

Lemma lstrip_app_all_space s t :
  Py.all Py.is_space t = true →
  ∃ t', Py.lstrip (s +:+ t) = Py.lstrip s +:+ t' ∧ Py.all Py.is_space t' = true.
Proof.
  intros Ht. induction s as [|a s IH]; simpl.
  - exists "". split; [|done].
    rewrite <- (app_empty_r t) at 1. by apply lstrip_spaces_app.
  - destruct (Py.is_space a); [done|]. by exists t.
Qed.

Lemma strip_app_all_space s t :
  Py.all Py.is_space t = true → Py.strip (s +:+ t) = Py.strip s.
Proof.
  intros Ht. unfold Py.strip.
  destruct (lstrip_app_all_space s t Ht) as (t' & -> & Ht').
  by apply rstrip_app_all_space.
Qed.

Lemma strip_cons_space c s :
  Py.is_space c = true → Py.strip (String c s) = Py.strip s.
Proof. intros Hc. unfold Py.strip. simpl. by rewrite Hc. Qed.

Lemma rstrip_split s :
  ∃ t, s = Py.rstrip s +:+ t ∧ Py.all Py.is_space t = true.
Proof.
  induction s as [|a s (t & E & Ht)]; simpl.
  - by exists "".
  - destruct (Py.rstrip s) as [|b r] eqn:Er.
    + simpl in E. subst t. destruct (Py.is_space a) eqn:Ha.
      * exists (String a s). split; [done|]. simpl. by rewrite Ha.
      * by exists s.
    + exists t. split; [|done]. by rewrite E at 1.
Qed.

Lemma lstrip_split s :
  ∃ l, s = l +:+ Py.lstrip s ∧ Py.all Py.is_space l = true
       ∧ stops Py.is_space (Py.lstrip s).
Proof.
  induction s as [|a s (l & E & Hl & Hs)]; simpl.
  - by exists "".
  - destruct (Py.is_space a) eqn:Ha.
    + exists (String a l). split; [simpl; by rewrite <- E|]. split; [|done].
      simpl. by rewrite Ha.
    + by exists "".
Qed.

Lemma rstrip_stops s :
  stops Py.is_space s → stops Py.is_space (Py.rstrip s)
                        ∧ (s ≠ "" → Py.rstrip s ≠ "").
Proof.
  destruct s as [|a s]; [done|]. simpl. intros Ha.
  destruct (Py.rstrip s); [by rewrite Ha | done].
Qed.

Lemma lstrip_stops s : stops Py.is_space s → Py.lstrip s = s.
Proof. destruct s as [|a s]; [done|]. simpl. by intros ->. Qed.

Lemma rstrip_idem s : Py.rstrip (Py.rstrip s) = Py.rstrip s.
Proof.
  induction s as [|a s IH]; [done|]. simpl.
  destruct (Py.rstrip s) as [|b r] eqn:Er.
  - destruct (Py.is_space a) eqn:Ha; [done|]. simpl. by rewrite Ha.
  - simpl in *. by rewrite IH.
Qed.

Lemma strip_idem s : Py.strip (Py.strip s) = Py.strip s.
Proof.
  unfold Py.strip. destruct (lstrip_split s) as (l & _ & _ & Hs).
  rewrite (lstrip_stops (Py.rstrip _)) by (by apply rstrip_stops).
  apply rstrip_idem.
Qed.

Lemma all_lstrip q s : Py.all q s = true → Py.all q (Py.lstrip s) = true.
Proof.
  induction s as [|a s IH]; [done|]. simpl. intros [Ha Hs]%andb_true_iff.
  destruct (Py.is_space a); [auto|]. simpl. by rewrite Ha, Hs.
Qed.

Lemma all_rstrip q s : Py.all q s = true → Py.all q (Py.rstrip s) = true.
Proof.
  induction s as [|a s IH]; [done|]. simpl. intros [Ha Hs]%andb_true_iff.
  specialize (IH Hs). destruct (Py.rstrip s).
  - destruct (Py.is_space a); [done|]. simpl. by rewrite Ha.
  - simpl in *. by rewrite Ha, IH.
Qed.

Lemma all_strip q s : Py.all q s = true → Py.all q (Py.strip s) = true.
Proof. intros H. by apply all_rstrip, all_lstrip. Qed.

(** ** Lines *)

Lemma rev_app_app cur t acc :
  String.rev_app (cur +:+ t) acc = String.rev_app t (String.rev_app cur acc).
Proof. revert acc. induction cur as [|a cur IH]; intros acc; simpl; auto. Qed.

Lemma rev_app_acc cur acc : String.rev_app cur acc = String.rev cur +:+ acc.
Proof.
  unfold String.rev. revert acc.
  induction cur as [|a cur IH]; intros acc; simpl; [done|].
  rewrite (IH (String a acc)), (IH (String a "")).
  by rewrite app_assoc_s.
Qed.

Lemma rev_snoc cur c :
  String.rev (cur +:+ String c "") = String c (String.rev cur).
Proof. unfold String.rev. by rewrite rev_app_app. Qed.

Lemma rev_cons cur c :
  String.rev (String c cur) = String.rev cur +:+ String c "".
Proof. unfold String.rev. simpl. apply rev_app_acc. Qed.

Lemma kept_lines_cons_blank l ls :
  Py.strip l = "" → kept_lines (l :: ls) = kept_lines ls.
Proof. intros H. unfold kept_lines. simpl. by rewrite H. Qed.

Lemma kept_lines_cons_same l1 l2 ls1 ls2 :
  Py.strip l1 = Py.strip l2 → kept_lines ls1 = kept_lines ls2 →
  kept_lines (l1 :: ls1) = kept_lines (l2 :: ls2).
Proof.
  unfold kept_lines. intros H Hls. simpl. rewrite H.
  destruct (_ && _); [|done]. rewrite !fmap_cons. by rewrite H, Hls.
Qed.

Lemma linebreak_is_space c : Py.is_linebreak c = true → Py.is_space c = true.
Proof.
  unfold Py.is_linebreak, Py.is_space.
  intros H. apply orb_true_iff in H as [H|H]; apply andb_true_iff in H as [H1 H2];
    apply Nat.leb_le in H1, H2; apply orb_true_iff; [left|right];
    apply andb_true_iff; split; apply Nat.leb_le; lia.
Qed.

(** Whitespace in front of the first line changes nothing. *)
Lemma splitlines_go_lead c s : ∀ cur,
  Py.is_space c = true →
  kept_lines (Py.splitlines_go (cur +:+ String c "") s)
  = kept_lines (Py.splitlines_go cur s).
Proof.
  induction s as [|d s IH]; intros cur Hc.
  - simpl. rewrite rev_snoc.
    destruct cur as [|a cur]; simpl.
    + apply kept_lines_cons_blank. by rewrite strip_cons_space.
    + apply kept_lines_cons_same; [|done]. by rewrite strip_cons_space.
  - cbn [Py.splitlines_go]. destruct (Py.is_linebreak d).
    + rewrite rev_snoc. apply kept_lines_cons_same; [|done].
      by rewrite strip_cons_space.
    + apply (IH (String d cur) Hc).
Qed.

Lemma splitlines_cons_space c s :
  Py.is_space c = true →
  kept_lines (Py.splitlines (String c s)) = kept_lines (Py.splitlines s).
Proof.
  intros Hc. unfold Py.splitlines. cbn [Py.splitlines_go].
  destruct (Py.is_linebreak c) eqn:Hb.
  - rewrite kept_lines_cons_blank by done.
    destruct s as [|d s]; [done|].
    destruct (Ascii.eqb c "013" && Ascii.eqb d "010") eqn:Ecr; [|done].
    apply andb_true_iff in Ecr as [_ Ed]. apply Ascii.eqb_eq in Ed as ->.
    cbn [Py.splitlines_go]. change (Py.is_linebreak "010") with true. cbv iota.
    rewrite kept_lines_cons_blank by done.
    by destruct s.
  - apply (splitlines_go_lead c s "" Hc).
Qed.

(** Whitespace behind the last line changes nothing. *)
Lemma splitlines_go_snoc c n : ∀ s cur,
  (String.length s ≤ n)%nat → Py.is_space c = true →
  kept_lines (Py.splitlines_go cur (s +:+ String c ""))
  = kept_lines (Py.splitlines_go cur s).
Proof.
  induction n as [|n IH]; intros s cur Hlen Hc.
  { destruct s; [|simpl in Hlen; lia]. clear Hlen.
    cbn [String.append Py.splitlines_go].
    destruct (Py.is_linebreak c).
    - destruct cur as [|a cur]; [by apply kept_lines_cons_blank | done].
    - rewrite rev_cons. destruct cur as [|a cur].
      + apply kept_lines_cons_blank. by apply strip_cons_space.
      + apply kept_lines_cons_same; [|done].
        apply strip_app_all_space. simpl. by rewrite Hc. }
  destruct s as [|d s].
  { apply (IH "" cur); [simpl; lia | done]. }
  simpl in Hlen. cbn [String.append Py.splitlines_go].
  destruct (Py.is_linebreak d).
  - destruct s as [|e s]; cbn [String.append].
    + apply kept_lines_cons_same; [done|].
      destruct (Ascii.eqb d "013" && Ascii.eqb c "010"); [done|].
      cbn [Py.splitlines_go]. destruct (Py.is_linebreak c).
      * by apply kept_lines_cons_blank.
      * apply kept_lines_cons_blank. by apply strip_cons_space.
    + apply kept_lines_cons_same; [done|].
      destruct (Ascii.eqb d "013" && Ascii.eqb e "010").
      * apply IH; [simpl in Hlen; lia | done].
      * apply (IH (String e s)); [lia | done].
  - apply (IH s); [lia | done].
Qed.

Lemma splitlines_app_spaces t : ∀ s,
  Py.all Py.is_space t = true →
  kept_lines (Py.splitlines (s +:+ t)) = kept_lines (Py.splitlines s).
Proof.
  induction t as [|c t IH]; intros s Ht.
  - by rewrite app_empty_r.
  - simpl in Ht. apply andb_true_iff in Ht as [Hc Ht].
    change (String c t) with (String c "" +:+ t).
    rewrite <- app_assoc_s, IH by done.
    by apply (splitlines_go_snoc c (String.length s)).
Qed.

Lemma splitlines_spaces_app l : ∀ s,
  Py.all Py.is_space l = true →
  kept_lines (Py.splitlines (l +:+ s)) = kept_lines (Py.splitlines s).
Proof.
  induction l as [|c l IH]; intros s Hl; [done|].
  simpl in Hl. apply andb_true_iff in Hl as [Hc Hl]. simpl.
  rewrite splitlines_cons_space by done. by apply IH.
Qed.

Lemma address_lines_strip raw : address_lines (Py.strip raw) = address_lines raw.
Proof.
  change (kept_lines (Py.splitlines (Py.strip raw))
          = kept_lines (Py.splitlines raw)).
  unfold Py.strip.
  destruct (lstrip_split raw) as (l & El & Hl & _).
  destruct (rstrip_split (Py.lstrip raw)) as (t & Et & Ht).
  rewrite El at 2. rewrite splitlines_spaces_app by done.
  rewrite Et at 2. by rewrite splitlines_app_spaces.
Qed.

Lemma all_rev_app q cur acc :
  Py.all q (String.rev_app cur acc) = Py.all q cur && Py.all q acc.
Proof.
  revert acc. induction cur as [|a cur IH]; intros acc; simpl; [done|].
  rewrite IH. simpl. by destruct (q a), (Py.all q cur).
Qed.

Lemma rev_rev s : String.rev (String.rev s) = s.
Proof.
  unfold String.rev.
  assert (∀ s acc acc', String.rev_app (String.rev_app s acc) acc'
                        = String.rev_app acc (s +:+ acc')) as H.
  { clear. induction s as [|a s IH]; intros acc acc'; simpl; [done|].
    by rewrite IH. }
  rewrite H. simpl. apply app_empty_r.
Qed.

Lemma splitlines_go_no_breaks n : ∀ s cur,
  (String.length s ≤ n)%nat →
  Py.all (fun c => negb (Py.is_linebreak c)) cur = true →
  Forall (fun l => Py.all (fun c => negb (Py.is_linebreak c)) l = true)
    (Py.splitlines_go cur s).
Proof.
  induction n as [|n IH]; intros s cur Hlen Hcur.
  { destruct s; [|simpl in Hlen; lia]. simpl.
    destruct cur; [constructor|]. constructor; [|constructor].
    unfold String.rev. by rewrite all_rev_app, Hcur. }
  destruct s as [|d s]; [apply (IH "" cur); [simpl; lia | done]|].
  simpl in Hlen. cbn [Py.splitlines_go].
  destruct (Py.is_linebreak d) eqn:Hd.
  - constructor; [unfold String.rev; by rewrite all_rev_app, Hcur|].
    destruct s as [|e s]; [constructor|].
    destruct (_ && _); apply IH; simpl in *; try lia; done.
  - apply IH; [lia|]. simpl. by rewrite Hd.
Qed.

Lemma splitlines_go_line l : ∀ cur rest,
  Py.all (fun c => negb (Py.is_linebreak c)) l = true →
  Py.splitlines_go cur (l +:+ rest)
  = Py.splitlines_go (String.rev_app l cur) rest.
Proof.
  induction l as [|a l IH]; intros cur rest Hl; [done|].
  simpl in Hl. apply andb_true_iff in Hl as [Ha Hl].
  cbn [String.append Py.splitlines_go]. apply negb_true_iff in Ha. rewrite Ha.
  by rewrite IH.
Qed.

Lemma join_cons_cons sep x y l :
  Py.join sep (x :: y :: l) = x +:+ sep +:+ Py.join sep (y :: l).
Proof. done. Qed.

Lemma join_nonempty sep x l : x ≠ "" → Py.join sep (x :: l) ≠ "".
Proof. intros Hx. destruct l; [done|]. rewrite join_cons_cons. by destruct x. Qed.

Lemma splitlines_join ls :
  Forall clean_line ls → Py.splitlines (Py.join LF ls) = ls.
Proof.
  unfold Py.splitlines.
  induction ls as [|l ls IH]; intros Hall; [done|].
  inversion Hall as [|?? (Hne & _ & _ & Hnb) Hrest]; subst.
  destruct ls as [|l2 ls].
  - simpl. rewrite <- (app_empty_r l) at 1.
    rewrite splitlines_go_line by done. simpl.
    fold (String.rev l). rewrite rev_rev.
    destruct (String.rev l) eqn:E; [|done].
    apply (f_equal String.rev) in E. rewrite rev_rev in E. done.
  - rewrite join_cons_cons, splitlines_go_line by done.
    fold (String.rev l). unfold LF. cbn [String.append Py.splitlines_go].
    change (Py.is_linebreak "010") with true. cbv iota.
    rewrite rev_rev. f_equal.
    assert (Py.join (String "010" "") (l2 :: ls) ≠ "") as Hj.
    { apply join_nonempty. inversion Hrest as [|?? (? & _) _]; by subst. }
    destruct (Py.join (String "010" "") (l2 :: ls)) as [|d s] eqn:Ej; [done|].
    change (Ascii.eqb "010" "013") with false. cbn [andb].
    rewrite <- Ej. by apply IH.
Qed.

Lemma kept_lines_clean ls : Forall clean_line ls → kept_lines ls = ls.
Proof.
  unfold kept_lines. induction 1 as [|l ls (Hne & Hs & Hc & _) _ IH]; [done|].
  cbn [List.filter]. rewrite Hs, Hc.
  destruct (String.eqb_spec l "") as [?|_]; [done|]. cbn [negb andb].
  rewrite fmap_cons, Hs. by rewrite IH.
Qed.

Lemma kept_lines_are_clean ls :
  Forall (fun l => Py.all (fun c => negb (Py.is_linebreak c)) l = true) ls →
  Forall clean_line (kept_lines ls).
Proof.
  unfold kept_lines. induction 1 as [|l ls Hl _ IH]; [constructor|].
  cbn [List.filter].
  destruct (String.eqb_spec (Py.strip l) "") as [?|Hne]; [done|].
  destruct (Py.startswith (Py.strip l) "#") eqn:Hc; [done|].
  cbn [negb andb]. rewrite fmap_cons. constructor; [|done].
  split; [done|]. split; [apply strip_idem|]. split; [done|].
  by apply all_strip.
Qed.

(** X15. The address lines of a recipients text. Every line the reader
    keeps is clean: not empty, without whitespace around it, no comment,
    and free of line breaks.  Whitespace around the whole text changes
    nothing, so the trimmed text of a file gives the same lines as the
    file; and the reader is a round trip on its own output: clean lines
    written out one per line are read back as they are. *)
Theorem address_lines_clean_and_stable raw :
  Forall clean_line (address_lines raw)
  ∧ address_lines (Py.strip raw) = address_lines raw
  ∧ (∀ ls, Forall clean_line ls → address_lines (Py.join LF ls) = ls)
  ∧ address_lines (Py.join LF (address_lines raw)) = address_lines raw.
Proof.
  assert (Forall clean_line (address_lines raw)) as Hclean.
  { apply kept_lines_are_clean.
    apply (splitlines_go_no_breaks (String.length raw)); done. }
  assert (∀ ls, Forall clean_line ls → address_lines (Py.join LF ls) = ls) as Hrt.
  { intros ls Hls. change (kept_lines (Py.splitlines (Py.join LF ls)) = ls).
    rewrite splitlines_join by done. by apply kept_lines_clean. }
  split; [done|]. split; [apply address_lines_strip|]. split; [done|].
  by apply Hrt.
Qed.

Lemma address_lines_clean_and_stable_witness :
  address_lines (Py.join LF ["ann@example.com"; "bob@example.com"])
  = ["ann@example.com"; "bob@example.com"].
Proof.
  apply (proj1 (proj2 (proj2 (address_lines_clean_and_stable "")))).
  apply Forall_cons. split; [by repeat split|].
  apply Forall_cons. split; [by repeat split|].
  by apply Forall_nil.
Defined.

(** ** The mail tool *)

Lemma mapM_texts (ls : list string) :
  mapM (fun x => match x with
                 | YStr s => Ok s
                 | _ => Raise TypeError
                 end) (YStr <$> ls) = Ok ls.
Proof.
  induction ls as [|l ls IH]; [done|].
  rewrite fmap_cons. cbn [mapM mbind result_bind]. cbn in IH. by rewrite IH.
Qed.

Lemma recipients_of_file fs dir v raw r :
  Fs.lookup fs (Fs.resolve (Fs.join dir v)) = Some (File raw) →
  Py.startswith (Fs.str (Fs.resolve (Fs.join dir v))) (Fs.str (Fs.resolve dir))
  = true →
  _resolve_value fs (YStr v) dir = Ok r →
  recipients r = YList (YStr <$> address_lines raw).
Proof.
  intros Hf Hp Hr. rewrite (resolve_value_file _ _ _ _ Hf Hp) in Hr.
  injection Hr as <-. destruct (Py.endswith v ".txt"); [done|].
  unfold recipients.
  change (kept_lines (Py.splitlines (Py.strip raw)))
    with (address_lines (Py.strip raw)).
  by rewrite address_lines_strip.
Qed.

(** X16. Mailing to the recipients of a file. When the [to] parameter is
    what [_resolve_value] makes of a reference to a file of the event
    folder, the tool works with the address lines of that file, whether
    the file is a [.txt] (resolved to its lines) or not (resolved to its
    trimmed text).  In mock mode the call does not raise and logs one
    entry: without address lines the answer is an error and nothing is
    sent, otherwise the answer is [sent] and the entry lists the
    addresses. *)
Theorem mail_to_file_recipients send_mail disk dir v raw r now params log :
  Fs.lookup disk (Fs.resolve (Fs.join dir v)) = Some (File raw) →
  Py.startswith (Fs.str (Fs.resolve (Fs.join dir v))) (Fs.str (Fs.resolve dir))
  = true →
  _resolve_value disk (YStr v) dir = Ok r →
  Yaml.get "to" params = Some r →
  recipients r = YList (YStr <$> address_lines raw)
  ∧ ∃ entry,
      mock_mail_send false send_mail now params log
      = Ok (YDict [("status",
                    YStr (match address_lines raw with
                          | [] => "error"
                          | _ => "sent"
                          end));
                   ("message_id",
                    YStr (match address_lines raw with
                          | [] => "error-"
                          | _ => "mock-"
                          end +:+ next_number log))],
            log ++ [entry])
      ∧ log_to entry = Py.join ", " (address_lines raw)
      ∧ log_event entry
        = default (YStr "unknown-event") (Yaml.get "_event_name" params)
      ∧ log_subject entry
        = default (YStr "(no subject)") (Yaml.get "subject" params).
Proof.
  intros Hf Hp Hr Hto.
  pose proof (recipients_of_file _ _ _ _ _ Hf Hp Hr) as Hrec.
  split; [done|]. unfold mock_mail_send. cbv zeta. rewrite Hto.
  change (default (YList []) (Some r)) with r. rewrite Hrec. destruct (address_lines raw) as [|a ls] eqn:E.
  - cbn [fmap list_fmap Yaml.truthy negb]. eexists. split; [reflexivity|]. done.
  - rewrite fmap_cons. cbn [Yaml.truthy negb]. unfold _mock_mail_send.
    cbn [len mbind result_bind join_items]. rewrite <- fmap_cons.
    rewrite mapM_texts. cbn [mbind result_bind].
    eexists. split; [reflexivity|]. done.
Qed.

Lemma mail_to_file_recipients_witness :
  ∃ entry,
    mock_mail_send false (fun _ _ _ => []) (at_ 2024 1 1 9 0 0)
      [("to", YList [YStr "ann@example.com"; YStr "bob@example.com"]);
       ("_event_name", YStr "mail")] []
    = Ok (YDict [("status", YStr "sent"); ("message_id", YStr "mock-0001")],
          [] ++ [entry])
    ∧ log_to entry = "ann@example.com, bob@example.com".
Proof.
  destruct (mail_to_file_recipients (fun _ _ _ => []) Sample.disk
              (Sample.events_dir ++ ["mail"]) "references/recipients.txt"
              Sample.recipients_txt
              (YList [YStr "ann@example.com"; YStr "bob@example.com"])
              (at_ 2024 1 1 9 0 0)
              [("to", YList [YStr "ann@example.com"; YStr "bob@example.com"]);
               ("_event_name", YStr "mail")] []
              eq_refl eq_refl eq_refl eq_refl)
    as (_ & entry & E & Hto & _).
  exists entry. split; [exact E | exact Hto].
Defined.

Lemma next_number_inj log1 log2 :
  next_number log1 = next_number log2 → length log1 = length log2.
Proof.
  unfold next_number. intros H. apply (f_equal value) in H.
  rewrite !value_zfill, !value_str_of_Z in H by lia. lia.
Qed.

Lemma mock_reply send_mail now ps log r log' :
  mock_mail_send false send_mail now ps log = Ok (r, log') →
  (∃ e, log' = log ++ [e])
  ∧ (message_id r = Some (YStr ("mock-" +:+ next_number log))
     ∨ message_id r = Some (YStr ("error-" +:+ next_number log))).
Proof.
  unfold mock_mail_send. cbv zeta.
  destruct (negb (Yaml.truthy _)).
  - intros [= <- <-]. split; [by eexists | by right].
  - unfold _mock_mail_send.
    destruct (len _) as [n|]; [|done]. cbn [mbind result_bind].
    destruct (join_items _ _) as [j|]; [|done]. cbn [mbind result_bind].
    intros [= <- <-]. split; [by eexists | by left].
Qed.

(** X17. The log and the message ids in mock mode. A call of the tool
    that returns has added exactly one entry to the log and answers with
    a message id; as the id is numbered by the length of the log, a later
    call, made on a longer log, never answers with the same id. *)
Theorem mock_ids_never_repeat send_mail now1 now2 ps1 ps2 log1 log2 r1 r2
    log1' log2' :
  mock_mail_send false send_mail now1 ps1 log1 = Ok (r1, log1') →
  mock_mail_send false send_mail now2 ps2 log2 = Ok (r2, log2') →
  (length log1 < length log2)%nat →
  (∃ e, log1' = log1 ++ [e])
  ∧ is_Some (message_id r1)
  ∧ message_id r1 ≠ message_id r2.
Proof.
  intros H1 H2 Hlen.
  apply mock_reply in H1 as [He H1]. apply mock_reply in H2 as [_ H2].
  split; [done|]. split; [destruct H1 as [->| ->]; eauto|].
  intros Heq. assert (next_number log1 = next_number log2) as Hn.
  { destruct H1 as [E1|E1], H2 as [E2|E2]; rewrite E1, E2 in Heq;
      injection Heq as Heq; simpl in Heq; congruence. }
  apply next_number_inj in Hn. lia.
Qed.

Lemma mock_ids_never_repeat_witness :
  ∃ r1 log1 r2 log2,
    mock_mail_send false (fun _ _ _ => []) (at_ 2024 1 1 9 0 0)
      [("to", YList [YStr "ann@example.com"])] [] = Ok (r1, log1)
    ∧ mock_mail_send false (fun _ _ _ => []) (at_ 2024 1 1 9 0 0)
        [("to", YList [YStr "ann@example.com"])] log1 = Ok (r2, log2)
    ∧ message_id r1 ≠ message_id r2.
Proof.
  do 4 eexists. split; [reflexivity|]. split; [reflexivity|].
  refine (proj2 (proj2 (mock_ids_never_repeat (fun _ _ _ => [])
                          (at_ 2024 1 1 9 0 0) (at_ 2024 1 1 9 0 0)
                          [("to", YList [YStr "ann@example.com"])]
                          [("to", YList [YStr "ann@example.com"])]
                          [] _ _ _ _ _ eq_refl eq_refl _))).
  simpl. lia.
Defined.

(** ** Times the clock never shows *)

Lemma never_due_without_match st ev now c :
  schedule ev = Some (Cron c) → _cron_matches c now = Ok false →
  _is_due st ev now = Ok (false, st).
Proof.
  intros Hs Hm. unfold _is_due. rewrite Hs, Hm.
  destruct (negb _); [done|]. by destruct (default false _).
Qed.

(** X18. The compiler does not check the time of day. [every day at]
    followed by an hour above 23 or a minute above 59 - as [24], [9:75]
    or [13 pm], which [_to24] turns into 25 - compiles to a cron rule
    like any other time; the rule matches no valid timestamp, so an event
    with it is never due. *)
Theorem unreachable_time_never_fires l E w1 D w2 A w3 t tr :
  Py.all Py.is_space l = true → Py.all Py.is_space tr = true →
  Py.lower_str E = "every" →
  w1 ≠ "" → Py.all Py.is_space w1 = true →
  Py.lower_str D = "day" →
  w2 ≠ "" → Py.all Py.is_space w2 = true →
  Py.lower_str A = "at" →
  w3 ≠ "" → Py.all Py.is_space w3 = true →
  time_words_ok t →
  23 < (time_value t).1 ∨ 59 < (time_value t).2 →
  ∃ c,
    parse (l +:+ (E +:+ w1 +:+ D +:+ w2 +:+ A +:+ w3 +:+ time_text t) +:+ tr)
    = Ok (Cron c)
    ∧ (∀ dt, valid dt = true → _cron_matches c dt = Ok false)
    ∧ ∀ st ev now,
        schedule ev = Some (Cron c) → valid now = true →
        _is_due st ev now = Ok (false, st).
Proof.
  intros Hl Htr HE Hw1n Hw1 HD Hw2n Hw2 HA Hw3n Hw3 Ht Hout.
  eexists. split; [by apply parse_every_day_at|].
  destruct (time_value_nonneg t Ht) as [Hh Hmn].
  assert (∀ dt, valid dt = true →
                _cron_matches (cron_text (time_value t).2 (time_value t).1 "*" "*")
                  dt = Ok false) as Hnever.
  { intros dt Hv. rewrite daily_rule_matches by done. f_equal.
    pose proof (valid_bounds dt Hv) as Hb.
    apply andb_false_iff.
    destruct Hout as [Hout|Hout]; [right|left];
      apply bool_decide_eq_false; lia. }
  split; [done|]. intros st ev now Hs Hv.
  eapply never_due_without_match; [done|]. by apply Hnever.
Qed.

Lemma unreachable_time_never_fires_witness :
  ∃ c, parse ("" +:+ ("every" +:+ " " +:+ "day" +:+ " " +:+ "at" +:+ " "
                      +:+ time_text {| hour_digits := "13"; minute_digits := None;
                                       am_pm := Some (" ", "pm") |}) +:+ "")
       = Ok (Cron c)
       ∧ c = "0 25 * * *"
       ∧ ∀ dt, valid dt = true → _cron_matches c dt = Ok false.
Proof.
  destruct (unreachable_time_never_fires "" "every" " " "day" " " "at" " "
              {| hour_digits := "13"; minute_digits := None;
                 am_pm := Some (" ", "pm") |} "") as (c & E & Hn & _);
    try done.
  - split; [done|]. split; [by right|]. split; [done|].
    intros gap a [= <- <-]. split; [done | by right].
  - left. vm_compute. reflexivity.
  - exists c. split; [exact E|]. split; [|exact Hn].
    vm_compute in E. by injection E as <-.
Defined.

(** ** The remaining forms of the compiler *)

Lemma every_hour_nowhere b w E w1 H :
  String b w = "midnight" ∨ String b w = "noon" →
  Py.lower_str E = "every" → Py.all Py.is_space w1 = true →
  Py.lower_str H = "hour" →
  nowhere (String b w) (E +:+ w1 +:+ H) = true.
Proof.
  intros Hw HE H1 HH.
  assert (Hb : Py.is_lower b = true).
  { destruct Hw as [[= -> _]|[= -> _]]; done. }
  rewrite <- nowhere_lower, !lower_str_app, HE, HH.
  rewrite (lower_str_fixed Py.is_space w1) by auto using lower_space.
  rewrite nowhere_skip.
  2:{ destruct Hw as [[= -> _]|[= -> _]]; done. }
  rewrite nowhere_skip.
  2:{ eapply all_impl; [|exact H1]. intros a. by apply space_not_letter. }
  destruct Hw as [-> | ->]; reflexivity.
Qed.

Lemma normalise_every_hour l E w1 H tr :
  Py.all Py.is_space l = true → Py.all Py.is_space tr = true →
  Py.lower_str E = "every" → Py.all Py.is_space w1 = true →
  Py.lower_str H = "hour" →
  normalise (l +:+ (E +:+ w1 +:+ H) +:+ tr) = E +:+ w1 +:+ H.
Proof.
  intros Hl Htr HE H1 HH. unfold normalise.
  rewrite strip_core; auto.
  - unfold re_midnight, re_noon.
    rewrite (sub_word_id "midnight") by (eapply every_hour_nowhere; eauto).
    rewrite (sub_word_id "noon") by (eapply every_hour_nowhere; eauto).
    done.
  - apply lower_str_cons_inv in HE as (a & E' & -> & Ha & _). simpl.
    by eapply letter_not_space.
  - rewrite <- !app_assoc_s. apply ends_solid_app.
    + by destruct H.
    + apply lower_str_app_inv with (w1 := "hou") (w2 := "r") in HH
        as (H1' & H2' & -> & _ & HH).
      apply lower_str_cons_inv in HH as (a & r' & -> & Ha & Hr).
      destruct r'; [|done].
      exists a. rewrite last_char_app. split; [done|].
      by eapply letter_not_space.
Qed.

(** X19. The schedule [every hour], in any letter case and with any
    whitespace between the two words and around them, compiles to the
    interval of 3600 seconds - the rule that [every 1 hour],
    [every 60 minutes] and [every 3600 seconds] compile to. *)
Theorem compile_every_hour l E w1 H tr :
  Py.all Py.is_space l = true → Py.all Py.is_space tr = true →
  Py.lower_str E = "every" →
  w1 ≠ "" → Py.all Py.is_space w1 = true →
  Py.lower_str H = "hour" →
  parse (l +:+ (E +:+ w1 +:+ H) +:+ tr) = Ok (Interval 3600)
  ∧ parse (l +:+ (E +:+ w1 +:+ "1" +:+ " " +:+ H) +:+ tr) = Ok (Interval 3600)
  ∧ parse (l +:+ (E +:+ w1 +:+ "60" +:+ " " +:+ "minutes") +:+ tr)
    = Ok (Interval 3600)
  ∧ parse (l +:+ (E +:+ w1 +:+ "3600" +:+ " " +:+ "seconds") +:+ tr)
    = Ok (Interval 3600).
Proof.
  intros Hl Htr HE Hw1n Hw1 HH. split; [|split; [|split]].
  - unfold parse. rewrite normalise_every_hour by done.
    apply lower_str_cons_inv in HH as HH'.
    destruct HH' as (b & H' & -> & Hb & HH').
    assert (Py.is_space b = false) as Hbs by (by eapply letter_not_space).
    assert (Py.is_digit b = false) as Hbd by (by eapply letter_not_digit).
    rewrite not_every_n by done.
    assert (Re.match_ re_every_hour (E +:+ w1 +:+ String b H') = Some (∅, ""))
      as ->; [|done].
    unfold Re.match_, re_every_hour. cbn [Re.Seq].
    rewrite run_Cat, (run_Lit "every" E) by done.
    rewrite run_Cat. apply run_Plus_cls; [done..|].
    rewrite run_Cat, (run_Lit_all "hour") by done.
    reflexivity.
  - rewrite (parse_every_n l E w1 "1" " " H tr 3600); try done.
    unfold unit_length. by rewrite HH.
  - by rewrite (parse_every_n l E w1 "60" " " "minutes" tr 60).
  - by rewrite (parse_every_n l E w1 "3600" " " "seconds" tr 1).
Qed.

Lemma compile_every_hour_witness :
  parse (" " +:+ ("Every" +:+ "  " +:+ "HOUR") +:+ " ") = Ok (Interval 3600).
Proof. by apply (compile_every_hour " " "Every" "  " "HOUR" " "). Defined.

(** A word that is spelled with letters cannot start inside a text and
    run over the whitespace behind it. *)
Lemma ci_prefix_before_gap w : ∀ u s0 g v,
  Py.all Py.is_lower w = true → Py.is_space s0 = true →
  ci_prefix w (u +:+ String s0 g +:+ v) = ci_prefix w (u +:+ " ").
Proof.
  unfold ci_prefix.
  induction w as [|a w IH]; intros u s0 g v Hw Hs.
  { by destruct (Py.lower_str (u +:+ String s0 g +:+ v)),
                (Py.lower_str (u +:+ " ")). }
  simpl in Hw. apply andb_true_iff in Hw as [Ha Hw].
  assert (Py.lower a = a) as Hla.
  { unfold Py.lower. revert Ha. clear.
    destruct a as [[] [] [] [] [] [] [] []]; done. }
  destruct u as [|b u]; cbn [String.append Py.lower_str String.prefix].
  - rewrite Hla, (lower_space s0 Hs).
    destruct (ascii_dec a s0) as [->|Hne].
    + exfalso. revert Ha Hs. clear. destruct s0 as [[] [] [] [] [] [] [] []]; done.
    + change (Py.lower " ") with " "%char.
      destruct (ascii_dec a " ") as [->|Hne']; done.
  - destruct (ascii_dec (Py.lower a) (Py.lower b)); [|done].
    by apply IH.
Qed.

Lemma nowhere_cons w a s :
  nowhere w (String a s) = negb (ci_prefix w (String a s)) && nowhere w s.
Proof. done. Qed.

Lemma nowhere_word_gap b w lit g v :
  Py.all Py.is_lower (String b w) = true → gap g →
  nowhere (String b w) (lit +:+ " ") = true →
  nowhere (String b w) (lit +:+ g +:+ v) = nowhere (String b w) v.
Proof.
  intros Hw [Hgn Hg] Hlit.
  assert (Py.is_lower b = true) as Hb.
  { simpl in Hw. by apply andb_true_iff in Hw as [? _]. }
  destruct g as [|s0 g]; [done|]. clear Hgn.
  assert (Py.is_space s0 = true) as Hs0.
  { simpl in Hg. by apply andb_true_iff in Hg as [? _]. }
  induction lit as [|a lit IH].
  - apply (nowhere_skip b w (String s0 g) v).
    eapply all_impl; [|exact Hg]. intros x. by apply space_not_letter.
  - change (String a lit +:+ " ") with (String a (lit +:+ " ")) in Hlit.
    rewrite nowhere_cons in Hlit.
    apply andb_true_iff in Hlit as [H1 H2].
    change (String a lit +:+ String s0 g +:+ v)
      with (String a (lit +:+ String s0 g +:+ v)).
    rewrite nowhere_cons, (IH H2).
    change (String a (lit +:+ String s0 g +:+ v))
      with (String a lit +:+ String s0 g +:+ v).
    rewrite ci_prefix_before_gap by done.
    change (String a lit +:+ " ") with (String a (lit +:+ " ")).
    by rewrite H1.
Qed.

Lemma app_empty_l (s : string) : "" +:+ s = s.
Proof. done. Qed.

Ltac skip_word_gap :=
  rewrite nowhere_word_gap; [|reflexivity|done|reflexivity].

Lemma first_day_nowhere W f w4 A w5 t :
  W = "midnight" ∨ W = "noon" →
  first_day_words_ok f → gap w4 → Py.lower_str A = "at" → gap w5 →
  time_words_ok t →
  nowhere W (first_day_text f +:+ w4 +:+ A +:+ w5 +:+ time_text t) = true.
Proof.
  intros HW (Hon & HF & Hg1 & HD & Hg2 & HO & Hg3 & Hev & HM) Hw4 HA Hw5 Ht.
  assert (∀ g, gap g → Py.lower_str g = g) as Hfix.
  { intros g [_ Hg]. apply (lower_str_fixed Py.is_space); auto using lower_space. }
  rewrite <- nowhere_lower. unfold first_day_text.
  destruct f as [lead F g1 D g2 O g3 ev M].
  cbn [on_the first_word gap_1 day_word gap_2 of_word gap_3 every_word
       month_word] in *.
  assert (nowhere W
            (Py.lower_str (M +:+ w4 +:+ A +:+ w5 +:+ time_text t)) = true)
    as Htail.
  { rewrite !lower_str_app, HM, HA, (Hfix w4), (Hfix w5) by done.
    destruct HW as [-> | ->].
    - do 2 skip_word_gap. rewrite nowhere_lower.
      apply (time_text_nowhere "m" "idnight"); [by left | done].
    - do 2 skip_word_gap. rewrite nowhere_lower.
      apply (time_text_nowhere "n" "oon"); [by right | done]. }
  assert (∀ X, nowhere W (Py.lower_str
                            (match ev with
                             | Some (every, g) => every +:+ g
                             | None => ""
                             end +:+ X))
               = nowhere W (Py.lower_str X)) as Hevery.
  { intros X. destruct ev as [[every g]|]; [|done].
    destruct (Hev every g eq_refl) as [He Hg].
    rewrite app_assoc_s, !lower_str_app, He, (Hfix g) by done.
    destruct HW as [-> | ->]; by skip_word_gap. }
  assert (∀ X, nowhere W (Py.lower_str
                            (F +:+ g1 +:+ D +:+ g2 +:+ O +:+ g3 +:+ X))
               = nowhere W (Py.lower_str X)) as Hmid.
  { intros X.
    rewrite !lower_str_app, HF, HD, HO, (Hfix g1), (Hfix g2), (Hfix g3) by done.
    destruct HW as [-> | ->]; by do 3 skip_word_gap. }
  assert (∀ X, nowhere W (Py.lower_str
                            (match lead with
                             | Some (on_, h1, the, h2) =>
                                 on_ +:+ h1 +:+ the +:+ h2
                             | None => ""
                             end +:+ X))
               = nowhere W (Py.lower_str X)) as Hlead.
  { intros X. destruct lead as [[[[on_ h1] the] h2]|]; [|done].
    destruct (Hon on_ h1 the h2 eq_refl) as (H1 & Hh1 & H2 & Hh2).
    rewrite !app_assoc_s, !lower_str_app, H1, H2, (Hfix h1), (Hfix h2) by done.
    destruct HW as [-> | ->]; by do 2 skip_word_gap. }
  rewrite !app_assoc_s, Hlead, Hmid, Hevery. exact Htail.
Qed.

Lemma stops_word W b w rest :
  Py.lower_str W = String b w → Py.is_lower b = true →
  stops Py.is_space (W +:+ rest).
Proof.
  intros H Hb. apply lower_str_cons_inv in H as (a & W' & -> & Ha & _).
  simpl. by eapply letter_not_space.
Qed.

(** The first letter of the text: [o] or [f], in either case. *)
Lemma first_day_first_letter f rest :
  first_day_words_ok f →
  ∃ a s, first_day_text f +:+ rest = String a s
         ∧ (Py.lower a = "o"%char ∨ Py.lower a = "f"%char).
Proof.
  intros (Hon & HF & _). unfold first_day_text.
  destruct (on_the f) as [[[[on_ h1] the] h2]|].
  - destruct (Hon on_ h1 the h2 eq_refl) as (H1 & _).
    apply lower_str_cons_inv in H1 as (a & o' & -> & Ha & _).
    exists a. eexists. split; [reflexivity | by left].
  - apply lower_str_cons_inv in HF as (a & F' & -> & Ha & _).
    exists a. eexists. split; [reflexivity | by right].
Qed.

Lemma normalise_first_day l f w4 A w5 t tr :
  Py.all Py.is_space l = true → Py.all Py.is_space tr = true →
  first_day_words_ok f → gap w4 → Py.lower_str A = "at" → gap w5 →
  time_words_ok t →
  normalise (l +:+ (first_day_text f +:+ w4 +:+ A +:+ w5 +:+ time_text t) +:+ tr)
  = first_day_text f +:+ w4 +:+ A +:+ w5 +:+ time_text t.
Proof.
  intros Hl Htr Hf Hw4 HA Hw5 Ht. unfold normalise.
  rewrite strip_core; auto.
  - unfold re_midnight, re_noon.
    rewrite (sub_word_id "midnight") by (apply first_day_nowhere; auto).
    rewrite (sub_word_id "noon") by (apply first_day_nowhere; auto).
    done.
  - destruct (first_day_first_letter f (w4 +:+ A +:+ w5 +:+ time_text t) Hf)
      as (a & s & -> & Ha). simpl.
    destruct Ha as [Ha|Ha]; by eapply letter_not_space.
  - destruct (time_text_ends_solid t Ht) as [Hne Hs].
    rewrite <- !app_assoc_s. by apply ends_solid_app.
Qed.

(** A text that does not begin with [e] is none of the [every] forms. *)
Lemma not_an_every_form a s :
  Py.lower a ≠ "e"%char →
  Re.match_ re_every_n (String a s) = None
  ∧ Re.match_ re_every_hour (String a s) = None
  ∧ Re.match_ re_every_dow (String a s) = None
  ∧ Re.match_ re_every_day (String a s) = None
  ∧ Re.match_ re_every_dows (String a s) = None.
Proof.
  intros Ha. unfold Re.match_, re_every_n, re_every_hour, re_every_dow,
    re_every_day, re_every_dows. cbn [Re.Seq].
  repeat split; by apply run_word_mismatch.
Qed.

Lemma match_first_day f w4 A w5 t :
  first_day_words_ok f → gap w4 → Py.lower_str A = "at" → gap w5 →
  time_words_ok t →
  Re.match_ re_first_day
    (first_day_text f +:+ w4 +:+ A +:+ w5 +:+ time_text t)
  = Some (time_groups 1 t ∅, "").
Proof.
  intros (Hon & HF & [Hg1n Hg1] & HD & [Hg2n Hg2] & HO & [Hg3n Hg3] & Hev & HM)
    [Hw4n Hw4] HA [Hw5n Hw5] Ht.
  unfold first_day_text.
  destruct f as [lead F g1 D g2 O g3 ev M].
  cbn [on_the first_word gap_1 day_word gap_2 of_word gap_3 every_word
       month_word] in *.
  set (K := fun (_ : option ascii) (s' : string) (c' : Re.caps) => Some (c', s')).
  set (T := w4 +:+ A +:+ w5 +:+ time_text t).
  (* the month and the time *)
  assert (∀ p, Re.run (Re.Cat (Re.Lit "month") (at_time 1)) p (M +:+ T) ∅ K
               = Some (time_groups 1 t ∅, "")) as Hmonth.
  { intros p. rewrite run_Cat, (run_Lit "month" M) by done.
    by apply run_at_time. }
  (* the optional [every] *)
  assert (∀ p,
            Re.run (Re.Cat (Re.Opt (Re.Cat (Re.Lit "every") (Re.Plus Re.space)))
                      (Re.Cat (Re.Lit "month") (at_time 1)))
              p (match ev with
                 | Some (every, g) => every +:+ g
                 | None => ""
                 end +:+ M +:+ T) ∅ K
            = Some (time_groups 1 t ∅, "")) as Hevery.
  { intros p. rewrite run_Cat, run_Opt.
    destruct ev as [[every g]|].
    - destruct (Hev every g eq_refl) as [He [Hgn Hg]].
      assert (Re.run (Re.Cat (Re.Lit "every") (Re.Plus Re.space)) p
                ((every +:+ g) +:+ M +:+ T) ∅
                (fun p' s' c' =>
                   Re.run (Re.Cat (Re.Lit "month") (at_time 1)) p' s' c' K)
              = Some (time_groups 1 t ∅, "")) as ->; [|done].
      rewrite app_assoc_s, run_Cat, (run_Lit "every" every) by done.
      apply run_Plus_cls; [done | done | by eapply stops_word | apply Hmonth].
    - rewrite app_empty_l.
      apply lower_str_cons_inv in HM as HM'.
      destruct HM' as (a & M' & -> & Ha & _).
      cbn [String.append]. rewrite run_word_mismatch by (by rewrite Ha).
      apply (Hmonth p). }
  (* [first day of] *)
  assert (∀ p,
            Re.run (Re.Seq [Re.Lit "first"; Re.Plus Re.space; Re.Lit "day";
                            Re.Plus Re.space; Re.Lit "of"; Re.Plus Re.space;
                            Re.Opt (Re.Cat (Re.Lit "every") (Re.Plus Re.space));
                            Re.Lit "month"; at_time 1])
              p (F +:+ g1 +:+ D +:+ g2 +:+ O +:+ g3
                 +:+ match ev with
                     | Some (every, g) => every +:+ g
                     | None => ""
                     end +:+ M +:+ T) ∅ K
            = Some (time_groups 1 t ∅, "")) as Hfirst.
  { intros p. cbn [Re.Seq].
    rewrite run_Cat, (run_Lit "first" F) by done.
    rewrite run_Cat. apply run_Plus_cls; [done | done | by eapply stops_word|].
    rewrite run_Cat, (run_Lit "day" D) by done.
    rewrite run_Cat. apply run_Plus_cls; [done | done | by eapply stops_word|].
    rewrite run_Cat, (run_Lit "of" O) by done.
    rewrite run_Cat. apply run_Plus_cls; [done | done | |apply Hevery].
    destruct ev as [[every g]|].
    - destruct (Hev every g eq_refl) as [He _].
      rewrite app_assoc_s. by eapply stops_word.
    - rewrite app_empty_l. by eapply stops_word. }
  unfold Re.match_, re_first_day.
  change (Re.Seq (?r :: ?rs)) with (Re.Cat r (Re.Seq rs)).
  rewrite run_Cat, run_Opt. fold K.
  rewrite !app_assoc_s. fold T.
  destruct lead as [[[[on_ h1] the] h2]|].
  - destruct (Hon on_ h1 the h2 eq_refl) as (H1 & [Hh1n Hh1] & H2 & [Hh2n Hh2]).
    rewrite !app_assoc_s.
    match goal with
    | |- match ?x with _ => _ end = _ =>
        assert (x = Some (time_groups 1 t ∅, "")) as ->; [|done]
    end.
    cbn [Re.Seq].
    rewrite run_Cat, (run_Lit "on" on_) by done.
    rewrite run_Cat. apply run_Plus_cls; [done | done | by eapply stops_word|].
    rewrite run_Cat, (run_Lit "the" the) by done.
    apply run_Plus_cls; [done | done | by eapply stops_word|].
    apply Hfirst.
  - rewrite app_empty_l.
    apply lower_str_cons_inv in HF as HF'.
    destruct HF' as (a & F' & E & Ha & _).
    match goal with
    | |- match ?x with _ => _ end = _ =>
        assert (x = None) as ->
    end.
    { rewrite E. cbn [String.append Re.Seq].
      apply run_word_mismatch. by rewrite Ha. }
    apply Hfirst.
Qed.

(** X20. A schedule [(on the) first day of (every) month at] followed
    by a time of day - the words in brackets optional, any letter case,
    any whitespace between the words and around the text - compiles to
    the cron rule [MM H 1 * *] of the hour and minute [_to24] gives; the
    rule matches a valid timestamp exactly in that minute of that hour on
    the first of a month. *)
Theorem compile_first_day_at l f w4 A w5 t tr :
  Py.all Py.is_space l = true → Py.all Py.is_space tr = true →
  first_day_words_ok f → gap w4 → Py.lower_str A = "at" → gap w5 →
  time_words_ok t →
  let rule := cron_text (time_value t).2 (time_value t).1 "1" "*" in
  parse (l +:+ (first_day_text f +:+ w4 +:+ A +:+ w5 +:+ time_text t) +:+ tr)
  = Ok (Cron rule)
  ∧ ∀ dt, valid dt = true →
          _cron_matches rule dt
          = Ok (bool_decide (minute dt = (time_value t).2)
                && bool_decide (hour dt = (time_value t).1)
                && bool_decide (day dt = 1)).
Proof.
  intros Hl Htr Hf Hw4 HA Hw5 Ht rule. subst rule. split.
  - unfold parse. rewrite normalise_first_day by done.
    destruct (first_day_first_letter f (w4 +:+ A +:+ w5 +:+ time_text t) Hf)
      as (a & s & E & Ha).
    assert (Py.lower a ≠ "e"%char) as Hne.
    { destruct Ha as [-> | ->]; done. }
    pose proof (match_first_day f w4 A w5 t Hf Hw4 HA Hw5 Ht) as Hm.
    rewrite E in *.
    destruct (not_an_every_form a s Hne) as (-> & -> & -> & -> & ->).
    rewrite Hm, time_of_groups by done.
    cbn [mbind result_bind]. by destruct (time_value t).
  - intros dt Hv. destruct (time_value_nonneg t Ht) as [Hh Hmn].
    pose proof (rule_matches {| at_minute := (time_value t).2;
                                at_hour := (time_value t).1;
                                first_of_month := true; on_days := None |} dt)
      as H.
    unfold rule_text, rule_holds in H.
    cbn [at_minute at_hour first_of_month on_days] in H.
    rewrite H by done. by rewrite !andb_true_r.
Qed.

Lemma compile_first_day_at_witness :
  let f := {| on_the := Some ("On", " ", "the", "  ");
              first_word := "First"; gap_1 := " "; day_word := "day";
              gap_2 := " "; of_word := "of"; gap_3 := " ";
              every_word := None; month_word := "MONTH" |} in
  let t := {| hour_digits := "12"; minute_digits := Some "05";
              am_pm := Some ("", "am") |} in
  let rule := cron_text (time_value t).2 (time_value t).1 "1" "*" in
  parse (" " +:+ (first_day_text f +:+ " " +:+ "at" +:+ " " +:+ time_text t) +:+ "")
  = Ok (Cron rule)
  ∧ ∀ dt, valid dt = true →
          _cron_matches rule dt
          = Ok (bool_decide (minute dt = (time_value t).2)
                && bool_decide (hour dt = (time_value t).1)
                && bool_decide (day dt = 1)).
Proof.
  apply compile_first_day_at; try done.
  - split; [|by repeat split].
    intros on_ g1 the g2 [= <- <- <- <-]. by repeat split.
  - split; [done|]. split; [by right|]. split; [by intros m [= <-]|].
    intros gap a [= <- <-]. split; [done | by left].
Defined.

(** * Deleting an event folder *)

Lemma child_filter_ne c d (es : list (string * node)) :
  d ≠ c →
  Fs.child d (List.filter (fun e => negb (String.eqb e.1 c)) es) = Fs.child d es.
Proof.
  intros Hne. unfold Fs.child. induction es as [|[k x] es IH]; [done|].
  simpl. destruct (String.eqb_spec k c) as [->|Hk]; simpl.
  - destruct (String.eqb_spec c d); [congruence | done].
  - destruct (String.eqb k d); [done | exact IH].
Qed.

Lemma child_filter_eq c (es : list (string * node)) :
  Fs.child c (List.filter (fun e => negb (String.eqb e.1 c)) es) = None.
Proof.
  unfold Fs.child. induction es as [|[k x] es IH]; [done|].
  simpl. destruct (String.eqb_spec k c) as [->|Hk]; simpl; [done|].
  destruct (String.eqb_spec k c); [done | exact IH].
Qed.

Lemma child_map c d (f : node → node) (es : list (string * node)) :
  Fs.child d (List.map (fun e => if String.eqb e.1 c then (e.1, f e.2) else e) es)
  = if String.eqb d c then f <$> Fs.child d es else Fs.child d es.
Proof.
  unfold Fs.child. induction es as [|[k x] es IH]; simpl.
  - by destruct (String.eqb d c).
  - destruct (String.eqb_spec k c) as [->|Hk]; simpl.
    + destruct (String.eqb_spec c d) as [->|Hcd]; simpl.
      * by rewrite String.eqb_refl.
      * exact IH.
    + destruct (String.eqb_spec k d) as [->|Hkd]; simpl; [|exact IH].
      destruct (String.eqb_spec d c); [done | done].
Qed.

Lemma remove_cons_cons fs c d p :
  Fs.remove fs (c :: d :: p)
  = match fs with
    | Dir es =>
        Dir (List.map (fun e => if String.eqb e.1 c
                                then (e.1, Fs.remove e.2 (d :: p)) else e) es)
    | File _ => fs
    end.
Proof. by destruct fs. Qed.

(** The removed entry is gone. *)
Lemma lookup_remove_gone root n : ∀ fs,
  Fs.lookup (Fs.remove fs (root ++ [n])) (root ++ [n]) = None.
Proof.
  induction root as [|c root IH]; intros fs.
  - destruct fs as [s|es]; simpl; [done|]. by rewrite child_filter_eq.
  - change ((c :: root) ++ [n]) with (c :: (root ++ [n])).
    destruct (root ++ [n]) as [|d p] eqn:E; [by destruct root|].
    rewrite remove_cons_cons. destruct fs as [s|es]; [done|].
    cbn [Fs.lookup].
    rewrite (child_map c c (fun x => Fs.remove x (d :: p))), String.eqb_refl.
    destruct (Fs.child c es) as [n'|]; [|done].
    cbn [fmap option_fmap option_map]. apply IH.
Qed.

(** The entries beside it are as before. *)
Lemma lookup_remove_sibling root n m q : ∀ fs,
  m ≠ n →
  Fs.lookup (Fs.remove fs (root ++ [n])) (root ++ m :: q)
  = Fs.lookup fs (root ++ m :: q).
Proof.
  induction root as [|c root IH]; intros fs Hne.
  - destruct fs as [s|es]; simpl; [done|]. by rewrite child_filter_ne.
  - change ((c :: root) ++ [n]) with (c :: (root ++ [n])).
    change ((c :: root) ++ m :: q) with (c :: (root ++ m :: q)).
    destruct (root ++ [n]) as [|d p] eqn:E; [by destruct root|].
    rewrite remove_cons_cons. destruct fs as [s|es]; [done|].
    cbn [Fs.lookup].
    rewrite (child_map c c (fun x => Fs.remove x (d :: p))), String.eqb_refl.
    destruct (Fs.child c es) as [n'|]; [|done].
    cbn [fmap option_fmap option_map]. by apply IH.
Qed.

Lemma walk_plain p : ∀ up cur nd,
  Forall (fun c => c ≠ "..") p → Fs.lookup cur p = Some nd →
  Fs.walk up cur p = Some (List.rev (up.*1) ++ p, nd).
Proof.
  induction p as [|c p IH]; intros up cur nd Hp Hl.
  - simpl in *. injection Hl as ->. by rewrite app_nil_r.
  - inversion Hp as [|?? Hc Hp']; subst. simpl in *.
    destruct cur as [s|es]; [done|].
    destruct (String.eqb_spec c ".."); [done|].
    destruct (Fs.child c es) as [n'|]; [|done].
    rewrite (IH _ _ nd Hp' Hl). simpl. by rewrite <- app_assoc.
Qed.

Lemma join_plain root n :
  n ≠ "" → n ≠ "." → Py.contains "/" n = false →
  Fs.join root n = root ++ [n].
Proof.
  intros Hn Hdot Hs. unfold Fs.join, Fs.components.
  rewrite split_char_none by done. simpl.
  destruct (String.eqb_spec n ""); [done|].
  destruct (String.eqb_spec n "."); [done|]. simpl.
  destruct n as [|a n]; [done|]. unfold Py.startswith. cbn [String.prefix].
  cbn [Py.contains] in Hs. apply orb_false_iff in Hs as [Ha _].
  destruct (ascii_dec "/" a) as [<-|_]; [|done].
  by rewrite Ascii.eqb_refl in Ha.
Qed.

(** X21. A deleted event does not come back. For a plain folder name
    (not empty, no [/], not [.] or [..]) below an events directory whose
    path has no [..], [delete_event] removes the folder from the disk and
    leaves the folders beside it as they are; no event of that name is
    left in the registry, and a scan of the directory afterwards does not
    bring one back. *)
Theorem deleted_event_stays_deleted ysl root n disk st es :
  n ≠ "" → n ≠ "." → n ≠ ".." → Py.contains "/" n = false →
  Forall (fun c => c ≠ "..") root →
  events_root st = root →
  Fs.lookup disk (root ++ [n]) = Some (Dir es) →
  let disk' := (App.delete_event root n disk st).1 in
  let st' := (App.delete_event root n disk st).2 in
  Fs.exists_ disk' (root ++ [n]) = false
  ∧ (∀ m q, m ≠ n →
            Fs.lookup disk' (root ++ m :: q) = Fs.lookup disk (root ++ m :: q))
  ∧ (∀ ev, ev ∈ events st' → name ev ≠ n)
  ∧ ∀ st'', load ysl disk' st' = Ok st'' →
            ∀ ev, ev ∈ events st'' → name ev ≠ n.
Proof.
  intros Hn Hdot Hdd Hslash Hroot Hst Hdir disk' st'.
  assert (Fs.realpath disk (Fs.join root n) = Some (root ++ [n], Dir es)) as Hreal.
  { rewrite join_plain by done. unfold Fs.realpath.
    rewrite (walk_plain _ [] disk (Dir es)); [done| |done].
    apply Forall_app. split; [done|]. by constructor. }
  assert (disk' = Fs.remove disk (root ++ [n])) as Hdisk.
  { subst disk'. unfold App.delete_event.
    destruct (String.eqb_spec n ""); [done|]. by rewrite Hreal. }
  assert (∀ ev, ev ∈ events st' → name ev ≠ n) as Hgone.
  { intros ev Hev.
    destruct (delete_event_effect root n disk st _ _ Hn Hreal) as (H & _).
    by apply H in Hev as [_ ?]. }
  assert (events_root st' = root) as Hroot'.
  { subst st'. unfold App.delete_event.
    destruct (String.eqb_spec n ""); [done|]. by rewrite Hreal. }
  assert (Fs.lookup disk' (root ++ [n]) = None) as Hnone.
  { rewrite Hdisk. apply lookup_remove_gone. }
  split; [|split; [|split]].
  - unfold Fs.exists_. rewrite Hnone. apply bool_decide_eq_false. by intros [? ?].
  - intros m q Hm. rewrite Hdisk. by apply lookup_remove_sibling.
  - done.
  - intros st'' Hload ev Hev. unfold load in Hload.
    destruct (negb (Fs.is_dir disk' (events_root st'))); [done|].
    injection Hload as <-. cbn [events set_events] in Hev.
    rewrite load_candidates_spec, Hroot' in Hev.
    apply elem_of_app in Hev as [Hev|Hev]; [by apply Hgone|].
    apply list_elem_of_omap in Hev as ([c nd] & _ & Hc). simpl in Hc.
    pose proof (loaded_from_identity _ _ _ _ _ Hc) as [Hname _].
    intros Heq. rewrite Heq in Hname. subst c.
    unfold loaded_from, Fs.is_dir in Hc. by rewrite Hnone in Hc.
Qed.

Lemma deleted_event_stays_deleted_witness :
  let root := Sample.events_dir in
  let st := set_events [Sample.good] (new_engine root) in
  let disk' := (App.delete_event root "good" Sample.disk st).1 in
  let st' := (App.delete_event root "good" Sample.disk st).2 in
  Fs.exists_ disk' (root ++ ["good"]) = false
  ∧ (∀ m q, m ≠ "good" →
            Fs.lookup disk' (root ++ m :: q) = Fs.lookup Sample.disk (root ++ m :: q))
  ∧ (∀ ev, ev ∈ events st' → name ev ≠ "good")
  ∧ ∀ st'', load Sample.yaml_safe_load disk' st' = Ok st'' →
            ∀ ev, ev ∈ events st'' → name ev ≠ "good".
Proof.
  eapply (deleted_event_stays_deleted Sample.yaml_safe_load Sample.events_dir
            "good" Sample.disk); try done.
  by repeat constructor.
Defined.

(** * The recipients of a created event *)

(** Reading lines distributes over a line feed. *)
Lemma splitlines_go_feed n : ∀ x cur y,
  (String.length x ≤ n)%nat →
  kept_lines (Py.splitlines_go cur (x +:+ String "010" y))
  = kept_lines (Py.splitlines_go cur x) ++ kept_lines (Py.splitlines y).
Proof.
  assert (∀ cur y,
            kept_lines (Py.splitlines_go cur (String "010" y))
            = kept_lines (Py.splitlines_go cur "") ++ kept_lines (Py.splitlines y))
    as Hbase.
  { intros cur y. cbn [Py.splitlines_go].
    change (Py.is_linebreak "010") with true. cbv iota.
    change (Ascii.eqb "010" "013") with false. cbn [andb].
    assert (match y with
            | "" => []
            | String _ _ => Py.splitlines_go "" y
            end = Py.splitlines y) as -> by (by destruct y).
    destruct cur as [|a cur]; [by rewrite kept_lines_cons_blank|].
    unfold kept_lines at 1 2. cbn [List.filter].
    destruct (_ && _); [|done]. by rewrite fmap_cons. }
  induction n as [|n IH]; intros x cur y Hlen.
  { destruct x; [|simpl in Hlen; lia]. apply Hbase. }
  destruct x as [|c x]; [apply Hbase|].
  simpl in Hlen. cbn [String.append Py.splitlines_go].
  destruct (Py.is_linebreak c) eqn:Hc.
  - assert (∀ l ls ls', kept_lines ls = kept_lines ls' ++ kept_lines (Py.splitlines y) →
                        kept_lines (l :: ls)
                        = kept_lines (l :: ls') ++ kept_lines (Py.splitlines y))
      as Hcons.
    { intros l ls ls' E. unfold kept_lines in *. cbn [List.filter].
      destruct (_ && _); [|done]. rewrite !fmap_cons, E. done. }
    apply Hcons.
    destruct x as [|d x]; cbn [String.append].
    + destruct (Ascii.eqb c "013" && Ascii.eqb "010" "010"); [done|].
      rewrite (Hbase "" y). done.
    + destruct (Ascii.eqb c "013" && Ascii.eqb d "010").
      * apply IH. simpl in Hlen. lia.
      * apply (IH (String d x)). lia.
  - apply IH. lia.
Qed.

Lemma address_lines_feed x y :
  address_lines (x +:+ LF +:+ y) = address_lines x ++ address_lines y.
Proof. apply (splitlines_go_feed (String.length x)). done. Qed.

Lemma address_lines_join ls :
  address_lines (Py.join LF ls) = ls ≫= address_lines.
Proof.
  induction ls as [|l ls IH]; [done|].
  destruct ls as [|l2 ls].
  - simpl. by rewrite app_nil_r.
  - rewrite join_cons_cons, address_lines_feed, IH. done.
Qed.

Lemma split_char_not_nil a s : Py.split_char a s ≠ [].
Proof.
  destruct s as [|c s]; [done|]. cbn [Py.split_char].
  destruct (Ascii.eqb c a); [done|]. by destruct (Py.split_char a s).
Qed.

Lemma join_cons_char sep c x xs :
  Py.join sep (String c x :: xs) = String c (Py.join sep (x :: xs)).
Proof. by destruct xs. Qed.

Lemma join_split_char a s : Py.join (String a "") (Py.split_char a s) = s.
Proof.
  induction s as [|c s IH]; [done|]. cbn [Py.split_char].
  pose proof (split_char_not_nil a s) as Hne.
  destruct (Py.split_char a s) as [|x xs]; [done|].
  destruct (Ascii.eqb_spec c a) as [->|_].
  - rewrite join_cons_cons, IH. done.
  - by rewrite join_cons_char, IH.
Qed.

Lemma address_lines_blank r : Py.strip r = "" → address_lines r = [].
Proof. intros H. by rewrite <- address_lines_strip, H. Qed.

Lemma address_lines_pieces ps :
  (Py.strip <$> List.filter (fun r => negb (String.eqb (Py.strip r) "")) ps)
    ≫= address_lines
  = ps ≫= address_lines.
Proof.
  induction ps as [|r ps IH]; [done|]. cbn [List.filter].
  destruct (String.eqb_spec (Py.strip r) "") as [E|_]; cbn [negb].
  - rewrite IH. cbn [mbind list_bind]. by rewrite (address_lines_blank r E).
  - rewrite fmap_cons. cbn [mbind list_bind]. cbn [mbind list_bind] in IH.
    by rewrite IH, address_lines_strip.
Qed.

Lemma written_recipients r :
  r ≠ "" →
  ∃ content, team_members_content (YStr r) = Ok content
             ∧ address_lines content = address_lines (one_per_line r).
Proof.
  intros Hr. unfold team_members_content. cbn [Yaml.truthy].
  destruct (String.eqb_spec r ""); [done|]. cbn [negb].
  eexists. split; [reflexivity|].
  set (body := Py.join LF _).
  unfold team_members_header. rewrite !app_assoc_s.
  rewrite !address_lines_feed.
  change (LF +:+ body +:+ LF) with ("" +:+ LF +:+ body +:+ LF +:+ "").
  rewrite (address_lines_feed ""), (address_lines_feed body "").
  subst body. rewrite address_lines_join, address_lines_pieces.
  rewrite <- address_lines_join.
  change LF with (String "010" "") at 1. rewrite join_split_char.
  change (address_lines "") with (@nil string).
  rewrite app_nil_r. reflexivity.
Qed.

Lemma replace_char_id a b s :
  Py.contains a s = false → replace_char a b s = s.
Proof.
  induction s as [|c s IH]; [done|]. simpl.
  intros [Hc Hs]%orb_false_iff. by rewrite Hc, IH.
Qed.

Lemma replace_char_app a b s t :
  replace_char a b (s +:+ t) = replace_char a b s +:+ replace_char a b t.
Proof. induction s as [|c s IH]; [done|]. simpl. by rewrite IH. Qed.

Lemma one_per_line_join ls :
  Forall (fun l => Py.contains "," l = false ∧ Py.contains ";" l = false) ls →
  one_per_line (Py.join ", " ls) = Py.join (LF +:+ " ") ls.
Proof.
  unfold one_per_line.
  induction 1 as [|l ls [Hc Hs] Hls IH]; [done|].
  destruct ls as [|l2 ls].
  - cbn [Py.join]. rewrite (replace_char_id "," _ l) by done.
    by rewrite (replace_char_id ";" _ l).
  - rewrite !join_cons_cons, !replace_char_app, IH.
    rewrite (replace_char_id "," _ l) by done.
    by rewrite (replace_char_id ";" _ l).
Qed.

Lemma address_lines_clean_line l : clean_line l → address_lines l = [l].
Proof.
  intros Hl.
  change (kept_lines (Py.splitlines (Py.join LF [l])) = [l]).
  rewrite splitlines_join by (by constructor).
  apply kept_lines_clean. by constructor.
Qed.

Lemma address_lines_spaced ls :
  Forall clean_line ls → address_lines (Py.join (LF +:+ " ") ls) = ls.
Proof.
  induction 1 as [|l ls Hl Hls IH]; [done|].
  destruct ls as [|l2 ls].
  - by apply address_lines_clean_line.
  - rewrite join_cons_cons, app_assoc_s, address_lines_feed.
    rewrite address_lines_clean_line by done.
    change (address_lines (" " +:+ ?s)) with (address_lines (String " " s)).
    unfold address_lines at 1.
    change (Py.strip <$> List.filter ?f (Py.splitlines ?s))
      with (kept_lines (Py.splitlines s)).
    rewrite splitlines_cons_space by done.
    change (kept_lines (Py.splitlines ?s)) with (address_lines s).
    by rewrite IH.
Qed.

(** X22. The recipients of a created event are read back. The text
    [create_event_on_disk] writes to [references/team-members.md], once
    resolved as the [to] parameter of the event, gives the mail tool the
    address lines of the [recipients] of the command with every comma and
    semicolon read as a line feed - or the placeholder address when the
    command has no recipients.  In particular clean addresses given as
    [a, b, c] are the recipients [a; b; c], in that order. *)
Theorem created_recipients_read_back disk dir rcp content r :
  team_members_content rcp = Ok content →
  Fs.lookup disk (Fs.resolve (Fs.join dir "references/team-members.md"))
  = Some (File content) →
  Py.startswith
    (Fs.str (Fs.resolve (Fs.join dir "references/team-members.md")))
    (Fs.str (Fs.resolve dir)) = true →
  _resolve_value disk (YStr "references/team-members.md") dir = Ok r →
  recipients r
  = YList (YStr <$> match rcp with
                    | YStr (String _ _ as s) => address_lines (one_per_line s)
                    | _ => ["recipient@example.com"]
                    end)
  ∧ ∀ ls, ls ≠ [] →
          Forall (fun l => clean_line l ∧ Py.contains "," l = false
                           ∧ Py.contains ";" l = false) ls →
          rcp = YStr (Py.join ", " ls) →
          recipients r = YList (YStr <$> ls).
Proof.
  intros Hc Hf Hp Hr.
  rewrite (recipients_of_file _ _ _ _ _ Hf Hp Hr).
  assert (address_lines content
          = match rcp with
            | YStr (String _ _ as s) => address_lines (one_per_line s)
            | _ => ["recipient@example.com"]
            end) as Hlines.
  { destruct rcp as [|b|n|s|l|d].
    - by injection Hc as <-.
    - destruct b; [done|]. by injection Hc as <-.
    - unfold team_members_content in Hc. cbn [Yaml.truthy] in Hc.
      destruct (negb (n =? 0)); [done|]. by injection Hc as <-.
    - destruct s as [|a s]; [by injection Hc as <-|].
      destruct (written_recipients (String a s)) as (content' & E & H); [done|].
      rewrite E in Hc. by injection Hc as <-.
    - destruct l; [|done]. by injection Hc as <-.
    - destruct d; [|done]. by injection Hc as <-. }
  split; [by rewrite Hlines|].
  intros ls Hne Hls ->. rewrite Hlines. f_equal. f_equal.
  destruct (Py.join ", " ls) as [|a s] eqn:Ej.
  { destruct ls as [|l ls]; [done|]. exfalso.
    inversion Hls as [|?? ((Hl & _) & _) _]; subst.
    by apply (join_nonempty ", " l ls). }
  rewrite <- Ej, one_per_line_join.
  - apply address_lines_spaced. eapply Forall_impl; [exact Hls|]. by intros l [? _].
  - eapply Forall_impl; [exact Hls|]. by intros l [_ ?].
Qed.

Lemma created_recipients_read_back_witness :
  ∃ content,
    team_members_content (YStr "ann@example.com, bob@example.com") = Ok content
    ∧ recipients (YStr (Py.strip content))
      = YList [YStr "ann@example.com"; YStr "bob@example.com"].
Proof.
  eexists. split; [reflexivity|].
  set (content := team_members_header +:+ _).
  set (disk := Dir [("ev", Dir [("references",
                                 Dir [("team-members.md", File content)])])]).
  refine (proj2 (created_recipients_read_back disk ["ev"]
                   (YStr "ann@example.com, bob@example.com") content
                   (YStr (Py.strip content)) eq_refl eq_refl eq_refl eq_refl)
            ["ann@example.com"; "bob@example.com"] _ _ eq_refl); [done|].
  apply Forall_cons. split; [by repeat split|].
  apply Forall_cons. split; [by repeat split|].
  by apply Forall_nil.
Defined.

(** * Events that share a name *)

Lemma dispatch_one_report w ev rs : _dispatch w ev = Ok rs → ∃ r, rs = [r].
Proof.
  unfold _dispatch.
  destruct (py_in "mcp" (action ev)) as [[|]|]; cbn [mbind result_bind];
    [| |done].
  - destruct (action ev) as [| | | | |a]; try done.
    destruct (Yaml.get "mcp" a); cbn [of_option mbind result_bind]; [|done].
    destruct (call_tool w _ _); intros [= <-]; eauto.
  - destruct (py_in "script" (action ev)) as [[|]|]; cbn [mbind result_bind];
      [| |done].
    + destruct (action ev) as [| | | | |a]; try done.
      destruct (Yaml.get "script" a) as [[| | |s| |]|];
        cbn [of_option mbind result_bind]; try done.
      destruct (negb _); [intros [= <-]; eauto|].
      destruct (load_script w _) as [e| |h]; [done | intros [= <-]; eauto|].
      destruct (h _); cbn [mbind result_bind]; [intros [= <-]; eauto | done].
    + intros [= <-]. eauto.
Qed.

Lemma is_due_same_time st ev now secs :
  schedule ev = Some (Interval secs) → 0 < secs →
  _last_fired st !! name ev = Some now →
  _is_due st ev now = Ok (false, st).
Proof.
  intros Hs Hpos Hl. unfold _is_due. rewrite Hs, Hl.
  destruct (negb _); [done|]. do 2 f_equal.
  unfold total_seconds_between. rewrite Z.sub_diag.
  unfold Qle_bool, inject_Z. simpl. apply Z.leb_gt. lia.
Qed.

(** An event of the name [n] has fired in this tick: its firing and, for
    a cron rule, its marker of the minute are recorded. *)
Lemma fired_name_is_quiet w now n cron evs : ∀ st out,
  (∀ ev s, ev ∈ evs → name ev = n → schedule ev = Some (Interval s) → 0 < s) →
  (∀ ev, ev ∈ evs → name ev = n → is_cron ev = cron) →
  _last_fired st !! n = Some now →
  (cron = true → marked st (n +:+ ":" +:+ minute_key now) = true) →
  ∃ new, reports (_tick_events w now evs st out) = out ++ new
         ∧ List.filter (fun r => String.eqb r.1 n) new = [].
Proof.
  induction evs as [|ev evs IH]; intros st out Hpos Hkind Hl Hm.
  { exists []. simpl. by rewrite app_nil_r. }
  assert (∀ st1 mid,
            _last_fired st1 !! n = Some now →
            (cron = true → marked st1 (n +:+ ":" +:+ minute_key now) = true) →
            List.filter (fun r => String.eqb r.1 n) mid = [] →
            ∃ new, reports (_tick_events w now evs st1 (out ++ mid)) = out ++ new
                   ∧ List.filter (fun r => String.eqb r.1 n) new = []) as Hrest.
  { intros st1 mid Hl1 Hm1 Hmid.
    destruct (IH st1 (out ++ mid)) as (new & E & Hnew); [| |done|done|].
    - intros ev0 s ?. apply Hpos. by right.
    - intros ev0 ?. apply Hkind. by right.
    - exists (mid ++ new). rewrite E, app_assoc. split; [done|].
      by rewrite List.filter_app, Hmid, Hnew. }
  assert (∀ st1,
            _last_fired st1 !! n = Some now →
            (cron = true → marked st1 (n +:+ ":" +:+ minute_key now) = true) →
            ∃ new, reports (_tick_events w now evs st1 out) = out ++ new
                   ∧ List.filter (fun r => String.eqb r.1 n) new = []) as Hskip.
  { intros st1 H1 H2. destruct (Hrest st1 [] H1 H2 eq_refl) as (new & E0 & Hnew).
    rewrite app_nil_r in E0. by exists new. }
  cbn [_tick_events].
  destruct (Yaml.truthy (active ev)).
  2:{ by apply Hskip. }
  destruct (decide (name ev = n)) as [Hn|Hn].
  - (* an event of the name: not due *)
    assert (_is_due st ev now = Ok (false, st)) as ->.
    { unfold _is_due. destruct (negb _) eqn:Ety; [done|].
      destruct (schedule ev) as [[s|c]|] eqn:Es; [| |done].
      - rewrite <- (is_due_same_time st ev now s Es); [|eapply Hpos; eauto; by left|].
        + unfold _is_due. by rewrite Ety, Es.
        + by rewrite Hn.
      - assert (cron = true) as Hc.
        { rewrite <- (Hkind ev); [|by left|done]. unfold is_cron. by rewrite Es. }
        unfold cache_key. rewrite Hn. specialize (Hm Hc).
        unfold marked in Hm. by rewrite Hm. }
    by apply Hskip.
  - (* an event of another name *)
    destruct (_is_due st ev now) as [[b st']|e] eqn:E.
    2:{ exists []. simpl. by rewrite app_nil_r. }
    assert (_last_fired st' !! n = Some now) as Hl'.
    { by apply is_due_effect in E as [[-> _]|(_ & _ & _ & ->)]. }
    assert (cron = true → marked st' (n +:+ ":" +:+ minute_key now) = true) as Hm'.
    { intros Hc. eapply marked_mono; eauto. }
    destruct b.
    + destruct (_dispatch w ev) as [rs|e] eqn:Ed.
      * apply Hrest.
        -- unfold record_firing. simpl. by rewrite lookup_insert_ne.
        -- done.
        -- clear -Hn. induction rs as [|r rs IHrs]; [done|].
           rewrite fmap_cons. cbn [List.filter fst].
           destruct (String.eqb_spec (name ev) n); [done | exact IHrs].
      * exists []. simpl. by rewrite app_nil_r.
    + by apply Hskip.
Qed.

(** X23. Events that share a name fire at most once per tick. When the
    events of a name are all cron rules or all interval rules of a
    positive length - as the copies are that a second scan of the same
    directory appends - one tick dispatches at most one of them: the
    firing of the first is the history of the others. *)
Theorem one_firing_per_name_and_tick w now st out n cron :
  (∀ ev s, ev ∈ events st → name ev = n →
           schedule ev = Some (Interval s) → 0 < s) →
  (∀ ev, ev ∈ events st → name ev = n → is_cron ev = cron) →
  ∃ new, reports (_tick w now st out) = out ++ new
         ∧ (length (List.filter (fun r => String.eqb r.1 n) new) ≤ 1)%nat.
Proof.
  unfold _tick. generalize (events st) as evs. intros evs. revert st out.
  induction evs as [|ev evs IH]; intros st out Hpos Hkind.
  { exists []. simpl. rewrite app_nil_r. split; [done | lia]. }
  assert (∀ st1 mid,
            List.filter (fun r => String.eqb r.1 n) mid = [] →
            ∃ new, reports (_tick_events w now evs st1 (out ++ mid)) = out ++ new
                   ∧ (length (List.filter (fun r => String.eqb r.1 n) new) ≤ 1)%nat)
    as Hrest.
  { intros st1 mid Hmid.
    destruct (IH st1 (out ++ mid)) as (new & E & Hnew).
    - intros ev0 s ?. apply Hpos. by right.
    - intros ev0 ?. apply Hkind. by right.
    - exists (mid ++ new). rewrite E, app_assoc. split; [done|].
      by rewrite List.filter_app, Hmid. }
  assert (∀ st1,
            ∃ new, reports (_tick_events w now evs st1 out) = out ++ new
                   ∧ (length (List.filter (fun r => String.eqb r.1 n) new) ≤ 1)%nat)
    as Hskip.
  { intros st1. destruct (Hrest st1 [] eq_refl) as (new & E0 & Hnew).
    rewrite app_nil_r in E0. by exists new. }
  cbn [_tick_events].
  destruct (Yaml.truthy (active ev)).
  2:{ by apply Hskip. }
  destruct (_is_due st ev now) as [[b st']|e] eqn:E.
  2:{ exists []. simpl. rewrite app_nil_r. split; [done | lia]. }
  destruct b.
  2:{ by apply Hskip. }
  destruct (_dispatch w ev) as [rs|e] eqn:Ed.
  2:{ exists []. simpl. rewrite app_nil_r. split; [done | lia]. }
  destruct (dispatch_one_report _ _ _ Ed) as [r ->].
  change ((fun r0 => (name ev, r0)) <$> [r]) with [(name ev, r)].
  destruct (decide (name ev = n)) as [Hn|Hn].
  - (* the first of the name to fire: the others stay quiet *)
    destruct (fired_name_is_quiet w now n cron evs (record_firing ev now st')
                (out ++ [(name ev, r)])) as (new & Enew & Hnew).
    + intros ev0 s ?. apply Hpos. by right.
    + intros ev0 ?. apply Hkind. by right.
    + unfold record_firing. simpl. by rewrite Hn, lookup_insert_eq.
    + intros Hc. unfold record_firing, marked. simpl.
      apply is_due_effect in E as [[_ Hno]|(_ & _ & _ & ->)].
      * rewrite (Hkind ev) in Hno; [|by left|done]. by specialize (Hno Hc).
      * simpl. unfold cache_key. by rewrite Hn, lookup_insert_eq.
    + exists ((name ev, r) :: new). split.
      * rewrite Enew, <- app_assoc. done.
      * cbn [List.filter fst]. destruct (String.eqb (name ev) n); simpl;
          rewrite Hnew; simpl; lia.
  - apply (Hrest _ [(name ev, r)]). cbn [List.filter fst].
    by destruct (String.eqb_spec (name ev) n).
Qed.

Lemma one_firing_per_name_and_tick_witness :
  let st := set_events [Sample.good; Sample.flaky; Sample.good]
              (new_engine ["srv"; "jobs"]) in
  ∃ new, reports (_tick Sample.world (at_ 2024 1 1 9 0 0) st []) = [] ++ new
         ∧ (length (List.filter (fun r => String.eqb r.1 "good") new) ≤ 1)%nat.
Proof.
  apply (one_firing_per_name_and_tick _ _ _ _ "good" false).
  - intros ev s Hin Hn Hs. cbn [events set_events] in Hin.
    repeat (apply elem_of_cons in Hin as [->|Hin];
            [try discriminate Hn; injection Hs as <-; lia|]).
    by apply elem_of_nil in Hin.
  - intros ev Hin Hn. cbn [events set_events] in Hin.
    repeat (apply elem_of_cons in Hin as [->|Hin];
            [try discriminate Hn; reflexivity|]).
    by apply elem_of_nil in Hin.
Defined.

(** * The synonyms [midnight] and [noon] *)

Lemma lower_letter_is_word a : Py.is_lower (Py.lower a) = true → Py.is_word a = true.
Proof. destruct a as [[] [] [] [] [] [] [] []]; done. Qed.

Lemma ci_prefix_first_ne w0 w x s :
  Py.lower x ≠ Py.lower w0 → ci_prefix (String w0 w) (String x s) = false.
Proof.
  intros Hne. unfold ci_prefix. cbn [Py.lower_str String.prefix].
  destruct (ascii_dec (Py.lower w0) (Py.lower x)); [congruence | done].
Qed.

Lemma sub_go_word_empty w0 w repl fuel p :
  Re.sub_go fuel (Re.Seq [Re.Wordb; Re.Lit (String w0 w); Re.Wordb]) repl p "" = "".
Proof.
  destruct fuel as [|fuel]; [done|]. cbn [Re.sub_go].
  by rewrite match_at_word_none.
Qed.

(** The word at the end of a text, after a character that is no word
    character and with its first letter nowhere before it, is replaced. *)
Lemma sub_go_word_last w0 w repl W : ∀ pre fuel p,
  Py.all (fun b => negb (Ascii.eqb (Py.lower b) (Py.lower w0))) pre = true →
  Py.lower_str W = Py.lower_str (String w0 w) →
  Py.all Py.is_lower (Py.lower_str (String w0 w)) = true →
  Re.at_word (Re.last_char p pre) = false →
  (String.length pre < fuel)%nat →
  Re.sub_go fuel (Re.Seq [Re.Wordb; Re.Lit (String w0 w); Re.Wordb]) repl p
    (pre +:+ W)
  = pre +:+ repl.
Proof.
  intros pre. induction pre as [|x pre IH]; intros fuel p Hpre HW Hw Hp Hfuel.
  - destruct fuel as [|fuel]; [simpl in Hfuel; lia|].
    cbn [String.append Re.sub_go].
    assert (Re.match_at (Re.Seq [Re.Wordb; Re.Lit (String w0 w); Re.Wordb]) p W
            = Some (W, Re.last_char p W, "")) as ->.
    { unfold Re.match_at. cbn [Re.Seq].
      rewrite run_Cat, run_Wordb. simpl in Hp. rewrite Hp.
      apply lower_str_cons_inv in HW as HW'.
      destruct HW' as (a & W' & -> & Ha & HW').
      assert (Py.is_word a = true) as Hwa.
      { apply lower_letter_is_word. rewrite Ha.
        cbn [Py.lower_str Py.all] in Hw. by apply andb_true_iff in Hw as [? _]. }
      cbn [Re.head Re.at_word]. rewrite Hwa. cbn [xorb].
      rewrite run_Cat, (run_Lit_all (String w0 w)) by done.
      rewrite run_Wordb. cbn [Re.head Re.at_word].
      assert (Re.at_word (Re.last_char p (String a W')) = true) as ->.
      { assert (∀ U q, Py.all Py.is_lower (Py.lower_str U) = true →
                       Re.at_word q = true → Re.at_word (Re.last_char q U) = true)
          as Hlast.
        { clear. induction U as [|b U IHU]; intros q HU Hq; [done|].
          cbn [Py.lower_str Py.all] in HU. apply andb_true_iff in HU as [Hb HU].
          simpl. apply IHU; [done|]. simpl. by apply lower_letter_is_word. }
        cbn [Re.last_char]. apply Hlast; [|done].
        rewrite HW'. cbn [Py.lower_str Py.all] in Hw.
        by apply andb_true_iff in Hw as [_ ?]. }
      cbn [xorb]. by rewrite consumed_all. }
    apply lower_str_cons_inv in HW as (a & W' & -> & _ & _).
    by rewrite sub_go_word_empty, app_empty_r.
  - simpl in Hpre. apply andb_true_iff in Hpre as [Hx Hpre].
    destruct fuel as [|fuel]; [simpl in Hfuel; lia|].
    cbn [String.append Re.sub_go].
    rewrite match_at_word_none.
    2:{ apply ci_prefix_first_ne. apply negb_true_iff in Hx.
        by apply Ascii.eqb_neq in Hx. }
    rewrite IH; [done..| |]; [done | simpl in Hfuel; lia].
Qed.

Lemma parse_of_normalised x y : normalise x = normalise y → parse x = parse y.
Proof. intros H. unfold parse. by rewrite H. Qed.

Lemma every_day_at_prefix E w1 D w2 A w3 (b : ascii) :
  b = "m"%char ∨ b = "n"%char →
  Py.lower_str E = "every" → gap w1 → Py.lower_str D = "day" → gap w2 →
  Py.lower_str A = "at" → gap w3 →
  let pre := E +:+ w1 +:+ D +:+ w2 +:+ A +:+ w3 in
  Py.all (fun x => negb (Ascii.eqb (Py.lower x) (Py.lower b))) pre = true
  ∧ (∀ p, Re.at_word (Re.last_char p pre) = false)
  ∧ stops Py.is_space pre.
Proof.
  intros Hb HE [Hw1n Hw1] HD [Hw2n Hw2] HA [Hw3n Hw3] pre. subst pre.
  assert (∀ g, Py.all Py.is_space g = true →
               Py.all (fun x => negb (Ascii.eqb (Py.lower x) (Py.lower b))) g = true)
    as Hgap.
  { intros g Hg. eapply all_impl; [|exact Hg]. intros a Ha.
    apply space_not_letter; [|done]. by destruct Hb as [-> | ->]. }
  assert (∀ U lit, Py.lower_str U = lit →
               Py.all (fun x => negb (Ascii.eqb x (Py.lower b))) lit = true →
               Py.all (fun x => negb (Ascii.eqb (Py.lower x) (Py.lower b))) U = true)
    as Hword.
  { clear. intros U lit <-. induction U as [|a U IH]; [done|]. simpl.
    intros [Ha HU]%andb_true_iff. by rewrite Ha, IH. }
  split; [|split].
  - rewrite !all_app, (Hgap w1 Hw1), (Hgap w2 Hw2), (Hgap w3 Hw3).
    rewrite (Hword E "every"), (Hword D "day"), (Hword A "at"); try done;
      by destruct Hb as [-> | ->].
  - intros p. rewrite !last_char_app.
    destruct w3 as [|a w3]; [done|].
    assert (∀ g q, Py.all Py.is_space g = true → Re.at_word q = false →
                   Re.at_word (Re.last_char q g) = false) as Hlast.
    { clear. induction g as [|a g IH]; intros q Hg Hq; [done|].
      simpl in Hg. apply andb_true_iff in Hg as [Ha Hg]. simpl.
      apply IH; [done|]. simpl. revert Ha. clear.
      destruct a as [[] [] [] [] [] [] [] []]; done. }
    simpl in Hw3. apply andb_true_iff in Hw3 as [Ha Hw3].
    cbn [Re.last_char]. apply Hlast; [done|]. simpl. revert Ha. clear.
    destruct a as [[] [] [] [] [] [] [] []]; done.
  - by eapply stops_word.
Qed.

(** X24. The synonyms of the compiler. [every day at midnight] compiles
    to the rule of [every day at 12 AM], which is [0 0 * * *], and
    [every day at noon] to the rule of [every day at 12 PM], which is
    [0 12 * * *] - in any letter case and with any whitespace between the
    words and around the text; the rules match a valid timestamp exactly
    in minute 0 of hour 0, and of hour 12. *)
Theorem compile_midnight_and_noon l E w1 D w2 A w3 W tr :
  Py.all Py.is_space l = true → Py.all Py.is_space tr = true →
  Py.lower_str E = "every" → gap w1 →
  Py.lower_str D = "day" → gap w2 →
  Py.lower_str A = "at" → gap w3 →
  Py.lower_str W = "midnight" ∨ Py.lower_str W = "noon" →
  let h := if String.eqb (Py.lower_str W) "noon" then 12 else 0 in
  parse (l +:+ (E +:+ w1 +:+ D +:+ w2 +:+ A +:+ w3 +:+ W) +:+ tr)
  = Ok (Cron (cron_text 0 h "*" "*"))
  ∧ parse (l +:+ (E +:+ w1 +:+ D +:+ w2 +:+ A +:+ w3 +:+ W) +:+ tr)
    = parse (E +:+ w1 +:+ D +:+ w2 +:+ A +:+ w3
             +:+ (if String.eqb (Py.lower_str W) "noon" then "12 PM" else "12 AM"))
  ∧ ∀ dt, valid dt = true →
          _cron_matches (cron_text 0 h "*" "*") dt
          = Ok (bool_decide (minute dt = 0) && bool_decide (hour dt = h)).
Proof.
  intros Hl Htr HE Hg1 HD Hg2 HA Hg3 HW h.
  set (pre := E +:+ w1 +:+ D +:+ w2 +:+ A +:+ w3).
  set (t := {| hour_digits := "12"; minute_digits := None;
               am_pm := Some (" ", if String.eqb (Py.lower_str W) "noon"
                                   then "PM" else "AM") |}).
  assert (time_words_ok t) as Ht.
  { split; [done|]. split; [by right|]. split; [done|].
    intros gap a [= <- <-]. split; [done|].
    destruct (String.eqb _ _); [by right | by left]. }
  assert (time_text t
          = if String.eqb (Py.lower_str W) "noon" then "12 PM" else "12 AM") as Htt.
  { unfold time_text, t. cbn [hour_digits minute_digits am_pm].
    by destruct (String.eqb _ _). }
  assert ((E +:+ w1 +:+ D +:+ w2 +:+ A +:+ w3 +:+ W) = pre +:+ W) as Hcore.
  { unfold pre. by rewrite !app_assoc_s. }
  assert (normalise (l +:+ (pre +:+ W) +:+ tr)
          = E +:+ w1 +:+ D +:+ w2 +:+ A +:+ w3 +:+ time_text t) as Hnorm.
  { assert (pre +:+ time_text t
            = E +:+ w1 +:+ D +:+ w2 +:+ A +:+ w3 +:+ time_text t) as <-.
    { unfold pre. by rewrite !app_assoc_s. }
    unfold normalise.
    destruct (every_day_at_prefix E w1 D w2 A w3 "m") as (Hm & Hlast & Hstop);
      [by left | done..|].
    destruct (every_day_at_prefix E w1 D w2 A w3 "n") as (Hn & _ & _);
      [by right | done..|].
    fold pre in Hm, Hn, Hlast, Hstop.
    assert (W ≠ "") as HWn by (destruct HW as [H|H]; by destruct W).
    rewrite strip_core; [|done|done| |].
    2:{ destruct pre; [|done]. destruct W as [|a W']; [done|]. simpl.
        destruct HW as [H|H];
          apply lower_str_cons_inv in H as (? & ? & [= <- <-] & Ha & _);
          by eapply letter_not_space. }
    2:{ apply ends_solid_app; [done|].
        assert (∃ U z, W = U +:+ String z "" ∧ Py.is_lower (Py.lower z) = true)
          as (U & z & -> & Hz).
        { destruct HW as [H|H].
          - apply lower_str_app_inv with (w1 := "midnigh") (w2 := "t") in H
              as (U & V & -> & _ & H).
            apply lower_str_cons_inv in H as (z & V' & -> & Hz & HV).
            destruct V'; [|done]. exists U, z. by rewrite Hz.
          - apply lower_str_app_inv with (w1 := "noo") (w2 := "n") in H
              as (U & V & -> & _ & H).
            apply lower_str_cons_inv in H as (z & V' & -> & Hz & HV).
            destruct V'; [|done]. exists U, z. by rewrite Hz. }
        exists z. rewrite last_char_app. split; [done|].
        by eapply letter_not_space. }
    unfold re_midnight, re_noon, Re.sub.
    destruct HW as [HWm|HWn'].
    - rewrite (sub_go_word_last "m" "idnight" "12 AM" W pre); try done.
      2:{ rewrite length_app_s. lia. }
      rewrite Htt, HWm. cbn [String.eqb].
      apply sub_go_word_id.
      rewrite nowhere_skip by done. reflexivity.
    - rewrite (sub_go_word_id "midnight").
      2:{ rewrite nowhere_skip by done. rewrite <- nowhere_lower, HWn'. reflexivity. }
      rewrite (sub_go_word_last "n" "oon" "12 PM" W pre); try done.
      2:{ rewrite length_app_s. lia. }
      by rewrite Htt, HWn'. }
  assert (parse (l +:+ (pre +:+ W) +:+ tr)
          = parse ("" +:+ (E +:+ w1 +:+ D +:+ w2 +:+ A +:+ w3 +:+ time_text t)
                   +:+ "")) as Hsame.
  { apply parse_of_normalised. rewrite Hnorm. symmetry.
    apply normalise_every_day; try done;
      by (apply Hg1 || apply Hg2 || apply Hg3). }
  assert (time_value t = (h, 0)) as Hval.
  { unfold time_value, t, h. cbn [hour_digits minute_digits am_pm].
    by destruct (String.eqb _ _). }
  rewrite Hcore. split; [|split].
  - rewrite Hsame.
    rewrite (parse_every_day_at "" E w1 D w2 A w3 t "");
      try done; try (by (apply Hg1 || apply Hg2 || apply Hg3)).
    by rewrite Hval.
  - rewrite Hsame, <- Htt. by rewrite app_empty_r.
  - intros dt Hv. apply daily_rule_matches; [|done|done].
    unfold h. by destruct (String.eqb _ _).
Qed.

Lemma compile_midnight_and_noon_witness :
  parse (" " +:+ ("Every" +:+ " " +:+ "day" +:+ "  " +:+ "at" +:+ " " +:+ "Midnight")
         +:+ " ")
  = Ok (Cron "0 0 * * *")
  ∧ parse ("" +:+ ("every" +:+ " " +:+ "day" +:+ " " +:+ "at" +:+ " " +:+ "NOON")
           +:+ "")
    = Ok (Cron "0 12 * * *").
Proof.
  split.
  - apply (compile_midnight_and_noon " " "Every" " " "day" "  " "at" " "
             "Midnight" " "); try done. by left.
  - apply (compile_midnight_and_noon "" "every" " " "day" " " "at" " "
             "NOON" ""); try done. by right.
Defined.
